(* ===== verification/_CoqProject ===== *)
-Q . S2P
Prelude.v
GoUnicode.v
GoStrings.v
GoError.v
Resources.v
GoNet.v
Policy.v
GoPath.v
TapNames.v
Tap.v
RateLimit.v
Validate.v
GoCrypto.v
GoTime.v
GoBase64.v
Jwt.v
Auth.v
Tls.v
Runtime.v
Gate.v
GateRuntime.v
Lift.v
AuditTrail.v
Server.v
ServerSpec.v
Lifecycle.v
GoFS.v
Snapshot.v
GuestAgent.v
GuestServe.v
Cgroup.v
Sparse.v
FcConfig.v
Jailer.v
FcApi.v
FcVsock.v
Pool.v
PoolRuntime.v
Firecracker.v
FirecrackerSpec.v
Reaper.v
FirecrackerNet.v
FirecrackerSession.v
Session.v
Wire.v
System.v
Main.v
MainSpec.v
