(* ===== verification/Prelude.v ===== *)
(** * Warden (repository sandkeep): a verification library for its control plane

    Warden is a service that runs untrusted code: POST /execute validates a
    request, boots a microVM for it, has an agent in the VM run the code, and
    destroys the VM.  This library models the whole of its Go code, from the
    start of the process to the agent inside the machine, and proves what makes
    it safe to expose: only validated and authorized work reaches a machine, a
    machine and what belongs to it never outlives its request, what a job may
    use and reach is what was configured, and sessions do not mix.

    ** How the program is put together

    [cmd/warden] reads the settings and starts the HTTP server ([internal/api]).
    A request passes the middleware (authentication, rate limit, panics), then
    the handler, which validates it and asks the runtime interface
    ([internal/runtime]) for an instance: the gate bounds how many there are, the
    Firecracker backend behind it makes a work directory or a jail, a root disk
    (from a pool or a session's snapshot), a network ([internal/network]), the
    VMM process, its cgroup ([internal/resources]), and waits for the agent
    ([cmd/guest-agent]) behind the vsock.  The job and its result cross the vsock
    as one JSON value each way ([internal/guestproto]).  After a job of a session
    the machine is saved to the store ([internal/snapshot]).  Every request that
    was attempted leaves an event in the sinks of [internal/audit].

    ** Files, in the order in which they are compiled

    The ground: [Prelude] (notation, hint databases, tactics, the monad of
    actions, schedules of atomic steps, machine integers); Go's standard library as far as the sources use
    it: [GoUnicode], [GoStrings] (strings, strconv, utf8), [GoError] (error
    chains), [GoNet] (addresses), [GoPath] (path/filepath), [GoCrypto] (SHA-256),
    [GoTime] (durations, contexts), [GoBase64], [GoFS] (files and their
    failures).

    The parts, each the data, the operations and the lemmas of its sources:
    - [Resources] (profile.go, apply.go), [Policy] (policy.go), [Cgroup]
      (cgroup.go): what a machine may use and reach;
    - [TapNames], [Tap] (tap.go, netns.go, nft.go): the network of a machine;
    - [RateLimit], [Validate], [Jwt], [Auth], [Tls] (ratelimit.go, validate.go,
      jwt.go, auth.go, tls.go): who may ask for what;
    - [Runtime] (runtime.go, stub.go): the interface of a backend and, as the
      type class [VMs], what a client may rely on; [Gate] (gate.go, its
      concurrency) and [GateRuntime] (the gate as a backend around a backend);
      [Lift]: a backend as a part of a larger state keeps its promise;
    - [AuditTrail] (internal/audit): events, sinks, fan-out;
    - [Server] (server.go, execute.go, health.go, types.go, id.go), with its
      theorems in [ServerSpec]; [Lifecycle]: serving and the shutdown;
    - [Snapshot] (store.go) on the file system of [GoFS];
    - [GuestAgent], [GuestServe] (guest-agent/main.go, proto.go): jobs, and how
      the agent listens and takes connections;
    - [Sparse], [FcConfig], [Jailer], [FcApi], [FcVsock], [Pool] with
      [PoolRuntime] (sparse.go, config.go, jailer.go and clone.go, fcapi.go,
      fcvsock.go, pool.go: its goroutines, and [Acquire] as a boot sees it) and
      [Firecracker] (firecracker.go, fcsnap.go): the backend; its theorems in
      [FirecrackerSpec] (processes), [FirecrackerNet] (networks) and
      [FirecrackerSession] (identities, results, sessions); [Reaper]: the
      goroutines around a VMM process;
    - [Session]: backend and store put together; [Wire]: backend and agent over
      the vsock; [System]: the server on the Firecracker backend; [Main]
      (cmd/warden/main.go, pg.go) and [MainSpec]: the whole process.

    ** How code becomes definitions

    A definition has the name of what it models.  Code that only computes is a
    function; a Go [(T, error)] is a [result].  Code with effects is an action of
    the monad [M W]: it takes the world and gives a value or a panic, and the
    world after it; [defer] and [recovering] are Go's [defer] and [recover].  A
    handler is the whole handler, composed of the definitions of what it calls.
    The world of a part is a record; what lies outside the process (kernel, VMM,
    HTTP peers, databases, encoding/json, RSA) is an argument, as a record of
    actions or functions whose behaviour no definition fixes; what a theorem
    needs of it is a named hypothesis or the law of a class ([VMs], [dependable],
    [Codec]), and the witness of the theorem gives an instance.  Where goroutines
    share state (the gate's semaphore, the pool of disks, the reaping of a
    process, the shutdown) the model is a step function on a state with all of
    them in it, a schedule is a list of steps, and the theorems hold for every
    schedule.  Integers are [Z] with the wrap-around of their Go type written out
    where they can leave it ([u32], [u64], [i64]).

    ** What is proved

    - Requests: validation accepts exactly the well-formed requests and hands on
      their normal form; authorization is exactly the configured policy; the
      server boots nothing but validated work, touches nothing for a request
      that is not authorized, and leaves one event for every attempt that is
      answered; the limiter refines independent windows per identity; a token is
      accepted only under a published key, for this service, while it lives, and
      every token made so is accepted.
    - Machines: the interface [VMs] is stated once, the server is proved against
      it, and the stub, the Firecracker backend, the gate and lifted backends are
      its instances; so a process as start-up puts it together ends every request
      with the machines, VMM processes and slots of before, after any failure or
      panic.  At most [Max] machines exist under any schedule; a returned
      [Destroy] leaves no process; links do not outlive machines; an allowlist
      means the link's namespace and none means no network code at all.
    - Files and sessions: the paths of a session and of a jail stay inside their
      directory; what is committed is restored as it was, and the next boot of
      a session launches from what its last machine saved; a diff overlays exactly
      its data; a snapshot is committed last; a disk from the pool is the golden
      image and nobody else's.
    - The guest: a job starts as the interpreter on exactly the code of the
      request, with exactly its timeout and the profile's limits, or is killed;
      output is capped however it was cut; the agent serves every connection.
    - The process: a public address without a credential is refused at start-up,
      with one every request without it is answered 401; settings are validated
      before anything is served; an exit with 0 leaves nothing behind.

    ** Bounds and fuel

    Loops over lists are structural.  Loops without such a bound take fuel: the
    search for descendants ([Cgroup]) as many passes as there are processes, the
    rebase ([Sparse]) the size of the file, the accept loop one call more than
    there are arrivals; each has a theorem or lemma that this is enough.  Waits
    that a ticker ends ([waitForSocket], [waitForGuestAgent]) take the number of
    ticks that the host grants before it ends the context, and are shown to end
    within their budget of time.  Schedules of concurrent parts have any length;
    [Pool] alone asks for fewer than 2^64 steps, the range of its counter.

    ** Not modelled

    Logging (slog) and the line printed at start; the descriptor of fc.stderr;
    net/http's parsing of requests and its connection handling below the handler
    (an argument, or in [Lifecycle] what the documentation of [Shutdown] says);
    encoding/json, crypto/tls and crypto/rsa (arguments); what Firecracker, the
    jailer, ip and nft do when they are asked (only that they are asked, and in
    what order); guests beyond the agent.  Inside one boot the sequential model
    runs the function that [whileAlive] guards to its end also when the select
    takes another answer; boots of different requests meet only in [Gate], [Pool]
    and [RateLimit]; that two machines of one session are not kept apart is the
    last theorem of [Session]. *)
From stdpp Require Export base list strings gmap pretty.
From Stdlib Require Export ZArith Lia.
From Stdlib Require Export Ascii.
#[global] Open Scope Z_scope.

Declare Scope go_scope.
Delimit Scope go_scope with go.
#[global] Open Scope go_scope.

(** ** Hint databases

    [go] collects the lemmas that close the routine side conditions of the
    components (lengths, character classes, monad laws); [go_rw] the equations
    that normalise a goal about strings and runs of handlers. *)
Create HintDb go.
Create Rewrite HintDb go_rw.

(** ** Tactics *)

(** Turns the boolean tests of the code into the propositions they decide. *)
Ltac bool_prop :=
  repeat match goal with
  | H : _ && _ = true |- _ => apply andb_true_iff in H; destruct H
  | H : _ || _ = false |- _ => apply orb_false_iff in H; destruct H
  | H : negb _ = true |- _ => apply negb_true_iff in H
  | H : negb _ = false |- _ => apply negb_false_iff in H
  | H : (_ <? _)%Z = true |- _ => apply Z.ltb_lt in H
  | H : (_ <? _)%Z = false |- _ => apply Z.ltb_ge in H
  | H : (_ <=? _)%Z = true |- _ => apply Z.leb_le in H
  | H : (_ <=? _)%Z = false |- _ => apply Z.leb_gt in H
  | H : (_ =? _)%Z = true |- _ => apply Z.eqb_eq in H
  | H : (_ =? _)%Z = false |- _ => apply Z.eqb_neq in H
  | H : String.eqb _ _ = true |- _ => apply String.eqb_eq in H
  | H : String.eqb _ _ = false |- _ => apply String.eqb_neq in H
  | H : bool_decide _ = true |- _ => apply bool_decide_eq_true in H
  | H : bool_decide _ = false |- _ => apply bool_decide_eq_false in H
  end.

(** Case analysis on the first test, match or decision of the goal. *)
Ltac split_case :=
  match goal with
  | |- context [match ?x with _ => _ end] =>
      lazymatch x with
      | context [match _ with _ => _ end] => fail
      | _ => destruct x eqn:?
      end
  end.
Ltac split_case_in H :=
  match type of H with
  | context [match ?x with _ => _ end] =>
      lazymatch x with
      | context [match _ with _ => _ end] => fail
      | _ => destruct x eqn:?
      end
  end.
Ltac go_cases := repeat (split_case; simplify_eq/=); bool_prop.
Ltac go_cases_in H := repeat (split_case_in H; simplify_eq/=); bool_prop.

(** ** Outcomes and the effect monad

    A Go call returns, panics, or waits for ever: for a channel that nobody
    writes, a process that does not end.  [M W A] is a call that reads and changes
    a world [W]: it always leaves a world behind, also when it panics, because
    the deferred calls of the frames above it still run, and when it waits for
    ever, because the rest of the program goes on in it. *)
Inductive outcome (A : Type) : Type :=
| Ret (a : A)
| Panic (v : string)
| Blocked.
Arguments Ret {A} a.
Arguments Panic {A} v.
Arguments Blocked {A}.

Definition M (W A : Type) : Type := W → outcome A * W.

Definition ret {W A} (a : A) : M W A := λ w, (Ret a, w).
Definition panic {W A} (v : string) : M W A := λ w, (Panic v, w).
Definition block {W A} : M W A := λ w, (Blocked, w).
Definition bind {W A B} (m : M W A) (k : A → M W B) : M W B := λ w,
  match m w with
  | (Ret a, w') => k a w'
  | (Panic v, w') => (Panic v, w')
  | (Blocked, w') => (Blocked, w')
  end.
(** [defer d body]: [d] runs once [body] has returned or panicked, and not while
    it waits; a panic of [d] itself replaces the outcome, as in Go. *)
Definition defer {W A} (d : M W unit) (body : M W A) : M W A := λ w,
  match body w with
  | (Blocked, w1) => (Blocked, w1)
  | (o, w1) =>
    match d w1 with
    | (Ret _, w2) => (o, w2)
    | (Panic v, w2) => (Panic v, w2)
    | (Blocked, w2) => (Blocked, w2)
    end
  end.
(** [recovering h body]: a deferred [recover()] whose handler is [h]. *)
Definition recovering {W A} (h : string → M W A) (body : M W A) : M W A := λ w,
  match body w with
  | (Ret a, w') => (Ret a, w')
  | (Panic v, w') => h v w'
  | (Blocked, w') => (Blocked, w')
  end.
Definition gets {W A} (f : W → A) : M W A := λ w, (Ret (f w), w).
Definition modify {W} (f : W → W) : M W unit := λ w, (Ret tt, f w).

Notation "'let!' x ':=' m 'in' k" := (bind m (λ x, k))
  (at level 10, x pattern, m at level 100, k at level 200) : go_scope.
Notation "m1 ;;; m2" := (bind m1 (λ _, m2))
  (at level 110, m2 at level 200, right associativity) : go_scope.

Section MonadLaws.
Context {W A B C : Type}.

Lemma bind_ret (a : A) (k : A → M W B) w : bind (ret a) k w = k a w.
Proof. done. Qed.
Lemma bind_Ret (m : M W A) (k : A → M W B) w a w' :
  m w = (Ret a, w') → bind m k w = k a w'.
Proof. unfold bind. by intros ->. Qed.
Lemma bind_Panic (m : M W A) (k : A → M W B) w v w' :
  m w = (Panic v, w') → bind m k w = (Panic v, w').
Proof. unfold bind. by intros ->. Qed.
Lemma bind_assoc (m : M W A) (k : A → M W B) (h : B → M W C) w :
  bind (bind m k) h w = bind m (λ a, bind (k a) h) w.
Proof. unfold bind. destruct (m w) as [[a|v|] w']; done. Qed.
(** The deferred call has run in the final world, unless the body waits for ever. *)
Lemma defer_world (d : M W unit) (body : M W A) w :
  (body w).1 ≠ Blocked → (defer d body w).2 = (d (body w).2).2.
Proof. unfold defer. destruct (body w) as [[a|v|] w1]; simpl; [by destruct (d w1) as [[]?]..|done]. Qed.
(** A deferred call changes no result: what returns is what the body returned. *)
Lemma defer_inv_Ret (d : M W unit) (body : M W A) w a w' :
  defer d body w = (Ret a, w') → ∃ w1, body w = (Ret a, w1) ∧ d w1 = (Ret tt, w').
Proof.
  unfold defer. destruct (body w) as [[b|v|] w1]; [| |done]; destruct (d w1) as [[[]|u|] w2] eqn:E; try done.
  intros [= -> <-]. by exists w1.
Qed.
Lemma defer_Blocked (d : M W unit) (body : M W A) w :
  (body w).1 = Blocked → defer d body w = body w.
Proof. unfold defer. destruct (body w) as [[]?]; by cbn. Qed.
End MonadLaws.
Lemma bind_inv_Ret {W A B} (m : M W A) (k : A → M W B) w b w' :
  bind m k w = (Ret b, w') ↔ ∃ a w1, m w = (Ret a, w1) ∧ k a w1 = (Ret b, w').
Proof.
  unfold bind. destruct (m w) as [[a|v|] w1]; split; [eauto|by intros (?&?&[= -> ->]&?)|done| |done|];
    by intros (?&?&?&?).
Qed.

Lemma bind_cong {W A B} (m m' : M W A) (k k' : A → M W B) w :
  m w = m' w → (∀ a w', k a w' = k' a w') → bind m k w = bind m' k' w.
Proof. unfold bind. intros -> Hk. by destruct (m' w) as [[a|v|] w']. Qed.

(** The rest of a sequence matters only where its head leads. *)
Lemma bind_cong_run {W A B} (m : M W A) (k k' : A → M W B) w :
  (∀ a w', m w = (Ret a, w') → k a w' = k' a w') → bind m k w = bind m k' w.
Proof. unfold bind. intros Hk. destruct (m w) as [[a|v|] w']; [by apply Hk|done..]. Qed.

(** [respects R m]: every run of [m] leaves a world that is [R]-related to the one
    it began in, whether it returns or panics; [keeps f m]: it does not change
    what [f] sees of the world. *)
Definition respects {W A} (R : W → W → Prop) (m : M W A) : Prop := ∀ w, R w (m w).2.
Definition same {W B} (f : W → B) (w w' : W) : Prop := f w' = f w.
#[export] Instance outcome_blocked_dec {A} (o : outcome A) : Decision (o = Blocked).
Proof. destruct o; [right|right|left]; done. Defined.
Abbreviation keeps f := (respects (same f)).
#[export] Instance same_preorder {W B} (f : W → B) : PreOrder (same f).
Proof. unfold same. split; [done|]. intros x y z H1 H2. by rewrite H2. Qed.

Section Respects.
Context {W : Type} (R : W → W → Prop) `{HR : !PreOrder R}.

Lemma respects_ret {A} (a : A) : respects R (ret a).
Proof. intros w. by cbn. Qed.
Lemma respects_panic {A} v : respects R (@panic W A v).
Proof. intros w. by cbn. Qed.
Lemma respects_block {A} : respects R (@block W A).
Proof. intros w. by cbn. Qed.
Lemma respects_gets {A} (f : W → A) : respects R (gets f).
Proof. intros w. by cbn. Qed.
Lemma respects_bind {A C} (m : M W A) (k : A → M W C) :
  respects R m → (∀ a, respects R (k a)) → respects R (bind m k).
Proof.
  intros Hm Hk w. specialize (Hm w). unfold bind. destruct (m w) as [[a|v|] w1]; [|done..].
  etrans; [exact Hm|apply (Hk a w1)].
Qed.
Lemma respects_defer {A} (d : M W unit) (m : M W A) :
  respects R d → respects R m → respects R (defer d m).
Proof.
  intros Hd Hm w. specialize (Hm w). destruct (decide ((m w).1 = Blocked)) as [E|E].
  - by rewrite (defer_Blocked _ _ _ E).
  - rewrite (defer_world _ _ _ E). etrans; [apply Hm|apply Hd].
Qed.
Lemma respects_recovering {A} (h : string → M W A) (m : M W A) :
  (∀ v, respects R (h v)) → respects R m → respects R (recovering h m).
Proof.
  intros Hh Hm w. specialize (Hm w). unfold recovering. destruct (m w) as [[a|v|] w1]; [done| |done].
  etrans; [exact Hm|apply (Hh v w1)].
Qed.
Lemma respects_modify (g : W → W) : (∀ w, R w (g w)) → respects R (modify g).
Proof. intros Hg w. apply Hg. Qed.
End Respects.
Ltac by_order := solve [apply _].
#[export] Hint Extern 1 (PreOrder _) => by_order : go.
(** [m] is a sequence: first its head, then the rest for every value. *)
Ltac resp_bind := apply respects_bind; [by_order|..].
#[export] Hint Resolve respects_ret respects_panic respects_block respects_gets respects_bind respects_defer respects_recovering : go.

#[export] Hint Rewrite @bind_ret @bind_assoc : go_rw.

(** [returns m]: [m] neither panics nor waits for ever. *)
Definition returns {W A} (m : M W A) : Prop := ∀ w, ∃ a w', m w = (Ret a, w').
Lemma returns_ret {W A} (a : A) : returns (W:=W) (ret a).
Proof. intros w. by eexists _, _. Qed.
Lemma returns_modify {W} (f : W → W) : returns (modify f).
Proof. intros w. by eexists _, _. Qed.
Lemma returns_gets {W A} (f : W → A) : returns (gets f).
Proof. intros w. by eexists _, _. Qed.
Lemma returns_bind {W A B} (m : M W A) (k : A → M W B) :
  returns m → (∀ a, returns (k a)) → returns (bind m k).
Proof. intros Hm Hk w. destruct (Hm w) as (a & w' & E). rewrite (bind_Ret _ _ _ _ _ E). apply Hk. Qed.
#[export] Hint Resolve returns_ret returns_modify returns_gets returns_bind : go.

(** [ends m]: [m] does not wait for ever. *)
Definition ends {W A} (m : M W A) : Prop := ∀ w, (m w).1 ≠ Blocked.
Section Ends.
Context {W : Type}.
Lemma ends_returns {A} (m : M W A) : returns m → ends m.
Proof. intros Hm w. by destruct (Hm w) as (a & w' & ->). Qed.
Lemma ends_ret {A} (a : A) : ends (W:=W) (ret a).
Proof. by intros w. Qed.
Lemma ends_panic {A} v : ends (@panic W A v).
Proof. by intros w. Qed.
Lemma ends_gets {A} (f : W → A) : ends (gets f).
Proof. by intros w. Qed.
Lemma ends_modify (f : W → W) : ends (modify f).
Proof. by intros w. Qed.
Lemma ends_bind {A B} (m : M W A) (k : A → M W B) : ends m → (∀ a, ends (k a)) → ends (bind m k).
Proof. intros Hm Hk w. specialize (Hm w). unfold bind. destruct (m w) as [[a|v|] w1]; [apply Hk|done..]. Qed.
Lemma ends_defer {A} (d : M W unit) (m : M W A) : ends d → ends m → ends (defer d m).
Proof.
  intros Hd Hm w. specialize (Hm w). unfold defer. destruct (m w) as [[a|v|] w1]; [| |done];
    specialize (Hd w1); by destruct (d w1) as [[]?].
Qed.
End Ends.
#[export] Hint Resolve ends_ret ends_panic ends_gets ends_modify ends_bind ends_defer : go.

(** ** Actions on a part of the world *)
Definition zoom {A W B} (get : W → A) (put : A → W → W) (m : M A B) : M W B := λ w,
  let '(o, a) := m (get w) in (o, put a w).
Section Zoom.
Context {A W : Type} (get : W → A) (put : A → W → W).
Hypothesis get_put : ∀ a w, get (put a w) = a.
Lemma zoom_get {B} (m : M A B) w : get (zoom get put m w).2 = (m (get w)).2.
Proof. unfold zoom. destruct (m (get w)) as [o a]. apply get_put. Qed.
Hypothesis put_put : ∀ a b w, put a (put b w) = put a w.
Lemma zoom_bind {B C} (m : M A B) (k : B → M A C) w :
  zoom get put (bind m k) w = bind (zoom get put m) (λ x, zoom get put (k x)) w.
Proof.
  unfold zoom, bind. destruct (m (get w)) as [[x|v|] a]; [|done..]. rewrite get_put.
  destruct (k x a) as [o b]. by rewrite put_put.
Qed.
End Zoom.

(** ** Schedules: concurrent goroutines as atomic steps *)
Section Schedules.
Context {A S : Type} (step : A → S → option S).
(** What a schedule, the order of the steps, does; [None] when a step is not enabled. *)
Fixpoint steps (tr : list A) (s : S) : option S :=
  match tr with [] => Some s | a :: tr => s' ← step a s; steps tr s' end.
Inductive reached (from : S → Prop) : S → Prop :=
| reached_start s : from s → reached from s
| reached_step a s s' : reached from s → step a s = Some s' → reached from s'.
Definition preserved (I : S → Prop) : Prop := ∀ a s s', I s → step a s = Some s' → I s'.

Lemma steps_app tr tr' s s1 s2 :
  steps tr s = Some s1 → steps tr' s1 = Some s2 → steps (tr ++ tr') s = Some s2.
Proof.
  revert s. induction tr as [|a tr IH]; intros s; cbn; [by intros [= ->]|].
  destruct (step a s); [|done]. apply IH.
Qed.
Lemma steps_preserved I tr s s' : preserved I → I s → steps tr s = Some s' → I s'.
Proof.
  intros HI. revert s. induction tr as [|a tr IH]; intros s Hs; cbn; [by intros [= <-]|].
  intros (s1 & H1 & Hx)%bind_Some. eapply IH; [by eapply HI|done].
Qed.
Lemma reached_preserved (I from : S → Prop) s :
  preserved I → (∀ s, from s → I s) → reached from s → I s.
Proof. intros HI H0. induction 1; [by apply H0|by eapply HI]. Qed.
Lemma steps_reached from tr s s' : reached from s → steps tr s = Some s' → reached from s'.
Proof. apply steps_preserved. intros a s1 s2. apply reached_step. Qed.
End Schedules.

(** ** Results: a Go [(T, error)] whose value is only read when the error is nil *)
Inductive res (E A : Type) : Type :=
| Ok (a : A)
| Err (e : E).
Arguments Ok {E A} a.
Arguments Err {E A} e.

Definition is_ok {E A} (r : res E A) : bool := match r with Ok _ => true | Err _ => false end.
Definition res_bind {E A B} (r : res E A) (k : A → res E B) : res E B :=
  match r with Ok a => k a | Err e => Err e end.
Notation "'let?' x ':=' r 'in' k" := (res_bind r (λ x, k))
  (at level 10, x pattern, r at level 100, k at level 200) : go_scope.

Lemma res_bind_Ok {E A B} (r : res E A) (k : A → res E B) b :
  res_bind r k = Ok b ↔ ∃ a, r = Ok a ∧ k a = Ok b.
Proof. destruct r as [a|e]; simpl; split; [eauto|by intros (?&[= ->]&?)|done|by intros (?&?&?)]. Qed.

(** ** Machine integers: the wrap-around of a w-bit type *)
Definition wrapu (w z : Z) : Z := z mod 2 ^ w.
Definition wraps (w z : Z) : Z := (z + 2 ^ (w - 1)) mod 2 ^ w - 2 ^ (w - 1).
Definition u8 := wrapu 8.
Definition u32 := wrapu 32.
Definition u64 := wrapu 64.
Definition i64 := wraps 64.

Lemma wrapu_range w z : 0 <= w → 0 <= wrapu w z < 2 ^ w.
Proof. intros. apply Z.mod_pos_bound. lia. Qed.
Lemma wrapu_small w z : 0 <= z < 2 ^ w → wrapu w z = z.
Proof. apply Z.mod_small. Qed.
Lemma wraps_small w z : 1 <= w → - 2 ^ (w - 1) <= z < 2 ^ (w - 1) → wraps w z = z.
Proof.
  intros Hw Hz. unfold wraps. rewrite Z.mod_small; [lia|].
  assert (2 ^ w = 2 * 2 ^ (w - 1)) as E; [|lia].
  rewrite <- Z.pow_succ_r by lia. f_equal. lia.
Qed.
#[export] Hint Resolve wrapu_range : go.

(** ** Strings: a Go string is a sequence of bytes, and so is Rocq's [string] *)
Definition len (s : string) : Z := Z.of_nat (String.length s).
Definition byte (a : ascii) : Z := Z.of_N (N_of_ascii a).
Definition chr (z : Z) : ascii := ascii_of_N (Z.to_N z).
Definition str1 (z : Z) : string := String (chr z) "".
(** The double quote character, byte 34. *)
Definition dquote : string := str1 34.

Fixpoint str_forallb (f : ascii → bool) (s : string) : bool :=
  match s with "" => true | String a r => f a && str_forallb f r end.
Fixpoint concat_str (l : list string) : string :=
  match l with [] => "" | s :: r => s +:+ concat_str r end.

Lemma append_nil_l (s : string) : "" +:+ s = s.
Proof. done. Qed.
Lemma append_cons x (a b : string) : String x a +:+ b = String x (a +:+ b).
Proof. done. Qed.
Lemma append_nil_r (s : string) : s +:+ "" = s.
Proof. induction s as [|a s IH]; [done|]. by rewrite append_cons, IH. Qed.
Lemma append_assoc (a b c : string) : (a +:+ b) +:+ c = a +:+ (b +:+ c).
Proof. induction a as [|x a IH]; [done|]. by rewrite !append_cons, IH. Qed.
Lemma length_append (a b : string) :
  String.length (a +:+ b) = (String.length a + String.length b)%nat.
Proof. induction a as [|x a IH]; [done|]. rewrite append_cons. cbn. by rewrite IH. Qed.
Lemma len_append a b : len (a +:+ b) = len a + len b.
Proof. unfold len. rewrite length_append. lia. Qed.
Lemma len_nonneg s : 0 <= len s.
Proof. unfold len. lia. Qed.
Lemma append_inj_l (a b c : string) : a +:+ b = a +:+ c → b = c.
Proof. induction a as [|x a IH]; [done|]. rewrite !append_cons. intros [= ?]. auto. Qed.
Lemma append_inj_len (a b c d : string) :
  String.length a = String.length c → a +:+ b = c +:+ d → a = c ∧ b = d.
Proof.
  revert c. induction a as [|x a IH]; intros [|y c]; cbn; try done.
  intros [= Hl]. rewrite !append_cons. intros [= -> H]. destruct (IH c Hl H) as [-> ->]. done.
Qed.
Lemma str_forallb_append f a b :
  str_forallb f (a +:+ b) = str_forallb f a && str_forallb f b.
Proof.
  induction a as [|x a IH]; [done|]. rewrite append_cons. cbn. rewrite IH.
  by rewrite andb_assoc.
Qed.
Lemma str_forallb_impl (f g : ascii → bool) s :
  (∀ a, f a = true → g a = true) → str_forallb f s = true → str_forallb g s = true.
Proof. intros Hfg. induction s as [|a s IH]; [done|]. cbn. intros. bool_prop.
  rewrite Hfg by done. auto. Qed.
Lemma byte_range a : 0 <= byte a < 256.
Proof. unfold byte. pose proof (N_ascii_bounded a). lia. Qed.
Lemma chr_byte a : chr (byte a) = a.
Proof. unfold chr, byte. rewrite N2Z.id. apply ascii_N_embedding. Qed.
Lemma byte_chr z : 0 <= z < 256 → byte (chr z) = z.
Proof. intros. unfold chr, byte. rewrite N_ascii_embedding; lia. Qed.
Lemma byte_inj a b : byte a = byte b → a = b.
Proof. intros H. by rewrite <- (chr_byte a), <- (chr_byte b), H. Qed.
#[export] Hint Rewrite append_nil_l append_nil_r append_assoc append_cons len_append : go_rw.
#[export] Hint Resolve len_nonneg byte_range : go.

(** The slices [s[:n]] and [s[n:]] (for [n] within the string). *)
Fixpoint take_str (n : nat) (s : string) : string :=
  match n, s with
  | S n, String a r => String a (take_str n r)
  | _, _ => ""
  end.
Fixpoint drop_str (n : nat) (s : string) : string :=
  match n, s with
  | S n, String _ r => drop_str n r
  | _, _ => s
  end.
Lemma take_drop_str n s : take_str n s +:+ drop_str n s = s.
Proof.
  revert s. induction n as [|n IH]; intros [|a s]; cbn; try done.
  by rewrite append_cons, IH.
Qed.
Lemma length_take_str n s : String.length (take_str n s) = min n (String.length s).
Proof. revert s. induction n as [|n IH]; intros [|a s]; cbn; try done. by rewrite IH. Qed.
Lemma take_str_all n s : (String.length s <= n)%nat → take_str n s = s.
Proof. revert s. induction n as [|n IH]; intros [|a s]; cbn; intros; try done; try lia.
  rewrite IH; [done|lia]. Qed.
Lemma take_str_app_lt n s t : (n <= String.length s)%nat → take_str n (s +:+ t) = take_str n s.
Proof.
  revert s. induction n as [|n IH]; intros s Hn; [by destruct s|].
  destruct s as [|a s]; cbn in *; [lia|]. f_equal. apply IH. lia.
Qed.
Lemma drop_str_app_lt n s t : (n <= String.length s)%nat → drop_str n (s +:+ t) = drop_str n s +:+ t.
Proof.
  revert s. induction n as [|n IH]; intros s Hn; [by destruct s|].
  destruct s as [|a s]; cbn in *; [lia|]. apply IH. lia.
Qed.
Lemma concat_nil : String.concat "" [] = "".
Proof. done. Qed.
Lemma concat_cons s l : String.concat "" (s :: l) = s +:+ String.concat "" l.
Proof. destruct l; cbn; [by rewrite append_nil_r|done]. Qed.
Lemma str_forallb_take f n s : str_forallb f s = true → str_forallb f (take_str n s) = true.
Proof. revert s. induction n as [|n IH]; intros [|a s]; cbn; try done. intros. bool_prop.
  apply andb_true_iff. auto. Qed.
#[export] Hint Resolve str_forallb_take : go.

(** ** Lists *)
Lemma existsb_elem {A} (f : A → bool) l : existsb f l = true ↔ ∃ x, x ∈ l ∧ f x = true.
Proof.
  rewrite existsb_exists. setoid_rewrite list_elem_of_In. done.
Qed.
Lemma forallb_elem {A} (f : A → bool) l : forallb f l = true ↔ ∀ x, x ∈ l → f x = true.
Proof. rewrite forallb_forall. setoid_rewrite list_elem_of_In. done. Qed.
Lemma existsb_false {A} (f : A → bool) l : existsb f l = false ↔ ∀ x, x ∈ l → f x = false.
Proof.
  rewrite <- not_true_iff_false, existsb_elem. setoid_rewrite <- not_true_iff_false.
  split; [intros Hn x Hx Hf; apply Hn; by exists x|intros Hn (x & Hx & Hf); by apply (Hn x)].
Qed.
