(* ===== verification/GoStrings.v ===== *)
(** * The pieces of Go's standard library that work on strings

    UTF-8 decoding as [for range] does it (package unicode/utf8), and the
    functions of packages strings and strconv that the sources call.  A string
    is its bytes; an invalid byte decodes to U+FFFD with width 1. *)
From S2P Require Import Prelude GoUnicode.

Definition RuneError : Z := 65533.

(** ** UTF-8 *)

(** The range the second byte must lie in, by the first byte. *)
Definition accept_range (b0 : Z) : Z * Z :=
  if b0 =? 224 then (160, 191)
  else if b0 =? 237 then (128, 159)
  else if b0 =? 240 then (144, 191)
  else if b0 =? 244 then (128, 143)
  else (128, 191).
Definition cont_byte (b : Z) : bool := (128 <=? b) && (b <=? 191).

(** [utf8.DecodeRuneInString] on a non-empty string: the rune and its width. *)
Definition DecodeRune (s : string) : Z * nat :=
  let bad := (RuneError, 1%nat) in
  match s with
  | "" => (RuneError, 0%nat)
  | String a0 s1 =>
    let b0 := byte a0 in
    if b0 <? 128 then (b0, 1%nat)
    else if (b0 <? 194) || (244 <? b0) then bad
    else match s1 with
    | "" => bad
    | String a1 s2 =>
      let b1 := byte a1 in
      let '(lo, hi) := accept_range b0 in
      if (b1 <? lo) || (hi <? b1) then bad
      else if b0 <? 224 then (Z.lor (Z.shiftl (Z.land b0 31) 6) (Z.land b1 63), 2%nat)
      else match s2 with
      | "" => bad
      | String a2 s3 =>
        let b2 := byte a2 in
        if negb (cont_byte b2) then bad
        else if b0 <? 240 then
          (Z.lor (Z.shiftl (Z.land b0 15) 12)
             (Z.lor (Z.shiftl (Z.land b1 63) 6) (Z.land b2 63)), 3%nat)
        else match s3 with
        | "" => bad
        | String a3 _ =>
          let b3 := byte a3 in
          if negb (cont_byte b3) then bad
          else (Z.lor (Z.shiftl (Z.land b0 7) 18)
                  (Z.lor (Z.shiftl (Z.land b1 63) 12)
                     (Z.lor (Z.shiftl (Z.land b2 63) 6) (Z.land b3 63))), 4%nat)
        end
      end
    end
  end.

(** [for _, r := range s]: the runes with the bytes each was decoded from. *)
Fixpoint segments (skip : nat) (s : string) : list (Z * string) :=
  match s with
  | "" => []
  | String _ r =>
    match skip with
    | S k => segments k r
    | O => let '(c, w) := DecodeRune s in (c, take_str w s) :: segments (w - 1) r
    end
  end.
Definition runes (s : string) : list Z := (segments 0 s).*1.

(** [utf8.AppendRune]: surrogates and numbers out of range give U+FFFD. *)
Definition EncodeRune (c : Z) : string :=
  let c := if (c <? 0) || (1114111 <? c) || ((55296 <=? c) && (c <=? 57343))
           then RuneError else c in
  let tail k := chr (Z.lor 128 (Z.land (Z.shiftr c k) 63)) in
  if c <? 128 then str1 c
  else if c <? 2048 then
    String (chr (Z.lor 192 (Z.shiftr c 6))) (String (tail 0) "")
  else if c <? 65536 then
    String (chr (Z.lor 224 (Z.shiftr c 12))) (String (tail 6) (String (tail 0) ""))
  else
    String (chr (Z.lor 240 (Z.shiftr c 18)))
      (String (tail 12) (String (tail 6) (String (tail 0) ""))).

Definition is_ascii (s : string) : bool := str_forallb (λ a, byte a <? 128) s.

Fixpoint str_bytes (s : string) : list Z :=
  match s with "" => [] | String a r => byte a :: str_bytes r end.
Definition bytes_str (l : list Z) : string := foldr (λ b, String (chr b)) "" l.

Lemma DecodeRune_ascii a s : byte a < 128 → DecodeRune (String a s) = (byte a, 1%nat).
Proof. intros H. unfold DecodeRune. by rewrite (proj2 (Z.ltb_lt _ _) H). Qed.
Lemma bytes_str_bytes s : bytes_str (str_bytes s) = s.
Proof. induction s as [|a s IH]; [done|]. cbn. rewrite chr_byte. by f_equal. Qed.
Lemma runes_ascii s : is_ascii s = true → runes s = str_bytes s.
Proof.
  unfold runes, is_ascii. induction s as [|a s IH]; [done|].
  cbn [str_forallb]. intros H. bool_prop. cbn [segments].
  rewrite DecodeRune_ascii by done. cbn. by rewrite IH.
Qed.
Lemma EncodeRune_ascii c : 0 <= c < 128 → EncodeRune c = str1 c.
Proof.
  intros H. unfold EncodeRune.
  destruct (Z.ltb_spec c 0); [lia|]. destruct (Z.ltb_spec 1114111 c); [lia|].
  destruct (Z.leb_spec 55296 c); [lia|]. cbn. destruct (Z.ltb_spec c 128); [done|lia].
Qed.

(** ** Package strings *)

(** [strings.Map]: a negative result drops the rune. *)
Definition Map (f : Z → Z) (s : string) : string :=
  concat_str (EncodeRune <$> List.filter (λ r, 0 <=? r) (f <$> runes s)).
Definition ToLower : string → string := Map ToLowerRune.

Fixpoint CutPrefix (p s : string) : option string :=
  match p, s with
  | "", _ => Some s
  | String a p', String b s' => if Ascii.eqb a b then CutPrefix p' s' else None
  | String _ _, "" => None
  end.
Definition CutSuffix (p s : string) : option string :=
  let n := (String.length s - String.length p)%nat in
  if String.eqb (drop_str n s) p then Some (take_str n s) else None.
Definition HasPrefix (s p : string) : bool :=
  match CutPrefix p s with Some _ => true | None => false end.
Definition TrimPrefix (s p : string) : string :=
  match CutPrefix p s with Some r => r | None => s end.

(** Trimming removes, as long as it can, one of the encodings [ps] at an end:
    the encodings of the white-space runes for [TrimSpace], the bytes of the
    cutset for [Trim] and [TrimRight] with an ASCII cutset. *)
Fixpoint first_some {A B} (f : A → option B) (l : list A) : option B :=
  match l with
  | [] => None
  | a :: r => match f a with Some b => Some b | None => first_some f r end
  end.
Fixpoint iter_strip (step : string → option string) (n : nat) (s : string) : string :=
  match n with
  | O => s
  | S n => match step s with Some r => iter_strip step n r | None => s end
  end.
Definition trim_left (ps : list string) (s : string) : string :=
  iter_strip (λ s, first_some (λ p, CutPrefix p s) ps) (String.length s) s.
Definition trim_right (ps : list string) (s : string) : string :=
  iter_strip (λ s, first_some (λ p, CutSuffix p s) ps) (String.length s) s.
Definition trim_both (ps : list string) (s : string) : string := trim_right ps (trim_left ps s).

Fixpoint cutset (s : string) : list string :=
  match s with "" => [] | String a r => String a "" :: cutset r end.
Definition space_encodings : list string := Eval vm_compute in EncodeRune <$> space_runes.
Definition TrimSpace : string → string := trim_both space_encodings.
Definition TrimRight (s cut : string) : string := trim_right (cutset cut) s.
Definition Trim (s cut : string) : string := trim_both (cutset cut) s.

(** Searches for one byte. *)
Fixpoint IndexByte (s : string) (c : ascii) : option nat :=
  match s with
  | "" => None
  | String a r => if Ascii.eqb a c then Some O else S <$> IndexByte r c
  end.
Fixpoint LastIndexByte (s : string) (c : ascii) : option nat :=
  match s with
  | "" => None
  | String a r =>
    match LastIndexByte r c with
    | Some i => Some (S i)
    | None => if Ascii.eqb a c then Some O else None
    end
  end.
Definition ContainsByte (s : string) (c : ascii) : bool :=
  match IndexByte s c with Some _ => true | None => false end.
Fixpoint CountByte (s : string) (c : ascii) : nat :=
  match s with
  | "" => O
  | String a r => ((if Ascii.eqb a c then 1 else 0) + CountByte r c)%nat
  end.
(** [strings.Split] at a one-byte separator. *)
Fixpoint SplitByte (s : string) (c : ascii) : list string :=
  match s with
  | "" => [""]
  | String a r =>
    if Ascii.eqb a c then "" :: SplitByte r c
    else match SplitByte r c with
         | p :: ps => String a p :: ps
         | [] => [String a ""]
         end
  end.
Fixpoint Contains (s p : string) : bool :=
  HasPrefix s p || match s with "" => false | String _ r => Contains r p end.
Fixpoint Join (l : list string) (sep : string) : string :=
  match l with
  | [] => ""
  | [s] => s
  | s :: r => s +:+ sep +:+ Join r sep
  end.

(** [strings.EqualFold(s, t)] for an ASCII constant [t]: besides the two cases
    of a letter, simple folding relates k to U+212A and s to U+017F. *)
Definition fold_ascii (c : Z) : Z :=
  if c =? 8490 then 107 else if c =? 383 then 115 else ascii_lower c.
Definition EqualFold (s t : string) : bool :=
  bool_decide (fold_ascii <$> runes s = fold_ascii <$> runes t).

(** ** Package strconv and the verbs of fmt *)
Definition Itoa (z : Z) : string := pretty z.
Definition hexdigit (z : Z) : string := str1 (if z <? 10 then 48 + z else 87 + z).
Definition hex2 (z : Z) : string := hexdigit (Z.shiftr z 4) +:+ hexdigit (Z.land z 15).
Fixpoint hex_pad (n : nat) (z : Z) : string :=
  match n with O => "" | S n => hex_pad n (Z.shiftr z 4) +:+ hexdigit (Z.land z 15) end.
Fixpoint EncodeToString (bs : list Z) : string :=
  match bs with [] => "" | b :: r => hex2 b +:+ EncodeToString r end.

Definition quote_rune (seg : Z * string) : string :=
  let '(r, raw) := seg in
  if (r =? RuneError) && (String.length raw =? 1)%nat then
    match raw with "" => "" | String a _ => "\x" +:+ hex2 (byte a) end
  else if (r =? 34) || (r =? 92) then "\" +:+ raw
  else if IsPrint r then raw
  else if r =? 7 then "\a" else if r =? 8 then "\b" else if r =? 12 then "\f"
  else if r =? 10 then "\n" else if r =? 13 then "\r" else if r =? 9 then "\t"
  else if r =? 11 then "\v"
  else if (r <? 32) || (r =? 127) then "\x" +:+ hex2 r
  else if r <? 65536 then "\u" +:+ hex_pad 4 r else "\U" +:+ hex_pad 8 r.
(** [%q] *)
Definition Quote (s : string) : string :=
  dquote +:+ concat_str (quote_rune <$> segments 0 s) +:+ dquote.

(** ** Lemmas *)

Lemma CutPrefix_Some p s r : CutPrefix p s = Some r ↔ s = p +:+ r.
Proof.
  revert s. induction p as [|a p IH]; intros s; [cbn; naive_solver|].
  destruct s as [|b s]; cbn [CutPrefix]; rewrite append_cons; [done|].
  destruct (Ascii.eqb_spec a b) as [->|Hne].
  - rewrite IH. split; [by intros ->|by intros [= ->]].
  - split; [done|intros [=]; congruence].
Qed.
Lemma HasPrefix_spec s p : HasPrefix s p = true ↔ ∃ r, s = p +:+ r.
Proof.
  unfold HasPrefix. destruct (CutPrefix p s) as [r|] eqn:E.
  - apply CutPrefix_Some in E. split; eauto.
  - split; [done|]. intros [r Hr]. apply CutPrefix_Some in Hr. congruence.
Qed.
Lemma drop_str_app a b : drop_str (String.length a) (a +:+ b) = b.
Proof. induction a as [|x a IH]; [by destruct b|]. rewrite append_cons. done. Qed.
Lemma take_str_app a b : take_str (String.length a) (a +:+ b) = a.
Proof.
  induction a as [|x a IH]; [by destruct b|]. rewrite append_cons. cbn. by rewrite IH.
Qed.
Lemma CutSuffix_Some p s r : CutSuffix p s = Some r ↔ s = r +:+ p.
Proof.
  unfold CutSuffix. split.
  - destruct (String.eqb_spec (drop_str (String.length s - String.length p) s) p) as [E|];
      [|done].
    intros [= <-]. rewrite <- E at 2. by rewrite take_drop_str.
  - intros ->. rewrite length_append, Nat.add_sub, drop_str_app, String.eqb_refl.
    by rewrite take_str_app.
Qed.
Lemma first_some_Some {A B} (f : A → option B) l b :
  first_some f l = Some b → ∃ a, a ∈ l ∧ f a = Some b.
Proof.
  induction l as [|a l IH]; [done|]. cbn. destruct (f a) eqn:E.
  - intros [= ->]. exists a. split; [left|done].
  - intros (a' & ? & ?)%IH. exists a'. split; [by right|done].
Qed.
Lemma first_some_None {A B} (f : A → option B) l :
  first_some f l = None ↔ ∀ a, a ∈ l → f a = None.
Proof.
  induction l as [|a l IH]; cbn.
  - split; [intros _ a []%not_elem_of_nil|done].
  - destruct (f a) eqn:E.
    + split; [done|]. intros H. rewrite <- E. apply H. left.
    + rewrite IH. split; [|intros H b Hb; apply H; by right].
      intros H b [->|Hb]%elem_of_cons; auto.
Qed.

(** *** Trimming *)
Section Trim.
Context (ps : list string) (Hne : ∀ p, p ∈ ps → p ≠ "").

Definition no_prefix (s : string) : Prop := ∀ p, p ∈ ps → CutPrefix p s = None.
Definition no_suffix (s : string) : Prop := ∀ p, p ∈ ps → CutSuffix p s = None.

Lemma iter_strip_fix step n s : step s = None → iter_strip step n s = s.
Proof. intros H. destruct n; cbn; [done|]. by rewrite H. Qed.
Lemma iter_strip_ind step (P : string → Prop) n s :
  (∀ a b, step a = Some b → P a → P b) → P s → P (iter_strip step n s).
Proof.
  intros Hstep. revert s. induction n as [|n IH]; intros s Hs; cbn; [done|].
  destruct (step s) eqn:E; eauto.
Qed.
Lemma iter_strip_done step n s :
  (∀ a b, step a = Some b → (String.length b < String.length a)%nat) →
  (String.length s <= n)%nat → step (iter_strip step n s) = None ∨ iter_strip step n s = "".
Proof.
  intros Hstep. revert s. induction n as [|n IH]; intros s Hn; cbn.
  - right. by destruct s; [|cbn in Hn; lia].
  - destruct (step s) as [r|] eqn:E; [|auto]. apply IH. apply Hstep in E. lia.
Qed.

Lemma nonempty_length (p : string) : p ≠ "" → (0 < String.length p)%nat.
Proof. destruct p; [done|cbn; lia]. Qed.
Lemma no_prefix_nil : no_prefix "".
Proof. intros p Hp. destruct p; [by apply Hne in Hp|done]. Qed.
Lemma no_suffix_nil : no_suffix "".
Proof.
  intros p Hp. destruct (CutSuffix p "") as [r|] eqn:E; [|done].
  apply CutSuffix_Some in E. apply Hne, nonempty_length in Hp.
  apply (f_equal String.length) in E. rewrite length_append in E. cbn in E. lia.
Qed.

Lemma trim_left_no_prefix s : no_prefix (trim_left ps s).
Proof.
  unfold trim_left. edestruct (iter_strip_done (λ s, first_some (λ p, CutPrefix p s) ps)) as [H|H].
  2: done.
  - intros a b (p & Hp & E)%first_some_Some. apply CutPrefix_Some in E as ->.
    rewrite length_append. apply Hne, nonempty_length in Hp. lia.
  - by rewrite first_some_None in H.
  - rewrite H. apply no_prefix_nil.
Qed.
Lemma trim_right_no_suffix s : no_suffix (trim_right ps s).
Proof.
  unfold trim_right. edestruct (iter_strip_done (λ s, first_some (λ p, CutSuffix p s) ps)) as [H|H].
  2: done.
  - intros a b (p & Hp & E)%first_some_Some. apply CutSuffix_Some in E as ->.
    rewrite length_append. apply Hne, nonempty_length in Hp. lia.
  - by rewrite first_some_None in H.
  - rewrite H. apply no_suffix_nil.
Qed.
(** Trimming on the right leaves a prefix, on the left a suffix. *)
Lemma trim_right_prefix s : ∃ r, s = trim_right ps s +:+ r.
Proof.
  unfold trim_right. apply (iter_strip_ind _ (λ t, ∃ r, s = t +:+ r)).
  - intros a b (p & Hp & E)%first_some_Some [r ->]. apply CutSuffix_Some in E as ->.
    exists (p +:+ r). by rewrite append_assoc.
  - exists "". by rewrite append_nil_r.
Qed.
Lemma trim_left_suffix s : ∃ r, s = r +:+ trim_left ps s.
Proof.
  unfold trim_left. apply (iter_strip_ind _ (λ t, ∃ r, s = r +:+ t)).
  - intros a b (p & Hp & E)%first_some_Some [r ->]. apply CutPrefix_Some in E as ->.
    exists (r +:+ p). by rewrite append_assoc.
  - by exists "".
Qed.
Lemma no_prefix_trim_right s : no_prefix s → no_prefix (trim_right ps s).
Proof.
  intros Hs p Hp. destruct (CutPrefix p (trim_right ps s)) as [q|] eqn:E; [|done].
  destruct (trim_right_prefix s) as [r Hr]. apply CutPrefix_Some in E.
  rewrite E, append_assoc in Hr. apply CutPrefix_Some in Hr. by rewrite Hs in Hr.
Qed.
Lemma trim_left_id s : no_prefix s → trim_left ps s = s.
Proof. intros H. apply iter_strip_fix, first_some_None, H. Qed.
Lemma trim_right_id s : no_suffix s → trim_right ps s = s.
Proof. intros H. apply iter_strip_fix, first_some_None, H. Qed.
Lemma trim_both_id s : no_prefix s → no_suffix s → trim_both ps s = s.
Proof. intros ??. unfold trim_both. by rewrite trim_left_id, trim_right_id. Qed.
Lemma trim_both_idemp s : trim_both ps (trim_both ps s) = trim_both ps s.
Proof.
  apply trim_both_id; [apply no_prefix_trim_right, trim_left_no_prefix|
                       apply trim_right_no_suffix].
Qed.
Lemma trim_right_idemp s : trim_right ps (trim_right ps s) = trim_right ps s.
Proof. apply trim_right_id, trim_right_no_suffix. Qed.
Lemma length_trim_right s : (String.length (trim_right ps s) <= String.length s)%nat.
Proof.
  destruct (trim_right_prefix s) as [r Hr]. rewrite Hr at 2. rewrite length_append. lia.
Qed.
End Trim.

Lemma cutset_ne cut p : p ∈ cutset cut → p ≠ "".
Proof.
  induction cut as [|a cut IH]; cbn; [by intros ?%not_elem_of_nil|].
  intros [->|?]%elem_of_cons; auto.
Qed.
Lemma space_encodings_ne p : p ∈ space_encodings → p ≠ "".
Proof.
  intros Hp. assert (forallb (λ s, negb (String.eqb s "")) space_encodings = true) as H by done.
  rewrite forallb_elem in H. apply H in Hp. by bool_prop.
Qed.
Lemma TrimSpace_idemp s : TrimSpace (TrimSpace s) = TrimSpace s.
Proof. apply trim_both_idemp, space_encodings_ne. Qed.
Lemma TrimRight_idemp s cut : TrimRight (TrimRight s cut) cut = TrimRight s cut.
Proof. apply trim_right_idemp, cutset_ne. Qed.
#[export] Hint Rewrite TrimSpace_idemp TrimRight_idemp : go_rw.

(** *** Maps *)
Lemma str_forallb_concat g l :
  str_forallb g (concat_str l) = forallb (str_forallb g) l.
Proof. induction l as [|s l IH]; [done|]. cbn. by rewrite str_forallb_append, IH. Qed.
(** A map whose results are ASCII bytes of a class, or dropped, yields a
    string of the class. *)
Lemma Map_class (g : ascii → bool) f s :
  (∀ r, 0 <= f r → f r < 128 ∧ g (chr (f r)) = true) → str_forallb g (Map f s) = true.
Proof.
  intros Hf. unfold Map. rewrite str_forallb_concat. apply forallb_elem.
  intros x (c & -> & Hc)%list_elem_of_fmap.
  rewrite list_elem_of_In, filter_In in Hc. destruct Hc as [Hc Hpos].
  apply list_elem_of_In, list_elem_of_fmap in Hc as (r & -> & _). bool_prop.
  destruct (Hf r Hpos) as [Hlt Hg]. rewrite EncodeRune_ascii by lia.
  cbn. by rewrite Hg.
Qed.
(** On an ASCII string whose bytes the map keeps, the map is the identity. *)
Lemma Map_id f s : is_ascii s = true → (∀ b, b ∈ str_bytes s → f b = b) → Map f s = s.
Proof.
  unfold Map, is_ascii. intros Ha Hf. rewrite runes_ascii by done.
  induction s as [|a s IH]; [done|]. cbn [str_forallb str_bytes] in *. bool_prop.
  pose proof (byte_range a). rewrite fmap_cons, (Hf (byte a)) by left. cbn [List.filter].
  rewrite (proj2 (Z.leb_le 0 (byte a))) by lia. rewrite fmap_cons. cbn [concat_str].
  rewrite IH by (try done; intros; apply Hf; by right).
  rewrite EncodeRune_ascii by lia. unfold str1. by rewrite chr_byte.
Qed.

(** *** Strings of an ASCII class *)
Definition alnum (r : Z) : bool := ascii_letter r || ascii_digit r.
Definition all_bytes (f : Z → bool) (s : string) : bool := str_forallb (λ a, f (byte a)) s.

Lemma all_bytes_ascii f s :
  (∀ r, f r = true → r < 128) → all_bytes f s = true → is_ascii s = true.
Proof.
  intros Hf. apply str_forallb_impl. intros a Ha. apply Z.ltb_lt. auto.
Qed.
Lemma forallb_str_bytes f s : forallb f (str_bytes s) = all_bytes f s.
Proof. induction s as [|a s IH]; [done|]. cbn. by rewrite IH. Qed.
Lemma alnum_ascii r : alnum r = true → r < 128.
Proof. unfold alnum, ascii_letter, ascii_digit. lia. Qed.
Lemma all_bytes_append f a b : all_bytes f (a +:+ b) = all_bytes f a && all_bytes f b.
Proof. apply str_forallb_append. Qed.
Lemma all_bytes_impl (f g : Z → bool) s :
  (∀ r, f r = true → g r = true) → all_bytes f s = true → all_bytes g s = true.
Proof. intros H. apply str_forallb_impl. auto. Qed.
(** A string of a class that no white-space encoding belongs to is trimmed. *)
Lemma TrimSpace_class f s :
  forallb (λ p, negb (all_bytes f p)) space_encodings = true → all_bytes f s = true →
  TrimSpace s = s.
Proof.
  rewrite forallb_elem. intros Hf Hs. apply trim_both_id; intros p Hp.
  - destruct (CutPrefix p s) as [r|] eqn:E; [|done]. apply CutPrefix_Some in E as ->.
    rewrite all_bytes_append in Hs. apply Hf in Hp. bool_prop. congruence.
  - destruct (CutSuffix p s) as [r|] eqn:E; [|done]. apply CutSuffix_Some in E as ->.
    rewrite all_bytes_append in Hs. apply Hf in Hp. bool_prop. congruence.
Qed.
Lemma elem_str_bytes f s b : all_bytes f s = true → b ∈ str_bytes s → f b = true.
Proof. rewrite <- forallb_str_bytes, forallb_elem. auto. Qed.
Lemma ToLower_class f s :
  (∀ r, f r = true → 0 <= r < 128 ∧ (r < 65 ∨ 90 < r)) → all_bytes f s = true → ToLower s = s.
Proof.
  intros Hf Hs. apply Map_id.
  - eapply all_bytes_ascii, Hs. intros r Hr. apply Hf in Hr. lia.
  - intros b Hb. apply (elem_str_bytes f) in Hb; [|done]. apply Hf in Hb.
    rewrite ToLowerRune_ascii by lia. unfold ascii_lower. case_match; bool_prop; [lia|done].
Qed.

(** *** Searches *)
Lemma IndexByte_None s c : IndexByte s c = None ↔ ContainsByte s c = false.
Proof. unfold ContainsByte. by destruct (IndexByte s c). Qed.
Lemma ContainsByte_append a b c :
  ContainsByte (a +:+ b) c = ContainsByte a c || ContainsByte b c.
Proof.
  unfold ContainsByte. induction a as [|x a IH]; [done|]. rewrite append_cons. cbn.
  destruct (Ascii.eqb x c); [done|]. revert IH.
  by destruct (IndexByte (a +:+ b) c), (IndexByte a c), (IndexByte b c).
Qed.
Lemma ContainsByte_class f s c :
  all_bytes f s = true → f (byte c) = false → ContainsByte s c = false.
Proof.
  intros Hs Hc. apply IndexByte_None. induction s as [|a s IH]; [done|]. cbn in *. bool_prop.
  destruct (Ascii.eqb_spec a c) as [->|]; [congruence|]. by rewrite IH.
Qed.
Lemma IndexByte_lt s c i : IndexByte s c = Some i → (i < String.length s)%nat.
Proof.
  revert i. induction s as [|a s IH]; intros i; cbn; [done|].
  destruct (Ascii.eqb a c); [intros [= <-]; lia|].
  destruct (IndexByte s c) as [j|]; [|done]. intros [= <-]. specialize (IH j eq_refl). lia.
Qed.
Lemma IndexByte_app s t c i : IndexByte s c = Some i → IndexByte (s +:+ t) c = Some i.
Proof.
  revert i. induction s as [|a s IH]; intros i; [done|]. rewrite append_cons. cbn [IndexByte].
  destruct (Ascii.eqb a c); [done|]. destruct (IndexByte s c) as [j|]; [|done].
  intros [= <-]. by rewrite (IH j eq_refl).
Qed.
Lemma LastIndexByte_None s c : ContainsByte s c = false → LastIndexByte s c = None.
Proof.
  rewrite <- IndexByte_None. induction s as [|a s IH]; [done|]. cbn.
  destruct (Ascii.eqb a c); [done|]. intros H. rewrite IH; [done|].
  by destruct (IndexByte s c).
Qed.
Lemma LastIndexByte_app a c b :
  ContainsByte b c = false → LastIndexByte (a +:+ String c b) c = Some (String.length a).
Proof.
  intros Hb. induction a as [|x a IH].
  - rewrite append_nil_l. cbn. by rewrite LastIndexByte_None, Ascii.eqb_refl.
  - rewrite append_cons. cbn. by rewrite IH.
Qed.

Lemma CountByte_append a b c : CountByte (a +:+ b) c = (CountByte a c + CountByte b c)%nat.
Proof. induction a as [|x a IH]; [done|]. rewrite append_cons. cbn. rewrite IH. lia. Qed.
(** *** Splitting *)
Lemma SplitByte_plain e c : ContainsByte e c = false → SplitByte e c = [e].
Proof.
  rewrite <- IndexByte_None. induction e as [|a e IH]; [done|]. cbn.
  destruct (Ascii.eqb a c); [done|]. intros H. rewrite IH; [done|]. by destruct (IndexByte e c).
Qed.
Lemma SplitByte_ne s c : SplitByte s c ≠ [].
Proof. destruct s as [|a s]; [done|]. cbn. case_match; [done|]. by destruct (SplitByte s c). Qed.
Lemma SplitByte_app a c b :
  SplitByte (a +:+ String c b) c = SplitByte a c ++ SplitByte b c.
Proof.
  induction a as [|x a IH].
  - rewrite append_nil_l. cbn. by rewrite Ascii.eqb_refl.
  - rewrite append_cons. cbn. destruct (Ascii.eqb x c); [by rewrite IH|]. rewrite IH.
    destruct (SplitByte a c) eqn:E; [by apply SplitByte_ne in E|done].
Qed.

(** ** Numbers and fields (strconv.Atoi, strings.Fields, strings.SplitN) *)
Fixpoint digits_val (s : string) (acc : Z) : option Z :=
  match s with
  | "" => Some acc
  | String a r => if ascii_digit (byte a) then digits_val r (acc * 10 + (byte a - 48)) else None
  end.
(** An optional sign and digits, within an int64. *)
Definition Atoi (s : string) : option Z :=
  let '(neg, body) := match s with
                      | String "-" r => (true, r)
                      | String "+" r => (false, r)
                      | _ => (false, s)
                      end in
  if String.eqb body "" then None
  else match digits_val body 0 with
       | Some v => let v := if neg : bool then - v else v in
                   if (- 2 ^ 63 <=? v) && (v <? 2 ^ 63) then Some v else None
       | None => None
       end.
Definition is_space (r : Z) : bool := existsb (Z.eqb r) space_runes.
Fixpoint fields_loop (segs : list (Z * string)) (cur : string) : list string :=
  match segs with
  | [] => if String.eqb cur "" then [] else [cur]
  | (r, text) :: rest =>
    if is_space r then (if String.eqb cur "" then [] else [cur]) ++ fields_loop rest ""
    else fields_loop rest (cur +:+ text)
  end.
Definition Fields (s : string) : list string := fields_loop (segments 0 s) "".
(** [SplitN(s, c, n)]: at most [n] pieces. *)
Fixpoint SplitN (s : string) (c : ascii) (n : nat) : list string :=
  match n with
  | O => []
  | S O => [s]
  | S n =>
    match IndexByte s c with
    | None => [s]
    | Some i => take_str i s :: SplitN (drop_str (S i) s) c n
    end
  end.
Example Fields_1 : Fields "  S 1  42 " = ["S"; "1"; "42"].
Proof. reflexivity. Qed.
Example Atoi_1 : Atoi "-42" = Some (-42) ∧ Atoi "4x" = None ∧ Atoi "" = None.
Proof. vm_compute. done. Qed.

(** [fmt.Sscanf(s, "%d", &x)]: blanks, a sign, and the digits that follow; [x]
    keeps its value when there are none or they do not fit an int64. *)
Fixpoint skip_blanks (s : string) : string :=
  match s with
  | String a r => if (byte a =? 32) || (byte a =? 9) then skip_blanks r else s
  | "" => s
  end.
Fixpoint digit_prefix (s : string) : string :=
  match s with
  | String a r => if ascii_digit (byte a) then String a (digit_prefix r) else ""
  | "" => ""
  end.
Definition Sscanf_d (s : string) (x : Z) : Z :=
  let s := skip_blanks s in
  let '(sign, s) := match s with
                    | String "-" r => ("-", r)
                    | String "+" r => ("", r)
                    | _ => ("", s)
                    end in
  default x (Atoi (sign +:+ digit_prefix s)).
Example Sscanf_1 : Sscanf_d " 12ab" 1 = 12 ∧ Sscanf_d "sixty" 1 = 1 ∧ Sscanf_d "-3" 1 = -3.
Proof. vm_compute. done. Qed.

(** ** Strings whose runes are ASCII *)
Lemma lor_ge a b : 0 <= a → 0 <= b → a <= Z.lor a b ∧ b <= Z.lor a b.
Proof.
  intros Ha Hb. pose proof (Z.add_lor_land a b).
  assert (∀ x y, 0 <= x → 0 <= y → Z.land x y <= x) as Hl.
  { intros x y Hx Hy. pose proof (Z.add_lor_land (Z.land x y) (Z.ldiff x y)) as E.
    assert (Z.lor (Z.land x y) (Z.ldiff x y) = x) as E1.
    { apply Z.bits_inj'. intros n Hn. rewrite Z.lor_spec, Z.land_spec, Z.ldiff_spec.
      by destruct (Z.testbit x n), (Z.testbit y n). }
    assert (Z.land (Z.land x y) (Z.ldiff x y) = 0) as E2.
    { apply Z.bits_inj'. intros n Hn. rewrite Z.land_spec, Z.land_spec, Z.ldiff_spec, Z.bits_0.
      by destruct (Z.testbit x n), (Z.testbit y n). }
    pose proof (proj2 (Z.ldiff_nonneg x y) ltac:(by left)). lia. }
  pose proof (Hl a b Ha Hb). pose proof (Hl b a Hb Ha). rewrite (Z.land_comm b a) in *. lia.
Qed.
Lemma lor_low x y z : 0 <= x → 0 <= y → z <= x ∨ z <= y → z <= Z.lor x y.
Proof. intros Hx Hy. pose proof (lor_ge x y Hx Hy). lia. Qed.
Lemma byte_check (f : Z → bool) a : forallb f (seqZ 0 256) = true → f (byte a) = true.
Proof. rewrite forallb_elem. intros H. apply H, elem_of_seqZ. pose proof (byte_range a). lia. Qed.
(** The bits a lead byte contributes, in steps of 2, 3 and 4 bytes. *)
Definition lead_bits (b : Z) : bool :=
  ((b <? 194) || (223 <? b) || (128 <=? Z.shiftl (Z.land b 31) 6)) &&
  ((b <? 225) || (239 <? b) || (128 <=? Z.shiftl (Z.land b 15) 12)) &&
  ((b <? 241) || (247 <? b) || (128 <=? Z.shiftl (Z.land b 7) 18)) &&
  ((b <? 144) || (191 <? b) || (128 <=? Z.shiftl (Z.land b 63) 12)) &&
  ((b <? 160) || (191 <? b) || (128 <=? Z.shiftl (Z.land b 63) 6)).
Lemma lead_bits_all a : lead_bits (byte a) = true.
Proof. apply byte_check. vm_compute. reflexivity. Qed.
Lemma DecodeRune_high a s : 128 <= byte a → 128 <= (DecodeRune (String a s)).1.
Proof.
  intros Ha. unfold DecodeRune. rewrite (proj2 (Z.ltb_ge _ _) Ha).
  destruct ((byte a <? 194) || (244 <? byte a)) eqn:E0; [done|]. bool_prop.
  destruct s as [|a1 s]; [done|]. unfold accept_range.
  pose proof (lead_bits_all a) as L0. pose proof (lead_bits_all a1) as L1. unfold lead_bits in L0, L1.
  rewrite !andb_true_iff, !orb_true_iff, !Z.ltb_lt, !Z.leb_le in L0, L1.
  assert (∀ b n m, 0 <= n → 0 <= Z.shiftl (Z.land (byte b) m) n) as Hnn
    by (intros b n m ?; apply Z.shiftl_nonneg, Z.land_nonneg; left; apply byte_range).
  assert (∀ b m, 0 <= Z.land (byte b) m) as Hnl by (intros b m; apply Z.land_nonneg; left; apply byte_range).
  repeat case_match; simplify_eq; bool_prop; cbn [fst]; unfold RuneError; try lia;
    (apply lor_low; [by auto with lia| |]; [repeat (apply Z.lor_nonneg; split); auto with lia|]);
    try (left; lia).
  all: right; apply lor_low; [by auto with lia|repeat (apply Z.lor_nonneg; split); auto with lia|].
  all: left; lia.
Qed.
Lemma runes_low s : (∀ r, r ∈ runes s → r < 128) → is_ascii s = true.
Proof.
  unfold runes, is_ascii. induction s as [|a s IH]; [done|]. cbn [segments str_forallb]. intros H.
  destruct (Z.ltb_spec (byte a) 128) as [Ha|Ha].
  - rewrite DecodeRune_ascii in H by done. cbn in H. cbn [andb]. apply IH. intros r Hr. apply H. by right.
  - pose proof (DecodeRune_high a s Ha) as Hd. destruct (DecodeRune (String a s)) as [c w].
    specialize (H c ltac:(by left)). cbn in Hd. lia.
Qed.
Lemma runes_class f s :
  (∀ r, f r = true → r < 128) → forallb f (runes s) = true → all_bytes f s = true.
Proof.
  intros Hf H. pose proof H as Hr. rewrite forallb_elem in Hr.
  assert (is_ascii s = true) as Ha by (apply runes_low; auto).
  rewrite (runes_ascii s Ha) in H. by rewrite forallb_str_bytes in H.
Qed.

(** ** The decimal digits of a number *)
Lemma pretty_N_char_digit x : (x < 10)%N → ascii_digit (byte (pretty_N_char x)) = true.
Proof.
  intros Hx. assert (forallb (λ n, ascii_digit (byte (pretty_N_char (N.of_nat n)))) (seq 0 10) = true) as H
    by (vm_compute; reflexivity).
  rewrite forallb_elem in H. rewrite <- (N2Nat.id x). apply H, elem_of_seq. lia.
Qed.
Lemma pretty_N_go_digits x s :
  all_bytes ascii_digit s = true → all_bytes ascii_digit (pretty_N_go x s) = true.
Proof.
  revert s. induction (N.lt_wf_0 x) as [x _ IH]. intros s Hs.
  destruct (decide (x = 0)%N) as [->|Hne]; [by rewrite pretty_N_go_0|].
  rewrite pretty_N_go_step by lia. apply IH; [apply N.div_lt; lia|].
  unfold all_bytes. cbn [str_forallb]. rewrite pretty_N_char_digit; [done|]. apply N.mod_lt. lia.
Qed.
Lemma pretty_N_go_length k x s :
  (x < 10 ^ N.of_nat k)%N → (String.length (pretty_N_go x s) <= k + String.length s)%nat.
Proof.
  revert x s. induction k as [|k IH]; intros x s Hx.
  - assert (x = 0)%N as -> by (cbn in Hx; lia). by rewrite pretty_N_go_0.
  - destruct (decide (x = 0)%N) as [->|Hne]; [rewrite pretty_N_go_0; lia|].
    rewrite pretty_N_go_step by lia. etrans; [apply IH|cbn; lia].
    apply N.Div0.div_lt_upper_bound. by rewrite Nat2N.inj_succ, N.pow_succ_r' in Hx.
Qed.
Lemma Itoa_digits n : 0 <= n → all_bytes ascii_digit (Itoa n) = true.
Proof.
  intros Hn. destruct n as [|p|p]; [done| |lia]. change (Itoa (Z.pos p)) with (pretty_N (N.pos p)).
  unfold pretty_N. case_decide; [done|]. by apply pretty_N_go_digits.
Qed.
Lemma Itoa_length k n : 0 <= n < 10 ^ Z.of_nat k → (1 <= k)%nat → len (Itoa n) <= Z.of_nat k.
Proof.
  intros Hn Hk. unfold len. destruct n as [|p|p]; [cbn; lia| |lia].
  change (Itoa (Z.pos p)) with (pretty_N (N.pos p)). unfold pretty_N. case_decide; [done|].
  pose proof (pretty_N_go_length k (N.pos p) "") as Hlen. cbn [String.length] in Hlen. rewrite Nat.add_0_r in Hlen.
  apply inj_le, Hlen. lia.
Qed.
