(* ===== verification/GoError.v ===== *)
(** * Go errors

    An error is its chain: a fresh error with a text, one of the package-level
    error variables that callers compare against, a [%w] wrapping, or an
    [errors.Join].  [Is] walks the chain as [errors.Is] does; [Error] is the
    text.  A nil error is [None]. *)
From S2P Require Import Prelude.

(** The error variables (and one error type) that the code tests for. *)
Inductive sentinel :=
| ErrUnauthorized | ErrAnonymousPublic | ErrBusy | ErrNotImplemented | ErrMissingAssets
| ErrSnapNotImplemented | ErrSnapNotFound
| DeadlineExceeded | Canceled | MaxBytesError | NotExist | EOF | EBUSY | EEXIST | ErrClosed | ErrServerClosed.

#[export] Instance sentinel_eq_dec : EqDecision sentinel.
Proof. solve_decision. Defined.

Inductive error :=
| New (msg : string)
| Sentinel (s : sentinel)
| Wrap (pre : string) (e : error) (post : string)
| Joined (es : list error).

Definition sentinel_text (s : sentinel) : string :=
  match s with
  | ErrUnauthorized => "unauthorized"
  | ErrAnonymousPublic => "refusing to bind a public address without WARDEN_API_KEY, WARDEN_JWT_JWKS, or mTLS (set WARDEN_ALLOW_ANON=1 only for a trusted network)"
  | ErrBusy => "runtime: too many concurrent VMs"
  | ErrNotImplemented => "firecracker feature is not implemented yet"
  | ErrMissingAssets => "firecracker assets missing"
  | ErrSnapNotImplemented => "snapshot: not implemented"
  | ErrSnapNotFound => "snapshot: not found"
  | DeadlineExceeded => "context deadline exceeded"
  | Canceled => "context canceled"
  | MaxBytesError => "http: request body too large"
  | NotExist => "no such file or directory"
  | EOF => "EOF"
  | EBUSY => "device or resource busy"
  | EEXIST => "file exists"
  | ErrClosed => "use of closed network connection"
  | ErrServerClosed => "http: Server closed"
  end.

Definition newline : string := str1 10.

Fixpoint Error (e : error) : string :=
  match e with
  | New msg => msg
  | Sentinel s => sentinel_text s
  | Wrap pre e post => pre +:+ Error e +:+ post
  | Joined es =>
    (fix go (l : list error) : string :=
       match l with
       | [] => ""
       | [e] => Error e
       | e :: r => Error e +:+ newline +:+ go r
       end) es
  end.

(** [errors.Is(e, s)] *)
Fixpoint Is (e : error) (s : sentinel) : bool :=
  match e with
  | New _ => false
  | Sentinel t => bool_decide (t = s)
  | Wrap _ e _ => Is e s
  | Joined es => existsb (λ e, Is e s) es
  end.

(** [errors.Join]: nil when every error is nil. *)
Definition Join_errors (es : list error) : option error :=
  match es with [] => None | _ => Some (Joined es) end.

Definition result (A : Type) : Type := res error A.

Lemma Is_wrap pre e post s : Is (Wrap pre e post) s = Is e s.
Proof. done. Qed.
Lemma Is_sentinel s t : Is (Sentinel s) t = bool_decide (s = t).
Proof. done. Qed.
Lemma Join_errors_None es : Join_errors es = None ↔ es = [].
Proof. by destruct es. Qed.
Lemma Is_joined es s : Is (Joined es) s = true ↔ ∃ e, e ∈ es ∧ Is e s = true.
Proof. apply existsb_elem. Qed.
#[export] Hint Rewrite Is_wrap Is_sentinel : go_rw.

(** ** Calls that may fail *)

(** The early return of [if err := m; err != nil { return err }]. *)
Definition and_then {W} (m k : M W (option error)) : M W (option error) :=
  let! e := m in match e with Some err => ret (Some err) | None => k end.
Notation "m >>? k" := (and_then m k) (at level 62, right associativity) : go_scope.
(** [x, err := m; if err != nil { return err }], where the error is returned by
    [fail] ([Some] in a function that returns an error, [Err] in one that
    returns a value too), and the same for a call without a value. *)
Definition try {W A B} (fail : error → B) (m : M W (result A)) (k : A → M W B) : M W B :=
  let! r := m in match r with Ok a => k a | Err err => ret (fail err) end.
Definition guard {W B} (fail : error → B) (m : M W (option error)) (k : M W B) : M W B :=
  let! e := m in match e with Some err => ret (fail err) | None => k end.
Notation "'try!' x ':=' m 'in' k" := (try Some m (λ x, k))
  (at level 10, x pattern, m at level 100, k at level 200) : go_scope.
Notation "'ok!' x ':=' m 'in' k" := (try Err m (λ x, k))
  (at level 10, x pattern, m at level 100, k at level 200) : go_scope.
(** [fmt.Errorf(pre + "%w", err)] *)
Definition wrapping {W} (pre : string) (m : M W (option error)) : M W (option error) :=
  let! e := m in ret (match e with Some err => Some (Wrap pre err "") | None => None end).
Definition wrap_res {W A} (pre : string) (m : M W (result A)) : M W (result A) :=
  let! r := m in ret (match r with Err err => Err (Wrap pre err "") | Ok a => Ok a end).
Section Calls.
Context {W A B : Type}.
Lemma returns_try (fail : error → B) (m : M W (result A)) (k : A → M W B) :
  returns m → (∀ a, returns (k a)) → returns (try fail m k).
Proof. intros Hm Hk. apply returns_bind; [done|]. intros [a|e]; [apply Hk|apply returns_ret]. Qed.
Lemma returns_guard (fail : error → B) (m : M W (option error)) (k : M W B) :
  returns m → returns k → returns (guard fail m k).
Proof. intros Hm Hk. apply returns_bind; [done|]. intros [e|]; [apply returns_ret|apply Hk]. Qed.
Lemma returns_and_then (m k : M W (option error)) : returns m → returns k → returns (m >>? k).
Proof. intros Hm Hk. apply returns_bind; [done|]. intros [e|]; [apply returns_ret|apply Hk]. Qed.
Lemma returns_wrapping pre (m : M W (option error)) : returns m → returns (wrapping pre m).
Proof. intros Hm. apply returns_bind; [done|]. intros [e|]; apply returns_ret. Qed.
Lemma ends_try (fail : error → B) (m : M W (result A)) (k : A → M W B) :
  ends m → (∀ a, ends (k a)) → ends (try fail m k).
Proof. intros Hm Hk. apply ends_bind; [done|]. intros [a|e]; [apply Hk|apply ends_ret]. Qed.
Lemma ends_guard (fail : error → B) (m : M W (option error)) (k : M W B) :
  ends m → ends k → ends (guard fail m k).
Proof. intros Hm Hk. apply ends_bind; [done|]. intros [e|]; [apply ends_ret|apply Hk]. Qed.
Lemma ends_wrapping pre (m : M W (option error)) : ends m → ends (wrapping pre m).
Proof. intros Hm. apply ends_bind; [done|]. intros [e|]; apply ends_ret. Qed.

Context (R : W → W → Prop) `{HR : !PreOrder R}.
Lemma respects_try (fail : error → B) (m : M W (result A)) (k : A → M W B) :
  respects R m → (∀ a, respects R (k a)) → respects R (try fail m k).
Proof. intros Hm Hk. resp_bind; [done|]. intros [a|e]; [apply Hk|auto with go]. Qed.
Lemma respects_guard (fail : error → B) (m : M W (option error)) (k : M W B) :
  respects R m → respects R k → respects R (guard fail m k).
Proof. intros Hm Hk. resp_bind; [done|]. intros [e|]; [auto with go|apply Hk]. Qed.
Lemma respects_and_then (m k : M W (option error)) :
  respects R m → respects R k → respects R (m >>? k).
Proof. intros Hm Hk. resp_bind; [done|]. intros [e|]; [auto with go|apply Hk]. Qed.
Lemma respects_wrapping pre (m : M W (option error)) : respects R m → respects R (wrapping pre m).
Proof. intros Hm. resp_bind; [done|]. intros [e|]; auto with go. Qed.
Lemma respects_wrap_res pre (m : M W (result A)) : respects R m → respects R (wrap_res pre m).
Proof. intros Hm. resp_bind; [done|]. intros [e|]; auto with go. Qed.
End Calls.
#[export] Hint Resolve returns_try returns_guard returns_and_then returns_wrapping
  ends_try ends_guard ends_wrapping respects_try
  respects_guard respects_and_then respects_wrapping respects_wrap_res : go.
(** Walks through a sequence of calls that are to return, or to end. *)
Ltac returns_steps :=
  repeat first
    [ progress intros
    | match goal with
      | |- returns (bind _ _) => apply returns_bind
      | |- returns (try _ _ _) => apply returns_try
      | |- returns (guard _ _ _) => apply returns_guard
      | |- returns (wrapping _ _) => apply returns_wrapping
      | |- returns (match ?x with _ => _ end) => destruct x
      end
    | solve [auto with go] ].
Ltac ends_steps :=
  repeat first
    [ progress intros
    | match goal with
      | |- ends (bind _ _) => apply ends_bind
      | |- ends (try _ _ _) => apply ends_try
      | |- ends (guard _ _ _) => apply ends_guard
      | |- ends (wrapping _ _) => apply ends_wrapping
      | |- ends (match ?x with _ => _ end) => destruct x
      end
    | solve [auto with go] ].
(** Actions in a row, up to the first that fails. *)
Fixpoint all_ok {W A} (f : A → M W (option error)) (l : list A) : M W (option error) :=
  match l with [] => ret None | a :: r => f a >>? all_ok f r end.

Section Logged.
Context {A : Type} (fails : list A → option error).
(** An action that is logged and answered from the log so far. *)
Definition logged (a : A) : M (list A) (option error) := λ log, (Ret (fails (log ++ [a])), log ++ [a]).

Lemma and_then_logged a k log : (logged a >>? k) log =
  match fails (log ++ [a]) with
  | Some e => (Ret (Some e), log ++ [a]) | None => k (log ++ [a]) end.
Proof. unfold and_then, bind, logged. by destruct (fails (log ++ [a])). Qed.

(** A row of logged actions: all of them, or up to the first that failed. *)
Lemma all_ok_logged l log :
  (∃ e k, all_ok logged l log = (Ret (Some e), log ++ take (S k) l) ∧ (k < length l)%nat ∧
          fails (log ++ take (S k) l) = Some e ∧
          ∀ j, (j < k)%nat → fails (log ++ take (S j) l) = None) ∨
  (all_ok logged l log = (Ret None, log ++ l) ∧
   ∀ j, (j < length l)%nat → fails (log ++ take (S j) l) = None).
Proof.
  revert log. induction l as [|a l IH]; intros log.
  { right. rewrite app_nil_r. split; [done|]. cbn. lia. }
  cbn [all_ok]. rewrite and_then_logged. destruct (fails (log ++ [a])) as [e|] eqn:E.
  { left. exists e, 0%nat. change (take 1 (a :: l)) with [a]. split_and!; [done|cbn; lia|done|lia]. }
  assert (∀ k, log ++ take (S k) (a :: l) = (log ++ [a]) ++ take k l) as Ht
    by (intros k; by rewrite <- app_assoc).
  destruct (IH (log ++ [a])) as [(e & k & H1 & H2 & H3 & H4)|[H1 H2]]; [left|right].
  - exists e, (S k). rewrite !Ht. split_and!; [done|cbn; lia|done|]. intros [|j] Hj; rewrite Ht.
    + by rewrite take_0, app_nil_r.
    + apply H4. lia.
  - split; [by rewrite H1, <- app_assoc|]. intros [|j] Hj; rewrite Ht.
    + by rewrite take_0, app_nil_r.
    + apply H2. cbn in Hj. lia.
Qed.
End Logged.
