(* ===== verification/Resources.v ===== *)
(** * Host-side isolation profiles (internal/resources/profile.go, apply.go)

    The cgroup budget and the seccomp profile of a sandbox, their validation,
    and the limiters that the request pipeline runs before it boots a VM. *)
From S2P Require Import Prelude GoStrings GoError.

Definition DefaultCPUQuotaUs : Z := 100000.
Definition DefaultCPUPeriodUs : Z := 100000.
Definition DefaultMemoryBytes : Z := Z.shiftl 256 20.
Definition DefaultPIDsMax : Z := 64.
Definition DefaultDiskBytes : Z := Z.shiftl 1 30.

(** The fields are int64. *)
Record Profile := mkProfile {
  CPUQuotaUs : Z; CPUPeriodUs : Z; MemoryBytes : Z; PIDsMax : Z; DiskBytes : Z
}.

Record SeccompSyscall := mkSyscall { Action : string; Names : list string }.
Record SeccompProfile := mkSeccomp {
  DefaultAction : string; Architectures : list string; Syscalls : list SeccompSyscall
}.

Definition DefaultProfile : Profile :=
  mkProfile DefaultCPUQuotaUs DefaultCPUPeriodUs DefaultMemoryBytes DefaultPIDsMax DefaultDiskBytes.

Definition Profile_Validate (p : Profile) : option error :=
  if (CPUQuotaUs p <=? 0) || (CPUPeriodUs p <=? 0) then
    Some (New "cpu quota and period must be > 0")
  else if MemoryBytes p <? Z.shiftl 16 20 then
    Some (New "memory_bytes must be at least 16MiB")
  else if PIDsMax p <? 1 then Some (New "pids_max must be at least 1")
  else if DiskBytes p <? Z.shiftl 1 20 then Some (New "disk_bytes must be at least 1MiB")
  else None.

Definition Seccomp_Validate (s : SeccompProfile) : option error :=
  if String.eqb (DefaultAction s) "" then Some (New "default_action is required")
  else if negb (String.eqb (DefaultAction s) "SCMP_ACT_ERRNO")
       && negb (String.eqb (DefaultAction s) "SCMP_ACT_KILL")
       && negb (String.eqb (DefaultAction s) "SCMP_ACT_KILL_PROCESS") then
    Some (New ("default_action " +:+ Quote (DefaultAction s) +:+ " is not fail-closed"))
  else if (length (Syscalls s) =? 0)%nat then
    Some (New "at least one syscall rule is required")
  else None.

(** The outcome of [os.ReadFile] and [json.Unmarshal] on a profile file: the
    file system and encoding/json are arguments of the loaders.  [decode]
    returns the destination with the fields of the file over it. *)
Definition decodeJSONFile {A} (readFile : string → result string)
    (decode : string → A → result A) (path : string) (dest : A) : result A :=
  match readFile path with
  | Err err => Err (Wrap ("read " +:+ path +:+ ": ") err "")
  | Ok data =>
    match decode data dest with
    | Err err => Err (Wrap ("parse " +:+ path +:+ ": ") err "")
    | Ok v => Ok v
    end
  end.

Definition LoadProfile (readFile : string → result string)
    (decode : string → Profile → result Profile) (path : string) : result Profile :=
  let? p := decodeJSONFile readFile decode path DefaultProfile in
  match Profile_Validate p with
  | Some err => Err (Wrap ("invalid cgroups profile " +:+ path +:+ ": ") err "")
  | None => Ok p
  end.

Definition LoadSeccomp (readFile : string → result string)
    (decode : string → SeccompProfile → result SeccompProfile) (path : string)
    : result SeccompProfile :=
  let? s := decodeJSONFile readFile decode path (mkSeccomp "" [] []) in
  match Seccomp_Validate s with
  | Some err => Err (Wrap ("seccomp profile " +:+ path +:+ ": ") err "")
  | None => Ok s
  end.

(** ** Limiters (apply.go): what [Apply] returns; neither touches the kernel *)
Definition ProfileLimiter_Apply (target : string) (p : Profile) (s : SeccompProfile)
    : option error :=
  match Profile_Validate p with
  | Some err => Some (Wrap ("apply limits to " +:+ target +:+ ": ") err "")
  | None =>
    match Seccomp_Validate s with
    | Some err => Some (Wrap ("apply seccomp for " +:+ target +:+ ": ") err "")
    | None => None
    end
  end.

Definition NoopLimiter_Apply (target : string) (p : Profile) (s : SeccompProfile)
    : option error :=
  match Profile_Validate p with
  | Some err => Some (Wrap ("apply limits to " +:+ target +:+ ": ") err "")
  | None => None
  end.

(** ** What validation promises *)

(** A profile that constrains a process. *)
Definition constrains (p : Profile) : Prop :=
  0 < CPUQuotaUs p ∧ 0 < CPUPeriodUs p ∧ 16 * 2 ^ 20 <= MemoryBytes p ∧
  1 <= PIDsMax p ∧ 2 ^ 20 <= DiskBytes p.

Definition closed_actions : list string :=
  ["SCMP_ACT_ERRNO"; "SCMP_ACT_KILL"; "SCMP_ACT_KILL_PROCESS"].

(** A fail-closed seccomp profile. *)
Definition fail_closed (s : SeccompProfile) : Prop :=
  DefaultAction s ∈ closed_actions ∧ Syscalls s ≠ [].

Lemma Profile_Validate_spec p : Profile_Validate p = None ↔ constrains p.
Proof.
  unfold Profile_Validate, constrains.
  change (Z.shiftl 16 20) with (16 * 2 ^ 20). change (Z.shiftl 1 20) with (2 ^ 20).
  repeat case_match; split; try done; intros; bool_prop; lia.
Qed.
Lemma Seccomp_Validate_spec s : Seccomp_Validate s = None ↔ fail_closed s.
Proof.
  unfold Seccomp_Validate, fail_closed, closed_actions. rewrite !elem_of_cons, elem_of_nil.
  destruct s as [a ar [|c cs]]; cbn;
  destruct (String.eqb_spec a ""); destruct (String.eqb_spec a "SCMP_ACT_ERRNO");
  destruct (String.eqb_spec a "SCMP_ACT_KILL");
  destruct (String.eqb_spec a "SCMP_ACT_KILL_PROCESS"); subst; cbn; naive_solver.
Qed.

(** The limiter of production accepts exactly the pairs that constrain and fail closed. *)
Lemma ProfileLimiter_Apply_spec target p s :
  ProfileLimiter_Apply target p s = None ↔ constrains p ∧ fail_closed s.
Proof.
  rewrite <- Profile_Validate_spec, <- Seccomp_Validate_spec. unfold ProfileLimiter_Apply.
  destruct (Profile_Validate p), (Seccomp_Validate s); naive_solver.
Qed.
