(* ===== verification/GoNet.v ===== *)
(** * Package net: host:port splitting and IP addresses

    [SplitHostPort], [ParseIP] (through netip's parsers) and the methods of
    [net.IP] that the sources call.  An IP is its bytes: none, 4 or 16. *)
From S2P Require Import Prelude GoUnicode GoStrings GoError.

Definition colon : ascii := ":"%char.

(** Only success matters to the callers of [SplitHostPort]. *)
Definition SplitHostPort (hp : string) : option (string * string) :=
  match LastIndexByte hp colon with
  | None => None
  | Some i =>
    let port := drop_str (S i) hp in
    let check host j k :=
      if ContainsByte (drop_str j hp) "["%char then None
      else if ContainsByte (drop_str k hp) "]"%char then None
      else Some (host, port) in
    match hp with
    | String "[" _ =>
      match IndexByte hp "]"%char with
      | None => None
      | Some e =>
        if (S e =? String.length hp)%nat then None
        else if (S e =? i)%nat then check (take_str (e - 1) (drop_str 1 hp)) 1%nat (S e)
        else None
      end
    | _ =>
      let host := take_str i hp in
      if ContainsByte host colon then None else check host 0%nat 0%nat
    end
  end.

Definition ip := list Z.

Definition IPv4 (a b c d : Z) : ip := repeat 0 10 ++ [255; 255; a; b; c; d].
Definition v4_prefix : list Z := repeat 0 10 ++ [255; 255].
(** [IP.To4]: nil when the address is not an IPv4 one. *)
Definition To4 (x : ip) : option ip :=
  if (length x =? 4)%nat then Some x
  else if (length x =? 16)%nat && bool_decide (take 12 x = v4_prefix) then Some (drop 12 x)
  else None.
Definition IsLoopback (x : ip) : bool :=
  match To4 x with
  | Some x4 => bool_decide (head x4 = Some 127)
  | None => bool_decide (x = repeat 0 15 ++ [1])
  end.

(** ** Parsing *)

(** netip.parseIPv4Fields: the loop keeps the current value, its number of
    digits, the fields done and the previous byte. *)
Fixpoint parseIPv4Fields (s : string) (first : bool) (prev : ascii) (val : Z) (digLen : nat)
    (fields : list Z) : option (list Z) :=
  match s with
  | "" => if (length fields <? 3)%nat then None else Some (fields ++ [val])
  | String a r =>
    let b := byte a in
    if (48 <=? b) && (b <=? 57) then
      if (digLen =? 1)%nat && (val =? 0) then None
      else let val' := val * 10 + (b - 48) in
           if 255 <? val' then None
           else parseIPv4Fields r false a val' (S digLen) fields
    else if Ascii.eqb a "."%char then
      if first || match r with "" => true | _ => false end || Ascii.eqb prev "."%char then None
      else if (length fields =? 3)%nat then None
      else parseIPv4Fields r false a 0 0 (fields ++ [val])
    else None
  end.
Definition parseIPv4 (s : string) : option (list Z) :=
  parseIPv4Fields s true "000"%char 0 0 [].

Definition hexval (a : ascii) : option Z :=
  let b := byte a in
  if (48 <=? b) && (b <=? 57) then Some (b - 48)
  else if (97 <=? b) && (b <=? 102) then Some (b - 87)
  else if (65 <=? b) && (b <=? 70) then Some (b - 55)
  else None.

(** One group: the value, the number of digits and the rest; no value when the
    group has more than four digits. *)
Fixpoint hexgroup (s : string) (off : nat) (acc : Z) : option (Z * nat * string) :=
  match s with
  | "" => Some (acc, off, s)
  | String a r =>
    match hexval a with
    | None => Some (acc, off, s)
    | Some d => if (3 <? off)%nat then None else hexgroup r (S off) (acc * 16 + d)
    end
  end.

(** netip.parseIPv6's loop; [out] is the part of the address written so far and
    [ell] the position of the ellipsis.  Eight rounds fill the 16 bytes. *)
Fixpoint parseIPv6Loop (fuel : nat) (s : string) (out : list Z) (ell : option nat)
    : option (list Z * option nat * string) :=
  match fuel with
  | O => Some (out, ell, s)
  | S fuel =>
    match hexgroup s 0 0 with
    | None => None
    | Some (_, O, _) => None
    | Some (acc, off, r) =>
      match r with
      | String "." _ =>
        if (match ell with None => true | Some _ => false end && negb (length out =? 12)%nat)
        then None
        else if (16 <? length out + 4)%nat then None
        else match parseIPv4 s with
             | None => None
             | Some fields => Some (out ++ fields, ell, "")
             end
      | _ =>
        let out' := out ++ [Z.shiftr acc 8; Z.land acc 255] in
        match r with
        | "" => Some (out', ell, "")
        | String ":" "" => None
        | String ":" (String ":" r2) =>
          match ell with
          | Some _ => None
          | None => if String.eqb r2 "" then Some (out', Some (length out'), "")
                    else parseIPv6Loop fuel r2 out' (Some (length out'))
          end
        | String ":" r1 => parseIPv6Loop fuel r1 out' ell
        | _ => None
        end
      end
    end
  end.
Definition parseIPv6 (s : string) : option (list Z) :=
  let '(s, ell, only) :=
    match CutPrefix "::" s with
    | Some r => (r, Some 0%nat, String.eqb r "")
    | None => (s, None, false)
    end in
  if only then Some (repeat 0 16)
  else match parseIPv6Loop 8 s [] ell with
  | None => None
  | Some (out, ell, rest) =>
    if negb (String.eqb rest "") then None
    else if (length out <? 16)%nat then
      match ell with
      | None => None
      | Some e => Some (take e out ++ repeat 0 (16 - length out) ++ drop e out)
      end
    else match ell with Some _ => None | None => Some out end
  end.

(** [netip.ParseAddr] decides by the first of '.', ':' and '%'. *)
Fixpoint addr_kind (s : string) : option ascii :=
  match s with
  | "" => None
  | String a r =>
    if Ascii.eqb a "."%char || Ascii.eqb a ":"%char || Ascii.eqb a "%"%char then Some a
    else addr_kind r
  end.
(** [net.ParseIP]: 16 bytes; an address with a zone is refused. *)
Definition ParseIP (s : string) : option ip :=
  match addr_kind s with
  | Some "."%char =>
    match parseIPv4 s with Some [a; b; c; d] => Some (IPv4 a b c d) | _ => None end
  | Some ":"%char => if ContainsByte s "%"%char then None else parseIPv6 s
  | _ => None
  end.

(** ** Printing *)
Definition v4_string (a b c d : Z) : string :=
  Itoa a +:+ "." +:+ Itoa b +:+ "." +:+ Itoa c +:+ "." +:+ Itoa d.

Fixpoint groups (x : list Z) : list Z :=
  match x with a :: b :: r => (a * 256 + b) :: groups r | _ => [] end.
Fixpoint zero_run (g : list Z) : nat :=
  match g with 0 :: r => S (zero_run r) | _ => O end.
(** The first longest run of at least two zero groups, as start and end. *)
Fixpoint zero_span (g : list Z) (i : nat) (best : option (nat * nat)) : option (nat * nat) :=
  match g with
  | [] => best
  | _ :: r =>
    let l := zero_run g in
    let better := match best with None => (2 <=? l)%nat | Some (s, e) => (e - s <? l)%nat end in
    zero_span r (S i) (if better then Some (i, (i + l)%nat) else best)
  end.
Fixpoint hex_trim (n : nat) (z : Z) : string :=
  match n with
  | O => ""
  | S n => (if z <? 16 then "" else hex_trim n (Z.shiftr z 4)) +:+ hexdigit (Z.land z 15)
  end.
Definition hexgroups (g : list Z) : string := Join (hex_trim 4 <$> g) ":".
Definition v6_string (x : list Z) : string :=
  let g := groups x in
  match zero_span g 0 None with
  | None => hexgroups g
  | Some (s, e) => hexgroups (take s g) +:+ "::" +:+ hexgroups (drop e g)
  end.

(** [IP.String] *)
Definition IP_String (x : ip) : string :=
  match x with
  | [] => "<nil>"
  | _ =>
    match To4 x with
    | Some [a; b; c; d] => v4_string a b c d
    | _ => if (length x =? 16)%nat then v6_string x else "?" +:+ EncodeToString x
    end
  end.

(** ** Samples of the parsers and printers *)
Example SplitHostPort_ok : SplitHostPort "[::1]:80" = Some ("::1", "80").
Proof. reflexivity. Qed.
Example SplitHostPort_bare : SplitHostPort "::1" = None.
Proof. reflexivity. Qed.
Example ParseIP_v6 : IP_String <$> ParseIP "2001:0db8:0:0::1:0:0" = Some "2001:db8::1:0:0".
Proof. reflexivity. Qed.
Example ParseIP_mapped : IP_String <$> ParseIP "::ffff:10.0.0.1" = Some "10.0.0.1".
Proof. reflexivity. Qed.

(** ** Round trip of IPv4 addresses *)

Definition is_byte (z : Z) : Prop := 0 <= z < 256.
Lemma byte_all (f : Z → bool) z : forallb f (seqZ 0 256) = true → is_byte z → f z = true.
Proof. intros Hf Hz. rewrite forallb_elem in Hf. apply Hf, elem_of_seqZ. unfold is_byte in Hz. lia. Qed.

(** A byte in decimal, without leading zeros. *)
Definition dec3 (z : Z) (r : string) : string :=
  let last := String (chr (48 + z mod 10)) r in
  if z <? 10 then last
  else let mid := String (chr (48 + z / 10 mod 10)) last in
       if z <? 100 then mid else String (chr (48 + z / 100)) mid.
Lemma Itoa_byte z r : is_byte z → Itoa z +:+ r = dec3 z r.
Proof.
  intros Hz. assert (Itoa z = dec3 z "") as ->.
  { apply String.eqb_eq, (byte_all (λ z, String.eqb (Itoa z) (dec3 z ""))); done. }
  unfold dec3. by repeat case_match.
Qed.

Section ParseDigits.
Context (fields : list Z).

Lemma parse_digit d r first prev val digLen :
  0 <= d < 10 → val * 10 + d <= 255 → (digLen = 1%nat → val ≠ 0) →
  parseIPv4Fields (String (chr (48 + d)) r) first prev val digLen fields =
  parseIPv4Fields r false (chr (48 + d)) (val * 10 + d) (S digLen) fields.
Proof.
  intros Hd Hv Hz. cbn [parseIPv4Fields]. rewrite byte_chr by lia.
  replace (48 + d - 48) with d by lia.
  rewrite (proj2 (Z.leb_le 48 (48 + d))), (proj2 (Z.leb_le (48 + d) 57)) by lia. cbn.
  destruct (Nat.eqb_spec digLen 1) as [E|E]; cbn.
  - rewrite (proj2 (Z.eqb_neq val 0)) by auto. by rewrite (proj2 (Z.ltb_ge 255 _)) by lia.
  - by rewrite (proj2 (Z.ltb_ge 255 _)) by lia.
Qed.
(** After an octet the loop holds its value, and the last byte is a digit. *)
Lemma parse_octet z r first prev :
  is_byte z → ∃ p n, Ascii.eqb p "."%char = false ∧
  parseIPv4Fields (Itoa z +:+ r) first prev 0 0 fields = parseIPv4Fields r false p z n fields.
Proof.
  intros Hz. rewrite Itoa_byte by done. unfold is_byte in Hz.
  assert (∀ d, 0 <= d < 10 → Ascii.eqb (chr (48 + d)) "."%char = false) as Hdot.
  { intros d Hd. apply Ascii.eqb_neq. intros E. apply (f_equal byte) in E.
    rewrite byte_chr in E by lia. vm_compute (byte ".") in E. lia. }
  pose proof (Z.mod_pos_bound z 10). pose proof (Z.mod_pos_bound (z / 10) 10).
  pose proof (Z.div_mod z 10). pose proof (Z.div_mod (z / 10) 10).
  assert (z / 10 / 10 = z / 100) as E100 by (rewrite Z.div_div by lia; done).
  unfold dec3. repeat case_match; bool_prop; eexists _, _;
    (split; [apply (Hdot (z mod 10)); lia|]);
    rewrite ?parse_digit by lia; f_equal; lia.
Qed.
Lemma parse_dot r p val n :
  Ascii.eqb p "."%char = false → r ≠ "" → (length fields < 3)%nat →
  parseIPv4Fields (String "." r) false p val n fields =
  parseIPv4Fields r false "."%char 0 0 (fields ++ [val]).
Proof.
  intros Hp Hr Hl. cbn -[Ascii.eqb]. rewrite Hp. destruct r; [done|]. cbn.
  destruct (Nat.eqb_spec (length fields) 3); [lia|done].
Qed.
End ParseDigits.

Lemma Itoa_byte_ne z r : is_byte z → Itoa z +:+ r ≠ "".
Proof. intros. rewrite Itoa_byte by done. unfold dec3. by repeat case_match. Qed.

Lemma parseIPv4_string a b c d :
  is_byte a → is_byte b → is_byte c → is_byte d → parseIPv4 (v4_string a b c d) = Some [a; b; c; d].
Proof.
  intros Ha Hb Hc Hd. unfold parseIPv4, v4_string.
  edestruct (parse_octet [] a) as (? & ? & ? & ->); [done|]. rewrite append_cons, append_nil_l.
  rewrite parse_dot; [|done|by apply Itoa_byte_ne|cbn; lia].
  edestruct (parse_octet [a] b) as (? & ? & ? & ->); [done|]. rewrite append_cons, append_nil_l.
  rewrite parse_dot; [|done|by apply Itoa_byte_ne|cbn; lia].
  edestruct (parse_octet [a; b] c) as (? & ? & ? & ->); [done|]. rewrite append_cons, append_nil_l.
  rewrite <- (append_nil_r (Itoa d)).
  rewrite parse_dot; [|done|by apply Itoa_byte_ne|cbn; lia].
  edestruct (parse_octet [a; b; c] d) as (? & ? & ? & ->); done.
Qed.

(** An address printed with [String] is read back by [ParseIP]. *)
Lemma ParseIP_v4_string a b c d :
  is_byte a → is_byte b → is_byte c → is_byte d →
  ParseIP (v4_string a b c d) = Some (IPv4 a b c d).
Proof.
  intros. unfold ParseIP.
  assert (addr_kind (v4_string a b c d) = Some "."%char) as ->;
    [|by rewrite parseIPv4_string].
  unfold v4_string. rewrite Itoa_byte by done. unfold is_byte in *.
  assert (∀ d r, 0 <= d < 10 → addr_kind (String (chr (48 + d)) r) = addr_kind r) as Hdig.
  { intros e r He. cbn [addr_kind].
    rewrite !(proj2 (Ascii.eqb_neq _ _)); [done|..]; intros E; apply (f_equal byte) in E;
      rewrite byte_chr in E by lia; vm_compute (byte _) in E; lia. }
  pose proof (Z.mod_pos_bound a 10). pose proof (Z.mod_pos_bound (a / 10) 10).
  assert (a >= 100 → 0 <= a / 100 < 10).
  { split; [apply Z.div_pos|apply Z.div_lt_upper_bound]; lia. }
  unfold dec3. repeat case_match; bool_prop; rewrite ?Hdig by lia; done.
Qed.

Lemma To4_IPv4 a b c d : To4 (IPv4 a b c d) = Some [a; b; c; d].
Proof. done. Qed.
Lemma IP_String_IPv4 a b c d : IP_String (IPv4 a b c d) = v4_string a b c d.
Proof. done. Qed.

(** ** Splitting a plain host and port *)
Definition plain (s : string) : bool :=
  negb (ContainsByte s ":"%char) && negb (ContainsByte s "["%char) && negb (ContainsByte s "]"%char).
Lemma plain_spec s :
  plain s = true ↔ ContainsByte s ":"%char = false ∧ ContainsByte s "["%char = false ∧
                   ContainsByte s "]"%char = false.
Proof. unfold plain. rewrite !andb_true_iff, !negb_true_iff. tauto. Qed.
Lemma SplitHostPort_plain h p :
  plain h = true → plain p = true → SplitHostPort (h +:+ ":" +:+ p) = Some (h, p).
Proof.
  rewrite !plain_spec. intros (h1 & h2 & h3) (p1 & p2 & p3).
  change (":" +:+ p) with (String ":" p).
  unfold SplitHostPort. rewrite LastIndexByte_app by done.
  assert (drop_str (S (String.length h)) (h +:+ String ":" p) = p) as ->.
  { change (String ":" p) with (":" +:+ p). rewrite <- append_assoc.
    replace (S (String.length h)) with (String.length (h +:+ ":"))
      by (rewrite length_append; cbn; lia). apply drop_str_app. }
  rewrite take_str_app.
  assert (drop_str 0 (h +:+ String ":" p) = h +:+ String ":" p) as -> by done.
  change (String ":" p) with (":" +:+ p). rewrite !ContainsByte_append.
  change colon with ":"%char. rewrite h1, h2, h3, p2, p3. cbn -[String.append].
  destruct h as [|a h]; [done|]. rewrite append_cons.
  assert (a ≠ "["%char) as Ha.
  { intros ->. unfold ContainsByte in h2. cbn in h2. done. }
  destruct a as [[][][][][][][][]]; try done.
Qed.
Lemma plain_class s : all_bytes (λ r, alnum r || (r =? 45) || (r =? 46)) s = true → plain s = true.
Proof.
  intros H. unfold plain. by rewrite !(ContainsByte_class _ _ _ H).
Qed.
