(* ===== verification/Policy.v ===== *)
(** * The egress policy (internal/network/policy.go)

    The allowlist a guest's network is built from, its validation, and the
    in-process test [Allows]. *)
From S2P Require Import Prelude GoUnicode GoStrings GoError GoNet.

Definition PolicyDeny : string := "deny".
Definition PolicyAllow : string := "allow".

Record Policy := mkPolicy { DefaultPolicy : string; Allowlist : list string }.
#[export] Instance Policy_eq_dec : EqDecision Policy.
Proof. solve_decision. Defined.

(** [network.Default] *)
Definition Default : Policy := mkPolicy PolicyDeny [].

(** The loop of [Validate]: the first entry that is empty once trimmed. *)
Fixpoint empty_entry (i : Z) (l : list string) : option error :=
  match l with
  | [] => None
  | entry :: r =>
    if String.eqb (TrimSpace entry) "" then Some (New ("allowlist[" +:+ Itoa i +:+ "] is empty"))
    else empty_entry (i + 1) r
  end.
Definition Policy_Validate (p : Policy) : option error :=
  if String.eqb (DefaultPolicy p) PolicyDeny then empty_entry 0 (Allowlist p)
  else if String.eqb (DefaultPolicy p) PolicyAllow then
    Some (New ("default_policy " +:+ Quote (DefaultPolicy p) +:+ " is not allowed; Warden is fail-closed"))
  else Some (New ("default_policy " +:+ Quote (DefaultPolicy p) +:+ " is unknown")).

(** [network.Load]; the file system and encoding/json are arguments. *)
Definition Load (readFile : string → result string) (decode : string → Policy → result Policy)
    (path : string) : result Policy :=
  match readFile path with
  | Err err => Err (Wrap ("read egress policy " +:+ path +:+ ": ") err "")
  | Ok data =>
    match decode data Default with
    | Err err => Err (Wrap ("parse egress policy " +:+ path +:+ ": ") err "")
    | Ok p =>
      match Policy_Validate p with
      | Some err => Err (Wrap ("invalid egress policy " +:+ path +:+ ": ") err "")
      | None => Ok p
      end
    end
  end.

Record StaticFilter := mkFilter { policy : Policy }.
Definition NewStaticFilter (p : Policy) : result StaticFilter :=
  match Policy_Validate p with
  | Some err => Err err
  | None => Ok (mkFilter p)
  end.
Definition StaticFilter_Policy (f : StaticFilter) : Policy :=
  mkPolicy (DefaultPolicy (policy f)) (Allowlist (policy f)).

(** One round of the loop of [Allows]. *)
Definition entry_allows (hostport host raw : string) : bool :=
  let entry := TrimSpace (ToLower raw) in
  if String.eqb entry hostport || String.eqb entry host then true
  else match SplitHostPort entry with
       | Some (entryHost, _) => String.eqb entryHost host || String.eqb entry hostport
       | None => false
       end.
Definition host_of (hostport : string) : string :=
  match SplitHostPort hostport with Some (host, _) => host | None => hostport end.
Definition Allows (f : StaticFilter) (hostport : string) : bool :=
  let hostport := TrimSpace (ToLower hostport) in
  if String.eqb hostport "" then false
  else existsb (entry_allows hostport (host_of hostport)) (Allowlist (policy f)).

(** ** Specification *)

(** A policy the process may run with. *)
Definition closed_policy (p : Policy) : Prop :=
  DefaultPolicy p = PolicyDeny ∧ ∀ e, e ∈ Allowlist p → TrimSpace e ≠ "".

Lemma empty_entry_None i l : empty_entry i l = None ↔ ∀ e, e ∈ l → TrimSpace e ≠ "".
Proof.
  revert i. induction l as [|a l IH]; intros i; cbn.
  - split; [intros _ e []%not_elem_of_nil|done].
  - destruct (String.eqb_spec (TrimSpace a) "") as [E|E].
    + split; [done|]. intros H. exfalso. by apply (H a); [left|].
    + rewrite IH. split; [|intros H e He; apply H; by right].
      intros H e [->|He]%elem_of_cons; auto.
Qed.

Lemma Policy_Validate_spec p : Policy_Validate p = None ↔ closed_policy p.
Proof.
  unfold Policy_Validate, closed_policy.
  destruct (String.eqb_spec (DefaultPolicy p) PolicyDeny) as [E|E].
  - rewrite empty_entry_None. naive_solver.
  - case_match; naive_solver.
Qed.
Lemma Default_valid : Policy_Validate Default = None.
Proof. reflexivity. Qed.

(** The host an allowlist entry stands for, with or without a port. *)
Definition entry_matches (hostport raw : string) : Prop :=
  let entry := TrimSpace (ToLower raw) in
  entry = hostport ∨ entry = host_of hostport ∨
  ∃ port, SplitHostPort entry = Some (host_of hostport, port).

Lemma entry_allows_spec hostport raw :
  entry_allows hostport (host_of hostport) raw = true ↔ entry_matches hostport raw.
Proof.
  unfold entry_allows, entry_matches. set (e := TrimSpace _). set (h := host_of _).
  destruct (String.eqb_spec e hostport); destruct (String.eqb_spec e h); cbn; [naive_solver..|].
  destruct (SplitHostPort e) as [[eh p]|]; [|naive_solver].
  destruct (String.eqb_spec eh h); cbn; naive_solver.
Qed.
Lemma Allows_spec f hp :
  Allows f hp = true ↔
  TrimSpace (ToLower hp) ≠ "" ∧
  ∃ raw, raw ∈ Allowlist (policy f) ∧ entry_matches (TrimSpace (ToLower hp)) raw.
Proof.
  unfold Allows. destruct (String.eqb_spec (TrimSpace (ToLower hp)) ""); [naive_solver|].
  rewrite existsb_elem. setoid_rewrite entry_allows_spec. naive_solver.
Qed.

(** ** Properties *)

(** (safety) A filter exists only for a policy that denies by default and
    whose entries are not blank, and it lets a destination through exactly when
    an entry of the list is that destination, its host, or its host with some
    port, case and surrounding space aside; in particular nothing passes an
    empty list. *)
Theorem StaticFilter_default_deny p f hp :
  NewStaticFilter p = Ok f →
  DefaultPolicy (StaticFilter_Policy f) = PolicyDeny ∧
  (∀ e, e ∈ Allowlist (StaticFilter_Policy f) → TrimSpace e ≠ "") ∧
  (Allows f hp = true ↔
   TrimSpace (ToLower hp) ≠ "" ∧
   ∃ raw, raw ∈ Allowlist p ∧ entry_matches (TrimSpace (ToLower hp)) raw).
Proof.
  unfold NewStaticFilter. destruct (Policy_Validate p) eqn:Hv; [done|]. intros [= <-].
  apply Policy_Validate_spec in Hv as [Hd He]. split_and!; [done..|apply Allows_spec].
Qed.
Definition pypi_policy : Policy := mkPolicy "deny" ["PyPI.org:443"; "10.0.0.7"].
Lemma StaticFilter_default_deny_witness :
  Allows (mkFilter pypi_policy) "pypi.org:443" = true ∧
  ¬ (Allows (mkFilter pypi_policy) "evil.org:443" = true).
Proof.
  split.
  - apply (StaticFilter_default_deny pypi_policy (mkFilter pypi_policy) "pypi.org:443" eq_refl).
    split; [vm_compute; discriminate|]. exists "PyPI.org:443". split; [left|].
    left. vm_compute. reflexivity.
  - vm_compute. discriminate.
Defined.

(** Lower-case host names and numeric ports. *)
Definition host_rune (r : Z) : bool :=
  ((97 <=? r) && (r <=? 122)) || ascii_digit r || (r =? 45) || (r =? 46).
Lemma host_rune_bounds r : host_rune r = true → 0 <= r < 128 ∧ (r < 65 ∨ 90 < r).
Proof. unfold host_rune, ascii_digit. rewrite !orb_true_iff, !andb_true_iff. lia. Qed.
Lemma host_rune_plain s : all_bytes host_rune s = true → plain s = true.
Proof. intros H. unfold plain. by rewrite !(ContainsByte_class _ _ _ H). Qed.
(** A host with a port is its own normal form. *)
Lemma hostport_normal h p :
  all_bytes host_rune h = true → all_bytes ascii_digit p = true →
  TrimSpace (ToLower (h +:+ ":" +:+ p)) = h +:+ ":" +:+ p.
Proof.
  intros Hh Hp. set (cls := λ r, host_rune r || (r =? 58)).
  assert (all_bytes cls (h +:+ ":" +:+ p) = true) as Hc.
  { rewrite !all_bytes_append, !andb_true_iff. split_and!; [|done|].
    - apply (all_bytes_impl host_rune); [|done]. unfold cls. by intros r ->.
    - apply (all_bytes_impl ascii_digit); [|done]. unfold cls, host_rune. intros r ->.
      by rewrite orb_true_r. }
  rewrite (ToLower_class cls); [by apply (TrimSpace_class cls)| |done].
  unfold cls. intros r [Hr|Hr]%orb_true_iff; [by apply host_rune_bounds|]. lia.
Qed.

(** (functional) A port in an entry does not restrict: an entry for one port
    of a host lets every other port of that host through. *)
Theorem Allows_ignores_ports f h p1 p2 :
  all_bytes host_rune h = true → all_bytes ascii_digit p1 = true → all_bytes ascii_digit p2 = true →
  h ≠ "" → h +:+ ":" +:+ p1 ∈ Allowlist (policy f) → Allows f (h +:+ ":" +:+ p2) = true.
Proof.
  intros Hh H1 H2 Hne Hin. assert (∀ p, all_bytes ascii_digit p = true → plain p = true) as Hd.
  { intros p Hp. apply host_rune_plain. eapply all_bytes_impl, Hp. unfold host_rune. intros r ->.
    by rewrite orb_true_r. }
  assert (∀ p, all_bytes ascii_digit p = true → host_of (h +:+ ":" +:+ p) = h) as Ho.
  { intros p Hp. unfold host_of. rewrite SplitHostPort_plain; auto using host_rune_plain. }
  apply Allows_spec. rewrite hostport_normal by done. split; [by destruct h|].
  eexists; split; [exact Hin|]. right; right. exists p1.
  rewrite hostport_normal by done. rewrite Ho by done.
  rewrite SplitHostPort_plain; auto using host_rune_plain.
Qed.
Lemma Allows_ignores_ports_witness :
  Allows (mkFilter (mkPolicy "deny" ["db.internal:5432"])) "db.internal:22" = true.
Proof.
  apply (Allows_ignores_ports (mkFilter (mkPolicy "deny" ["db.internal:5432"])) "db.internal" "5432" "22");
    [reflexivity..|discriminate|left].
Defined.
