(* ===== verification/GoPath.v ===== *)
(** * Package path/filepath (on Unix)

    [Clean] by the rules of its documentation: empty and "." elements go,
    ".." removes the element before it, and a rooted path keeps no ".." at its
    front.  [Join], [Base] and [IsAbs] as the package defines them. *)
From S2P Require Import Prelude GoUnicode GoStrings.

Definition slash : ascii := "/"%char.

Definition IsAbs (p : string) : bool := HasPrefix p "/".

(** The stack of elements kept so far, last first. *)
Definition clean_step (rooted : bool) (st : list string) (e : string) : list string :=
  if String.eqb e "" || String.eqb e "." then st
  else if String.eqb e ".." then
    match st with
    | top :: st' => if String.eqb top ".." then ".." :: st else st'
    | [] => if rooted then [] else [".."]
    end
  else e :: st.
Definition clean_elems (rooted : bool) (es : list string) : list string :=
  rev (fold_left (clean_step rooted) es []).
Definition Clean (p : string) : string :=
  let rooted := IsAbs p in
  let body := Join (clean_elems rooted (SplitByte p slash)) "/" in
  if rooted then "/" +:+ body
  else if String.eqb body "" then "." else body.

(** [filepath.Join]: the non-empty elements joined and cleaned. *)
Definition path_join (es : list string) : string :=
  match List.filter (λ e, negb (String.eqb e "")) es with
  | [] => ""
  | es' => Clean (Join es' "/")
  end.

Definition Base (p : string) : string :=
  if String.eqb p "" then "."
  else
    let p := trim_right ["/"] p in
    let p := match LastIndexByte p slash with Some i => drop_str (S i) p | None => p end in
    if String.eqb p "" then "/" else p.

Example Clean_1 : Clean "/a/./b/../c//" = "/a/c".
Proof. reflexivity. Qed.
Example Clean_2 : Clean "../a/../../b" = "../../b".
Proof. reflexivity. Qed.
Example Join_1 : path_join ["data/vms"; "fc-1"; ""] = "data/vms/fc-1".
Proof. reflexivity. Qed.

(** ** Elements: strings that are one component of a path *)

(** A name that a path has as one element: no slash, not empty, not "." or "..". *)
Definition element (e : string) : bool :=
  negb (ContainsByte e slash) && negb (String.eqb e "") &&
  negb (String.eqb e ".") && negb (String.eqb e "..").

Lemma element_spec e :
  element e = true ↔ ContainsByte e slash = false ∧ e ≠ "" ∧ e ≠ "." ∧ e ≠ "..".
Proof. unfold element. rewrite !andb_true_iff, !negb_true_iff, !String.eqb_neq. tauto. Qed.

(** [Base] returns its argument exactly when it has no slash. *)
Lemma Base_id e : ContainsByte e slash = false → e ≠ "" → Base e = e.
Proof.
  intros He Hne. unfold Base. destruct (String.eqb_spec e "") as [->|_]; [done|].
  rewrite trim_right_id.
  - rewrite LastIndexByte_None by done. by destruct (String.eqb_spec e "").
  - intros p ->%list_elem_of_singleton. destruct (CutSuffix "/" e) as [r|] eqn:E; [|done].
    apply CutSuffix_Some in E as ->. rewrite ContainsByte_append in He.
    by apply orb_false_iff in He as [_ ?].
Qed.
Lemma LastIndexByte_drop s c i :
  LastIndexByte s c = Some i → ContainsByte (drop_str (S i) s) c = false.
Proof.
  revert i. induction s as [|a s IH]; intros i; [done|]. cbn.
  destruct (LastIndexByte s c) as [j|] eqn:E.
  - intros [= <-]. cbn. by apply IH.
  - destruct (Ascii.eqb_spec a c) as [->|]; [|done]. intros [= <-]. cbn.
    clear IH. apply IndexByte_None. induction s as [|b s IH]; [by destruct c|].
    cbn in *. destruct (LastIndexByte s c); [done|]. destruct (Ascii.eqb b c); [done|].
    by rewrite IH.
Qed.
Lemma Base_fix e : e = Base e → e ≠ "/" → e ≠ "" ∧ ContainsByte e slash = false.
Proof.
  unfold Base. destruct (String.eqb_spec e "") as [->|Hne]; [done|].
  set (p := trim_right ["/"] e).
  destruct (LastIndexByte p slash) as [i|] eqn:E.
  - destruct (String.eqb_spec (drop_str (S i) p) "") as [E2|E2]; [done|].
    intros He _. split; [done|]. rewrite He. by apply LastIndexByte_drop.
  - destruct (String.eqb_spec p "") as [E2|E2]; [done|]. intros He _. split; [done|].
    destruct (ContainsByte e slash) eqn:Ec; [|done]. rewrite He in Ec.
    exfalso. clear -E Ec. unfold ContainsByte in Ec.
    induction p as [|b p IH]; [done|]. cbn in *.
    destruct (LastIndexByte p slash); [done|]. destruct (Ascii.eqb b slash); [done|].
    apply IH; [done|]. by destruct (IndexByte p slash).
Qed.

(** ** Joining an element to a clean directory *)

Lemma HasPrefix_append a b p :
  String.length p = 1%nat → a ≠ "" → HasPrefix (a +:+ b) p = HasPrefix a p.
Proof.
  intros Hp Ha. destruct p as [|x [|]]; try done. destruct a as [|y a]; [done|].
  rewrite append_cons. unfold HasPrefix. cbn. by destruct (Ascii.eqb x y).
Qed.
Lemma clean_elems_snoc rooted es e :
  element e = true → clean_elems rooted (es ++ [e]) = clean_elems rooted es ++ [e].
Proof.
  rewrite element_spec. intros (_ & h1 & h2 & h3). unfold clean_elems. rewrite fold_left_app.
  cbn [fold_left]. unfold clean_step at 1.
  rewrite !(proj2 (String.eqb_neq _ _)) by done. cbn. done.
Qed.

(** The cleaned elements of a path and whether it is rooted: its identity. *)
Definition path_id (p : string) : bool * list string :=
  (IsAbs p, clean_elems (IsAbs p) (SplitByte p slash)).
Definition path_text (i : bool * list string) : string :=
  let body := Join i.2 "/" in
  if i.1 then "/" +:+ body else if String.eqb body "" then "." else body.
Lemma Clean_text p : Clean p = path_text (path_id p).
Proof. done. Qed.

(** [filepath.Join(dir, e)] is [dir] with one more element. *)
Lemma path_join_element dir e :
  dir ≠ "" → element e = true →
  path_join [dir; e] = path_text ((path_id dir).1, (path_id dir).2 ++ [e]).
Proof.
  intros Hd He. unfold path_join. cbn [List.filter].
  pose proof (proj1 (element_spec e) He) as (hs & h1 & _).
  rewrite !(proj2 (String.eqb_neq _ _)) by done. cbn [negb].
  change (Join [dir; e] "/") with (dir +:+ "/" +:+ e).
  rewrite Clean_text. unfold path_id. unfold IsAbs at 1 2.
  rewrite HasPrefix_append by done. fold (IsAbs dir).
  change ("/" +:+ e) with (String slash e). rewrite SplitByte_app, (SplitByte_plain e) by done.
  by rewrite clean_elems_snoc.
Qed.

(** ** Cleaned paths

    The stack of [Clean], last element first: proper elements, and ".." only
    at the front of a path that is not rooted. *)
Fixpoint stack_ok (rooted : bool) (st : list string) : Prop :=
  match st with
  | [] => True
  | e :: st =>
    ContainsByte e slash = false ∧ e ≠ "" ∧ e ≠ "." ∧
    (e = ".." → rooted = false ∧ match st with [] => True | top :: _ => top = ".." end) ∧
    stack_ok rooted st
  end.
Lemma stack_ok_step rooted st e :
  stack_ok rooted st → ContainsByte e slash = false → stack_ok rooted (clean_step rooted st e).
Proof.
  intros Hst He. unfold clean_step.
  destruct (String.eqb_spec e ""), (String.eqb_spec e "."); cbn; try done.
  destruct (String.eqb_spec e "..") as [->|]; [|cbn; naive_solver].
  destruct st as [|top st]; [destruct rooted; cbn; naive_solver|].
  destruct (String.eqb_spec top "..") as [->|].
  - destruct Hst as (? & ? & ? & H & ?). cbn. destruct (H eq_refl). naive_solver.
  - by destruct Hst as (_ & _ & _ & _ & ?).
Qed.
Lemma clean_step_ok rooted st e : stack_ok rooted (e :: st) → clean_step rooted st e = e :: st.
Proof.
  intros (_ & H1 & H2 & H3 & _). unfold clean_step.
  rewrite (proj2 (String.eqb_neq e "") H1), (proj2 (String.eqb_neq e ".") H2). cbn.
  destruct (String.eqb_spec e "..") as [->|]; [|done]. destruct (H3 eq_refl) as [-> Ht].
  destruct st as [|top st]; [done|]. rewrite Ht. done.
Qed.
Lemma fold_stack rooted st : stack_ok rooted st → fold_left (clean_step rooted) (rev st) [] = st.
Proof.
  induction st as [|e st IH]; [done|]. intros H. cbn [rev]. rewrite fold_left_app. cbn [fold_left].
  rewrite IH by apply H. by apply clean_step_ok.
Qed.

Lemma SplitByte_elems s c e : e ∈ SplitByte s c → ContainsByte e c = false.
Proof.
  revert e. induction s as [|a s IH]; intros e; cbn.
  - by intros ->%list_elem_of_singleton.
  - destruct (Ascii.eqb_spec a c) as [->|Hne].
    + intros [->|H]%elem_of_cons; [done|by apply IH].
    + destruct (SplitByte s c) as [|h t] eqn:E; [by apply SplitByte_ne in E|].
      intros [->|H]%elem_of_cons; [|apply IH; by right].
      apply IndexByte_None. cbn [IndexByte]. rewrite (proj2 (Ascii.eqb_neq a c) Hne).
      by rewrite (proj2 (IndexByte_None h c) (IH h ltac:(by left))).
Qed.

(** The identity of a cleaned path. *)
Definition id_ok (i : bool * list string) : Prop := stack_ok i.1 (rev i.2).
Lemma path_id_ok p : id_ok (path_id p).
Proof.
  unfold id_ok, path_id, clean_elems. cbn [fst snd]. rewrite rev_involutive.
  set (r := IsAbs p). clearbody r.
  assert (∀ l st, stack_ok r st → (∀ e, e ∈ l → ContainsByte e slash = false) →
    stack_ok r (fold_left (clean_step r) l st)) as H.
  { induction l as [|e l IH]; intros st Hst Hl; [done|]. cbn. apply IH.
    - apply stack_ok_step; [done|]. apply Hl. by left.
    - intros e' He'. apply Hl. by right. }
  apply H; [done|]. intros e. apply SplitByte_elems.
Qed.
Lemma id_ok_snoc r es e : id_ok (r, es) → element e = true → id_ok (r, es ++ [e]).
Proof.
  unfold id_ok. cbn. rewrite rev_app_distr. cbn. intros H (? & ? & ? & ?)%element_spec. naive_solver.
Qed.
Lemma stack_ok_elem r st e : stack_ok r st → e ∈ st → ContainsByte e slash = false ∧ e ≠ "".
Proof.
  induction st as [|a st IH]; [by intros _ ?%not_elem_of_nil|].
  intros (? & ? & _ & _ & ?) [->|?]%elem_of_cons; auto.
Qed.
Lemma id_ok_elem r es x : id_ok (r, es) → x ∈ es → ContainsByte x slash = false ∧ x ≠ "".
Proof.
  intros Hok Hx. eapply stack_ok_elem; [exact Hok|]. cbn [snd].
  by rewrite list_elem_of_In, <- in_rev, <- list_elem_of_In.
Qed.
Lemma Join_split es : es ≠ [] → (∀ e, e ∈ es → ContainsByte e slash = false) →
  SplitByte (Join es "/") slash = es.
Proof.
  induction es as [|e es IH]; [done|]. intros _ H. destruct es as [|e' es].
  - apply SplitByte_plain, H. by left.
  - change (Join (e :: e' :: es) "/") with (e +:+ String slash (Join (e' :: es) "/")).
    rewrite SplitByte_app, SplitByte_plain, IH; [done|done| |apply H; by left].
    intros x Hx. apply H. by right.
Qed.
Lemma Join_ne es : es ≠ [] → (∀ e, e ∈ es → e ≠ "") → Join es "/" ≠ "" ∧
  ∀ e r, es = e :: r → IsAbs (Join es "/") = IsAbs e.
Proof.
  destruct es as [|e es]; [done|]. intros _ H. assert (e ≠ "") by (apply H; by left).
  destruct es as [|e' es]; [by split; [|intros ? ? [= <- <-]]|].
  change (Join (e :: e' :: es) "/") with (e +:+ ("/" +:+ Join (e' :: es) "/")). split.
  - by destruct e.
  - intros ? ? [= <- <-]. unfold IsAbs. by apply HasPrefix_append.
Qed.
Lemma noslash_rel e : ContainsByte e slash = false → IsAbs e = false.
Proof.
  unfold IsAbs, ContainsByte. destruct (HasPrefix e "/") eqn:E; [|done].
  apply HasPrefix_spec in E as [r ->]. cbn. done.
Qed.

(** A cleaned path is its own clean form. *)
Lemma path_id_text r es : id_ok (r, es) → es ≠ [] → path_id (path_text (r, es)) = (r, es).
Proof.
  intros Hok Hne. assert (∀ e, e ∈ es → ContainsByte e slash = false ∧ e ≠ "") as He.
  { intros e Hin. by eapply id_ok_elem. }
  destruct (Join_ne es Hne (λ e H, proj2 (He e H))) as [Hj Ha].
  assert (SplitByte (Join es "/") slash = es) as Hs by (apply Join_split; [done|]; intros; by apply He).
  assert (clean_elems r es = es) as Hc.
  { unfold clean_elems, id_ok in *. cbn in Hok. rewrite <- (rev_involutive es) at 1.
    rewrite fold_stack by done. apply rev_involutive. }
  unfold path_id, path_text. cbn [fst snd]. destruct r.
  - change ("/" +:+ Join es "/") with (String slash (Join es "/")).
    assert (IsAbs (String slash (Join es "/")) = true) as ->
      by (apply HasPrefix_spec; by exists (Join es "/")).
    f_equal. cbn [SplitByte]. rewrite Ascii.eqb_refl, Hs. done.
  - rewrite (proj2 (String.eqb_neq _ _) Hj).
    assert (IsAbs (Join es "/") = false) as ->; [|by rewrite Hs, Hc].
    destruct es as [|e es]; [done|]. rewrite (Ha e es eq_refl). apply noslash_rel, He. by left.
Qed.
Lemma path_text_ne i : path_text i ≠ "".
Proof.
  unfold path_text. destruct (i.1); [done|]. destruct (String.eqb_spec (Join i.2 "/") ""); done.
Qed.
Lemma path_text_snoc r es e : es ≠ [] → path_text (r, es ++ [e]) = path_text (r, es) +:+ "/" +:+ e ∨
  Join es "/" = "".
Proof.
  intros Hne. destruct (decide (Join es "/" = "")) as [?|Hj]; [by right|left].
  assert (Join (es ++ [e]) "/" = Join es "/" +:+ "/" +:+ e) as Hs.
  { clear Hj. induction es as [|a es IH]; [done|]. destruct es as [|b es]; [done|].
    change (a +:+ "/" +:+ Join ((b :: es) ++ [e]) "/" = (a +:+ "/" +:+ Join (b :: es) "/") +:+ "/" +:+ e).
    rewrite IH by done. by rewrite !append_assoc. }
  unfold path_text. cbn [fst snd]. rewrite Hs. destruct r; [by rewrite append_assoc|].
  rewrite (proj2 (String.eqb_neq _ _) Hj). destruct (String.eqb_spec (Join es "/" +:+ "/" +:+ e) "") as [E|]; [|done].
  by destruct (Join es "/").
Qed.

(** Joining an element adds it to the path, and keeps it absolute, or relative. *)
Lemma path_id_join dir e :
  dir ≠ "" → element e = true →
  path_id (path_join [dir; e]) = ((path_id dir).1, (path_id dir).2 ++ [e]).
Proof.
  intros Hd He. rewrite path_join_element by done.
  apply path_id_text; [|by destruct (path_id dir).2].
  apply id_ok_snoc; [apply path_id_ok|done].
Qed.
Lemma path_join_IsAbs dir e : dir ≠ "" → element e = true → IsAbs (path_join [dir; e]) = IsAbs dir.
Proof. intros Hd He. exact (f_equal fst (path_id_join dir e Hd He)). Qed.
Lemma path_join_ne dir e : dir ≠ "" → element e = true → path_join [dir; e] ≠ "".
Proof. intros Hd He. rewrite path_join_element by done. apply path_text_ne. Qed.

(** Joining an element to a path that was itself made by joining one. *)
Lemma path_join_under r es e :
  id_ok (r, es) → es ≠ [] → element e = true →
  path_join [path_text (r, es); e] = path_text (r, es) +:+ "/" +:+ e.
Proof.
  intros Hok Hne He. rewrite path_join_element by (done || apply path_text_ne).
  rewrite path_id_text by done. cbn [fst snd].
  destruct (path_text_snoc r es e Hne) as [->|Hj]; [done|].
  exfalso. revert Hj. apply Join_ne; [done|]. intros x Hx.
  by eapply id_ok_elem.
Qed.
(** Joining two parts and an element. *)
Lemma path_join3 a b e :
  a ≠ "" → b ≠ "" → element e = true →
  path_join [a; b; e] =
  path_text ((path_id (a +:+ "/" +:+ b)).1, (path_id (a +:+ "/" +:+ b)).2 ++ [e]).
Proof.
  intros Ha Hb He. pose proof (proj1 (element_spec e) He) as (_ & Hi & _).
  assert (a +:+ "/" +:+ b ≠ "") as Hd by (by destruct a).
  rewrite <- path_join_element by done. unfold path_join. cbn [List.filter].
  rewrite !(proj2 (String.eqb_neq _ _)) by done. cbn [negb].
  change (Clean (a +:+ "/" +:+ b +:+ "/" +:+ e) = Clean ((a +:+ "/" +:+ b) +:+ "/" +:+ e)).
  by rewrite !append_assoc.
Qed.
