(* ===== verification/TapNames.v ===== *)
(** * Names and addresses of a VM's network (internal/network/tap.go, netns.go)

    How a VM or session id becomes a TAP, veth, netns and nft table name, and
    how the n-th link gets its /30 subnets and its MAC address. *)
From S2P Require Import Prelude GoUnicode GoStrings GoError GoNet.

(** ** Names *)

Definition tapName (id : string) : string :=
  let s := "w" +:+ Map (λ r, if alnum r then r else -1) id in
  let s := if 15 <? len s then take_str 15 s else s in
  if String.eqb s "w" then "wtap" else s.

Definition nftTable (id : string) : string :=
  "warden_" +:+ Map (λ r, if alnum r || (r =? 95) then r else 95) id.

Definition netnsName (id : string) : string :=
  let s := "warden-" +:+ Map (λ r, if alnum r || (r =? 45) then r else -1) id in
  let s := if String.eqb s "warden-" then "warden-tap" else s in
  if 128 <? len s then take_str 128 s else s.

Definition vethNames (tap : string) : string * string :=
  let base := TrimPrefix tap "w" in
  let base := if String.eqb base "" then "tap" else base in
  let host := "h" +:+ base in
  let ns := "g" +:+ base in
  ((if 15 <? len host then take_str 15 host else host),
   (if 15 <? len ns then take_str 15 ns else ns)).

Definition DefaultNetNSDir : string := "/var/run/netns".

(** ** Addresses *)

(** uint32 index, byte arithmetic. *)
Definition pair30 (b0 b1 n : Z) : result (ip * ip) :=
  if (n =? 0) || (16383 <? n) then
    Err (New ("tap: subnet index " +:+ Itoa n +:+ " out of range"))
  else
    let off := u32 ((n - 1) * 4) in
    let hi := u8 (Z.shiftr off 8) in
    let lo := u8 off in
    Ok ([b0; b1; hi; u8 (lo + 1)], [b0; b1; hi; u8 (lo + 2)]).
Definition subnet30 (n : Z) : result (ip * ip) := pair30 172 25 n.
Definition uplink30 (n : Z) : result (ip * ip) := pair30 172 27 n.

Definition macFromIP (x : ip) : string :=
  match To4 x with
  | Some [a; b; c; d] =>
    "06:00:" +:+ hex2 a +:+ ":" +:+ hex2 b +:+ ":" +:+ hex2 c +:+ ":" +:+ hex2 d
  | _ => "06:00:00:00:00:01"
  end.

(** ** Names are usable by the kernel *)

(** IFNAMSIZ leaves 15 bytes for the name of an interface. *)
Definition ifname (s : string) : Prop :=
  0 < len s <= 15 ∧ all_bytes alnum s = true.

Lemma Map_alnum f id :
  (∀ r, f r = r ∧ alnum r = true ∨ f r < 0) → all_bytes alnum (Map f id) = true.
Proof.
  intros Hf. apply (Map_class (λ a, alnum (byte a))). intros r Hr.
  destruct (Hf r) as [[E Ha]|]; [|lia]. rewrite E in *. pose proof (alnum_ascii r Ha).
  split; [done|]. by rewrite byte_chr by lia.
Qed.
Lemma Map_charclass (g : Z → bool) f id :
  (∀ r, g r = true → r < 128) → (∀ r, 0 <= f r → g (f r) = true) →
  all_bytes g (Map f id) = true.
Proof.
  intros Hg Hf. apply (Map_class (λ a, g (byte a))). intros r Hr.
  pose proof (Hg _ (Hf r Hr)). split; [done|]. rewrite byte_chr by lia. auto.
Qed.
Lemma len_take n s : len (take_str n s) = Z.min (Z.of_nat n) (len s).
Proof. unfold len. rewrite length_take_str. lia. Qed.
Lemma all_bytes_take f n s : all_bytes f s = true → all_bytes f (take_str n s) = true.
Proof. apply str_forallb_take. Qed.
Lemma len_cons a s : len (String a s) = len s + 1.
Proof. unfold len. cbn. lia. Qed.
Lemma truncated_class f n s :
  all_bytes f s = true → all_bytes f (if Z.of_nat n <? len s then take_str n s else s) = true.
Proof. intros. case_match; [by apply all_bytes_take|done]. Qed.
Lemma truncated_len n s :
  len (if Z.of_nat n <? len s then take_str n s else s) = Z.min (Z.of_nat n) (len s).
Proof. case_match; bool_prop; rewrite ?len_take; lia. Qed.

Definition tap_body (id : string) : string := Map (λ r, if alnum r then r else -1) id.
Lemma tap_body_alnum id : all_bytes alnum (tap_body id) = true.
Proof. apply Map_alnum. intros r. destruct (alnum r) eqn:E; [by left|right; lia]. Qed.

(** [tapName] in one equation: "w" and at most 14 letters or digits. *)
Lemma tapName_eq id :
  tapName id = "w" +:+ (if String.eqb (tap_body id) "" then "tap" else take_str 14 (tap_body id)).
Proof.
  unfold tapName. fold (tap_body id). change 15 with (Z.of_nat 15).
  destruct (tap_body id) as [|a s]; [done|]. change (String.eqb (String a s) "") with false.
  change ("w" +:+ String a s) with (String "w" (String a s)).
  destruct (Z.ltb_spec (Z.of_nat 15) (len (String "w" (String a s)))) as [H|H].
  - done.
  - rewrite take_str_all; [done|]. rewrite !len_cons in H. unfold len in H. cbn. lia.
Qed.

Lemma tapName_ifname id : ifname (tapName id).
Proof.
  rewrite tapName_eq. unfold ifname. rewrite len_append, all_bytes_append.
  change (all_bytes alnum "w") with true. change (len "w") with 1.
  case_match; [done|]. rewrite len_take, all_bytes_take by apply tap_body_alnum.
  pose proof (len_nonneg (tap_body id)). split; [lia|done].
Qed.

Lemma veth_ifname c base :
  alnum (byte c) = true → all_bytes alnum base = true → len base <= 14 →
  ifname (if 15 <? len (String c base) then take_str 15 (String c base) else String c base).
Proof.
  intros Hc Hb Hl. rewrite len_cons. rewrite (proj2 (Z.ltb_ge 15 (len base + 1))) by lia.
  unfold ifname. rewrite len_cons. pose proof (len_nonneg base). split; [lia|].
  change (alnum (byte c) && all_bytes alnum base = true). by rewrite Hc.
Qed.

(** ** Addresses *)

Definition ip_val (x : ip) : Z :=
  match x with [a; b; c; d] => ((a * 256 + b) * 256 + c) * 256 + d | _ => -1 end.
(** The /30 an address belongs to. *)
Definition net30 (x : ip) : Z := ip_val x / 4.

Lemma byte_split off : 0 <= off < 65536 →
  wrapu 8 (Z.shiftr off 8) * 256 + wrapu 8 off = off.
Proof.
  intros H. unfold wrapu. change (2 ^ 8) with 256. rewrite Z.shiftr_div_pow2 by lia.
  change (2 ^ 8) with 256. rewrite (Z.mod_small (off / 256)).
  - pose proof (Z.div_mod off 256). lia.
  - split; [apply Z.div_pos; lia|apply Z.div_lt_upper_bound; lia].
Qed.
(** Inside the range the byte arithmetic does not wrap: the two addresses are
    the first and second host of the (n-1)-th /30 of b0.b1.0.0/16. *)
Lemma pair30_in_range b0 b1 n :
  1 <= n <= 16383 →
  ∃ hi lo, pair30 b0 b1 n = Ok ([b0; b1; hi; lo + 1], [b0; b1; hi; lo + 2]) ∧
    is_byte hi ∧ 0 <= lo ∧ lo + 2 < 255 ∧ hi * 256 + lo = 4 * (n - 1).
Proof.
  intros Hn. unfold pair30.
  rewrite (proj2 (Z.eqb_neq n 0)), (proj2 (Z.ltb_ge 16383 n)) by lia. cbn [orb].
  assert (u32 ((n - 1) * 4) = 4 * (n - 1)) as ->.
  { unfold u32. rewrite wrapu_small; lia. }
  set (off := 4 * (n - 1)). pose proof (byte_split off) as Hoff.
  pose proof (wrapu_range 8 (Z.shiftr off 8)) as Hhi. pose proof (wrapu_range 8 off) as Hlo.
  unfold u8. set (hi := wrapu 8 (Z.shiftr off 8)) in *. set (lo := wrapu 8 off) in *.
  assert (lo <= 252).
  { assert (lo mod 4 = 0); [|lia].
    assert (lo = 4 * (n - 1 - hi * 64)) as -> by lia. rewrite Z.mul_comm. by apply Z.mod_mul. }
  exists hi, lo. rewrite !wrapu_small by lia. unfold is_byte. repeat split; lia.
Qed.
Lemma pair30_error b0 b1 n :
  (∃ e, pair30 b0 b1 n = Err e) ↔ n = 0 ∨ 16383 < n.
Proof.
  unfold pair30. destruct (Z.eqb_spec n 0); destruct (Z.ltb_spec 16383 n); cbn;
    (split; [intros [err ?]; first [lia|done]|intros; first [by eexists|lia]]).
Qed.
Lemma pair30_val b0 b1 n a b :
  0 <= n → pair30 b0 b1 n = Ok (a, b) →
  1 <= n <= 16383 ∧
  ip_val a = (b0 * 256 + b1) * 65536 + 4 * (n - 1) + 1 ∧
  ip_val b = (b0 * 256 + b1) * 65536 + 4 * (n - 1) + 2.
Proof.
  intros H0 H. assert (1 <= n <= 16383) as Hn.
  { destruct (decide (n = 0 ∨ 16383 < n)) as [E|E]; [|lia].
    apply (pair30_error b0 b1) in E as [e E]. congruence. }
  split; [done|]. destruct (pair30_in_range b0 b1 n Hn) as (hi & lo & E & _ & _ & _ & Hv).
  rewrite E in H. injection H as <- <-. unfold ip_val. lia.
Qed.
Lemma pair30_net b0 b1 n a b :
  0 <= n → pair30 b0 b1 n = Ok (a, b) →
  net30 a = (b0 * 256 + b1) * 16384 + (n - 1) ∧ net30 b = net30 a.
Proof.
  intros H0 H. apply pair30_val in H as (Hn & Ha & Hb); [|done]. unfold net30.
  rewrite Ha, Hb. split.
  - symmetry. apply (Z.div_unique _ 4 _ 1); lia.
  - rewrite <- (Z.div_unique _ 4 ((b0 * 256 + b1) * 16384 + (n - 1)) 2) by lia.
    apply (Z.div_unique _ 4 _ 1); lia.
Qed.

(** (safety) The links of two different indexes never share an address or
    a /30: on each of the index's two subnets host and guest are different
    addresses of one /30, and the four addresses of one index lie in other
    /30s than those of another index; TAP and uplink /30s never meet. *)
Theorem links_disjoint n m h1 g1 u1 v1 h2 g2 u2 v2 :
  0 <= n → 0 <= m → n ≠ m →
  subnet30 n = Ok (h1, g1) → uplink30 n = Ok (u1, v1) →
  subnet30 m = Ok (h2, g2) → uplink30 m = Ok (u2, v2) →
  (h1 ≠ g1 ∧ net30 h1 = net30 g1) ∧ (u1 ≠ v1 ∧ net30 u1 = net30 v1) ∧
  NoDup [net30 h1; net30 u1; net30 h2; net30 u2].
Proof.
  unfold subnet30, uplink30. intros Hn Hm Hne E1 E2 E3 E4.
  pose proof (pair30_val _ _ _ _ _ Hn E1) as (? & ? & ?).
  pose proof (pair30_val _ _ _ _ _ Hn E2) as (? & ? & ?).
  apply pair30_net in E1 as [N1 ?]; [|done]. apply pair30_net in E2 as [N2 ?]; [|done].
  pose proof (pair30_val _ _ _ _ _ Hm E3) as (? & ? & ?).
  apply pair30_net in E3 as [N3 ?]; [|done]. apply pair30_net in E4 as [N4 ?]; [|done].
  split; [|split]; [split; [intros ->; lia|congruence]..|].
  rewrite N1, N2, N3, N4. rewrite !NoDup_cons, !elem_of_cons.
  repeat split; try (intros Hx; repeat (destruct Hx as [Hx|Hx]; [lia|])); try apply NoDup_nil_2;
    by apply not_elem_of_nil in Hx.
Qed.

(** *** MAC addresses *)
Lemma hexdigit_inj x y : 0 <= x < 16 → 0 <= y < 16 → hexdigit x = hexdigit y → x = y.
Proof.
  assert (∀ z, 0 <= z < 16 → 0 <= (if z <? 10 then 48 + z else 87 + z) < 256) as Hr.
  { intros. case_match; lia. }
  intros Hx Hy [= E]. apply (f_equal byte) in E. rewrite !byte_chr in E by auto.
  repeat case_match; bool_prop; lia.
Qed.
Lemma hex2_inj x y r s :
  is_byte x → is_byte y → hex2 x +:+ r = hex2 y +:+ s → x = y ∧ r = s.
Proof.
  intros Hx Hy E. unfold is_byte in *.
  apply append_inj_len in E as [E ->]; [|done]. split; [|done].
  unfold hex2 in E. apply append_inj_len in E as [E1 E2]; [|done].
  apply hexdigit_inj in E1; [|rewrite Z.shiftr_div_pow2 by lia; change (2 ^ 4) with 16;
    split; [apply Z.div_pos; lia|apply Z.div_lt_upper_bound; lia]..].
  change 15 with (Z.ones 4) in E2. rewrite !Z.land_ones in E2 by lia.
  apply hexdigit_inj in E2; [|apply Z.mod_pos_bound; lia..].
  rewrite !Z.shiftr_div_pow2 in E1 by lia. change (2 ^ 4) with 16 in *.
  rewrite (Z.div_mod x 16), (Z.div_mod y 16) by lia. lia.
Qed.
Definition is_ip4 (x : ip) : Prop := length x = 4%nat ∧ Forall is_byte x.
Lemma macFromIP_inj x y : is_ip4 x → is_ip4 y → macFromIP x = macFromIP y → x = y.
Proof.
  intros [Hl Hx] [Hl' Hy].
  destruct x as [|a [|b [|c [|d [|]]]]]; try done.
  destruct y as [|a' [|b' [|c' [|d' [|]]]]]; try done.
  rewrite !Forall_cons in Hx, Hy. destruct Hx as (?&?&?&?&_), Hy as (?&?&?&?&_).
  unfold macFromIP. cbn [To4 length Nat.eqb]. intros E.
  apply append_inj_l, hex2_inj in E as [-> E]; [|done..].
  apply append_inj_l, hex2_inj in E as [-> E]; [|done..].
  apply append_inj_l, hex2_inj in E as [-> E]; [|done..].
  apply append_inj_l in E. rewrite <- (append_nil_r (hex2 d)), <- (append_nil_r (hex2 d')) in E.
  by apply hex2_inj in E as [-> _].
Qed.
Lemma links_disjoint_witness :
  subnet30 1 = Ok ([172; 25; 0; 1], [172; 25; 0; 2]) ∧
  NoDup [net30 [172; 25; 0; 1]; net30 [172; 27; 0; 1];
         net30 [172; 25; 255; 249]; net30 [172; 27; 255; 249]].
Proof.
  split; [reflexivity|].
  eapply (links_disjoint 1 16383 [172; 25; 0; 1] [172; 25; 0; 2] [172; 27; 0; 1] [172; 27; 0; 2]
    [172; 25; 255; 249] [172; 25; 255; 250] [172; 27; 255; 249] [172; 27; 255; 250]);
    [lia|lia|lia|reflexivity..].
Defined.
