(* ===== verification/Tap.v ===== *)
(** * The TAP factory (internal/network/tap.go, netns.go, nft.go)

    Creation and removal of the netns, TAP, veth and nft table in front of a
    VM.  The commands [ip], [nft] and [sysctl] are external: they are an
    argument [fn] of the model (the [Runner] of the source), which reads and
    changes a world of its own and answers with an error or nil. *)
From S2P Require Import Prelude GoUnicode GoStrings GoError GoNet GoPath Policy TapNames.

Record Link := mkLink {
  Name : string; HostIP : ip; GuestIP : ip; Prefix : Z; GuestMAC : string; Table : string;
  NetNS : string; NetNSPath : string; HostVeth : string; NSVeth : string;
  UplinkHost : ip; UplinkNS : ip
}.

(** A [*Link] parameter that may be nil is an [option Link]. *)
Definition FilterIface (l : option Link) : string :=
  match l with
  | None => ""
  | Some l => if negb (String.eqb (HostVeth l) "") then HostVeth l else Name l
  end.
Definition GuestSubnet (l : option Link) : string :=
  match l with
  | None => ""
  | Some l =>
    match To4 (HostIP l) with
    | Some [a; b; c; d] =>
      let prefix := if Prefix l =? 0 then 30 else Prefix l in
      v4_string a b c (Z.ldiff d 3) +:+ "/" +:+ Itoa prefix
    | _ => ""
    end
  end.

Definition NetNSPathOf (name : string) : string := path_join [DefaultNetNSDir; name].
Definition validateNetNSName (name : string) : option error :=
  if String.eqb name "" || negb (String.eqb name (Base name)) || Contains name ".." then
    Some (New ("netns: invalid name " +:+ Quote name))
  else None.

(** [IPCommand]: the first of four candidates that is found. *)
Definition IPCommand (lookPath : string → option string) (exists_ : string → bool) : string :=
  match first_some (λ p, match lookPath p with
                         | Some path => Some path
                         | None => if exists_ p then Some p else None
                         end) ["ip"; "/usr/sbin/ip"; "/sbin/ip"; "/usr/bin/ip"] with
  | Some p => p
  | None => "ip"
  end.

(** ** nft rules *)

Definition nl : string := newline.
Definition is_v4 (x : ip) : bool := match To4 x with Some _ => true | None => false end.

(** [RenderNFT]: the two appended slices, then the writes to the builder. *)
Definition RenderNFT (link : Link) (allow : list ip) : string :=
  let dev := FilterIface (Some link) in
  let v4 := IP_String <$> List.filter is_v4 allow in
  let v6 := IP_String <$> List.filter (λ x, negb (is_v4 x)) allow in
  "table inet " +:+ Table link +:+ " {" +:+ nl +:+
  "  chain forward {" +:+ nl +:+
  "    type filter hook forward priority 0; policy drop;" +:+ nl +:+
  "    iifname " +:+ Quote dev +:+ " ct state established,related accept" +:+ nl +:+
  "    oifname " +:+ Quote dev +:+ " ct state established,related accept" +:+ nl +:+
  (if (0 <? length v4)%nat
   then "    iifname " +:+ Quote dev +:+ " ip daddr { " +:+ Join v4 ", " +:+ " } accept" +:+ nl
   else "") +:+
  (if (0 <? length v6)%nat
   then "    iifname " +:+ Quote dev +:+ " ip6 daddr { " +:+ Join v6 ", " +:+ " } accept" +:+ nl
   else "") +:+
  "  }" +:+ nl +:+
  "  chain postrouting {" +:+ nl +:+
  "    type nat hook postrouting priority 100; policy accept;" +:+ nl +:+
  "    oifname != " +:+ Quote dev +:+ " ip saddr " +:+ IP_String (GuestIP link) +:+ " masquerade" +:+ nl +:+
  "  }" +:+ nl +:+
  "}" +:+ nl.

(** ** The allowlist as addresses *)

Definition add_ip (acc : gset string * list ip) (x : ip) : gset string * list ip :=
  let '(seen, out) := acc in
  if bool_decide (IP_String x ∈ seen) then acc else ({[IP_String x]} ∪ seen, out ++ [x]).
Definition entry_host (raw : string) : string :=
  let host := TrimSpace raw in
  match SplitHostPort host with Some (h, _) => h | None => host end.
(** *** Resolution is sound, complete and free of duplicates *)
Definition acc_ok (acc : gset string * list ip) : Prop :=
  NoDup (IP_String <$> acc.2) ∧ ∀ s, s ∈ acc.1 ↔ s ∈ IP_String <$> acc.2.

Lemma add_ip_ok acc x :
  acc_ok acc → acc_ok (add_ip acc x) ∧
  (∀ y, y ∈ (add_ip acc x).2 → y = x ∨ y ∈ acc.2) ∧
  (∀ s, s ∈ (add_ip acc x).1 ↔ s = IP_String x ∨ s ∈ acc.1).
Proof.
  destruct acc as [seen out]. unfold acc_ok, add_ip. cbn. intros [Hnd Hs].
  case_bool_decide as Hx; cbn.
  - split_and!; [done..|by right|]. set_solver.
  - rewrite fmap_app. cbn. split_and!.
    + rewrite NoDup_app. split_and!; [done| |apply NoDup_singleton].
      intros s Hin ->%list_elem_of_singleton. by apply Hx, Hs.
    + intros s. rewrite elem_of_app, list_elem_of_singleton, <- Hs. set_solver.
    + intros y. rewrite elem_of_app, list_elem_of_singleton. tauto.
    + set_solver.
Qed.
Lemma fold_add_ok ips acc :
  acc_ok acc → acc_ok (fold_left add_ip ips acc) ∧
  (∀ y, y ∈ (fold_left add_ip ips acc).2 → y ∈ ips ∨ y ∈ acc.2) ∧
  (∀ s, s ∈ (fold_left add_ip ips acc).1 ↔ s ∈ IP_String <$> ips ∨ s ∈ acc.1).
Proof.
  revert acc. induction ips as [|x ips IH]; intros acc Hacc; cbn.
  - split_and!; [done|by right|]. intros s. rewrite elem_of_nil. tauto.
  - destruct (add_ip_ok acc x Hacc) as (H1 & H2 & H3).
    destruct (IH _ H1) as (H4 & H5 & H6). split_and!; [done| |].
    + intros y [Hy|Hy]%H5; [by left; right|]. apply H2 in Hy as [->|]; [by left; left|by right].
    + intros s. rewrite H6, H3, elem_of_cons. tauto.
Qed.
Lemma acc_ok_empty : acc_ok (∅, []).
Proof. split; [apply NoDup_nil_2|]. cbn. set_solver. Qed.

Section Resolve.
Context (lookup : string → result (list ip)).

(** The addresses of one entry: itself, or what the lookup answers. *)
Definition entry_ips (raw : string) : result (list ip) :=
  let host := entry_host raw in
  match ParseIP host with
  | Some x => Ok [x]
  | None =>
    match lookup host with
    | Err err => Err (Wrap ("resolve " +:+ Quote host +:+ ": ") err "")
    | Ok ips => Ok ips
    end
  end.
Fixpoint resolve_loop (entries : list string) (acc : gset string * list ip) : result (list ip) :=
  match entries with
  | [] => Ok acc.2
  | raw :: r => let? ips := entry_ips raw in resolve_loop r (fold_left add_ip ips acc)
  end.
Definition resolveAllowlist (entries : list string) : result (list ip) :=
  resolve_loop entries (∅, []).

Lemma resolve_loop_ok entries acc out :
  acc_ok acc → resolve_loop entries acc = Ok out →
  NoDup (IP_String <$> out) ∧
  (∀ y, y ∈ out → y ∈ acc.2 ∨ ∃ raw ips, raw ∈ entries ∧ entry_ips raw = Ok ips ∧ y ∈ ips) ∧
  (∀ raw, raw ∈ entries → ∃ ips, entry_ips raw = Ok ips ∧
     ∀ x, x ∈ ips → IP_String x ∈ IP_String <$> out) ∧
  (∀ s, s ∈ acc.1 → s ∈ IP_String <$> out).
Proof.
  revert acc. induction entries as [|raw r IH]; intros acc Hacc; cbn.
  - intros [= <-]. destruct Hacc as [? Hs]. split_and!; [done|by left| |by apply Hs].
    by intros ? ?%not_elem_of_nil.
  - intros (ips & Hips & Hr)%res_bind_Ok.
    destruct (fold_add_ok ips acc Hacc) as (H1 & H2 & H3).
    destruct (IH _ H1 Hr) as (Hnd & Hsound & Hcomp & Hseen). split_and!; [done| | |].
    + intros y [Hy|(raw' & ips' & ? & ? & ?)]%Hsound.
      * apply H2 in Hy as [|]; [right; exists raw, ips; split; [left|done]|by left].
      * right. exists raw', ips'. split; [by right|done].
    + intros raw' [->|Hin]%elem_of_cons; [|by apply Hcomp].
      exists ips. split; [done|]. intros x Hx. apply Hseen, H3. left. by apply list_elem_of_fmap_2.
    + intros s Hs. apply Hseen, H3. by right.
Qed.
End Resolve.

(** (functional) The allowlist resolves, when every lookup it needs
    answers, to a list without duplicates that holds exactly the addresses of
    its entries: every result comes from an entry, and every address of every
    entry is in the result (up to its printed form, the key of [seen]). *)
Theorem resolveAllowlist_correct lookup entries out :
  resolveAllowlist lookup entries = Ok out →
  NoDup (IP_String <$> out) ∧
  (∀ y, y ∈ out → ∃ raw ips, raw ∈ entries ∧ entry_ips lookup raw = Ok ips ∧ y ∈ ips) ∧
  (∀ raw, raw ∈ entries → ∃ ips, entry_ips lookup raw = Ok ips ∧
     ∀ x, x ∈ ips → IP_String x ∈ IP_String <$> out).
Proof.
  intros H. edestruct (resolve_loop_ok lookup entries (∅, [])) as (H1 & H2 & H3 & _);
    [apply acc_ok_empty|exact H|]. split_and!; [done| |done].
  intros y [Hy|Hy]%H2; [|done]. by apply not_elem_of_nil in Hy.
Qed.
Definition sample_lookup (host : string) : result (list ip) :=
  if String.eqb host "pypi.org" then Ok [IPv4 151 101 0 223; IPv4 10 0 0 1] else Err (New "no such host").
Lemma resolveAllowlist_correct_witness :
  ∃ out, resolveAllowlist sample_lookup ["10.0.0.1:443"; " pypi.org "] = Ok out ∧
    NoDup (IP_String <$> out).
Proof.
  eexists. split; [reflexivity|].
  apply (resolveAllowlist_correct sample_lookup ["10.0.0.1:443"; " pypi.org "]). reflexivity.
Defined.

(** ** The factory *)

Definition Runner (W : Type) : Type := string → list string → M W (option error).

Record TAP (W : Type) := mkTAP {
  Run : option (Runner W); Lookup : string → result (list ip); IP : string; Sudo : bool
}.
Arguments mkTAP {W}. Arguments Run {W}. Arguments Lookup {W}. Arguments IP {W}. Arguments Sudo {W}.

Section Factory.
Context {W : Type}.
(** [exec.Command] with a standard input, if any, and its [CombinedOutput]: the
    output, and the error when it could not be run or failed; and the [ip] binary
    found on the host. *)
Context (CombinedOutput : option string → string → list string → M W (string * option error)).
Context (hostIP : string).

(** A command that failed, with what it printed. *)
Definition exec_failed (pre out : string) (err : option error) : option error :=
  (λ err, Wrap (pre +:+ ": ") err (" (" +:+ TrimSpace out +:+ ")")) <$> err.
Definition defaultRun : Runner W := λ name args,
  let! r := CombinedOutput None name args in
  ret (exec_failed (name +:+ " " +:+ Join args " ") r.1 r.2).

Definition ipBin (t : TAP W) : string := if negb (String.eqb (IP t) "") then IP t else hostIP.
Definition run (t : TAP W) : Runner W := λ name args,
  let fn := match Run t with Some fn => fn | None => defaultRun end in
  if Sudo t then fn "sudo" ("-n" :: name :: args) else fn name args.
Definition runIP (t : TAP W) (args : list string) : M W (option error) := run t (ipBin t) args.
Definition runNS (t : TAP W) (ns name : string) (args : list string) : M W (option error) :=
  run t (ipBin t) ("netns" :: "exec" :: ns :: name :: args).
Definition runInNS (t : TAP W) (ns : string) (args : list string) : M W (option error) :=
  runNS t ns (ipBin t) args.

Definition applyRules (t : TAP W) (script : string) : M W (option error) :=
  match Run t with
  | Some fn =>
    if Sudo t then fn "sudo" ["-n"; "nft"; "-f"; "-"; script]
    else fn "nft" ["-f"; "-"; script]
  | None =>
    let! r := if Sudo t then CombinedOutput (Some script) "sudo" ["-n"; "nft"; "-f"; "-"]
              else CombinedOutput (Some script) "nft" ["-f"; "-"] in
    ret (exec_failed "nft apply" r.1 r.2)
  end.

Definition precheck (t : TAP W) (p : Policy) : result (list ip) :=
  match Policy_Validate p with
  | Some err => Err err
  | None =>
    if (length (Allowlist p) =? 0)%nat then
      Err (New "tap: refusing to create a NIC for an empty allowlist")
    else
      let? ips := resolveAllowlist (Lookup t) (Allowlist p) in
      if (length ips =? 0)%nat then Err (New "tap: allowlist resolved to zero addresses")
      else Ok ips
  end.

(** [errs = append(errs, err.Error())] when the command failed. *)
Definition note_error (m : M W (option error)) (errs : list string) : M W (list string) :=
  let! e := m in ret (match e with Some err => errs ++ [Error err] | None => errs end).

Definition Teardown (t : TAP W) (link : option Link) : M W (option error) :=
  match link with
  | None => ret None
  | Some l =>
    let! errs := if negb (String.eqb (Table l) "")
                 then note_error (run t "nft" ["delete"; "table"; "inet"; Table l]) []
                 else ret [] in
    let subnet := GuestSubnet (Some l) in
    (if negb (String.eqb subnet "") then runIP t ["route"; "del"; subnet] else ret None) ;;;
    let! errs := if negb (String.eqb (NetNS l) "")
                 then note_error (runIP t ["netns"; "del"; NetNS l]) errs
                 else if negb (String.eqb (Name l) "")
                 then note_error (runIP t ["link"; "del"; Name l]) errs
                 else ret errs in
    (if negb (String.eqb (HostVeth l) "") then runIP t ["link"; "del"; HostVeth l]
     else ret None) ;;;
    ret (match errs with
         | [] => None
         | _ => Some (New ("tap teardown: " +:+ Join errs "; "))
         end)
  end.

Definition cidr (x : ip) (prefix : Z) : string := IP_String x +:+ "/" +:+ Itoa prefix.

Definition apply_body (t : TAP W) (l : Link) (ips : list ip) : M W (option error) :=
  runIP t ["netns"; "add"; NetNS l] >>?
  runInNS t (NetNS l) ["link"; "set"; "lo"; "up"] >>?
  runIP t ["tuntap"; "add"; "dev"; Name l; "mode"; "tap"] >>?
  runIP t ["link"; "set"; "dev"; Name l; "netns"; NetNS l] >>?
  runInNS t (NetNS l) ["addr"; "add"; cidr (HostIP l) (Prefix l); "dev"; Name l] >>?
  runInNS t (NetNS l) ["link"; "set"; "dev"; Name l; "up"] >>?
  runIP t ["link"; "add"; HostVeth l; "type"; "veth"; "peer"; "name"; NSVeth l] >>?
  runIP t ["link"; "set"; "dev"; NSVeth l; "netns"; NetNS l] >>?
  runIP t ["addr"; "add"; cidr (UplinkHost l) (Prefix l); "dev"; HostVeth l] >>?
  runIP t ["link"; "set"; "dev"; HostVeth l; "up"] >>?
  runInNS t (NetNS l) ["addr"; "add"; cidr (UplinkNS l) (Prefix l); "dev"; NSVeth l] >>?
  runInNS t (NetNS l) ["link"; "set"; "dev"; NSVeth l; "up"] >>?
  runInNS t (NetNS l) ["route"; "add"; "default"; "via"; IP_String (UplinkHost l)] >>?
  (if negb (String.eqb (GuestSubnet (Some l)) "") && negb (bool_decide (UplinkNS l = []))
   then runIP t ["route"; "add"; GuestSubnet (Some l); "via"; IP_String (UplinkNS l)]
   else ret None) >>?
  (run t "sysctl" ["-w"; "net.ipv4.ip_forward=1"] ;;;
   runNS t (NetNS l) "sysctl" ["-w"; "net.ipv4.ip_forward=1"] ;;;
   applyRules t (RenderNFT l ips)).

(** The deferred teardown runs unless the body got to [cleanup = false]. *)
Definition apply (t : TAP W) (l : Link) (ips : list ip) : M W (option error) :=
  match validateNetNSName (NetNS l) with
  | Some err => ret (Some err)
  | None => λ w,
    match apply_body t l ips w with
    | (Ret None, w') => (Ret None, w')
    | (Blocked, w') => (Blocked, w')
    | (o, w') =>
      match Teardown t (Some l) w' with
      | (Ret _, w'') => (o, w'')
      | (Panic v, w'') => (Panic v, w'')
      | (Blocked, w'') => (Blocked, w'')
      end
    end
  end.

(** [seq] is the atomic counter of the factory; the new value is returned. *)
Definition Setup (t : TAP W) (seq : Z) (id : string) (p : Policy) : M W (result Link * Z) :=
  match precheck t p with
  | Err err => ret (Err err, seq)
  | Ok ips =>
    let n := u32 (seq + 1) in
    match subnet30 n, uplink30 n with
    | Err err, _ => ret (Err err, n)
    | Ok _, Err err => ret (Err err, n)
    | Ok (hostIP, guestIP), Ok (uplinkHost, uplinkNS) =>
      let name := tapName id in
      let '(hostVeth, nsVeth) := vethNames name in
      let ns := netnsName id in
      let link := mkLink name hostIP guestIP 30 (macFromIP guestIP) (nftTable id) ns
                    (NetNSPathOf ns) hostVeth nsVeth uplinkHost uplinkNS in
      let! e := apply t link ips in
      ret (match e with Some err => Err err | None => Ok link end, n)
    end
  end.

Definition fillDerived (l : Link) : Link :=
  let '(hv, nv) := if String.eqb (HostVeth l) "" || String.eqb (NSVeth l) ""
                   then vethNames (Name l) else (HostVeth l, NSVeth l) in
  let ns := if String.eqb (NetNS l) "" then netnsName (Name l) else NetNS l in
  let nsp := if String.eqb (NetNSPath l) "" then NetNSPathOf ns else NetNSPath l in
  let table := if String.eqb (Table l) "" then nftTable (Name l) else Table l in
  let prefix := if Prefix l =? 0 then 30 else Prefix l in
  mkLink (Name l) (HostIP l) (GuestIP l) prefix (GuestMAC l) table ns nsp hv nv
    (UplinkHost l) (UplinkNS l).

(** The pointed-to link is filled in also for the caller: it is returned. *)
Definition Recreate (t : TAP W) (link : option Link) (p : Policy) : M W (option error * option Link) :=
  match link with
  | None => ret (Some (New "tap: recreate requires a named link"), link)
  | Some l =>
    if String.eqb (Name l) "" then ret (Some (New "tap: recreate requires a named link"), link)
    else match precheck t p with
         | Err err => ret (Some err, link)
         | Ok ips => let l' := fillDerived l in
                     let! e := apply t l' ips in ret (e, Some l')
         end
  end.
End Factory.

(** ** What the factory asks of the host, as a list of commands

    The specification runs against a recording host: the world is the log of the
    commands, and each is answered from the log so far (any host that behaves
    deterministically), through a [Runner] as the tests set it or, with none, as
    a process with its output. *)
Notation cmd := (string * list string)%type (only parsing).

Definition recorder (fails : list cmd → option error) : Runner (list cmd) := λ name args log,
  let log' := log ++ [(name, args)] in (Ret (fails log'), log').

(** A process is recorded with its standard input as a last argument. *)
Definition process_recorder (answers : list cmd → string * option error)
    (stdin : option string) (name : string) (args : list string) : M (list cmd) (string * option error) :=
  λ log, let log' := log ++ [(name, match stdin with Some text => args ++ [text] | None => args end)] in (Ret (answers log'), log').

(** What is run for a command of the factory. *)
Definition issued {W} (t : TAP W) (c : cmd) : cmd :=
  if Sudo t then ("sudo", "-n" :: c.1 :: c.2) else c.
(** [nft -f -], which reads its rules from the standard input. *)
Definition is_rules (args : list string) : bool := match args with ["-f"; "-"; _] => true | _ => false end.
(** How the factory reports what a process answered. *)
Definition process_fails (sudo : bool) (answers : list cmd → string * option error) (log : list cmd) : option error :=
  match last log with
  | Some (name, args) =>
    exec_failed (if is_rules (if sudo then drop 2 args else args) then "nft apply"
                 else name +:+ " " +:+ Join args " ") (answers log).1 (answers log).2
  | None => None
  end.

(** Every command leaves its entry in the log and is answered by [fails]. *)
Record observed (CombinedOutput : option string → string → list string → M (list cmd) (string * option error))
    (t : TAP (list cmd)) (fails : list cmd → option error) : Prop := {
  observed_run name args log : is_rules args = false →
    run CombinedOutput t name args log =
    (Ret (fails (log ++ [issued t (name, args)])), log ++ [issued t (name, args)]);
  observed_rules script log :
    applyRules CombinedOutput t script log =
    (Ret (fails (log ++ [issued t ("nft", ["-f"; "-"; script])])), log ++ [issued t ("nft", ["-f"; "-"; script])])
}.
Lemma observed_runner CombinedOutput t fails : Run t = Some (recorder fails) → observed CombinedOutput t fails.
Proof.
  intros H. split; intros; unfold run, applyRules, issued; rewrite H; by destruct (Sudo t).
Qed.
Lemma observed_process t answers :
  Run t = None → observed (process_recorder answers) t (process_fails (Sudo t) answers).
Proof.
  intros H. split.
  - intros name args log Ha. unfold run, defaultRun, issued, process_recorder, process_fails, bind, ret.
    rewrite H. destruct (Sudo t); cbn [fst snd]; rewrite last_snoc; cbn [skipn]; rewrite ?drop_0;
      by rewrite Ha.
  - intros script log. unfold applyRules, issued, process_recorder, process_fails, bind, ret.
    rewrite H. destruct (Sudo t); cbn [fst snd app]; by rewrite last_snoc.
Qed.

(** The commands of [apply], in order; the two [sysctl] may fail. *)
Definition setup_cmds (ipb : string) (l : Link) (ips : list ip) : list (cmd * bool) :=
  let ns args := ((ipb, "netns" :: "exec" :: NetNS l :: ipb :: args), true) in
  let host args := ((ipb, args), true) in
  [ host ["netns"; "add"; NetNS l];
    ns ["link"; "set"; "lo"; "up"];
    host ["tuntap"; "add"; "dev"; Name l; "mode"; "tap"];
    host ["link"; "set"; "dev"; Name l; "netns"; NetNS l];
    ns ["addr"; "add"; cidr (HostIP l) (Prefix l); "dev"; Name l];
    ns ["link"; "set"; "dev"; Name l; "up"];
    host ["link"; "add"; HostVeth l; "type"; "veth"; "peer"; "name"; NSVeth l];
    host ["link"; "set"; "dev"; NSVeth l; "netns"; NetNS l];
    host ["addr"; "add"; cidr (UplinkHost l) (Prefix l); "dev"; HostVeth l];
    host ["link"; "set"; "dev"; HostVeth l; "up"];
    ns ["addr"; "add"; cidr (UplinkNS l) (Prefix l); "dev"; NSVeth l];
    ns ["link"; "set"; "dev"; NSVeth l; "up"];
    ns ["route"; "add"; "default"; "via"; IP_String (UplinkHost l)] ] ++
  (if negb (String.eqb (GuestSubnet (Some l)) "") && negb (bool_decide (UplinkNS l = []))
   then [host ["route"; "add"; GuestSubnet (Some l); "via"; IP_String (UplinkNS l)]] else []) ++
  [ (("sysctl", ["-w"; "net.ipv4.ip_forward=1"]), false);
    ((ipb, ["netns"; "exec"; NetNS l; "sysctl"; "-w"; "net.ipv4.ip_forward=1"]), false);
    (("nft", ["-f"; "-"; RenderNFT l ips]), true) ].

(** The commands of [Teardown]; the flag says whether a failure is reported. *)
Definition teardown_cmds (ipb : string) (l : Link) : list (cmd * bool) :=
  (if negb (String.eqb (Table l) "")
   then [(("nft", ["delete"; "table"; "inet"; Table l]), true)] else []) ++
  (if negb (String.eqb (GuestSubnet (Some l)) "")
   then [((ipb, ["route"; "del"; GuestSubnet (Some l)]), false)] else []) ++
  (if negb (String.eqb (NetNS l) "") then [((ipb, ["netns"; "del"; NetNS l]), true)]
   else if negb (String.eqb (Name l) "") then [((ipb, ["link"; "del"; Name l]), true)] else []) ++
  (if negb (String.eqb (HostVeth l) "") then [((ipb, ["link"; "del"; HostVeth l]), false)] else []).

(** A sequence of commands that stops at the first failure of a required one. *)
Fixpoint exec_seq {W} (f : Runner W) (cs : list (cmd * bool)) : M W (option error) :=
  match cs with
  | [] => ret None
  | ((name, args), true) :: r => and_then (f name args) (exec_seq f r)
  | ((name, args), false) :: r => f name args ;;; exec_seq f r
  end.

Section Trace.
Context (CombinedOutput : option string → string → list string → M (list cmd) (string * option error)).
Context (hostIP : string).
Context (fails : list cmd → option error).
Context (t : TAP (list cmd)).
Hypothesis Hobs : observed CombinedOutput t fails.

Let ipb := ipBin hostIP t.
Notation issued := (issued t).
Let observe : Runner (list cmd) := λ name args log,
  (Ret (fails (log ++ [issued (name, args)])), log ++ [issued (name, args)]).

Lemma and_then_ext {W} (m m' k k' : M W (option error)) w :
  m w = m' w → (∀ w, k w = k' w) → and_then m k w = and_then m' k' w.
Proof. intros E H. unfold and_then, bind. rewrite E. destruct (m' w) as [[[e|]| |]]; done. Qed.
Lemma apply_body_seq l ips log :
  apply_body CombinedOutput hostIP t l ips log =
  exec_seq observe (setup_cmds ipb l ips) log.
Proof.
  unfold apply_body, setup_cmds. cbn [app exec_seq].
  repeat (apply and_then_ext; [by apply (observed_run _ _ _ Hobs)|intros]).
  assert (∀ w, (run CombinedOutput t "sysctl" ["-w"; "net.ipv4.ip_forward=1"] ;;;
    runNS CombinedOutput hostIP t (NetNS l) "sysctl" ["-w"; "net.ipv4.ip_forward=1"] ;;;
    applyRules CombinedOutput t (RenderNFT l ips)) w =
    exec_seq observe [(("sysctl", ["-w"; "net.ipv4.ip_forward=1"]), false);
      ((ipb, ["netns"; "exec"; NetNS l; "sysctl"; "-w"; "net.ipv4.ip_forward=1"]), false);
      (("nft", ["-f"; "-"; RenderNFT l ips]), true)] w) as Htail.
  { intros w'. cbn [exec_seq]. unfold runNS, and_then, bind.
    rewrite !(observed_run _ _ _ Hobs), (observed_rules _ _ _ Hobs) by done.
    unfold observe, ret, ipb. by destruct (fails _). }
  case_match; cbn [app exec_seq]; [|apply Htail].
  apply and_then_ext; [by apply (observed_run _ _ _ Hobs)|]. intros. apply Htail.
Qed.

(** The required commands among the first [n] of a sequence all succeeded. *)
Definition succeeded (cs : list (cmd * bool)) (log : list cmd) (n : nat) : Prop :=
  ∀ k, (k < n)%nat → cs.*2 !! k = Some true → fails (log ++ (issued <$> (take (S k) cs).*1)) = None.
Lemma succeeded_cons c must cs log n :
  (must = true → fails (log ++ [issued c]) = None) → succeeded cs (log ++ [issued c]) n →
  succeeded ((c, must) :: cs) log (S n).
Proof.
  intros Hc Hcs [|k] Hk; cbn.
  - intros [= ->]. by apply Hc.
  - intros Hm. specialize (Hcs k ltac:(lia) Hm). by rewrite <- app_assoc in Hcs.
Qed.

(** The log of a sequence: all of it, or up to the first required failure. *)
Lemma exec_seq_log cs log :
  (∃ e k, exec_seq observe cs log =
     (Ret (Some e), log ++ (issued <$> (take (S k) cs).*1)) ∧ (k < length cs)%nat ∧
     (cs.*2 !! k = Some true) ∧ fails (log ++ (issued <$> (take (S k) cs).*1)) = Some e ∧ succeeded cs log k) ∨
  exec_seq observe cs log = (Ret None, log ++ (issued <$> cs.*1)) ∧ succeeded cs log (length cs).
Proof.
  revert log. induction cs as [|[[name args] must] cs IH]; intros log.
  - right. cbn. rewrite app_nil_r. split; [done|]. intros k Hk. lia.
  - cbn [exec_seq]. set (c := issued (name, args)).
    assert (∀ k, issued <$> (take (S k) (((name, args), must) :: cs)).*1 =
                 c :: (issued <$> (take k cs).*1)) as Htake by done.
    assert (issued <$> (((name, args), must) :: cs).*1 = c :: (issued <$> cs.*1)) as Hall by done.
    assert (observe name args log = (Ret (fails (log ++ [c])), log ++ [c])) as Ho by done.
    destruct must; unfold and_then, bind; rewrite Ho;
      [destruct (fails (log ++ [c])) as [e|] eqn:E|].
    1: { left. exists e, 0%nat. rewrite Htake. cbn. split_and!; [done|lia|done|done|intros k Hk; lia]. }
    all: destruct (IH (log ++ [c])) as [(e & k & H1 & H2 & H3 & H4 & H5)|[H1 H5]];
      rewrite <- app_assoc in H1; rewrite H1, Hall; [left|right; split; [done|by apply succeeded_cons]].
    all: rewrite <- app_assoc in H4; exists e, (S k); rewrite Htake.
    all: split_and!; [done|cbn; lia|done|done|by apply succeeded_cons].
Qed.
Lemma note_error_observed name args errs log :
  is_rules args = false →
  note_error (run CombinedOutput t name args) errs log =
  (Ret (match fails (log ++ [issued (name, args)]) with
        | Some err => errs ++ [Error err] | None => errs end), log ++ [issued (name, args)]).
Proof. intros H. unfold note_error, bind. by rewrite (observed_run _ _ _ Hobs). Qed.

(** [Teardown] issues every one of its commands, whichever of them fail. *)
Lemma Teardown_log l log :
  ∃ o, Teardown CombinedOutput hostIP t (Some l) log =
       (Ret o, log ++ (issued <$> (teardown_cmds ipb l).*1)).
Proof.
  unfold Teardown, teardown_cmds, runIP, ipb. set (b := ipBin hostIP t).
  repeat match goal with |- context [negb (String.eqb ?x "")] => destruct (negb (String.eqb x "")) end;
    cbn [app]; unfold bind, ret;
    repeat first [rewrite note_error_observed by done | rewrite (observed_run _ _ _ Hobs) by done]; cbn;
    eexists; f_equal; rewrite <- ?app_assoc, ?app_nil_r; done.
Qed.

(** The command that [apply] stops at: the [k]-th, required, and failing, when no
    required one before it failed. *)
Definition stops_at (l : Link) (ips : list ip) (log : list cmd) (k : nat) (e : error) : Prop :=
  let cs := setup_cmds ipb l ips in
  (k < length cs)%nat ∧ cs.*2 !! k = Some true ∧
  fails (log ++ (issued <$> (take (S k) cs).*1)) = Some e ∧ succeeded cs log k.

(** The commands of [apply], on either branch. *)
Lemma apply_log l ips log :
  validateNetNSName (NetNS l) = None →
  (apply CombinedOutput hostIP t l ips log =
     (Ret None, log ++ (issued <$> (setup_cmds ipb l ips).*1)) ∧
   succeeded (setup_cmds ipb l ips) log (length (setup_cmds ipb l ips))) ∨
  ∃ e k, stops_at l ips log k e ∧
    apply CombinedOutput hostIP t l ips log =
    (Ret (Some e), log ++ (issued <$> (take (S k) (setup_cmds ipb l ips)).*1) ++
                   (issued <$> (teardown_cmds ipb l).*1)).
Proof.
  intros Hn. unfold apply. rewrite Hn, apply_body_seq.
  destruct (exec_seq_log (setup_cmds ipb l ips) log) as [(e & k & E & Hk & Hr & Hf)|[E Hs]];
    rewrite E; [right|by left].
  exists e, k. split; [done|].
  destruct (Teardown_log l (log ++ (issued <$> (take (S k) (setup_cmds ipb l ips)).*1))) as [o Ho].
  by rewrite Ho, <- app_assoc.
Qed.

(** C16 (functional): [apply] is a transaction on the host.  With a valid
    namespace name it either returns nil after exactly the setup commands, all
    but the two sysctl with success, or it stops at the first of the others that
    fails, returns that command's error, and has issued every teardown command
    by then; through a
    [Runner] ([observed_runner]) and as processes ([observed_process]). *)
Theorem apply_transaction l ips log :
  validateNetNSName (NetNS l) = None →
  (apply CombinedOutput hostIP t l ips log =
     (Ret None, log ++ (issued <$> (setup_cmds ipb l ips).*1)) ∧
   succeeded (setup_cmds ipb l ips) log (length (setup_cmds ipb l ips))) ∨
  ∃ e k, stops_at l ips log k e ∧
    apply CombinedOutput hostIP t l ips log =
    (Ret (Some e), log ++ (issued <$> (take (S k) (setup_cmds ipb l ips)).*1) ++
                   (issued <$> (teardown_cmds ipb l).*1)).
Proof. apply apply_log. Qed.

(** (error) When the namespace already exists, so that the first command
    [ip netns add] fails, the cleanup of [apply] deletes it: the namespace
    of a running VM whose id maps to the same name goes with it. *)
Theorem apply_collision_deletes l ips log e :
  validateNetNSName (NetNS l) = None →
  fails (log ++ [issued (ipb, ["netns"; "add"; NetNS l])]) = Some e →
  apply CombinedOutput hostIP t l ips log =
    (Ret (Some e), log ++ issued (ipb, ["netns"; "add"; NetNS l]) ::
                   (issued <$> (teardown_cmds ipb l).*1)) ∧
  issued (ipb, ["netns"; "del"; NetNS l]) ∈ issued <$> (teardown_cmds ipb l).*1.
Proof.
  intros Hn Hf. split.
  - unfold apply. rewrite Hn, apply_body_seq. unfold setup_cmds. cbn [app exec_seq].
    unfold and_then at 1, bind at 1, observe at 1. fold ipb. rewrite Hf. unfold ret.
    destruct (Teardown_log l (log ++ [issued (ipb, ["netns"; "add"; NetNS l])])) as [o Ho].
    by rewrite Ho, <- app_assoc.
  - apply list_elem_of_fmap_2, (list_elem_of_fmap_2 fst _ ((ipb, ["netns"; "del"; NetNS l]), true)).
    unfold teardown_cmds. rewrite !elem_of_app. right; right; left.
    assert (NetNS l ≠ "") as Hne by (intros E; by rewrite E in Hn).
    rewrite (proj2 (String.eqb_neq _ _) Hne). by left.
Qed.
End Trace.

(** ** The names of a link *)

Lemma Contains_byte s p c : Contains s (String c p) = true → ContainsByte s c = true.
Proof.
  unfold ContainsByte. induction s as [|a s IH]; [done|]. cbn [Contains IndexByte]. intros H.
  destruct (Ascii.eqb_spec a c) as [->|Hne]; [done|].
  apply orb_true_iff in H as [H|H].
  - apply HasPrefix_spec in H as [r H]. rewrite append_cons in H. by injection H as ->.
  - apply IH in H. by destruct (IndexByte s c).
Qed.
Definition ns_byte (r : Z) : bool := alnum r || (r =? 45).
Lemma netnsName_class id :
  all_bytes ns_byte (netnsName id) = true ∧ 7 <= len (netnsName id) <= 128.
Proof.
  unfold netnsName. fold (ns_byte).
  set (m := Map _ id). assert (all_bytes ns_byte m = true) as Hm.
  { apply Map_charclass.
    - intros r Hr. unfold ns_byte in Hr. apply orb_true_iff in Hr as [Hr|Hr]; [by apply alnum_ascii|].
      bool_prop. lia.
    - intros r. change (alnum r || (r =? 45)) with (ns_byte r).
      destruct (ns_byte r) eqn:E; intros; [done|lia]. }
  set (s := if String.eqb ("warden-" +:+ m) "warden-" then "warden-tap" else "warden-" +:+ m).
  assert (all_bytes ns_byte s = true ∧ 7 <= len s) as [Hs Hl].
  { subst s. case_match; [done|]. rewrite all_bytes_append, Hm, len_append.
    pose proof (len_nonneg m). change (len "warden-") with 7. split; [done|lia]. }
  change 128 with (Z.of_nat 128). rewrite truncated_len. split; [by apply truncated_class|lia].
Qed.
Lemma netnsName_valid id : validateNetNSName (netnsName id) = None.
Proof.
  destruct (netnsName_class id) as [Hc Hl]. unfold validateNetNSName.
  assert (netnsName id ≠ "") as Hne by (intros E; rewrite E in Hl; change (len "") with 0 in Hl; lia).
  rewrite (proj2 (String.eqb_neq _ _) Hne), Base_id, String.eqb_refl by
    (done || apply (ContainsByte_class _ _ _ Hc); done). cbn [negb orb].
  destruct (Contains (netnsName id) "..") eqn:E; [|done].
  apply Contains_byte in E. by rewrite (ContainsByte_class _ _ _ Hc) in E.
Qed.

Definition tap_base (id : string) : string :=
  if String.eqb (tap_body id) "" then "tap" else take_str 14 (tap_body id).
Lemma tap_base_spec id :
  tap_base id ≠ "" ∧ all_bytes alnum (tap_base id) = true ∧ len (tap_base id) <= 14.
Proof.
  unfold tap_base. destruct (String.eqb_spec (tap_body id) ""); [done|].
  rewrite len_take, all_bytes_take by apply tap_body_alnum. split_and!; [|done|lia].
  by destruct (tap_body id).
Qed.
Lemma vethNames_tap id : vethNames (tapName id) = ("h" +:+ tap_base id, "g" +:+ tap_base id).
Proof.
  destruct (tap_base_spec id) as (Hne & _ & Hl). unfold vethNames. rewrite tapName_eq.
  fold (tap_base id). change ("w" +:+ tap_base id) with (String "w" (tap_base id)).
  assert (TrimPrefix (String "w" (tap_base id)) "w" = tap_base id) as -> by done.
  rewrite (proj2 (String.eqb_neq _ _) Hne).
  change ("h" +:+ tap_base id) with (String "h" (tap_base id)).
  change ("g" +:+ tap_base id) with (String "g" (tap_base id)).
  rewrite !len_cons. by rewrite (proj2 (Z.ltb_ge 15 _)) by lia.
Qed.

(** C17 (type): whatever the id, the names derived from it are names the
    kernel accepts: the TAP and both veth ends are 1 to 15 letters or digits
    and pairwise different, and the namespace name passes the factory's own
    check and is at most 128 bytes. *)
Theorem network_names_valid id :
  let tap := tapName id in let '(host, ns) := vethNames tap in
  ifname tap ∧ ifname host ∧ ifname ns ∧ NoDup [tap; host; ns] ∧
  validateNetNSName (netnsName id) = None ∧ len (netnsName id) <= 128.
Proof.
  cbn zeta. rewrite vethNames_tap. destruct (tap_base_spec id) as (Hne & Ha & Hl).
  assert (∀ c, alnum (byte c) = true → ifname (String c (tap_base id))) as Hif.
  { intros c Hc. unfold ifname. rewrite len_cons. pose proof (len_nonneg (tap_base id)).
    split; [lia|]. change (alnum (byte c) && all_bytes alnum (tap_base id) = true). by rewrite Hc. }
  split_and!; [apply tapName_ifname|by apply (Hif "h"%char)|by apply (Hif "g"%char)| |
               apply netnsName_valid|apply netnsName_class].
  rewrite tapName_eq. fold (tap_base id).
  change ("w" +:+ tap_base id) with (String "w" (tap_base id)).
  change ("h" +:+ tap_base id) with (String "h" (tap_base id)).
  change ("g" +:+ tap_base id) with (String "g" (tap_base id)).
  rewrite !NoDup_cons, !elem_of_cons, !elem_of_nil.
  split_and!; [by intros [[=]|[[=]|[]]]|by intros [[=]|[]]|by intros []|apply NoDup_nil_2].
Qed.

(** Different ids can share all their names: '_' is dropped from each. *)
Example names_collide :
  netnsName "sa_b" = netnsName "sab" ∧ tapName "sa_b" = tapName "sab".
Proof. split; reflexivity. Qed.

(** ** Setup *)

Lemma precheck_ok {W} (t : TAP W) p ips :
  precheck t p = Ok ips →
  closed_policy p ∧ Allowlist p ≠ [] ∧ resolveAllowlist (Lookup t) (Allowlist p) = Ok ips ∧ ips ≠ [].
Proof.
  unfold precheck. destruct (Policy_Validate p) eqn:E; [done|]. apply Policy_Validate_spec in E.
  destruct (Allowlist p) as [|a l] eqn:El; [done|]. cbn [length Nat.eqb].
  intros (ips' & Hr & Hn)%res_bind_Ok. destruct ips' as [|i ips']; [done|].
  injection Hn as <-. done.
Qed.
Section SetupTrace.
Context (CombinedOutput : option string → string → list string → M (list cmd) (string * option error)).
Context (hostIP : string).
Context (fails : list cmd → option error) (t : TAP (list cmd)).
Hypothesis Hobs : observed CombinedOutput t fails.
Let setup := Setup CombinedOutput hostIP t.
Let ipb := ipBin hostIP t.

(** (functional) A [Setup] that succeeds was asked for a non-empty,
    closed policy whose allowlist resolved; its link carries the names of
    the id and the next index's addresses, both ends of the VM's /30, and
    the host was given exactly the setup commands with that allowlist. *)
Theorem Setup_ok seq id p log link n log' :
  setup seq id p log = (Ret (Ok link, n), log') →
  n = u32 (seq + 1) ∧ 1 <= n <= 16383 ∧
  closed_policy p ∧ Allowlist p ≠ [] ∧
  Name link = tapName id ∧ (HostVeth link, NSVeth link) = vethNames (tapName id) ∧
  NetNS link = netnsName id ∧ Table link = nftTable id ∧
  subnet30 n = Ok (HostIP link, GuestIP link) ∧ uplink30 n = Ok (UplinkHost link, UplinkNS link) ∧
  GuestMAC link = macFromIP (GuestIP link) ∧
  ∃ ips, resolveAllowlist (Lookup t) (Allowlist p) = Ok ips ∧ ips ≠ [] ∧
         log' = log ++ (issued t <$> (setup_cmds ipb link ips).*1).
Proof.
  unfold setup, Setup. destruct (precheck t p) as [ips|e] eqn:Ep; [|done].
  apply precheck_ok in Ep as (? & ? & ? & ?).
  destruct (subnet30 (u32 (seq + 1))) as [[h g]|] eqn:E1; [|done].
  destruct (uplink30 (u32 (seq + 1))) as [[uh un]|] eqn:E2; [|done].
  destruct (vethNames (tapName id)) as [hv nv] eqn:Ev. unfold bind. set (l := mkLink _ _ _ _ _ _ _ _ _ _ _ _).
  destruct (apply_log CombinedOutput hostIP fails t Hobs l ips log) as [[E _]|(e & k & _ & E)];
    [apply netnsName_valid|rewrite E..]; [|done].
  intros [= <- <- <-]. assert (0 <= u32 (seq + 1)) by (apply wrapu_range; lia).
  unfold subnet30 in E1. pose proof (pair30_val _ _ _ _ _ H3 E1) as (Hn & _).
  split_and!; try done; try lia. exists ips. done.
Qed.

(** (safety) A [Setup] with an empty allowlist, an open default policy
    or an unresolvable entry runs no command at all and uses up no index. *)
Theorem Setup_refuses seq id p log :
  Allowlist p = [] ∨ DefaultPolicy p ≠ PolicyDeny ∨
    (∃ e, resolveAllowlist (Lookup t) (Allowlist p) = Err e) →
  ∃ e, setup seq id p log = (Ret (Err e, seq), log).
Proof.
  intros H. unfold setup, Setup. destruct (precheck t p) as [ips|e] eqn:Ep; [|by exists e].
  apply precheck_ok in Ep as ([? _] & ? & ? & ?). destruct H as [|[|[e ?]]]; congruence.
Qed.
End SetupTrace.

(** ** Instances: a factory with one address to allow, on a recording host *)

Definition sample_tap : TAP (list cmd) := mkTAP None sample_lookup "/sbin/ip" true.
Definition sample_policy : Policy := mkPolicy PolicyDeny ["10.0.0.1:443"].
(** A host on which every command succeeds, and one on which [ip netns add] fails. *)
Definition willing (log : list cmd) : string * option error := ("", None).
Definition netns_exists (log : list cmd) : string * option error :=
  match last log with
  | Some (_, _ :: _ :: "netns" :: "add" :: _) => ("File exists" +:+ newline, Some (New "exit status 1"))
  | _ => ("", None)
  end.
Definition sample_link : Link :=
  mkLink "wfc1" [172; 25; 0; 1] [172; 25; 0; 2] 30 "06:00:ac:19:00:02" "warden_fc_1" "warden-fc-1"
    "/var/run/netns/warden-fc-1" "hfc1" "gfc1" [172; 27; 0; 1] [172; 27; 0; 2].

Lemma Setup_ok_witness :
  ∃ log', Setup (process_recorder willing) "ip" sample_tap 0 "fc-1" sample_policy [] =
            (Ret (Ok sample_link, 1), log') ∧
    length log' = 17%nat ∧ subnet30 1 = Ok (HostIP sample_link, GuestIP sample_link).
Proof.
  eexists. split; [vm_compute; reflexivity|]. split; [reflexivity|].
  eapply (Setup_ok (process_recorder willing) "ip" _ sample_tap (observed_process sample_tap willing eq_refl) 0
    "fc-1" sample_policy []).
  vm_compute. reflexivity.
Defined.
Lemma Setup_refuses_witness :
  ∃ e, Setup (process_recorder willing) "ip" sample_tap 7 "fc-1" Default [] = (Ret (Err e, 7), []).
Proof. apply (Setup_refuses (process_recorder willing) "ip" sample_tap). left. reflexivity. Defined.
Definition apply_sample := apply (process_recorder willing) "ip" sample_tap sample_link [[10; 0; 0; 1]] [].
Lemma apply_transaction_witness :
  apply_sample.1 = Ret None ∧
  succeeded (process_fails true willing) sample_tap (setup_cmds "/sbin/ip" sample_link [[10; 0; 0; 1]]) []
    (length (setup_cmds "/sbin/ip" sample_link [[10; 0; 0; 1]])).
Proof.
  split; [vm_compute; reflexivity|].
  destruct (apply_transaction (process_recorder willing) "ip" _ sample_tap
    (observed_process sample_tap willing eq_refl) sample_link [[10; 0; 0; 1]] []) as [[_ H]|(e & k & _ & H)];
    [reflexivity|exact H|].
  apply (f_equal fst) in H. fold apply_sample in H. vm_compute in H. discriminate.
Defined.
Definition collision : option error :=
  process_fails true netns_exists [("sudo", ["-n"; "/sbin/ip"; "netns"; "add"; "warden-fc-1"])].
Lemma apply_collision_deletes_witness :
  Error <$> collision = Some "sudo -n /sbin/ip netns add warden-fc-1: exit status 1 (File exists)" ∧
  ("sudo", ["-n"; "/sbin/ip"; "netns"; "del"; "warden-fc-1"]) ∈
    issued sample_tap <$> (teardown_cmds "/sbin/ip" sample_link).*1.
Proof.
  split; [vm_compute; reflexivity|].
  eapply (apply_collision_deletes (process_recorder netns_exists) "ip" _ sample_tap
    (observed_process sample_tap netns_exists eq_refl) sample_link [] []); reflexivity.
Defined.
