(* ===== verification/RateLimit.v ===== *)
(** * The rate limiter (internal/api/ratelimit.go)

    A fixed-window counter per identity.  Times are nanoseconds; the mutex
    makes a call of [Allow] one atomic step, so a run of the limiter is a
    sequence of calls.  The map of counters is bounded by eviction. *)
From S2P Require Import Prelude.

Record windowCounter := mkCounter { reset : Z; hits_n : Z }.
Record FixedWindow := mkWindow { Limit : Z; Window : Z }.
Abbreviation counters := (gmap string windowCounter).

Definition minute : Z := 60 * 1000000000.
Definition NewFixedWindow (limit window : Z) : FixedWindow :=
  mkWindow limit (if window <=? 0 then minute else window).

Definition rate_identity (key : string) : string := if String.eqb key "" then "anon" else key.

(** [evictLocked]: the counters whose window is over go. *)
Definition evictLocked (now : Z) (hits : counters) : counters :=
  filter (λ kc, now < reset kc.2) hits.

(** [Allow] on a possibly nil limiter, at time [now]. *)
Definition Allow (r : option FixedWindow) (now : Z) (key : string) (hits : counters)
    : bool * counters :=
  match r with
  | None => (true, hits)
  | Some r =>
    if Limit r <=? 0 then (true, hits)
    else
      let key := rate_identity key in
      let fresh := mkCounter (now + Window r) 0 in
      let '(c, hits) :=
        match hits !! key with
        | Some c => if negb (now <? reset c) then (fresh, <[key:=fresh]> hits) else (c, hits)
        | None => (fresh, <[key:=fresh]> hits)
        end in
      if Limit r <=? hits_n c then (false, hits)
      else
        let hits := <[key:=mkCounter (reset c) (hits_n c + 1)]> hits in
        (true, if (4096 <? size hits)%nat then evictLocked now hits else hits)
  end.

(** A run: the answers to a sequence of calls [(now, key)]. *)
Fixpoint answers (r : option FixedWindow) (hits : counters) (calls : list (Z * string)) : list bool :=
  match calls with
  | [] => []
  | (now, key) :: rest =>
    let '(ok, hits) := Allow r now key hits in ok :: answers r hits rest
  end.

(** The clock does not go back, starting from [last]. *)
Fixpoint monotone (last : Z) (calls : list (Z * string)) : Prop :=
  match calls with
  | [] => True
  | (now, _) :: rest => last <= now ∧ monotone now rest
  end.

(** ** Specification: one independent window per identity, nothing evicted *)

Definition live (now : Z) (c : option windowCounter) : option windowCounter :=
  match c with Some c => if now <? reset c then Some c else None | None => None end.
Definition key_step (r : FixedWindow) (now : Z) (c : option windowCounter)
    : bool * windowCounter :=
  let c := default (mkCounter (now + Window r) 0) (live now c) in
  if Limit r <=? hits_n c then (false, c) else (true, mkCounter (reset c) (hits_n c + 1)).

Definition spec_state : Type := string → option windowCounter.
Definition set_counter (st : spec_state) (key : string) (c : windowCounter) : spec_state :=
  λ k, if bool_decide (k = key) then Some c else st k.
Fixpoint spec_answers (r : FixedWindow) (st : spec_state) (calls : list (Z * string)) : list bool :=
  match calls with
  | [] => []
  | (now, key) :: rest =>
    let '(ok, c) := key_step r now (st (rate_identity key)) in
    ok :: spec_answers r (set_counter st (rate_identity key) c) rest
  end.

(** ** The implementation refines the specification *)
Section Refinement.
Context (r : FixedWindow).
Hypothesis limit_pos : 0 < Limit r.
Hypothesis window_pos : 0 < Window r.

Lemma live_trans now now' c : now <= now' → live now' (live now c) = live now' c.
Proof.
  intros H. destruct c as [c|]; [|done]. cbn. destruct (Z.ltb_spec now (reset c)); [done|].
  cbn. destruct (Z.ltb_spec now' (reset c)); [lia|done].
Qed.
Lemma live_idem now c : live now (live now c) = live now c.
Proof. by apply live_trans. Qed.
Lemma live_evict now hits k : live now (evictLocked now hits !! k) = live now (hits !! k).
Proof.
  unfold evictLocked. destruct (hits !! k) as [c|] eqn:E.
  - destruct (decide (now < reset c)) as [Hc|Hc].
    + by rewrite (map_lookup_filter_Some_2 _ _ _ c).
    + rewrite map_lookup_filter_None_2.
      * cbn. by rewrite (proj2 (Z.ltb_ge _ _)) by lia.
      * right. intros c' E'. simplify_eq. cbn. lia.
  - by rewrite map_lookup_filter_None_2 by auto.
Qed.
Lemma key_step_live now c : key_step r now (live now c) = key_step r now c.
Proof. unfold key_step. by rewrite live_idem. Qed.
Lemma key_step_reset now c : now < reset (key_step r now c).2.
Proof.
  unfold key_step. destruct (live now c) as [c'|] eqn:E; cbn.
  - assert (now < reset c').
    { destruct c as [c|]; [|done]. cbn in E. case_match; [|done]. bool_prop. by simplify_eq. }
    by case_match.
  - case_match; cbn; lia.
Qed.

(** One call: the answer and the live counters afterwards are those of the
    specification, whatever eviction removed. *)
Lemma Allow_spec now key hits :
  let '(ok, hits') := Allow (Some r) now key hits in
  let '(ok', c) := key_step r now (hits !! rate_identity key) in
  ok = ok' ∧ ∀ k, live now (hits' !! k) =
    if bool_decide (k = rate_identity key) then Some c else live now (hits !! k).
Proof.
  pose proof (key_step_reset now (hits !! rate_identity key)) as Hres.
  unfold Allow, key_step in *. rewrite (proj2 (Z.leb_gt _ _)) by lia. set (id := rate_identity key) in *.
  assert (∀ (h : counters) c, (∀ k, k ≠ id → h !! k = hits !! k) → h !! id = Some c → now < reset c →
    ∀ k, live now (h !! k) = if bool_decide (k = id) then Some c else live now (hits !! k)) as Hup.
  { intros h c Hne Hid Hc k. case_bool_decide as Hk; [|by rewrite Hne].
    subst k. rewrite Hid. cbn. by rewrite (proj2 (Z.ltb_lt _ _)). }
  set (pick := match hits !! id with Some c => _ | None => _ end).
  assert (∃ h, pick = (default (mkCounter (now + Window r) 0) (live now (hits !! id)), h) ∧
    (∀ k, k ≠ id → h !! k = hits !! k) ∧
    h !! id = Some (default (mkCounter (now + Window r) 0) (live now (hits !! id)))) as (h & -> & Hne & Hid).
  { subst pick. destruct (hits !! id) as [c|] eqn:E; cbn.
    - destruct (Z.ltb_spec now (reset c)); cbn; eexists; (split; [done|]).
      + by split.
      + split; [|by rewrite lookup_insert_eq]. intros k Hk. by rewrite lookup_insert_ne.
    - eexists. split; [done|]. split; [|by rewrite lookup_insert_eq].
      intros k Hk. by rewrite lookup_insert_ne. }
  destruct (Limit r <=? _); cbn in *; [by split; [|apply Hup]|]. split; [done|]. intros k.
  case_match; [rewrite live_evict|]; (apply Hup; [|by rewrite lookup_insert_eq|done]);
    intros k' Hk'; rewrite lookup_insert_ne by done; by apply Hne.
Qed.

Definition related (now : Z) (hits : counters) (st : spec_state) : Prop :=
  ∀ k, live now (hits !! k) = live now (st k).

Lemma answers_refine last hits st calls :
  related last hits st → monotone last calls →
  answers (Some r) hits calls = spec_answers r st calls.
Proof.
  revert last hits st. induction calls as [|[now key] calls IH]; intros last hits st Hrel; [done|].
  cbn [monotone answers spec_answers]. intros [Hle Hmono].
  assert (related now hits st) as Hrel'.
  { intros k. rewrite <- (live_trans last now) by done. by rewrite Hrel, live_trans. }
  pose proof (Allow_spec now key hits) as HA. pose proof (key_step_reset now (st (rate_identity key))) as Hres.
  rewrite <- (key_step_live now (hits !! _)), Hrel', key_step_live in HA.
  destruct (Allow (Some r) now key hits) as [ok hits']. destruct (key_step r now (st _)) as [ok' c].
  destruct HA as [-> Hlive]. f_equal. apply (IH now); [|done]. intros k. rewrite Hlive.
  unfold set_counter. case_bool_decide; [|apply Hrel']. cbn in *. by rewrite (proj2 (Z.ltb_lt _ _)).
Qed.
End Refinement.

(** ** Counting what a run allows *)

Fixpoint times_of (k : string) (calls : list (Z * string)) : list Z :=
  match calls with
  | [] => []
  | (now, key) :: rest =>
    if bool_decide (rate_identity key = k) then now :: times_of k rest else times_of k rest
  end.
(** The times at which the identity [k] was let through. *)
Fixpoint allowed_times (k : string) (calls : list (Z * string)) (ans : list bool) : list Z :=
  match calls, ans with
  | (now, key) :: rest, a :: ans =>
    if bool_decide (rate_identity key = k) && a then now :: allowed_times k rest ans
    else allowed_times k rest ans
  | _, _ => []
  end.
Definition count (p : Z → bool) (l : list Z) : Z := Z.of_nat (length (List.filter p l)).
Definition within (lo hi : Z) (x : Z) : bool := (lo <=? x) && (x <? hi).

Lemma count_app p a b : count p (a ++ b) = count p a + count p b.
Proof. unfold count. rewrite List.filter_app, length_app. lia. Qed.
Lemma count_cons p x l : count p (x :: l) = (if p x then 1 else 0) + count p l.
Proof. unfold count. cbn. case_match; cbn; lia. Qed.
Lemma count_nil p : count p [] = 0.
Proof. done. Qed.
Lemma count_nonneg p l : 0 <= count p l.
Proof. unfold count. lia. Qed.
Lemma count_mono (p q : Z → bool) l :
  (∀ x, p x = true → q x = true) → count p l <= count q l.
Proof.
  intros H. induction l as [|x l IH]; [done|]. rewrite !count_cons.
  destruct (p x) eqn:E; [rewrite (H x E); lia|]. case_match; lia.
Qed.

Section Counting.
Context (r : FixedWindow).
Hypothesis limit_pos : 0 < Limit r.
Hypothesis window_pos : 0 < Window r.
Notation L := (Limit r).
Notation Wd := (Window r).

(** The window of one identity, over its own calls. *)
Fixpoint key_allowed (c : option windowCounter) (times : list Z) : list Z :=
  match times with
  | [] => []
  | now :: ts => let '(ok, c') := key_step r now c in
                 (if ok then [now] else []) ++ key_allowed (Some c') ts
  end.
Fixpoint key_state (c : option windowCounter) (times : list Z) : option windowCounter :=
  match times with
  | [] => c
  | now :: ts => key_state (Some (key_step r now c).2) ts
  end.
Fixpoint ascending (last : Z) (times : list Z) : Prop :=
  match times with [] => True | now :: ts => last <= now ∧ ascending now ts end.

Lemma ascending_weaken a b ts : a <= b → ascending b ts → ascending a ts.
Proof. destruct ts; cbn; [done|]. intros ? [??]. split; [lia|done]. Qed.
Lemma times_ascending k last calls : monotone last calls → ascending last (times_of k calls).
Proof.
  revert last. induction calls as [|[now key] calls IH]; intros last; [done|]. cbn.
  intros [Hle Hm]. case_bool_decide; cbn; [by split; [|apply IH]|].
  apply (ascending_weaken last now); auto.
Qed.

(** An identity's answers depend on its own calls only. *)
Lemma spec_projects k st calls :
  allowed_times k calls (spec_answers r st calls) = key_allowed (st k) (times_of k calls).
Proof.
  revert st. induction calls as [|[now key] calls IH]; intros st; [done|].
  cbn [spec_answers allowed_times times_of].
  destruct (key_step r now (st (rate_identity key))) as [ok c] eqn:E. cbn.
  assert (set_counter st (rate_identity key) c k =
    if bool_decide (k = rate_identity key) then Some c else st k) as Hset by done.
  rewrite IH, Hset. destruct (decide (rate_identity key = k)) as [<-|Hne].
  - rewrite !bool_decide_true by done. cbn [key_allowed andb]. rewrite E. by destruct ok.
  - by rewrite !bool_decide_false by congruence.
Qed.

Definition small (c : option windowCounter) : Prop :=
  ∀ c0, c = Some c0 → 0 <= hits_n c0 <= L.
(** The three ways a call can go. *)
Lemma key_step_cases now c :
  small c →
  (key_step r now c = (true, mkCounter (now + Wd) 1)) ∨
  (∃ c0, c = Some c0 ∧ now < reset c0 ∧ hits_n c0 < L ∧
     key_step r now c = (true, mkCounter (reset c0) (hits_n c0 + 1))) ∨
  (∃ c0, c = Some c0 ∧ now < reset c0 ∧ hits_n c0 = L ∧ key_step r now c = (false, c0)).
Proof.
  intros Hs. unfold key_step. destruct (live now c) as [c0|] eqn:E; cbn.
  - right. destruct c as [c1|]; [|done]. cbn in E.
    destruct (Z.ltb_spec now (reset c1)) as [Hlt|]; [|done]. injection E as ->.
    specialize (Hs c0 eq_refl). destruct (Z.leb_spec L (hits_n c0)).
    + right. exists c0. split_and!; [done..|lia|done].
    + left. exists c0. split_and!; done.
  - left. by rewrite (proj2 (Z.leb_gt _ _)) by lia.
Qed.
Lemma small_step now c : small c → small (Some (key_step r now c).2).
Proof.
  intros Hs. destruct (key_step_cases now c Hs) as [->|[(c0 & -> & ? & ? & ->)|(c0 & -> & ? & ? & ->)]];
    intros c1 [= <-]; cbn; try (specialize (Hs c0 eq_refl)); lia.
Qed.
Lemma small_state c ts : small c → small (key_state c ts).
Proof. revert c. induction ts as [|now ts IH]; intros c Hs; [done|]. by apply IH, small_step. Qed.

Lemma key_allowed_after c last hi lo ts :
  ascending last ts → hi <= last → count (within lo hi) (key_allowed c ts) = 0.
Proof.
  revert c last. induction ts as [|now ts IH]; intros c last; [done|]. cbn. intros [? Hm] ?.
  destruct (key_step r now c) as [ok c']. rewrite count_app, (IH _ now) by (done || lia).
  destruct ok; [|done]. rewrite count_cons. unfold within at 1.
  rewrite (proj2 (Z.ltb_ge now hi)), andb_false_r by lia. done.
Qed.
Lemma key_step_live_Some now c0 :
  now < reset c0 →
  key_step r now (Some c0) =
    if L <=? hits_n c0 then (false, c0) else (true, mkCounter (reset c0) (hits_n c0 + 1)).
Proof. intros H. unfold key_step. cbn. by rewrite (proj2 (Z.ltb_lt _ _)). Qed.
(** A window that covers the rest of the interval lets at most its remaining
    slots through. *)
Lemma key_allowed_in_window c0 lo hi last ts :
  ascending last ts → 0 <= hits_n c0 <= L → hi <= reset c0 →
  count (within lo hi) (key_allowed (Some c0) ts) <= L - hits_n c0.
Proof.
  revert c0 last. induction ts as [|now ts IH]; intros c0 last Hm Hn Hr; [cbn in *; unfold count; cbn; lia|].
  destruct Hm as [? Hm]. destruct (Z_lt_le_dec now hi) as [Hlt|Hge].
  - cbn [key_allowed]. rewrite key_step_live_Some by lia.
    destruct (Z.leb_spec L (hits_n c0)); [by apply (IH c0 now)|].
    rewrite count_app, count_cons. rewrite count_nil.
    pose proof (IH (mkCounter (reset c0) (hits_n c0 + 1)) now Hm). cbn in *. case_match; lia.
  - rewrite (key_allowed_after _ now hi lo (now :: ts)); [lia|by split|done].
Qed.
Lemma key_allowed_from c lo last ts :
  ascending last ts → lo <= last → small c →
  count (within lo (lo + Wd)) (key_allowed c ts) <= 2 * L - match c with Some c0 => hits_n c0 | None => L end.
Proof.
  revert c last. induction ts as [|now ts IH]; intros c last Hm Hlo Hs.
  { change (count _ _) with 0. destruct c as [c0|]; [specialize (Hs c0 eq_refl)|]; lia. }
  destruct Hm as [? Hm]. destruct (Z_lt_le_dec now (lo + Wd)) as [Hlt|Hge].
  - cbn [key_allowed]. destruct (key_step_cases now c Hs) as [->|[(c0 & -> & ? & ? & ->)|(c0 & -> & ? & ? & ->)]].
    + rewrite count_app, count_cons. rewrite count_nil.
      pose proof (key_allowed_in_window (mkCounter (now + Wd) 1) lo (lo + Wd) now ts Hm) as HA. cbn in HA.
      destruct c as [c0|]; [specialize (Hs c0 eq_refl)|]; case_match; lia.
    + rewrite count_app, count_cons. rewrite count_nil.
      specialize (Hs c0 eq_refl).
      pose proof (IH (Some (mkCounter (reset c0) (hits_n c0 + 1))) now Hm) as HB. cbn in HB.
      assert (small (Some (mkCounter (reset c0) (hits_n c0 + 1)))) as Hs' by (intros c1 [= <-]; cbn; lia).
      specialize (HB ltac:(lia) Hs'). case_match; lia.
    + apply (IH (Some c0) now); [done|lia|done].
  - rewrite (key_allowed_after _ now (lo + Wd) lo (now :: ts)); [|by split|done].
    destruct c as [c0|]; [specialize (Hs c0 eq_refl)|]; lia.
Qed.
Lemma key_allowed_bound c lo last ts :
  ascending last ts → small c → count (within lo (lo + Wd)) (key_allowed c ts) <= 2 * L.
Proof.
  revert c last. induction ts as [|now ts IH]; intros c last Hm Hs; [change (count _ _) with 0; lia|].
  destruct Hm as [? Hm]. destruct (Z_lt_le_dec now lo) as [Hlt|Hge].
  - cbn [key_allowed]. destruct (key_step r now c) as [ok c'] eqn:E. rewrite count_app.
    pose proof (small_step now c Hs) as Hs'. rewrite E in Hs'. cbn in Hs'.
    pose proof (IH (Some c') now Hm Hs'). destruct ok; rewrite ?count_cons, count_nil; [|lia].
    unfold within at 1. rewrite (proj2 (Z.leb_gt lo now)) by lia. cbn. lia.
  - pose proof (key_allowed_from c lo now (now :: ts)) as HB.
    assert (count (within lo (lo + Wd)) (key_allowed c (now :: ts)) <=
      2 * L - match c with Some c0 => hits_n c0 | None => L end) by (apply HB; [split; [lia|done]|lia|done]).
    destruct c as [c0|]; [specialize (Hs c0 eq_refl)|]; lia.
Qed.
End Counting.

(** *** A refusal is backed by earlier requests *)
Section Refusal.
Context (r : FixedWindow).
Hypothesis limit_pos : 0 < Limit r.
Hypothesis window_pos : 0 < Window r.

(** The counter only counts requests let through since its window began. *)
Definition backed (last : Z) (c : option windowCounter) (hist : list Z) : Prop :=
  ∀ c0, c = Some c0 → 0 <= hits_n c0 <= Limit r ∧ reset c0 - Window r <= last ∧
    hits_n c0 <= count (λ x, reset c0 - Window r <=? x) hist.

Lemma backed_small last c hist : backed last c hist → small r c.
Proof. intros Hb c0 Hc. by apply Hb. Qed.
Lemma backed_step last now c hist :
  last <= now → backed last c hist →
  let '(ok, c') := key_step r now c in
  backed now (Some c') (hist ++ if ok then [now] else []).
Proof.
  intros Hle Hb.
  destruct (key_step_cases r limit_pos now c (backed_small _ _ _ Hb))
    as [->|[(c0 & -> & ? & ? & ->)|(c0 & -> & ? & ? & ->)]]; intros c1 [= <-]; cbn;
    try destruct (Hb c0 eq_refl) as (? & ? & ?); rewrite count_app, ?count_cons, count_nil.
  - pose proof (count_nonneg (λ x, now + Window r - Window r <=? x) hist).
    rewrite (proj2 (Z.leb_le (now + Window r - Window r) now)) by lia. lia.
  - rewrite (proj2 (Z.leb_le (reset c0 - Window r) now)) by lia. lia.
  - lia.
Qed.
Lemma backed_run last c hist ts :
  ascending last ts → backed last c hist →
  ∃ last', last <= last' ∧ Forall (λ x, x <= last') ts ∧
    backed last' (key_state r c ts) (hist ++ key_allowed r c ts).
Proof.
  revert last c hist. induction ts as [|now ts IH]; intros last c hist.
  - intros _ Hb. exists last. rewrite app_nil_r. by split_and!.
  - cbn. intros [Hle Hm] Hb. pose proof (backed_step last now c hist Hle Hb) as Hs.
    destruct (key_step r now c) as [ok c'] eqn:E. cbn.
    destruct (IH now (Some c') _ Hm Hs) as (last' & ? & ? & Hb'). exists last'.
    rewrite app_assoc. split_and!; [lia|by constructor; [lia|]|done].
Qed.
Lemma spec_answers_snoc st calls now key :
  spec_answers r st (calls ++ [(now, key)]) =
  spec_answers r st calls ++
    [(key_step r now (key_state r (st (rate_identity key)) (times_of (rate_identity key) calls))).1].
Proof.
  revert st. induction calls as [|[t k] calls IH]; intros st; cbn.
  - by destruct (key_step r now _).
  - destruct (key_step r t (st (rate_identity k))) as [ok c] eqn:E. cbn. rewrite IH. cbn.
    unfold set_counter. repeat case_bool_decide; try congruence. cbn.
    by rewrite H, E.
Qed.
Lemma monotone_app last a b : monotone last (a ++ b) → monotone last a.
Proof.
  revert last. induction a as [|[t k] a IH]; intros last; [done|]. cbn.
  intros [? ?]. split; [done|]. eauto.
Qed.
Lemma monotone_last last calls now key x k :
  monotone last (calls ++ [(now, key)]) → x ∈ times_of k calls → x <= now.
Proof.
  revert last. induction calls as [|[t k'] calls IH]; intros last; cbn.
  - by intros _ ?%not_elem_of_nil.
  - intros [? Hm]. assert (t <= now) by (clear -Hm; revert t Hm; induction calls as [|[u ?] calls IH];
      cbn; intros t [? ?]; [done|]; transitivity u; eauto).
    case_bool_decide; [intros [->|]%elem_of_cons; [done|]|]; eauto.
Qed.
End Refusal.

(** ** Properties *)

Lemma related_empty now : related now ∅ (λ _, None).
Proof. intros k. by rewrite lookup_empty. Qed.

(** C14 (refinement): the map of counters with its eviction answers every
    sequence of calls, on a clock that does not go back, as independent windows
    per identity would that forget nothing. *)
Theorem Allow_refines_independent_windows r last calls :
  0 < Limit r → 0 < Window r → monotone last calls →
  answers (Some r) ∅ calls = spec_answers r (λ _, None) calls.
Proof. intros ???. eapply answers_refine; eauto using related_empty. Qed.
Lemma Allow_refines_independent_windows_witness :
  let r := mkWindow 1 10 in let calls := [(0, "a"); (3, "b"); (5, "a"); (10, "a")] in
  answers (Some r) ∅ calls = spec_answers r (λ _, None) calls ∧
  answers (Some r) ∅ calls = [true; true; false; true].
Proof.
  cbn zeta. split; [|reflexivity].
  apply (Allow_refines_independent_windows (mkWindow 1 10) 0); cbn; lia.
Defined.

(** (bounds) In any interval of one window length an identity gets at most
    twice the limit through (two windows can meet inside the interval), and
    with the limit it was configured with this holds for every interval and
    every identity, however the calls of others interleave. *)
Theorem Allow_bound r last calls k t :
  0 < Limit r → 0 < Window r → monotone last calls →
  count (within t (t + Window r)) (allowed_times k calls (answers (Some r) ∅ calls)) <= 2 * Limit r.
Proof.
  intros HL HW Hm. rewrite (answers_refine r HL HW last _ (λ _, None)) by (done || apply related_empty).
  rewrite spec_projects. eapply key_allowed_bound; [done|by eapply times_ascending|done].
Qed.
Lemma Allow_bound_witness :
  let calls := [(9, "a"); (9, "a"); (10, "a"); (11, "a"); (12, "a")] in
  count (within 9 19) (allowed_times "a" calls (answers (Some (mkWindow 2 10)) ∅ calls)) <= 4 ∧
  answers (Some (mkWindow 2 10)) ∅ calls = [true; true; false; false; false].
Proof.
  cbn zeta. split; [|reflexivity]. apply (Allow_bound (mkWindow 2 10) 0); cbn; lia.
Defined.

(** (functional) No identity is refused without cause.  When a call is
    refused, at least [Limit] earlier calls of the same identity were let
    through less than one window ago. *)
Theorem Allow_refusal_justified r last calls now key ans :
  0 < Limit r → 0 < Window r → monotone last (calls ++ [(now, key)]) →
  answers (Some r) ∅ (calls ++ [(now, key)]) = ans ++ [false] →
  Limit r <= count (λ x, (now - Window r <? x) && (x <=? now))
               (allowed_times (rate_identity key) calls (answers (Some r) ∅ calls)).
Proof.
  intros HL HW Hm Hans. pose proof (monotone_app _ _ _ Hm) as Hm'.
  rewrite (answers_refine r HL HW last _ (λ _, None)) in Hans by (done || apply related_empty).
  rewrite (answers_refine r HL HW last _ (λ _, None)) by (done || apply related_empty).
  rewrite spec_answers_snoc in Hans. apply app_inj_tail in Hans as [_ Hno].
  rewrite spec_projects. set (k := rate_identity key) in *. set (ts := times_of k calls) in *.
  destruct (backed_run r HL last None [] ts) as (last' & _ & _ & Hb);
    [by apply times_ascending|done|]. rewrite app_nil_l in Hb.
  destruct (key_step_cases r HL now _ (backed_small _ _ _ _ Hb))
    as [E|[(c0 & Ec & ? & ? & E)|(c0 & Ec & ? & ? & E)]]; rewrite E in Hno; try done.
  destruct (Hb c0 Ec) as (_ & _ & Hn). etrans; [|apply (count_mono (λ x, (reset c0 - Window r <=? x) && (x <=? now)))].
  - assert (∀ l, (∀ x, x ∈ l → x <= now) →
      count (λ x, reset c0 - Window r <=? x) l = count (λ x, (reset c0 - Window r <=? x) && (x <=? now)) l) as Hcut.
    { induction l as [|x l IH]; intros Hl; [done|]. rewrite !count_cons, IH by (intros; apply Hl; by right).
      rewrite (proj2 (Z.leb_le x now)) by (apply Hl; left). by rewrite andb_true_r. }
    rewrite <- Hcut; [lia|]. intros x Hx. apply (monotone_last last calls now key x k Hm).
    clear -Hx. revert Hx. fold ts. generalize (@None windowCounter). induction ts as [|y ts IH]; intros c; cbn; [done|].
    destruct (key_step r y c) as [[] c']; cbn; [intros [->|Hx]%elem_of_cons; [by left|]|intros Hx]; right; eauto.
  - intros x. rewrite !andb_true_iff, !Z.leb_le, Z.ltb_lt. lia.
Qed.
Lemma Allow_refusal_justified_witness :
  2 <= count (λ x, (12 - 10 <? x) && (x <=? 12))
         (allowed_times "a" [(9, "a"); (11, "a")] (answers (Some (mkWindow 2 10)) ∅ [(9, "a"); (11, "a")])).
Proof.
  apply (Allow_refusal_justified (mkWindow 2 10) 0 [(9, "a"); (11, "a")] 12 "a" [true; true]); cbn; try lia.
  reflexivity.
Defined.

(** A limiter that is nil or has no positive limit lets everything through. *)
Lemma Allow_disabled r now key hits :
  (∀ r', r = Some r' → Limit r' <= 0) → Allow r now key hits = (true, hits).
Proof. intros H. destruct r as [r|]; [|done]. cbn. by rewrite (proj2 (Z.leb_le _ _)) by auto. Qed.
