(* ===== verification/Validate.v ===== *)
(** * Requests of POST /execute (internal/api/types.go, validate.go)

    The request record, its limits, and the normalisation and validation that
    every request passes before a VM is booted for it. *)
From S2P Require Import Prelude GoUnicode GoStrings GoError.

Definition MaxCodeBytes : Z := Z.shiftl 64 10.
Definition MaxRequestBytes : Z := Z.shiftl 1 20.
Definition DefaultTimeoutS : Z := 30.
Definition MaxTimeoutS : Z := 300.
Definition MaxSessionIDLen : Z := 128.

Record ExecuteRequest := mkRequest {
  Code : string; Runtime : string; Timeout : Z; SessionID : string
}.

Definition session_rune (r : Z) : bool := IsLetter r || IsDigit r || (r =? 45) || (r =? 95).

Definition validateSessionID (id : string) : option error :=
  if String.eqb id "" then None
  else if MaxSessionIDLen <? len id then
    Some (New ("session_id exceeds " +:+ Itoa MaxSessionIDLen +:+ " characters"))
  else if forallb session_rune (runes id) then None
  else Some (New "session_id may only contain letters, digits, '-' and '_'").

Definition NUL : string := str1 0.

(** The pointed-to request is normalised on the way, also when an error ends
    the call early: it is returned with the error. *)
Definition validateExecute (req : ExecuteRequest) : ExecuteRequest * option error :=
  let req := mkRequest (TrimRight (Code req) NUL) (ToLower (TrimSpace (Runtime req)))
                       (Timeout req) (TrimSpace (SessionID req)) in
  if String.eqb (TrimSpace (Code req)) "" then (req, Some (New "code is required"))
  else if MaxCodeBytes <? len (Code req) then
    (req, Some (New ("code exceeds " +:+ Itoa MaxCodeBytes +:+ " bytes")))
  else if String.eqb (Runtime req) "" then (req, Some (New "runtime is required"))
  else
    let req := mkRequest (Code req)
                 (if String.eqb (Runtime req) "python3" then "python" else Runtime req)
                 (Timeout req) (SessionID req) in
    if String.eqb (Runtime req) "python" || String.eqb (Runtime req) "node" then
      let req := mkRequest (Code req) (Runtime req)
                   (if Timeout req =? 0 then DefaultTimeoutS else Timeout req) (SessionID req) in
      if (Timeout req <? 1) || (MaxTimeoutS <? Timeout req) then
        (req, Some (New ("timeout must be between 1 and " +:+ Itoa MaxTimeoutS +:+ " seconds")))
      else (req, validateSessionID (SessionID req))
    else
      (req, Some (New ("runtime " +:+ Quote (Runtime req) +:+
                       " is not supported (want python or node)"))).

Example normalises :
  validateExecute (mkRequest "print(1)" " Python3 " 0 "") = (mkRequest "print(1)" "python" 30 "", None).
Proof. vm_compute. reflexivity. Qed.

(** ** Specification *)

Definition valid_session (id : string) : Prop :=
  id = "" ∨ (len id <= MaxSessionIDLen ∧ ∀ r, r ∈ runes id → session_rune r = true).

(** A request the rest of the pipeline may run: what handlers rely on. *)
Record well_formed (req : ExecuteRequest) : Prop := {
  wf_code : TrimSpace (Code req) ≠ "";
  wf_code_len : len (Code req) <= MaxCodeBytes;
  wf_code_trimmed : TrimRight (Code req) NUL = Code req;
  wf_runtime : Runtime req = "python" ∨ Runtime req = "node";
  wf_timeout : 1 <= Timeout req <= MaxTimeoutS;
  wf_session_trimmed : TrimSpace (SessionID req) = SessionID req;
  wf_session : valid_session (SessionID req)
}.

Lemma validateSessionID_spec id : validateSessionID id = None ↔ valid_session id.
Proof.
  unfold validateSessionID, valid_session. destruct (String.eqb_spec id ""); [tauto|].
  destruct (Z.ltb_spec MaxSessionIDLen (len id)).
  - split; [done|]. intros [|[]]; [done|lia].
  - destruct (forallb session_rune (runes id)) eqn:E.
    + rewrite forallb_elem in E. tauto.
    + split; [done|]. intros [|[_ H']]; [done|]. rewrite <- forallb_elem in H'. congruence.
Qed.

(** The runtime a request names, before it is put in canonical form. *)
Definition canonical_runtime (s : string) : string :=
  let r := ToLower (TrimSpace s) in if String.eqb r "python3" then "python" else r.
(** The request [validateExecute] makes of an acceptable one. *)
Definition normalised (req : ExecuteRequest) : ExecuteRequest :=
  mkRequest (TrimRight (Code req) NUL) (canonical_runtime (Runtime req))
    (if Timeout req =? 0 then DefaultTimeoutS else Timeout req) (TrimSpace (SessionID req)).

Lemma validateExecute_accepts req req' :
  validateExecute req = (req', None) ↔ req' = normalised req ∧ well_formed (normalised req).
Proof.
  unfold validateExecute, normalised, canonical_runtime. cbn [Code Runtime Timeout SessionID].
  set (c := TrimRight (Code req) NUL). set (rt := ToLower (TrimSpace (Runtime req))).
  set (s := TrimSpace (SessionID req)).
  destruct (String.eqb_spec (TrimSpace c) "") as [Hc|Hc].
  { split; [done|]. by intros [_ [Hw _ _ _ _ _ _]]. }
  destruct (Z.ltb_spec MaxCodeBytes (len c)) as [Hl|Hl].
  { split; [done|]. intros [_ []]. cbn in *. lia. }
  destruct (String.eqb_spec rt "") as [Hr|Hr].
  { rewrite Hr. split; [done|]. intros [_ [_ _ _ [|] _ _ _]]; done. }
  set (rt' := if String.eqb rt "python3" then "python" else rt).
  set (t := if Timeout req =? 0 then DefaultTimeoutS else Timeout req).
  destruct (String.eqb_spec rt' "python") as [Hp|Hp]; [|destruct (String.eqb_spec rt' "node") as [Hp'|Hp']];
    cbn; [| |split; [done|]; intros [_ [_ _ _ [|] _ _ _]]; done].
  all: destruct (Z.ltb_spec t 1) as [Ht|Ht]; cbn;
    [split; [done|]; intros [_ []]; cbn in *; lia|].
  all: destruct (Z.ltb_spec MaxTimeoutS t) as [Ht'|Ht'];
    [split; [done|]; intros [_ []]; cbn in *; lia|].
  all: split; [intros [= <- Hs]; split; [done|]|
               intros [-> []]; f_equal; by apply validateSessionID_spec].
  all: apply validateSessionID_spec in Hs; split; cbn [Code Runtime Timeout SessionID];
    auto; subst c s; by autorewrite with go_rw.
Qed.

(** Normalising a well-formed request changes nothing. *)
Lemma normalised_fix req : well_formed req → normalised req = req.
Proof.
  intros [_ _ Hc Hr Ht Hs _]. unfold normalised, canonical_runtime. rewrite Hc, Hs.
  rewrite (proj2 (Z.eqb_neq (Timeout req) 0)) by lia.
  destruct req as [c r t s]. cbn [Runtime Code Timeout SessionID] in *. by destruct Hr as [-> | ->].
Qed.

(** C15 (functional): a request is accepted exactly when its normal form is well
    formed, and what the handler goes on with is that normal form: trailing
    NULs gone, runtime python or node, timeout 1 to 300 seconds with 30 for an
    absent one, code of 1 byte to 64 KiB that is not blank, session id empty or
    at most 128 bytes of letters, digits, '-' and '_'. *)
Theorem validateExecute_correct req req' :
  validateExecute req = (req', None) ↔ req' = normalised req ∧ well_formed req'.
Proof. rewrite validateExecute_accepts. split; intros [-> ?]; done. Qed.

(** (functional) Validation is idempotent: what it accepted it accepts again
    unchanged. *)
Theorem validateExecute_idempotent req req' :
  validateExecute req = (req', None) → validateExecute req' = (req', None).
Proof.
  rewrite !validateExecute_accepts. intros [-> Hw].
  rewrite (normalised_fix (normalised req)) by done. done.
Qed.
Lemma validateExecute_idempotent_witness :
  validateExecute (mkRequest "x" "node" 5 "s-1") = (mkRequest "x" "node" 5 "s-1", None).
Proof.
  apply (validateExecute_idempotent (mkRequest "x" " NODE" 5 " s-1 ")). vm_compute. reflexivity.
Defined.

(** ** Session ids *)

(** The alphabet the documentation gives: [A-Za-z0-9_-]. *)
Definition doc_session_byte (r : Z) : bool := alnum r || (r =? 45) || (r =? 95).

Lemma session_rune_ascii r : 0 <= r < 128 → session_rune r = doc_session_byte r.
Proof.
  intros. unfold session_rune, doc_session_byte, alnum.
  by rewrite IsLetter_ascii, IsDigit_ascii.
Qed.
(** (equivalence) On ASCII ids the check is the documented one, at most 128
    bytes of [A-Za-z0-9_-]. *)
Theorem validateSessionID_ascii id :
  is_ascii id = true →
  validateSessionID id = None ↔ id = "" ∨ (len id <= 128 ∧ all_bytes doc_session_byte id = true).
Proof.
  intros Ha. rewrite validateSessionID_spec. unfold valid_session.
  rewrite runes_ascii by done. setoid_rewrite <- forallb_elem. rewrite forallb_str_bytes.
  assert (all_bytes session_rune id = all_bytes doc_session_byte id) as ->; [|done].
  unfold is_ascii in Ha. clear -Ha. induction id as [|a id IH]; [done|]. cbn in *. bool_prop.
  pose proof (byte_range a). rewrite session_rune_ascii by lia. f_equal. by apply IH.
Qed.
Lemma validateSessionID_ascii_witness : validateSessionID "abc_9-X" = None.
Proof. apply validateSessionID_ascii; [reflexivity|]. right. split; [vm_compute; discriminate|reflexivity]. Defined.

(** U+00E9, as the two bytes of its encoding. *)
Definition e_acute : string := String (chr 195) (String (chr 169) "").
(** (functional) Outside ASCII the check is wider than the documented
    alphabet: an id that is one letter U+00E9 is accepted, and its two bytes
    count twice against the limit, so 65 such letters are refused as more than
    128 characters. *)
Theorem validateSessionID_unicode :
  validateSessionID e_acute = None ∧ all_bytes doc_session_byte e_acute = false ∧
  (let id := concat_str (repeat e_acute 65) in
   length (runes id) = 65%nat ∧ validateSessionID id ≠ None).
Proof. vm_compute. split_and!; try reflexivity. discriminate. Qed.
