(* ===== verification/GoCrypto.v ===== *)
(** * SHA-256 (package crypto/sha256)

    The hash of FIPS 180-4 on the bytes of a string, executable.  Nothing in the
    development assumes that it has no collisions: where that matters it is a
    named hypothesis on the two strings at hand. *)
From S2P Require Import Prelude GoStrings.

(** The constants are the first 32 bits of the fractional parts of the square
    and cube roots of the first primes. *)
Definition prime_list (limit : nat) : list Z :=
  filter (λ p, forallb (λ d, negb (p mod d =? 0)) (seqZ 2 (p - 2)) = true)
         (seqZ 2 (Z.of_nat limit - 1)).
(** The largest [r + k], [k < 2 ^ n], whose cube is at most [z]. *)
Fixpoint cube_root (n : nat) (r z : Z) : Z :=
  match n with
  | O => r
  | S n => let r' := r + 2 ^ Z.of_nat n in cube_root n (if r' ^ 3 <=? z then r' else r) z
  end.
Definition sha_k : list Z := Eval vm_compute in
  (λ p, u32 (cube_root 40 0 (p * 2 ^ 96))) <$> prime_list 311.
Definition sha_h0 : list Z := Eval vm_compute in
  (λ p, u32 (Z.sqrt (p * 2 ^ 64))) <$> prime_list 19.

Definition rotr (x n : Z) : Z := Z.lor (Z.shiftr x n) (u32 (Z.shiftl x (32 - n))).
Definition bsig0 x := Z.lxor (rotr x 2) (Z.lxor (rotr x 13) (rotr x 22)).
Definition bsig1 x := Z.lxor (rotr x 6) (Z.lxor (rotr x 11) (rotr x 25)).
Definition ssig0 x := Z.lxor (rotr x 7) (Z.lxor (rotr x 18) (Z.shiftr x 3)).
Definition ssig1 x := Z.lxor (rotr x 17) (Z.lxor (rotr x 19) (Z.shiftr x 10)).
Definition sha_ch x y z := Z.lxor (Z.land x y) (Z.land (u32 (Z.lnot x)) z).
Definition sha_maj x y z := Z.lxor (Z.land x y) (Z.lxor (Z.land x z) (Z.land y z)).

(** Big-endian words. *)
Fixpoint be_words (bs : list Z) : list Z :=
  match bs with
  | a :: b :: c :: d :: r => (((a * 256 + b) * 256 + c) * 256 + d) :: be_words r
  | _ => []
  end.
Fixpoint be_bytes (n : nat) (z : Z) : list Z :=
  match n with O => [] | S n => be_bytes n (Z.shiftr z 8) ++ [Z.land z 255] end.

(** The message with the bit 1, zeros to 56 bytes mod 64, and its bit length. *)
Definition sha_pad (bs : list Z) : list Z :=
  let n := Z.of_nat (length bs) in
  bs ++ [128] ++ repeat 0 (Z.to_nat ((55 - n) mod 64)) ++ be_bytes 8 (8 * n).

(** The schedule, newest word first. *)
Fixpoint schedule (n : nat) (w : list Z) : list Z :=
  match n with
  | O => w
  | S n =>
    let g i := nth i w 0 in
    schedule n (u32 (ssig1 (g 1%nat) + g 6%nat + ssig0 (g 14%nat) + g 15%nat) :: w)
  end.
Definition sha_round (st : list Z) (kw : Z) : list Z :=
  match st with
  | [a; b; c; d; e; f; g; h] =>
    let t1 := h + bsig1 e + sha_ch e f g + kw in
    let t2 := bsig0 a + sha_maj a b c in
    [u32 (t1 + t2); a; b; c; u32 (d + t1); e; f; g]
  | _ => st
  end.
Fixpoint add_all (a b : list Z) : list Z :=
  match a, b with x :: a, y :: b => u32 (x + y) :: add_all a b | _, _ => [] end.
Definition sha_block (st block : list Z) : list Z :=
  let w := rev (schedule 48 (rev (be_words block))) in
  add_all st (fold_left sha_round (add_all sha_k w) st).
Fixpoint sha_blocks (n : nat) (st bs : list Z) : list Z :=
  match n with
  | O => st
  | S n => sha_blocks n (sha_block st (take 64 bs)) (drop 64 bs)
  end.

(** [sha256.Sum256] *)
Definition Sum256 (s : string) : list Z :=
  let bs := sha_pad (str_bytes s) in
  sha_blocks (length bs / 64) sha_h0 bs ≫= be_bytes 4.

Example Sum256_abc : EncodeToString (Sum256 "abc") =
  "ba7816bf8f01cfea414140de5dae2223b00361a396177a9cb410ff61f20015ad".
Proof. vm_compute. reflexivity. Qed.
Example Sum256_two_blocks :
  EncodeToString (Sum256 "abcdbcdecdefdefgefghfghighijhijkijkljklmklmnlmnomnopnopq") =
  "248d6a61d20638b8e5c026930c3e6039a33ce45964ff2167f6ecedd419db06c1".
Proof. vm_compute. reflexivity. Qed.
