(* ===== verification/GoTime.v ===== *)
(** * Durations and contexts (packages time and context)

    A [time.Duration] is a number of nanoseconds.  A context is the chain of
    [WithTimeout] calls that made it; whether it is done is up to the clock. *)
From S2P Require Import Prelude GoUnicode GoStrings.

Definition Second : Z := 1000000000.
Definition Millisecond : Z := 1000000.

(** [time.Duration(n) * time.Second], an int64 product. *)
Definition seconds (n : Z) : Z := i64 (n * Second).
Lemma seconds_small n : 0 <= n <= 9223372036 → seconds n = n * Second.
Proof. intros. apply wraps_small; unfold Second; lia. Qed.

(** The lowest [n] decimal digits of [z]. *)
Fixpoint digits_pad (n : nat) (z : Z) : string :=
  match n with O => "" | S n => digits_pad n (z / 10) +:+ str1 (48 + z mod 10) end.
(** [fmtFrac]: the fraction [v / 10^prec] without trailing zeros. *)
Definition fmtFrac (v : Z) (prec : nat) : string :=
  let frac := TrimRight (digits_pad prec (v mod 10 ^ Z.of_nat prec)) "0" in
  if String.eqb frac "" then "" else "." +:+ frac.
(** [Duration.String] *)
Definition Duration_String (d : Z) : string :=
  let u := Z.abs d in
  let text :=
    if u =? 0 then "0s"
    else if u <? 1000 then Itoa u +:+ "ns"
    else if u <? Millisecond then
      Itoa (u / 1000) +:+ fmtFrac u 3 +:+ String (chr 194) (String (chr 181) "s")
    else if u <? Second then Itoa (u / Millisecond) +:+ fmtFrac u 6 +:+ "ms"
    else
      let s := u / Second in
      let m := s / 60 in
      let h := m / 60 in
      (if 0 <? h then Itoa h +:+ "h" else "") +:+
      (if 0 <? m then Itoa (m mod 60) +:+ "m" else "") +:+
      Itoa (s mod 60) +:+ fmtFrac u 9 +:+ "s" in
  (if d <? 0 then "-" else "") +:+ text.

Example Duration_30s : Duration_String (seconds 30) = "30s".
Proof. vm_compute. reflexivity. Qed.
Example Duration_5m : Duration_String (seconds 300) = "5m0s".
Proof. vm_compute. reflexivity. Qed.
Example Duration_ms : Duration_String 1500000 = "1.5ms".
Proof. vm_compute. reflexivity. Qed.

(** ** [time.ParseDuration]

    A sequence of decimal numbers with units and an optional sign.  The package
    scales a fraction in floating point; here it is exact and rounded down. *)
Fixpoint leading_digits (s : string) (acc : Z) (n : nat) : Z * nat * string :=
  match s with
  | String a r =>
    if ascii_digit (byte a) then leading_digits r (acc * 10 + (byte a - 48)) (S n) else (acc, n, s)
  | "" => (acc, n, s)
  end.
(** The characters up to the next digit or point. *)
Fixpoint unit_name (s : string) : string * string :=
  match s with
  | String a r =>
    if ascii_digit (byte a) || Ascii.eqb a "." then ("", s)
    else let '(u, rest) := unit_name r in (String a u, rest)
  | "" => ("", "")
  end.
Definition unit_ns (u : string) : option Z :=
  let micro := String (chr 194) (String (chr 181) "s") in
  let mu := String (chr 206) (String (chr 188) "s") in
  if String.eqb u "ns" then Some 1
  else if String.eqb u "us" || String.eqb u micro || String.eqb u mu then Some 1000
  else if String.eqb u "ms" then Some Millisecond
  else if String.eqb u "s" then Some Second
  else if String.eqb u "m" then Some (60 * Second)
  else if String.eqb u "h" then Some (3600 * Second)
  else None.
Fixpoint duration_loop (fuel : nat) (s : string) (d : Z) : option Z :=
  match fuel with
  | O => None
  | S fuel =>
    if String.eqb s "" then Some d
    else
      let '(v, pre, s) := leading_digits s 0 0 in
      let '(f, post, s) := match s with
                           | String "." r => leading_digits r 0 0
                           | _ => (0, O, s)
                           end in
      if ((pre =? 0) && (post =? 0))%nat then None
      else
        let '(u, s) := unit_name s in
        match unit_ns u with
        | None => None
        | Some ns =>
          let d := d + v * ns + f * ns / 10 ^ Z.of_nat post in
          if 2 ^ 63 <? d then None else duration_loop fuel s d
        end
  end.
Definition ParseDuration (s : string) : option Z :=
  let '(neg, s) := match s with
                   | String "-" r => (true, r)
                   | String "+" r => (false, r)
                   | _ => (false, s)
                   end in
  if String.eqb s "0" then Some 0
  else if String.eqb s "" then None
  else match duration_loop (S (String.length s)) s 0 with
       | Some d => if neg : bool then Some (- d) else if 2 ^ 63 - 1 <? d then None else Some d
       | None => None
       end.
Example ParseDuration_1 :
  ParseDuration "1h15m30.5s" = Some 4530500000000 ∧ ParseDuration "20s" = Some (20 * Second) ∧
  ParseDuration "-1.5ms" = Some (-1500000) ∧ ParseDuration "20" = None ∧ ParseDuration "1x" = None.
Proof. vm_compute. done. Qed.

Inductive context := Background | RequestContext | WithTimeout (parent : context) (d : Z).
