(* ===== verification/GoBase64.v ===== *)
(** * Unpadded URL-safe base64 (package encoding/base64)

    [base64.RawURLEncoding]: the decoder as the standard library has it (line
    breaks are skipped, the unused bits of the last character are not looked
    at), and the encoder that the other side uses, for the round trip. *)
From S2P Require Import Prelude GoUnicode GoStrings GoNet.

(** The value of a character of the alphabet. *)
Definition sextet (a : ascii) : option Z :=
  let b := byte a in
  if (65 <=? b) && (b <=? 90) then Some (b - 65)
  else if (97 <=? b) && (b <=? 122) then Some (b - 71)
  else if (48 <=? b) && (b <=? 57) then Some (b + 4)
  else if b =? 45 then Some 62
  else if b =? 95 then Some 63
  else None.
Definition line_break (a : ascii) : bool := (byte a =? 10) || (byte a =? 13).
Fixpoint sextets (s : string) : option (list Z) :=
  match s with
  | "" => Some []
  | String a r =>
    if line_break a then sextets r
    else d ← sextet a; ds ← sextets r; Some (d :: ds)
  end.
(** Four characters make three bytes; two or three that are left make one or two. *)
Fixpoint quanta (ds : list Z) : option (list Z) :=
  match ds with
  | [] => Some []
  | [_] => None
  | [a; b] => Some [u8 (Z.shiftl a 2 + Z.shiftr b 4)]
  | [a; b; c] => Some [u8 (Z.shiftl a 2 + Z.shiftr b 4); u8 (Z.shiftl b 4 + Z.shiftr c 2)]
  | a :: b :: c :: d :: r =>
    bs ← quanta r;
    Some (u8 (Z.shiftl a 2 + Z.shiftr b 4) :: u8 (Z.shiftl b 4 + Z.shiftr c 2) ::
          u8 (Z.shiftl c 6 + d) :: bs)
  end.
(** [RawURLEncoding.DecodeString]; its errors are never shown. *)
Definition DecodeString (s : string) : option (list Z) := ds ← sextets s; quanta ds.

(** ** The encoder *)
Definition b64_char (d : Z) : ascii :=
  chr (if d <? 26 then d + 65 else if d <? 52 then d + 71 else if d <? 62 then d - 4
       else if d =? 62 then 45 else 95).
Fixpoint EncodeBytes (bs : list Z) : string :=
  let c d := b64_char (Z.land d 63) in
  match bs with
  | [] => ""
  | [x] => String (c (Z.shiftr x 2)) (String (c (Z.shiftl x 4)) "")
  | [x; y] => String (c (Z.shiftr x 2)) (String (c (Z.shiftl x 4 + Z.shiftr y 4)) (String (c (Z.shiftl y 2)) ""))
  | x :: y :: z :: r =>
    String (c (Z.shiftr x 2)) (String (c (Z.shiftl x 4 + Z.shiftr y 4))
      (String (c (Z.shiftl y 2 + Z.shiftr z 6)) (String (c z) (EncodeBytes r))))
  end.
Definition b64 (s : string) : string := EncodeBytes (str_bytes s).

(** ** The round trip *)

(** A character of the alphabet has its value, and is neither a line break nor
    a dot. *)
Definition char_ok (d : Z) : bool :=
  match sextet (b64_char d) with
  | Some d' => (d' =? d) && negb (line_break (b64_char d)) && negb (Ascii.eqb (b64_char d) "."%char)
  | None => false
  end.
Lemma char_ok_all d : 0 <= d < 64 → char_ok d = true.
Proof.
  assert (forallb char_ok (seqZ 0 64) = true) as H by (vm_compute; reflexivity).
  intros Hd. rewrite forallb_elem in H. apply H, elem_of_seqZ. lia.
Qed.
Lemma land63 z : Z.land z 63 = z mod 64.
Proof. change 63 with (Z.ones 6). by rewrite Z.land_ones by lia. Qed.
Lemma sextets_char z s : sextets (String (b64_char (Z.land z 63)) s) = (λ ds, z mod 64 :: ds) <$> sextets s.
Proof.
  assert (0 <= z mod 64 < 64) as Hz by (apply Z.mod_pos_bound; lia).
  pose proof (char_ok_all _ Hz) as H. rewrite land63. unfold char_ok in H. cbn [sextets].
  destruct (sextet (b64_char (z mod 64))) as [d'|]; [|done]. rewrite !andb_true_iff in H.
  destruct H as [[->%Z.eqb_eq Hl] _]. apply negb_true_iff in Hl as ->. cbn. by destruct (sextets s).
Qed.
Lemma list_ind3 {A} (P : list A → Prop) :
  P [] → (∀ x, P [x]) → (∀ x y, P [x; y]) → (∀ x y z r, P r → P (x :: y :: z :: r)) → ∀ l, P l.
Proof.
  intros H0 H1 H2 H3. fix go 1. intros [|x [|y [|z r]]]; [done|apply H1|apply H2|apply H3, go].
Qed.
Ltac bits := unfold u8, wrapu; rewrite ?Z.shiftl_mul_pow2, ?Z.shiftr_div_pow2 by lia;
  unfold is_byte in *; Z.to_euclidean_division_equations; lia.
Lemma DecodeString_EncodeBytes bs : Forall is_byte bs → DecodeString (EncodeBytes bs) = Some bs.
Proof.
  induction bs as [|x|x y|x y z r IH] using list_ind3; intros Hb; unfold DecodeString in *.
  - done.
  - rewrite Forall_singleton in Hb. cbn [EncodeBytes]. rewrite !sextets_char. cbn. do 2 f_equal. bits.
  - rewrite !Forall_cons in Hb. destruct Hb as (Hx & Hy & _). cbn [EncodeBytes]. rewrite !sextets_char. cbn.
    do 2 f_equal; [bits|]. f_equal. bits.
  - rewrite !Forall_cons in Hb. destruct Hb as (Hx & Hy & Hz & Hr). specialize (IH Hr).
    cbn [EncodeBytes]. rewrite !sextets_char. destruct (sextets (EncodeBytes r)) as [ds|]; [|done].
    cbn in IH |- *. rewrite IH. cbn. do 2 f_equal; [bits|]. f_equal; [bits|]. f_equal. bits.
Qed.
Lemma str_bytes_range s : Forall is_byte (str_bytes s).
Proof. induction s as [|a s IH]; constructor; [apply byte_range|done]. Qed.
Lemma DecodeString_b64 s : DecodeString (b64 s) = Some (str_bytes s).
Proof. apply DecodeString_EncodeBytes, str_bytes_range. Qed.

Lemma EncodeBytes_no_dot bs : ContainsByte (EncodeBytes bs) "."%char = false.
Proof.
  assert (∀ z s, ContainsByte s "."%char = false → ContainsByte (String (b64_char (Z.land z 63)) s) "."%char = false) as Hc.
  { intros z s Hs. assert (0 <= z mod 64 < 64) as Hz by (apply Z.mod_pos_bound; lia).
    pose proof (char_ok_all _ Hz) as H. rewrite land63. unfold char_ok in H.
    destruct (sextet _); [|done]. rewrite !andb_true_iff in H. destruct H as [_ H%negb_true_iff].
    unfold ContainsByte in *. cbn [IndexByte]. rewrite H. by destruct (IndexByte s "."). }
  induction bs as [|x|x y|x y z r IH] using list_ind3; cbn [EncodeBytes]; auto.
Qed.
