(* ===== verification/Jwt.v ===== *)
(** * Bearer tokens (internal/api/jwt.go)

    The RS256 verifier and its cache of keys.  The HTTP exchange, the JSON
    decoders and the RSA check are arguments. *)
From S2P Require Import Prelude GoUnicode GoStrings GoError GoNet GoTime GoCrypto GoBase64.

Record JWTVerifier := mkVerifier { JWKSURL : string; Issuer : string; Audience : string; TTL : Z }.
Record PublicKey := mkKey { modulus : Z; exponent : Z }.
(** The fields of the verifier that change, under its mutex. *)
Record key_cache := mkCache { keys : option (gmap string PublicKey); fetched : Z }.

Record jwtHeader := mkHeader { Alg : string; hdr_Kid : string; Typ : string }.
(** A JSON value as far as the audience is concerned. *)
Inductive any := AnyString (s : string) | AnyList (l : list any) | AnyOther.
Record jwtClaims := mkClaims { Iss : string; Aud : any; Exp : Z; Nbf : Z; Sub : string }.
Record jwk := mkJwk {
  Kid : string; Kty : string; jwk_Alg : string; jwk_N : string; jwk_E : string; Use : string
}.

Definition audContains (aud : any) (want : string) : bool :=
  match aud with
  | AnyString v => String.eqb v want
  | AnyList v => existsb (λ x, match x with AnyString s => String.eqb s want | _ => false end) v
  | AnyOther => false
  end.

(** [big.Int.SetBytes], and the exponent in an int. *)
Definition SetBytes (bs : list Z) : Z := foldl (λ n b, n * 256 + b) 0 bs.
Definition exponent_of (bs : list Z) : Z := foldl (λ e b, Z.lor (i64 (Z.shiftl e 8)) b) 0 bs.
Definition jwkRSA (k : jwk) : option PublicKey :=
  match DecodeString (jwk_N k), DecodeString (jwk_E k) with
  | Some nb, Some eb =>
    let e := exponent_of eb in
    if e =? 0 then None else Some (mkKey (SetBytes nb) e)
  | _, _ => None
  end.
Definition b64JSON (seg : string) : option string := bytes_str <$> DecodeString seg.

(** The loop over the document: a key that cannot be used is skipped, of two
    with the same id the later one counts. *)
Definition add_key (keys : gmap string PublicKey) (k : jwk) : gmap string PublicKey :=
  if negb (EqualFold (Kty k) "RSA") then keys
  else match jwkRSA k with Some pub => <[Kid k := pub]> keys | None => keys end.
Definition keys_of (doc : list jwk) : gmap string PublicKey := foldl add_key ∅ doc.

Section Verifier.
Context {X : Type}.
(** The clock in nanoseconds; a GET, with the status and what reading the body
    delivers; the decoders; the check of a signature on a digest. *)
Context (now : M X Z) (Get : string → M X (result (Z * (string * error)))).
Context (Unmarshal_header : string → option jwtHeader) (Unmarshal_claims : string → option jwtClaims).
Context (Decode_doc : string * error → result (list jwk)).
Context (VerifyPKCS1v15 : PublicKey → list Z → list Z → bool).

Definition outside {A} (m : M X A) : M (key_cache * X) A := λ w,
  let '(o, x) := m w.2 in (o, (w.1, x)).

Definition refreshLocked (v : JWTVerifier) : M (key_cache * X) (option error) :=
  try! resp := outside (Get (JWKSURL v)) in
  let '(status, body) := resp in
  if negb (status =? 200) then ret (Some (New ("jwks: HTTP " +:+ Itoa status)))
  else
    match Decode_doc body with
    | Err err => ret (Some err)
    | Ok doc =>
      let ks := keys_of doc in
      if (size ks =? 0)%nat then ret (Some (New "jwks: no RSA keys"))
      else
        let! t := outside now in
        modify (λ w, (mkCache (Some ks) t, w.2)) ;;; ret None
    end.

(** [len(v.keys) == 1] and the only element of the range. *)
Definition lookup_key (ks : gmap string PublicKey) (kid : string) : option PublicKey :=
  if String.eqb kid "" && (size ks =? 1)%nat then snd <$> head (map_to_list ks) else ks !! kid.
Definition key (v : JWTVerifier) (kid : string) : M (key_cache * X) (result (option PublicKey)) :=
  let ttl := if TTL v <=? 0 then 5 * (60 * Second) else TTL v in
  let! c := gets fst in
  let! stale := (match keys c with
                 | None => ret true
                 | Some _ => let! t := outside now in ret (ttl <? t - fetched c)
                 end) in
  let! e := (if stale then refreshLocked v else ret None) in
  let! c := gets fst in
  match e, keys c with
  | Some err, None => ret (Err err)
  | _, None => ret (Ok None)
  | _, Some ks => ret (Ok (lookup_key ks kid))
  end.

Definition Valid (v : option JWTVerifier) (token : string) : M (key_cache * X) bool :=
  match v with
  | None => ret false
  | Some v =>
    if String.eqb (JWKSURL v) "" || String.eqb token "" || negb (CountByte token "." =? 2)%nat then ret false
    else
      match SplitByte token "." with
      | [p0; p1; p2] =>
        match b64JSON p0 ≫= Unmarshal_header with
        | None => ret false
        | Some hdr =>
          if negb (EqualFold (Alg hdr) "RS256") then ret false
          else
            match b64JSON p1 ≫= Unmarshal_claims with
            | None => ret false
            | Some claims =>
              let! t := outside now in
              let unix := t / Second in
              if negb (Exp claims =? 0) && (Exp claims <? unix) then ret false
              else if negb (Nbf claims =? 0) && (unix <? Nbf claims) then ret false
              else if negb (String.eqb (Issuer v) "") && negb (String.eqb (Iss claims) (Issuer v)) then ret false
              else if negb (String.eqb (Audience v) "") && negb (audContains (Aud claims) (Audience v)) then ret false
              else
                let! k := key v (hdr_Kid hdr) in
                match k with
                | Ok (Some pub) =>
                  match DecodeString p2 with
                  | None => ret false
                  | Some sig => ret (VerifyPKCS1v15 pub (Sum256 (p0 +:+ "." +:+ p1)) sig)
                  end
                | _ => ret false
                end
            end
        end
      | _ => panic "index out of range"
      end
  end.
End Verifier.

(** ** What an accepted token promises *)

(** The times of a token; 0 stands for one that is not given. *)
Definition live (unix : Z) (c : jwtClaims) : Prop :=
  (Exp c = 0 ∨ unix <= Exp c) ∧ (Nbf c = 0 ∨ Nbf c <= unix).
Definition meant_for (v : JWTVerifier) (c : jwtClaims) : Prop :=
  (Issuer v = "" ∨ Iss c = Issuer v) ∧
  (Audience v = "" ∨ Aud c = AnyString (Audience v) ∨
   ∃ l, Aud c = AnyList l ∧ AnyString (Audience v) ∈ l).
Lemma audContains_spec aud want :
  audContains aud want = true ↔ aud = AnyString want ∨ ∃ l, aud = AnyList l ∧ AnyString want ∈ l.
Proof.
  destruct aud as [s|l|]; cbn.
  - rewrite String.eqb_eq. split; [intros ->; by left|]. intros [[= ->]|(l & ? & _)]; done.
  - rewrite existsb_elem. split.
    + intros (x & Hx & E). right. exists l. split; [done|]. destruct x; try done.
      apply String.eqb_eq in E. by subst.
    + intros [?|(l' & [= <-] & Hl)]; [done|]. exists (AnyString want). split; [done|]. apply String.eqb_refl.
  - split; [done|]. intros [?|(l & ? & _)]; done.
Qed.
(** The keys of a document. *)
Lemma keys_of_sound doc kid pub :
  keys_of doc !! kid = Some pub →
  ∃ k, k ∈ doc ∧ Kid k = kid ∧ EqualFold (Kty k) "RSA" = true ∧ jwkRSA k = Some pub.
Proof.
  unfold keys_of. assert (∀ (l pre : list jwk) m,
    (∀ kid pub, m !! kid = Some pub → ∃ k, k ∈ pre ∧ Kid k = kid ∧ EqualFold (Kty k) "RSA" = true ∧ jwkRSA k = Some pub) →
    ∀ kid pub, foldl add_key m l !! kid = Some pub →
    ∃ k, k ∈ pre ++ l ∧ Kid k = kid ∧ EqualFold (Kty k) "RSA" = true ∧ jwkRSA k = Some pub) as H.
  { induction l as [|k l IH]; intros pre m Hm.
    - intros ?? H. rewrite app_nil_r. by apply Hm.
    - replace (pre ++ k :: l) with ((pre ++ [k]) ++ l) by by rewrite <- app_assoc.
      apply (IH (pre ++ [k])). intros kid' pub'. unfold add_key.
      assert (m !! kid' = Some pub' → ∃ j, j ∈ pre ++ [k] ∧ Kid j = kid' ∧ EqualFold (Kty j) "RSA" = true ∧
        jwkRSA j = Some pub') as Hold by (intros (j & ? & ?)%Hm; exists j; set_solver).
      destruct (EqualFold (Kty k) "RSA") eqn:Et; [|done]. cbn [negb]. destruct (jwkRSA k) as [pk|] eqn:Ek; [|done].
      rewrite lookup_insert_Some. intros [[<- <-]|[_ ?]]; [|by apply Hold]. exists k. set_solver. }
  intros Hk. by apply (H doc [] ∅) in Hk.
Qed.

(** A token in three parts. *)
Lemma SplitByte_count s c n : CountByte s c = n → length (SplitByte s c) = S n.
Proof.
  revert n. induction s as [|a s IH]; intros n; cbn; [by intros <-|].
  destruct (Ascii.eqb a c); cbn; [intros <-; by rewrite (IH _ eq_refl)|].
  intros <-. specialize (IH _ eq_refl). by destruct (SplitByte s c).
Qed.
Lemma Join_cons a b l sep : Join (a :: b :: l) sep = a +:+ sep +:+ Join (b :: l) sep.
Proof. done. Qed.
Lemma SplitByte_Join s c : Join (SplitByte s c) (String c "") = s.
Proof.
  induction s as [|a s IH]; [done|]. cbn [SplitByte]. pose proof (SplitByte_ne s c).
  destruct (Ascii.eqb_spec a c) as [->|]; destruct (SplitByte s c) as [|p [|q ps]]; try done;
    rewrite ?Join_cons in *; rewrite <- IH; done.
Qed.
Lemma split_token token :
  CountByte token "." = 2%nat → ∃ h p s, SplitByte token "." = [h; p; s] ∧ token = h +:+ "." +:+ p +:+ "." +:+ s.
Proof.
  intros H. apply SplitByte_count in H. pose proof (SplitByte_Join token ".") as Hj.
  destruct (SplitByte token ".") as [|h [|p [|s [|]]]]; try done. exists h, p, s. split; [done|].
  by rewrite <- Hj, !Join_cons.
Qed.

(** ** The steps of [Valid] *)
Section Cases.
Context {X : Type} (now : M X Z).
Context (Unmarshal_header : string → option jwtHeader) (Unmarshal_claims : string → option jwtClaims).

(** A token whose header and claims are in order at the time of the clock. *)
Record in_order (v : JWTVerifier) (token : string) (x : X) (h p s : string) (hdr : jwtHeader) (x1 : X)
    : Prop := {
  io_parts : token = h +:+ "." +:+ p +:+ "." +:+ s;
  io_header : b64JSON h ≫= Unmarshal_header = Some hdr;
  io_alg : EqualFold (Alg hdr) "RS256" = true;
  io_claims : ∃ claims t, b64JSON p ≫= Unmarshal_claims = Some claims ∧ now x = (Ret t, x1) ∧
    live (t / Second) claims ∧ meant_for v claims
}.
(** The rest of the work on such a token. *)
Definition finish (Get : string → M X (result (Z * (string * error)))) Decode_doc VerifyPKCS1v15
    (v : JWTVerifier) (h p s : string) (hdr : jwtHeader) : M (key_cache * X) bool :=
  let! k := key now Get Decode_doc v (hdr_Kid hdr) in
  match k with
  | Ok (Some pub) =>
    match DecodeString s with
    | None => ret false
    | Some sig => ret (VerifyPKCS1v15 pub (Sum256 (h +:+ "." +:+ p)) sig)
    end
  | _ => ret false
  end.
Ltac refused o w1 := right; exists o, w1; split; [done|split; [done|intros; reflexivity]].
(** Any other token is refused without a key being looked at. *)
Lemma Valid_cases v token w :
  (∃ h p s hdr x1, in_order v token w.2 h p s hdr x1 ∧
     ∀ Get Decode_doc Verify, Valid now Get Unmarshal_header Unmarshal_claims Decode_doc Verify (Some v) token w =
       finish Get Decode_doc Verify v h p s hdr (w.1, x1)) ∨
  (∃ o w1, o ≠ Ret true ∧ w1.1 = w.1 ∧
     ∀ Get Decode_doc Verify,
       Valid now Get Unmarshal_header Unmarshal_claims Decode_doc Verify (Some v) token w = (o, w1)).
Proof.
  unfold Valid. destruct (_ || _) eqn:E; [refused (Ret false : outcome bool) w|].
  apply orb_false_iff in E as [_ E]. apply negb_false_iff, Nat.eqb_eq in E.
  destruct (split_token token E) as (h & p & s & Esp & Ht). rewrite Esp.
  destruct (b64JSON h ≫= Unmarshal_header) as [hdr|] eqn:Eh; [|refused (Ret false : outcome bool) w].
  destruct (EqualFold (Alg hdr) "RS256") eqn:Ea; [|refused (Ret false : outcome bool) w]. cbn [negb].
  destruct (b64JSON p ≫= Unmarshal_claims) as [claims|] eqn:Ep; [|refused (Ret false : outcome bool) w].
  unfold bind at 1 3, outside at 1 2.
  destruct (now w.2) as [[t|pv|] x1] eqn:En.
  2: { refused (Panic pv : outcome bool) (w.1, x1). }
  2: { refused (Blocked : outcome bool) (w.1, x1). }
  destruct (negb (Exp claims =? 0) && _) eqn:C1; [refused (Ret false : outcome bool) (w.1, x1)|].
  destruct (negb (Nbf claims =? 0) && _) eqn:C2; [refused (Ret false : outcome bool) (w.1, x1)|].
  destruct (negb (String.eqb (Issuer v) "") && _) eqn:C3; [refused (Ret false : outcome bool) (w.1, x1)|].
  destruct (negb (String.eqb (Audience v) "") && _) eqn:C4; [refused (Ret false : outcome bool) (w.1, x1)|].
  left. exists h, p, s, hdr, x1. split; [|done]. split; [done..|]. exists claims, t. split_and!; try done; split.
  - rewrite !andb_false_iff, !negb_false_iff, Z.eqb_eq, Z.ltb_ge in C1. naive_solver.
  - rewrite !andb_false_iff, !negb_false_iff, Z.eqb_eq, Z.ltb_ge in C2. naive_solver.
  - rewrite !andb_false_iff, !negb_false_iff, !String.eqb_eq in C3. naive_solver.
  - rewrite !andb_false_iff, !negb_false_iff, String.eqb_eq, audContains_spec in C4. naive_solver.
Qed.

(** (safety) The keys are fetched for nothing less: a token that is not in
    order (its form, its algorithm, its times, its issuer, its audience) is
    refused in the same way whatever a GET would answer, so it causes none. *)
Theorem Valid_asks_last v token w Get Get' Decode_doc Decode_doc' Verify Verify' :
  (∀ h p s hdr x1, ¬ in_order v token w.2 h p s hdr x1) →
  Valid now Get Unmarshal_header Unmarshal_claims Decode_doc Verify (Some v) token w =
  Valid now Get' Unmarshal_header Unmarshal_claims Decode_doc' Verify' (Some v) token w.
Proof.
  intros Hno. destruct (Valid_cases v token w) as [(h & p & s & hdr & x1 & H & _)|(o & w1 & _ & _ & H)].
  - by destruct (Hno h p s hdr x1).
  - by rewrite !H.
Qed.
End Cases.

Section Spec.
Context {X : Type} (now : M X Z) (Get : string → M X (result (Z * (string * error)))).
Context (Unmarshal_header : string → option jwtHeader) (Unmarshal_claims : string → option jwtClaims).
Context (Decode_doc : string * error → result (list jwk)).
Context (VerifyPKCS1v15 : PublicKey → list Z → list Z → bool).
Notation refresh := (refreshLocked now Get Decode_doc).
Notation get_key := (key now Get Decode_doc).
Notation valid := (Valid now Get Unmarshal_header Unmarshal_claims Decode_doc VerifyPKCS1v15).

(** The sets of keys that the configured URL publishes: [published] holds for
    the keys of every document that a GET of it, answered with 200, delivers. *)
Context (v : JWTVerifier) (published : gmap string PublicKey → Prop).
Hypothesis Hpublished : ∀ x body x' doc,
  Get (JWKSURL v) x = (Ret (Ok (200, body)), x') → Decode_doc body = Ok doc → published (keys_of doc).
Definition cache_ok (w : key_cache * X) : Prop := ∀ ks, keys w.1 = Some ks → published ks.
Definition keeps_cache (w w' : key_cache * X) : Prop := cache_ok w → cache_ok w'.
#[local] Instance keeps_cache_preorder : PreOrder keeps_cache.
Proof. split; [intros x H; exact H|]. intros x y z H1 H2 H. apply H2, H1, H. Qed.

Lemma outside_cache {A} (m : M X A) w o w' : outside m w = (o, w') → w'.1 = w.1.
Proof. unfold outside. destruct (m w.2). by intros [= <- <-]. Qed.
Lemma outside_keeps {A} (m : M X A) : respects keeps_cache (outside m).
Proof.
  intros w. unfold keeps_cache, cache_ok. destruct (outside m w) as [o w'] eqn:E. cbn.
  by rewrite (outside_cache _ _ _ _ E).
Qed.
Lemma refresh_keeps : respects keeps_cache (refresh v).
Proof.
  intros w Hw. unfold refreshLocked, try. pose proof (outside_keeps (Get (JWKSURL v)) w Hw) as Hw1.
  unfold bind at 1, outside at 1. unfold outside in Hw1.
  destruct (Get (JWKSURL v) w.2) as [[[[status body]|e]|p|] x1] eqn:Eg; [|exact Hw1..].
  destruct (Z.eqb_spec status 200) as [->|]; [|done]. cbn [negb].
  destruct (Decode_doc body) as [doc|e] eqn:Ed; [|done]. cbv zeta. destruct (_ =? 0)%nat; [done|].
  pose proof (Hpublished _ _ _ _ Eg Ed) as Hp. unfold bind, outside. cbn.
  destruct (now x1) as [[t|p|] x2]; [|done..]. intros ks. cbn. by intros [= <-].
Qed.
Lemma stale_keeps (ks : option (gmap string PublicKey)) f :
  respects keeps_cache (match ks with None => ret true | Some _ => let! t := outside now in ret (f t) end).
Proof. pose proof (@outside_keeps Z). destruct ks; auto with go. Qed.
Lemma key_keeps kid : respects keeps_cache (get_key v kid).
Proof.
  unfold key. resp_bind; [auto with go|]. intros c.
  resp_bind; [apply (stale_keeps (keys c) (λ t, _ <? t - _))|]. intros s.
  resp_bind; [destruct s; [apply refresh_keeps|auto with go]|]. intros e.
  resp_bind; [auto with go|]. intros c'. destruct e, (keys c'); auto with go.
Qed.
(** A key that is found is one of a set that was published. *)
Lemma key_published kid w pub w' :
  cache_ok w → get_key v kid w = (Ret (Ok (Some pub)), w') →
  ∃ ks, published ks ∧ lookup_key ks kid = Some pub.
Proof.
  intros Hw H. pose proof (key_keeps kid w Hw) as Hw'. rewrite H in Hw'. cbn in Hw'. unfold key in H.
  apply bind_inv_Ret in H as (c & w1 & _ & H). apply bind_inv_Ret in H as (s & w2 & _ & H).
  apply bind_inv_Ret in H as (e & w3 & _ & H). apply bind_inv_Ret in H as (c' & w4 & [= <- <-] & H).
  destruct (keys w3.1) as [ks|] eqn:Ek; [|by destruct e]. exists ks.
  assert (w' = w3 ∧ lookup_key ks kid = Some pub) as [-> ?] by (destruct e; injection H as ? <-; by split).
  by split; [apply Hw'|].
Qed.

(** C13 (safety): a token is accepted only if it has three parts, names RS256,
    is live at the time of the clock, comes from the configured issuer and is
    meant for the configured audience, as far as these are configured, and one
    of a set of keys that the configured URL has published, the one of its id
    (or the only one), verifies the signature on exactly its first two parts.
    The cache holds published keys then, as before.  A token that gives no
    expiry never expires. *)
Theorem Valid_trusted token w w' :
  cache_ok w → valid (Some v) token w = (Ret true, w') →
  cache_ok w' ∧
  ∃ h p s hdr x1 ks pub sig,
    in_order now Unmarshal_header Unmarshal_claims v token w.2 h p s hdr x1 ∧
    published ks ∧ lookup_key ks (hdr_Kid hdr) = Some pub ∧
    DecodeString s = Some sig ∧ VerifyPKCS1v15 pub (Sum256 (h +:+ "." +:+ p)) sig = true.
Proof.
  intros Hw. destruct (Valid_cases now Unmarshal_header Unmarshal_claims v token w)
    as [(h & p & s & hdr & x1 & Hin & ->)|(o & w1 & Ho & _ & ->)]; [|by intros [= -> _]].
  unfold finish. intros H. assert (cache_ok (w.1, x1)) as Hw1 by exact Hw.
  apply bind_inv_Ret in H as ([[pub|]|e] & w2 & Ek & H); [|done..].
  destruct (DecodeString s) as [sig|] eqn:Es; [|done]. injection H as Hv <-.
  pose proof (key_keeps (hdr_Kid hdr) _ Hw1) as Hw2. rewrite Ek in Hw2. split; [exact Hw2|].
  destruct (key_published _ _ _ _ Hw1 Ek) as (ks & Hks & Hl).
  by exists h, p, s, hdr, x1, ks, pub, sig.
Qed.
End Spec.

(** ** What an issuer can rely on *)
Section Issuer.
Context {X : Type} (now : M X Z) (Get : string → M X (result (Z * (string * error)))).
Context (Unmarshal_header : string → option jwtHeader) (Unmarshal_claims : string → option jwtClaims).
Context (Decode_doc : string * error → result (list jwk)).
Context (VerifyPKCS1v15 : PublicKey → list Z → list Z → bool).

(** The compact form of a signed token. *)
Definition compact (header claims : string) (sig : list Z) : string :=
  b64 header +:+ "." +:+ b64 claims +:+ "." +:+ EncodeBytes sig.
Lemma dot_cons s : "." +:+ s = String "." s.
Proof. done. Qed.
Lemma compact_split header claims sig :
  SplitByte (compact header claims sig) "." = [b64 header; b64 claims; EncodeBytes sig].
Proof.
  unfold compact. rewrite !dot_cons, !SplitByte_app.
  by rewrite !SplitByte_plain by apply EncodeBytes_no_dot.
Qed.
Lemma compact_count header claims sig : CountByte (compact header claims sig) "." = 2%nat.
Proof.
  pose proof (SplitByte_count _ "." _ (eq_refl (CountByte (compact header claims sig) "."))) as H.
  rewrite compact_split in H. by injection H.
Qed.
Lemma b64JSON_b64 s : b64JSON (b64 s) = Some s.
Proof. unfold b64JSON. rewrite DecodeString_b64. cbn. by rewrite bytes_str_bytes. Qed.

(** C36 (roundtrip): A token that its issuer signed in the compact form with a key
    the verifier finds is accepted: RS256 in the header, claims that are live
    and meant for this verifier, and a signature of the first two parts. *)
Theorem Valid_accepts v header claims sig hdr cl w t x1 pub w' :
  JWKSURL v ≠ "" → Forall is_byte sig →
  Unmarshal_header header = Some hdr → EqualFold (Alg hdr) "RS256" = true →
  Unmarshal_claims claims = Some cl →
  now w.2 = (Ret t, x1) → live (t / Second) cl → meant_for v cl →
  key now Get Decode_doc v (hdr_Kid hdr) (w.1, x1) = (Ret (Ok (Some pub)), w') →
  VerifyPKCS1v15 pub (Sum256 (b64 header +:+ "." +:+ b64 claims)) sig = true →
  Valid now Get Unmarshal_header Unmarshal_claims Decode_doc VerifyPKCS1v15 (Some v)
    (compact header claims sig) w = (Ret true, w').
Proof.
  intros Hu Hs Eh Ea Ec En [He Hb] [Hi Hau] Ek Ev. unfold Valid.
  rewrite compact_count, compact_split, Nat.eqb_refl. apply String.eqb_neq in Hu as ->.
  assert (String.eqb (compact header claims sig) "" = false) as ->.
  { apply String.eqb_neq. intros E. pose proof (compact_count header claims sig) as H. by rewrite E in H. }
  cbn [orb negb]. rewrite !b64JSON_b64. cbn [mbind option_bind]. rewrite Eh, Ea, Ec. cbn [negb].
  unfold bind at 1, outside at 1. rewrite En.
  assert (negb (Exp cl =? 0) && (Exp cl <? t / Second) = false) as ->
    by (rewrite andb_false_iff, negb_false_iff, Z.eqb_eq, Z.ltb_ge; done).
  assert (negb (Nbf cl =? 0) && (t / Second <? Nbf cl) = false) as ->
    by (rewrite andb_false_iff, negb_false_iff, Z.eqb_eq, Z.ltb_ge; done).
  assert (negb (String.eqb (Issuer v) "") && negb (String.eqb (Iss cl) (Issuer v)) = false) as ->
    by (rewrite andb_false_iff, !negb_false_iff, !String.eqb_eq; done).
  assert (negb (String.eqb (Audience v) "") && negb (audContains (Aud cl) (Audience v)) = false) as ->
    by (rewrite andb_false_iff, !negb_false_iff, String.eqb_eq, audContains_spec; done).
  rewrite (bind_Ret _ _ _ _ _ Ek), DecodeString_EncodeBytes by done. by rewrite Ev.
Qed.

(** ** The cache *)
Lemma lookup_key_spec ks kid pub :
  lookup_key ks kid = Some pub →
  ks !! kid = Some pub ∨ (kid = "" ∧ ∃ only, ks = {[only := pub]}).
Proof.
  unfold lookup_key. destruct (String.eqb_spec kid "") as [->|]; [|by left]. cbn [andb].
  destruct (Nat.eqb_spec (size ks) 1) as [Hs|]; [|by left].
  rewrite <- length_map_to_list in Hs. pose proof (list_to_map_to_list ks) as Hks.
  destruct (map_to_list ks) as [|[i x] [|]]; try done. cbn in Hks |- *. intros [= <-].
  right. split; [done|]. exists i. by rewrite <- Hks, insert_empty.
Qed.
Lemma key_at v kid c x ks t x1 :
  keys c = Some ks → now x = (Ret t, x1) →
  key now Get Decode_doc v kid (c, x) =
  bind (if (if TTL v <=? 0 then 300 * Second else TTL v) <? t - fetched c
        then refreshLocked now Get Decode_doc v else ret None)
    (λ e, let! c := gets fst in
          match e, keys c with
          | Some err, None => ret (Err err)
          | _, None => ret (Ok None)
          | _, Some ks => ret (Ok (lookup_key ks kid))
          end) (c, x1).
Proof.
  intros Hk En. unfold key. change (5 * (60 * Second)) with (300 * Second).
  rewrite (bind_Ret (gets fst) _ (c, x) c (c, x)) by done. rewrite Hk.
  erewrite bind_Ret; [done|]. unfold bind, outside. cbn. by rewrite En.
Qed.
Lemma refresh_fails v c x e w :
  refreshLocked now Get Decode_doc v (c, x) = (Ret (Some e), w) → w.1 = c.
Proof.
  unfold refreshLocked, try, bind, outside. cbn.
  destruct (Get (JWKSURL v) x) as [[[[status body]|e']|p|] x2]; [|by intros [= _ <-]|done..].
  destruct (negb _); [by intros [= _ <-]|]. destruct (Decode_doc body); [|by intros [= _ <-]].
  destruct (_ =? 0)%nat; [by intros [= _ <-]|]. cbn. by destruct (now x2) as [[t2|p|] x3].
Qed.
Lemma refresh_succeeds v c x w :
  refreshLocked now Get Decode_doc v (c, x) = (Ret None, w) →
  ∃ doc body x2 t2, Get (JWKSURL v) x = (Ret (Ok (200, body)), x2) ∧ Decode_doc body = Ok doc ∧
    w.1 = mkCache (Some (keys_of doc)) t2.
Proof.
  unfold refreshLocked, try, bind, outside. cbn.
  destruct (Get (JWKSURL v) x) as [[[[status body]|e']|p|] x2]; [|done..].
  destruct (Z.eqb_spec status 200) as [->|]; [|done]. cbn [negb].
  destruct (Decode_doc body) as [doc|] eqn:Ed; [|done].
  destruct (_ =? 0)%nat; [done|]. cbn. destruct (now x2) as [[t2|p|] x3]; [|done..].
  intros [= <-]. by exists doc, body, x2, t2.
Qed.
(** (functional) A key that was looked up is one of the last document that was
    fetched with success, and no GET is made while that is fresh; when it is
    older than its time, a document that cannot be fetched, or that has no RSA
    key, leaves the old keys in use, however old they are. *)
Theorem key_cached v kid c x ks :
  keys c = Some ks →
  let ttl := if TTL v <=? 0 then 300 * Second else TTL v in
  ∀ t x1, now x = (Ret t, x1) →
  (t - fetched c <= ttl →
     key now Get Decode_doc v kid (c, x) = (Ret (Ok (lookup_key ks kid)), (c, x1))) ∧
  (ttl < t - fetched c → ∀ r w2, refreshLocked now Get Decode_doc v (c, x1) = (Ret r, w2) →
     match r with
     | Some _ => w2.1 = c ∧ key now Get Decode_doc v kid (c, x) = (Ret (Ok (lookup_key ks kid)), w2)
     | None => ∃ doc body x2 t2, Get (JWKSURL v) x1 = (Ret (Ok (200, body)), x2) ∧ Decode_doc body = Ok doc ∧
         w2.1 = mkCache (Some (keys_of doc)) t2 ∧
         key now Get Decode_doc v kid (c, x) = (Ret (Ok (lookup_key (keys_of doc) kid)), w2)
     end).
Proof.
  intros Hk ttl t x1 En. rewrite (key_at v kid c x ks t x1 Hk En). fold ttl. split.
  - intros Hl. rewrite (proj2 (Z.ltb_ge _ _)), bind_ret by done. unfold bind, gets. cbn. by rewrite Hk.
  - intros Hl r w2 Er. rewrite (proj2 (Z.ltb_lt _ _)), (bind_Ret _ _ _ _ _ Er) by done.
    unfold bind, gets. destruct r as [e|].
    + apply refresh_fails in Er as ->. by rewrite Hk.
    + apply refresh_succeeds in Er as (doc & body & x2 & t2 & ? & ? & ->).
      by exists doc, body, x2, t2.
Qed.
End Issuer.

(** ** Samples: an issuer with one key; a signature is the start of the digest *)
Definition sample_now : M Z Z := λ x, (Ret x, x).
Definition sample_get (url : string) : M Z (result (Z * (string * error))) :=
  ret (Ok (200, ("keys", Sentinel EOF))).
Definition sample_header (s : string) : option jwtHeader :=
  if String.eqb s "{alg:RS256}" then Some (mkHeader "RS256" "k1" "JWT") else None.
Definition sample_claims (s : string) : option jwtClaims :=
  if String.eqb s "{sub:agent}" then
    Some (mkClaims "https://issuer.test" (AnyList [AnyOther; AnyString "warden"]) 1000 0 "agent")
  else None.
Definition sample_jwk : jwk := mkJwk "k1" "RSA" "RS256" "AQAB" "AQAB" "sig".
Definition sample_doc (body : string * error) : result (list jwk) :=
  if String.eqb body.1 "keys" then Ok [mkJwk "k0" "EC" "" "" "" ""; sample_jwk] else Err (New "json").
Definition sample_verify (pub : PublicKey) (digest sig : list Z) : bool :=
  (modulus pub =? 65537) && bool_decide (sig = take 4 digest).
Definition sample_verifier : JWTVerifier := mkVerifier "https://issuer.test/jwks" "https://issuer.test" "warden" 0.
Definition sample_sig : list Z :=
  take 4 (Sum256 (b64 "{alg:RS256}" +:+ "." +:+ b64 "{sub:agent}")).
Definition sample_token : string := compact "{alg:RS256}" "{sub:agent}" sample_sig.
Definition sample_cache : key_cache := mkCache None 0.
Definition sample_valid : string → M (key_cache * Z) bool :=
  Valid sample_now sample_get sample_header sample_claims sample_doc sample_verify (Some sample_verifier).
(** 999 s after the epoch, and two seconds later: the token has expired. *)
Example sample_token_lives : (sample_valid sample_token (sample_cache, 999 * Second)).1 = Ret true.
Proof. vm_compute. reflexivity. Qed.
Example sample_token_expires : (sample_valid sample_token (sample_cache, 1001 * Second)).1 = Ret false.
Proof. vm_compute. reflexivity. Qed.

Definition sample_published (ks : gmap string PublicKey) : Prop := ks !! "k1" = Some (mkKey 65537 65537).
Lemma Valid_trusted_witness :
  cache_ok sample_published (sample_valid sample_token (sample_cache, 999 * Second)).2.
Proof.
  destruct (sample_valid sample_token (sample_cache, 999 * Second)) as [o w'] eqn:E.
  assert (o = Ret true) as ->.
  { pose proof (f_equal fst E) as H. cbn [fst] in H. rewrite <- H. vm_compute. reflexivity. }
  eapply (Valid_trusted sample_now sample_get sample_header sample_claims sample_doc sample_verify
    sample_verifier sample_published) with (w := (sample_cache, 999 * Second)); [|intros ks; discriminate|exact E].
  intros x body x' doc [= <- _] [= <-]. vm_compute. reflexivity.
Defined.
Lemma Valid_asks_last_witness :
  Valid sample_now sample_get sample_header sample_claims sample_doc sample_verify (Some sample_verifier)
    "not.a-jwt" (sample_cache, 0) =
  Valid sample_now (λ _, panic "no network") sample_header sample_claims sample_doc sample_verify
    (Some sample_verifier) "not.a-jwt" (sample_cache, 0).
Proof.
  apply Valid_asks_last. intros h p s hdr x1 [H _ _ _]. apply (f_equal (λ t, CountByte t "."%char)) in H.
  rewrite !CountByte_append in H. cbn in H. lia.
Defined.
Lemma Valid_accepts_witness :
  sample_valid sample_token (sample_cache, 999 * Second) =
  (Ret true, (mkCache (Some {["k1" := mkKey 65537 65537]}) (999 * Second), 999 * Second)).
Proof.
  eapply (Valid_accepts sample_now sample_get sample_header sample_claims sample_doc sample_verify
    sample_verifier "{alg:RS256}" "{sub:agent}" sample_sig);
    [discriminate| |vm_compute; reflexivity..| | | |].
  - unfold sample_sig. apply Forall_take. vm_compute. repeat constructor; vm_compute; discriminate.
  - split; vm_compute; [right; discriminate|by left].
  - split; [by right|]. right. right. eexists. split; [reflexivity|]. apply list_elem_of_further, list_elem_of_here.
  - vm_compute. reflexivity.
  - vm_compute. reflexivity.
Defined.
