(* ===== verification/Auth.v ===== *)
(** * Authentication and rate-limit identities (internal/api/auth.go, ratelimit.go)

    Who may call the API: the bind check at start-up, the credentials of a
    request, and the identity its rate limit is counted under. *)
From S2P Require Import Prelude GoUnicode GoStrings GoError GoNet GoCrypto.

(** ** The parts of an HTTP request that the API reads *)
Record http_request := mkHTTP {
  Method : string; Path : string; Header : gmap string string; RemoteAddr : string;
  (** the peer certificates' common names; [None] is a plaintext connection *)
  TLS : option (list string)
}.
Definition Header_Get (r : http_request) (k : string) : string := default "" (Header r !! k).
Definition HeaderRequestID : string := "X-Request-Id".
Definition HeaderAPIKey : string := "X-Api-Key".

Definition remoteHost (r : http_request) : string :=
  match SplitHostPort (RemoteAddr r) with Some (host, _) => host | None => RemoteAddr r end.

(** ** The bind check *)
Record AuthPolicy := mkAuthPolicy {
  ap_APIKey : string; ap_AllowAnon : bool; ap_JWKSURL : string; ap_MTLS : bool;
  ap_RequireAll : bool; ap_MTLSSuffices : bool
}.

Definition isLoopbackAddr (addr : string) : bool :=
  let host := match SplitHostPort addr with Some (h, _) => h | None => addr end in
  let host := TrimSpace host in
  if String.eqb host "" || String.eqb host "0.0.0.0" || String.eqb host "::" ||
     String.eqb host "[::]" then false
  else if String.eqb host "localhost" then true
  else match ParseIP (Trim host "[]") with
       | Some x => IsLoopback x
       | None => false
       end.

Definition CheckBindPolicy (addr : string) (p : AuthPolicy) : option error :=
  if ap_AllowAnon p || negb (String.eqb (TrimSpace (ap_APIKey p)) "") ||
     negb (String.eqb (TrimSpace (ap_JWKSURL p)) "") || ap_MTLS p then None
  else if isLoopbackAddr addr then None
  else Some (Wrap "" (Sentinel ErrAnonymousPublic) (": " +:+ addr)).
Definition CheckBind (addr apiKey : string) (allowAnon : bool) : option error :=
  CheckBindPolicy addr (mkAuthPolicy apiKey allowAnon "" false false false).

(** ** The credentials of a request *)
Definition tokenFromRequest (r : http_request) : string :=
  let k := TrimSpace (Header_Get r HeaderAPIKey) in
  if negb (String.eqb k "") then k
  else
    let al := TrimSpace (Header_Get r "Authorization") in
    if (7 <=? len al) && EqualFold (take_str 7 al) "bearer " then TrimSpace (drop_str 7 al)
    else "".

(** [subtle.ConstantTimeCompare] of two digests: equal bytes. *)
Definition apiKeyEqual (got want : string) : bool :=
  if String.eqb want "" then false else bool_decide (Sum256 got = Sum256 want).

Definition clientCN (state : option (list string)) : string :=
  match state with Some (cn :: _) => cn | _ => "" end.
Definition hasPeerCert (r : http_request) : bool :=
  match TLS r with Some (_ :: _) => true | _ => false end.
Definition looksLikeJWT (token : string) : bool := (CountByte token "."%char =? 2)%nat.

(** What [authorize] reads of the server's configuration.  The verifier is an
    action: it may fetch keys. *)
Record auth_config (W : Type) := mkAuth {
  APIKey : string; JWT : option (string → M W bool); MTLS : bool; RequireAll : bool;
  MTLSSuffices : bool
}.
Arguments mkAuth {W}. Arguments APIKey {W}. Arguments JWT {W}. Arguments MTLS {W}.
Arguments RequireAll {W}. Arguments MTLSSuffices {W}.

Definition isSome {A} (o : option A) : bool := match o with Some _ => true | None => false end.

Definition authorize {W} (cfg : auth_config W) (r : http_request) : M W (string * string * bool) :=
  let cn := clientCN (TLS r) in
  let keyOK := negb (String.eqb (APIKey cfg) "") && apiKeyEqual (tokenFromRequest r) (APIKey cfg) in
  let token := tokenFromRequest r in
  let! jwtOK := match JWT cfg with
                | Some valid => if looksLikeJWT token then valid token else ret false
                | None => ret false
                end in
  let mtlsOK := hasPeerCert r in
  let needKey := negb (String.eqb (APIKey cfg) "") in
  let needJWT := isSome (JWT cfg) in
  if negb needKey && negb needJWT then ret ("none", cn, true)
  else if RequireAll cfg then
    let ok := (negb needKey || keyOK) && (negb needJWT || jwtOK) in
    let ok := if MTLS cfg && negb mtlsOK then false else ok in
    if keyOK && jwtOK then ret ("api_key+jwt", cn, ok)
    else if keyOK then ret ("api_key", cn, ok)
    else if jwtOK then ret ("jwt", cn, ok)
    else ret ("", cn, false)
  else if keyOK then ret ("api_key", cn, true)
  else if jwtOK then ret ("jwt", cn, true)
  else if mtlsOK && (MTLSSuffices cfg || String.eqb (APIKey cfg) "") then ret ("mtls", cn, true)
  else ret ("", cn, false).

(** [rateKey]: the identity a request is counted under. *)
Definition rateKey (r : http_request) (method cn : string) : string :=
  let tok := tokenFromRequest r in
  if negb (String.eqb tok "") then "tok:" +:+ EncodeToString (take 8 (Sum256 tok))
  else if negb (String.eqb cn "") then "cn:" +:+ cn
  else if negb (String.eqb method "") && negb (String.eqb method "none") then "auth:" +:+ method
  else "ip:" +:+ remoteHost r.

(** ** Specification of [authorize] *)

(** The token is the configured key, up to collisions of SHA-256. *)
Definition key_presented {W} (cfg : auth_config W) (r : http_request) : Prop :=
  APIKey cfg ≠ "" ∧ Sum256 (tokenFromRequest r) = Sum256 (APIKey cfg).
Definition cert_presented (r : http_request) : Prop := ∃ cn cns, TLS r = Some (cn :: cns).

(** The policy in one proposition; [jwt] says that a JWT was verified. *)
Definition authorized {W} (cfg : auth_config W) (r : http_request) (jwt : Prop) : Prop :=
  if String.eqb (APIKey cfg) "" && negb (isSome (JWT cfg)) then True
  else if RequireAll cfg then
    (APIKey cfg ≠ "" → key_presented cfg r) ∧ (isSome (JWT cfg) = true → jwt) ∧
    (MTLS cfg = true → cert_presented r)
  else key_presented cfg r ∨ jwt ∨
       (cert_presented r ∧ (MTLSSuffices cfg = true ∨ APIKey cfg = "")).

Lemma apiKeyEqual_spec got want :
  apiKeyEqual got want = true ↔ want ≠ "" ∧ Sum256 got = Sum256 want.
Proof.
  unfold apiKeyEqual. destruct (String.eqb_spec want ""); [naive_solver|].
  rewrite bool_decide_eq_true. tauto.
Qed.
Lemma hasPeerCert_spec r : hasPeerCert r = true ↔ cert_presented r.
Proof.
  unfold hasPeerCert, cert_presented. destruct (TLS r) as [[|cn cns]|]; split; try done; eauto;
    by intros (?&?&?).
Qed.

(** The verifier's verdict on the request's token, if it is asked. *)
Definition jwt_verdict {W} (cfg : auth_config W) (r : http_request) : M W bool :=
  match JWT cfg with
  | Some valid => if looksLikeJWT (tokenFromRequest r) then valid (tokenFromRequest r) else ret false
  | None => ret false
  end.

(** ** Properties *)

(** The verifier answers [true] only when there is one. *)
Lemma jwt_verdict_some {W} (cfg : auth_config W) r w w' :
  jwt_verdict cfg r w = (Ret true, w') → isSome (JWT cfg) = true.
Proof. unfold jwt_verdict. by destruct (JWT cfg). Qed.

Lemma keyOK_spec {W} (cfg : auth_config W) r :
  negb (String.eqb (APIKey cfg) "") && apiKeyEqual (tokenFromRequest r) (APIKey cfg) = true ↔
  key_presented cfg r.
Proof.
  unfold key_presented. rewrite andb_true_iff, apiKeyEqual_spec, negb_true_iff, String.eqb_neq. tauto.
Qed.

(** What [authorize] does after the verifier has answered. *)
Lemma authorize_after_verdict {W} (cfg : auth_config W) r w j w' :
  jwt_verdict cfg r w = (Ret j, w') →
  ∃ m ok, authorize cfg r w = (Ret (m, clientCN (TLS r), ok), w') ∧
          (ok = true ↔ authorized cfg r (j = true)).
Proof.
  intros Hj. pose proof (jwt_verdict_some cfg r w w') as Hs. rewrite Hj in Hs.
  unfold authorize, authorized. unfold bind at 1. fold (jwt_verdict cfg r). rewrite Hj.
  pose proof (keyOK_spec cfg r) as Hk. revert Hk.
  generalize (negb (String.eqb (APIKey cfg) "") && apiKeyEqual (tokenFromRequest r) (APIKey cfg)).
  intros keyOK Hk. assert (key_presented cfg r → APIKey cfg ≠ "") as Hne by (by intros []).
  pose proof (hasPeerCert_spec r) as Hc. revert Hc Hk Hne.
  generalize (hasPeerCert r), (key_presented cfg r), (cert_presented r).
  intros mtlsOK K C Hc Hk Hne.
  destruct (String.eqb_spec (APIKey cfg) ""), (isSome (JWT cfg)), (RequireAll cfg), (MTLS cfg),
    (MTLSSuffices cfg), mtlsOK, keyOK, j; cbn; eexists _, _; (split; [reflexivity|]); naive_solver.
Qed.

Lemma authorize_inv {W} (cfg : auth_config W) r w m cn ok w' :
  authorize cfg r w = (Ret (m, cn, ok), w') →
  ∃ j, jwt_verdict cfg r w = (Ret j, w') ∧ (ok = true ↔ authorized cfg r (j = true)).
Proof.
  intros H. destruct (jwt_verdict cfg r w) as [[j|v|] w1] eqn:Ej.
  - destruct (authorize_after_verdict cfg r w j w1 Ej) as (m' & ok' & E & Hok). rewrite E in H.
    injection H as <- <- <- <-. by exists j.
  - unfold authorize, bind in H. fold (jwt_verdict cfg r) in H. by rewrite Ej in H.
  - unfold authorize, bind in H. fold (jwt_verdict cfg r) in H. by rewrite Ej in H.
Qed.

(** C10 (safety): a request is let in exactly when the configured policy is met:
    with no key and no JWT configured always; with RequireAll when every
    configured credential is presented (the key by its digest, a token the
    verifier accepts, a peer certificate when mTLS is on); otherwise when one of
    them is, a certificate counting on its own only if configured so or if no
    API key is set.  The world changes only by the verifier's own effects. *)
Theorem authorize_correct {W} (cfg : auth_config W) r w j w' :
  jwt_verdict cfg r w = (Ret j, w') →
  ∃ m ok, authorize cfg r w = (Ret (m, clientCN (TLS r), ok), w') ∧
          (ok = true ↔ authorized cfg r (j = true)).
Proof. apply authorize_after_verdict. Qed.
Lemma authorize_correct_witness :
  let cfg := mkAuth "s3cret" (Some (λ t, ret (String.eqb t "a.b.c"))) true true false in
  let r := mkHTTP "POST" "/v1/execute" {["X-Api-Key" := "a.b.c"]} "10.0.0.9:4000" (Some ["cn"]) in
  ∃ m ok, authorize cfg r 0 = (Ret (m, "cn", ok), 0) ∧ (ok = true ↔ authorized cfg r (true = true)).
Proof. intros cfg r. apply (authorize_correct cfg r 0 true 0). reflexivity. Defined.

(** *** The bind check *)

(** No credential is configured. *)
Definition no_credentials (p : AuthPolicy) : Prop :=
  ap_AllowAnon p = false ∧ TrimSpace (ap_APIKey p) = "" ∧ TrimSpace (ap_JWKSURL p) = "" ∧
  ap_MTLS p = false.

(** The host an address listens on is this machine only. *)
Definition loopback_host (addr : string) : Prop :=
  let host := TrimSpace match SplitHostPort addr with Some (h, _) => h | None => addr end in
  host = "localhost" ∨ ∃ x, ParseIP (Trim host "[]") = Some x ∧ IsLoopback x = true.

Lemma isLoopbackAddr_spec addr : isLoopbackAddr addr = true ↔ loopback_host addr.
Proof.
  unfold isLoopbackAddr, loopback_host.
  set (h := TrimSpace _). clearbody h.
  destruct (String.eqb_spec h "") as [->|]; [split; [done|]; intros [|(x & Hx & Hl)]; [done|]; by vm_compute in Hx|].
  destruct (String.eqb_spec h "0.0.0.0") as [->|];
    [split; [done|]; intros [|(x & Hx & Hl)]; [done|]; vm_compute in Hx; by simplify_eq|].
  destruct (String.eqb_spec h "::") as [->|];
    [split; [done|]; intros [|(x & Hx & Hl)]; [done|]; vm_compute in Hx; by simplify_eq|].
  destruct (String.eqb_spec h "[::]") as [->|];
    [split; [done|]; intros [|(x & Hx & Hl)]; [done|]; vm_compute in Hx; by simplify_eq|].
  cbn [orb]. destruct (String.eqb_spec h "localhost"); [naive_solver|].
  destruct (ParseIP _); naive_solver.
Qed.

(** C11 (safety): the process refuses to start exactly when it would listen on an
    address that is not loopback with no credential configured and anonymous
    access not allowed; the refusal is an [ErrAnonymousPublic]. *)
Theorem CheckBindPolicy_fails_closed addr p :
  (CheckBindPolicy addr p ≠ None ↔ no_credentials p ∧ ¬ loopback_host addr) ∧
  (∀ e, CheckBindPolicy addr p = Some e → Is e ErrAnonymousPublic = true).
Proof.
  rewrite <- isLoopbackAddr_spec. unfold CheckBindPolicy, no_credentials.
  destruct (ap_AllowAnon p), (String.eqb_spec (TrimSpace (ap_APIKey p)) ""),
    (String.eqb_spec (TrimSpace (ap_JWKSURL p)) ""), (ap_MTLS p), (isLoopbackAddr addr);
    cbn; (split; [naive_solver|intros e' He; by inversion He]).
Qed.

(** *** Rate-limit identities *)

(** The identity of a request that carries a token does not depend on who sends
    it: not on the peer, its certificate or the method it was let in by. *)
Lemma rateKey_token r method cn :
  tokenFromRequest r ≠ "" →
  rateKey r method cn = "tok:" +:+ EncodeToString (take 8 (Sum256 (tokenFromRequest r))).
Proof. unfold rateKey. by intros ->%String.eqb_neq. Qed.

(** (safety) On a server that asks for neither key nor JWT, a caller picks
    its own rate-limit identity: whatever it sends as a token is accepted with
    the request and replaces the identity its address or certificate would
    have, so requests from one peer are counted under as many identities as it
    likes. *)
Theorem rateKey_chosen_by_caller {W} (cfg : auth_config W) r tok cn :
  APIKey cfg = "" → JWT cfg = None → TrimSpace tok = tok → tok ≠ "" →
  let r' := mkHTTP (Method r) (Path r) (<[HeaderAPIKey := tok]> (Header r)) (RemoteAddr r) (TLS r) in
  (∀ w, authorize cfg r' w = (Ret ("none", clientCN (TLS r), true), w)) ∧
  rateKey r' "none" cn = "tok:" +:+ EncodeToString (take 8 (Sum256 tok)).
Proof.
  intros Hk Hj Ht Hn r'. split.
  - intros w. unfold authorize. rewrite Hk, Hj. reflexivity.
  - assert (tokenFromRequest r' = tok) as E.
    { unfold tokenFromRequest, Header_Get, r'. cbn [Header]. rewrite lookup_insert_eq.
      change (default "" (Some tok)) with tok. rewrite Ht. by rewrite (proj2 (String.eqb_neq tok "")). }
    rewrite rateKey_token; by rewrite E.
Qed.
Lemma rateKey_chosen_by_caller_witness :
  let r := mkHTTP "POST" "/v1/execute" ∅ "198.51.100.7:4000" None in
  let r' := mkHTTP "POST" "/v1/execute" {[HeaderAPIKey := "x1"]} "198.51.100.7:4000" None in
  rateKey r "none" "" = "ip:198.51.100.7" ∧
  rateKey r' "none" "" = "tok:" +:+ EncodeToString (take 8 (Sum256 "x1")).
Proof.
  intros r r'. split; [reflexivity|].
  apply (rateKey_chosen_by_caller (mkAuth "" None false false false : auth_config unit) r "x1" "");
    [reflexivity..|discriminate].
Defined.
