(* ===== verification/Tls.v ===== *)
(** * HTTPS and client certificates (internal/api/tls.go)

    The server's TLS settings from three file names.  crypto/tls and
    crypto/x509 are arguments: loading a key pair, and whether a text has
    certificates. *)
From S2P Require Import Prelude GoUnicode GoStrings GoError GoNet GoCrypto Auth.

Record TLSFiles := mkTLSFiles { CertFile : string; KeyFile : string; ClientCAFile : string }.
(** [tls.Config]: the certificate, the text of the client CAs, and whether a
    verified client certificate is required. *)
Record tls_config (C : Type) := mkTLS {
  Certificate : C; ClientCAs : option string; RequireAndVerifyClientCert : bool
}.
Arguments mkTLS {C}. Arguments Certificate {C}. Arguments ClientCAs {C}.
Arguments RequireAndVerifyClientCert {C}.

Section Load.
Context {C : Type} (LoadX509KeyPair : string → string → result C).
Context (readFile : string → result string) (AppendCertsFromPEM : string → bool).

Definition LoadTLS (f : TLSFiles) : result (option (tls_config C)) :=
  if String.eqb (CertFile f) "" && String.eqb (KeyFile f) "" && String.eqb (ClientCAFile f) "" then Ok None
  else if String.eqb (CertFile f) "" || String.eqb (KeyFile f) "" then
    Err (New "tls: both WARDEN_TLS_CERT and WARDEN_TLS_KEY are required")
  else if negb (String.eqb (ClientCAFile f) "") &&
          (String.eqb (CertFile f) "" || String.eqb (KeyFile f) "") then
    Err (New "tls: WARDEN_TLS_CLIENT_CA requires a server certificate")
  else
    match LoadX509KeyPair (CertFile f) (KeyFile f) with
    | Err err => Err (Wrap "tls: load server cert: " err "")
    | Ok cert =>
      if negb (String.eqb (ClientCAFile f) "") then
        match readFile (ClientCAFile f) with
        | Err err => Err (Wrap "tls: read client CA: " err "")
        | Ok pem =>
          if negb (AppendCertsFromPEM pem) then Err (New "tls: client CA file has no certificates")
          else Ok (Some (mkTLS cert (Some pem) true))
        end
      else Ok (Some (mkTLS cert None false))
    end.
(** [tlsCfg != nil && tlsCfg.ClientAuth == tls.RequireAndVerifyClientCert] *)
Definition mtls_of (t : option (tls_config C)) : bool :=
  match t with Some c => RequireAndVerifyClientCert c | None => false end.

(** (functional) TLS fails closed: plain HTTP is served only when no file at all
    is named; otherwise both halves of the key pair are needed and load, and
    client certificates are required exactly when a CA file is named, which then
    holds certificates. *)
Theorem LoadTLS_closed f t :
  LoadTLS f = Ok t →
  (t = None ↔ CertFile f = "" ∧ KeyFile f = "" ∧ ClientCAFile f = "") ∧
  (mtls_of t = true ↔ ClientCAFile f ≠ "") ∧
  (∀ c, t = Some c → LoadX509KeyPair (CertFile f) (KeyFile f) = Ok (Certificate c) ∧
     (RequireAndVerifyClientCert c = true →
      ∃ pem, readFile (ClientCAFile f) = Ok pem ∧ AppendCertsFromPEM pem = true ∧ ClientCAs c = Some pem)).
Proof.
  unfold LoadTLS. destruct f as [cf kf ca]; cbn.
  destruct (String.eqb_spec cf ""), (String.eqb_spec kf ""), (String.eqb_spec ca ""); cbn; try done.
  { intros [= <-]. naive_solver. }
  all: destruct (LoadX509KeyPair cf kf) as [cert|] eqn:El; [|done].
  - intros [= <-]. cbn. naive_solver.
  - destruct (readFile ca) as [pem|] eqn:Er; [|done]. destruct (AppendCertsFromPEM pem) eqn:Ea; [|done].
    intros [= <-]. cbn. naive_solver.
Qed.

(** What the handshake promises of the requests that arrive: a connection has
    TLS exactly when it is configured, and a peer certificate when that is
    required. *)
Definition handshaken (t : option (tls_config C)) (r : http_request) : Prop :=
  match t with
  | None => TLS r = None
  | Some c => ∃ certs, TLS r = Some certs ∧ (RequireAndVerifyClientCert c = true → certs ≠ [])
  end.
Lemma handshaken_cert t r : handshaken t r → mtls_of t = true → cert_presented r.
Proof.
  destruct t as [c|]; [|done]. cbn. intros (certs & Ht & Hc) Hm. specialize (Hc Hm).
  destruct certs as [|cn cns]; [done|]. by exists cn, cns.
Qed.
End Load.
Lemma LoadTLS_closed_witness :
  mtls_of (C:=unit) (Some (mkTLS tt (Some "pem") true)) = true ↔ "ca.pem" ≠ "".
Proof.
  apply (LoadTLS_closed (λ _ _, Ok tt) (λ _, Ok "pem") (λ _, true) (mkTLSFiles "c.pem" "k.pem" "ca.pem")).
  reflexivity.
Defined.
