(* ===== verification/Runtime.v ===== *)
(** * The isolation boundary (internal/runtime/runtime.go, stub.go)

    What the API asks of a backend: boot an instance, execute, destroy.  The
    interface is a record of actions on the backend's world; [VMs] states what
    a client may rely on, and the stub backend is proved to keep it. *)
From S2P Require Import Prelude GoStrings GoError GoTime Resources Policy.

Definition LangPython : string := "python".
Definition LangNode : string := "node".

Record Spec := mkSpec {
  Language : string; spec_SessionID : string; Limits : Profile; Seccomp : SeccompProfile;
  Network : Policy
}.
Record ExecRequest := mkExec { er_Code : string; er_Timeout : Z }.
Record Result := mkResult {
  Stdout : string; Stderr : string; ExitCode : Z; VMID : string; TimedOut : bool
}.
(** [Result{}] *)
Definition Result0 : Result := mkResult "" "" 0 "" false.

(** The interfaces.  [Execute] returns a result and an error, both of which its
    caller reads. *)
Record Instance (W : Type) := mkInstance {
  ID : string;
  Execute : context → ExecRequest → M W (Result * option error);
  Destroy : context → M W (option error)
}.
Arguments mkInstance {W}. Arguments ID {W}. Arguments Execute {W}. Arguments Destroy {W}.

Record Runtime (W : Type) := mkRuntime {
  Boot : context → Spec → M W (result (Instance W));
  Name : string;
  (** the backend's [Ready], when it has one *)
  Ready : option (M W (option error))
}.
Arguments mkRuntime {W}. Arguments Boot {W}. Arguments Name {W}. Arguments Ready {W}.

Definition Supported (language : string) : bool :=
  String.eqb language LangPython || String.eqb language LangNode.

(** [New]: the two backends are arguments, and so are the environment variable
    and the loader of the Firecracker configuration. *)
Definition New_runtime {W C} (stub : Runtime W) (firecracker : C → Runtime W)
    (getenv : string → string) (LoadConfig : string → result C) (kind : string)
    : result (Runtime W) :=
  if String.eqb kind "" || String.eqb kind "stub" then Ok stub
  else if String.eqb kind "firecracker" then
    let cfgPath := getenv "WARDEN_FC_CONFIG" in
    let cfgPath := if String.eqb cfgPath "" then "configs/firecracker.json" else cfgPath in
    let? cfg := LoadConfig cfgPath in Ok (firecracker cfg)
  else Err (New ("unknown runtime " +:+ Quote kind +:+ " (want stub or firecracker)")).

(** ** What a backend promises

    The machines that a backend runs; booting adds exactly the instance it
    returns, a boot that fails, panics or waits for ever adds none, executing comes
    to an end and keeps them, and destroying an instance removes it, also when it
    reports an error or waits for ever.  A backend may rely on an invariant of its
    own, which everything it does keeps. *)
Class VMs {W} (rt : Runtime W) := {
  vms : W → gset nat;
  vm_inv : W → Prop;
  owned : Instance W → nat → Prop;
  boot_ok c spec w inst w' : vm_inv w → Boot rt c spec w = (Ret (Ok inst), w') →
    vm_inv w' ∧ ∃ i, owned inst i ∧ i ∉ vms w ∧ vms w' = vms w ∪ {[i]};
  boot_err c spec w e w' : vm_inv w → Boot rt c spec w = (Ret (Err e), w') →
    vm_inv w' ∧ vms w' = vms w;
  boot_panic c spec w v w' : vm_inv w → Boot rt c spec w = (Panic v, w') →
    vm_inv w' ∧ vms w' = vms w;
  boot_blocked c spec w w' : vm_inv w → Boot rt c spec w = (Blocked, w') →
    vm_inv w' ∧ vms w' = vms w;
  execute_ends inst i c req w : vm_inv w → owned inst i → (Execute inst c req w).1 ≠ Blocked;
  execute_vms inst i c req w : vm_inv w → owned inst i →
    vm_inv (Execute inst c req w).2 ∧ vms (Execute inst c req w).2 = vms w;
  destroy_vms inst i c w : vm_inv w → owned inst i →
    vm_inv (Destroy inst c w).2 ∧ vms (Destroy inst c w).2 = vms w ∖ {[i]}
}.
(** Nothing happened to the machines. *)
Definition same_vms {W} (rt : Runtime W) `{HV : !VMs rt} (w w' : W) : Prop :=
  vm_inv w → vm_inv w' ∧ vms w' = vms w.
#[export] Instance same_vms_preorder {W} (rt : Runtime W) `{HV : !VMs rt} : PreOrder (same_vms rt).
Proof.
  unfold same_vms. split; [done|]. intros x y z H1 H2 Hx. destruct (H1 Hx) as [Hy E1].
  destruct (H2 Hy) as [Hz E2]. split; [done|]. by rewrite E2.
Qed.

(** ** The stub backend *)

(** The counter of ids, and the [dead] flags of the instances made so far: an
    instance is a pointer to its flag. *)
Record stub_world := mkStub { stub_seq : Z; dead : list bool }.

(** How the clock stands with a context: the error of one that is done. *)
Section Stub.
Context (ctx_err : context → option error).

Definition stub_Execute (id : string) (spec : Spec) (i : nat) (ctx : context) (req : ExecRequest)
    : M stub_world (Result * option error) := λ w,
  if default false (dead w !! i) then
    (Ret (Result0, Some (New ("vm " +:+ id +:+ " already destroyed"))), w)
  else
    let timeout := if er_Timeout req <=? 0 then 30 * Second else er_Timeout req in
    match ctx_err ctx with
    | Some err => (Ret (mkResult "" (Error err) (-1) id true, None), w)
    | None =>
      let stdout :=
        "[warden-stub] vm=" +:+ id +:+ " language=" +:+ Language spec +:+ " session=" +:+
        spec_SessionID spec +:+ " bytes=" +:+ Itoa (len (er_Code req)) +:+ " timeout=" +:+
        Duration_String timeout +:+ newline +:+
        "[warden-stub] guest code was NOT executed; Firecracker is not wired yet" +:+ newline in
      (Ret (mkResult stdout "" 0 id false, None), w)
    end.

(** The compare-and-swap of the flag. *)
Definition stub_Destroy (id : string) (i : nat) (ctx : context) : M stub_world (option error) := λ w,
  if default false (dead w !! i) then
    (Ret (Some (New ("vm " +:+ id +:+ " already destroyed"))), w)
  else (Ret None, mkStub (stub_seq w) (<[i := true]> (dead w))).

Definition stub_Boot (ctx : context) (spec : Spec) : M stub_world (result (Instance stub_world)) := λ w,
  if negb (Supported (Language spec)) then
    (Ret (Err (New ("unsupported runtime " +:+ Quote (Language spec)))), w)
  else
    match Profile_Validate (Limits spec) with
    | Some err => (Ret (Err (Wrap "boot stub: " err "")), w)
    | None =>
      let n := u64 (stub_seq w + 1) in
      let id := "stub-" +:+ Itoa n in
      let i := length (dead w) in
      (Ret (Ok (mkInstance id (stub_Execute id spec i) (stub_Destroy id i))),
       mkStub n (dead w ++ [false]))
    end.

Definition NewStub : Runtime stub_world := mkRuntime stub_Boot "stub" (Some (ret None)).
End Stub.

(** ** The stub keeps the promise *)

(** The indices of the flags that are not set. *)
Fixpoint alive_from (i : nat) (l : list bool) : gset nat :=
  match l with
  | [] => ∅
  | d :: r => (if d then ∅ else {[i]}) ∪ alive_from (S i) r
  end.
Definition alive (w : stub_world) : gset nat := alive_from 0 (dead w).

Lemma elem_of_alive_from j i l : j ∈ alive_from i l ↔ ∃ k, j = (i + k)%nat ∧ l !! k = Some false.
Proof.
  revert i. induction l as [|d l IH]; intros i; cbn [alive_from].
  - split; [set_solver|]. by intros (k & _ & ?).
  - rewrite elem_of_union, IH. split.
    + intros [H|(k & -> & Hk)].
      * destruct d; [set_solver|]. exists 0%nat. split; [set_solver by lia|done].
      * exists (S k). split; [lia|done].
    + intros ([|k] & -> & Hk); cbn in Hk.
      * left. injection Hk as ->. apply elem_of_singleton. lia.
      * right. exists k. split; [lia|done].
Qed.
Lemma alive_from_snoc l : alive_from 0 (l ++ [false]) = alive_from 0 l ∪ {[length l]}.
Proof.
  apply set_eq. intros j. rewrite elem_of_union, !elem_of_alive_from, elem_of_singleton. cbn. split.
  - intros (k & -> & [?|[? Hk]]%lookup_app_Some); [left; eauto|right].
    apply list_lookup_singleton_Some in Hk as [? _]. lia.
  - intros [(k & -> & Hk)| ->]; [exists k; split; [done|]; by apply lookup_app_l_Some|].
    exists (length l). split; [done|]. by apply list_lookup_middle.
Qed.
Lemma alive_from_insert n l : alive_from 0 (<[n := true]> l) = alive_from 0 l ∖ {[n]}.
Proof.
  apply set_eq. intros j. rewrite elem_of_difference, !elem_of_alive_from, elem_of_singleton. cbn. split.
  - intros (k & -> & [(_ & ? & _)|[Hne ?]]%list_lookup_insert_Some); [done|].
    split; [eauto|]. intros ->. by apply Hne.
  - intros [(k & -> & Hk) Hne]. exists k. split; [done|]. by rewrite list_lookup_insert_ne.
Qed.
Lemma elem_of_alive j w : j ∈ alive w ↔ dead w !! j = Some false.
Proof.
  unfold alive. rewrite elem_of_alive_from. cbn. split; [by intros (k & -> & ?)|eauto].
Qed.
#[global] Arguments alive : simpl never.

#[export] Program Instance stub_VMs (ctx_err : context → option error) : VMs (NewStub ctx_err) := {|
  vms := alive;
  vm_inv w := True;
  owned inst i := ∃ id spec, inst = mkInstance id (stub_Execute ctx_err id spec i) (stub_Destroy id i)
|}.
Next Obligation.
  cbn. intros ce c spec w inst w' _. unfold stub_Boot. case_match; [done|]. case_match; [done|].
  intros [= <- <-]. split; [done|]. exists (length (dead w)). split_and!; [by eexists _, _| |].
  - rewrite elem_of_alive, lookup_ge_None_2; done.
  - unfold alive. cbn [dead]. apply alive_from_snoc.
Qed.
Next Obligation. cbn. intros ce c spec w e w' _. unfold stub_Boot. by repeat case_match; intros [= _ <-]. Qed.
Next Obligation. cbn. intros ce c spec w v w' _. unfold stub_Boot. by repeat case_match. Qed.
Next Obligation. cbn. intros ce c spec w w' _. unfold stub_Boot. by repeat case_match. Qed.
Next Obligation.
  intros ce inst i c req w _ (id & spec & ->). cbn. unfold stub_Execute. by repeat case_match.
Qed.
Next Obligation.
  intros ce inst i c req w _ (id & spec & ->). cbn. unfold stub_Execute. by repeat case_match.
Qed.
Next Obligation.
  intros ce inst i c w _ (id & spec & ->). cbn. unfold stub_Destroy. split; [done|]. case_match; cbn.
  - apply set_eq. intros j. rewrite elem_of_difference, !elem_of_alive, elem_of_singleton.
    split; [|naive_solver]. intros Hj. split; [done|]. intros ->. by rewrite Hj in H.
  - unfold alive. cbn [dead]. apply alive_from_insert.
Qed.
