(* ===== verification/Gate.v ===== *)
(** * The concurrency gate (internal/runtime/gate.go)

    Goroutines call [Boot] and [Destroy] of one gate concurrently.  Each of
    their accesses to the semaphore channel is an atomic step; the environment
    (the inner runtime, the caller's context, the timer, the scheduler) chooses
    which goroutine steps and how the calls that it answers turn out. *)
From S2P Require Import Prelude GoStrings GoError GoTime.

(** ** Construction *)

Record Gate := mkGate { has_inner : bool; Max : Z; Wait : Z }.
Definition NewGate (has_inner : bool) (max wait : Z) : Gate :=
  let max := if max <? 1 then 1 else max in
  let wait := if wait <=? 0 then 15 * Second else wait in
  mkGate has_inner max wait.

(** ** Steps *)

(** A leased instance: does the inner machine still exist, how many calls of
    [Destroy] have left the inner [Destroy] and not yet run the deferred
    [release], and has the once-function run. *)
Record lease := mkLease { inner_alive : bool; pending : nat; released : bool }.
(** Where a goroutine that called [Boot] stands. *)
Inductive phase :=
| Waiting                   (* in the select *)
| Booting                   (* holds a slot, in Inner.Boot *)
| Leased (l : lease)        (* Boot returned an instance *)
| Refused (e : error)       (* Boot returned an error *)
| Crashed.                  (* Inner.Boot panicked *)

Record gate_state := mkState { sem : Z; calls : gmap nat phase }.
Definition gate_init : gate_state := mkState 0 ∅.

Inductive action :=
| CallBoot | Acquire | CtxDone (e : error) | TimerFires
| InnerFails (e : error) | InnerBoots | InnerPanics
| InnerDestroyed            (* the inner Destroy returned, with or without an error, or panicked *)
| Release.

(** [<-g.sem]: blocks on an empty channel. *)
Definition receive (s : gate_state) : option Z := if 0 <? sem s then Some (sem s - 1) else None.

Definition step (g : Gate) (i : nat) (a : action) (s : gate_state) : option gate_state :=
  let goto n p := Some (mkState n (<[i := p]> (calls s))) in
  match a, calls s !! i with
  | CallBoot, None =>
    if has_inner g then goto (sem s) Waiting
    else goto (sem s) (Refused (New "runtime: gate has no inner runtime"))
  | Acquire, Some Waiting => if sem s <? Max g then goto (sem s + 1) Booting else None
  | CtxDone e, Some Waiting => goto (sem s) (Refused e)
  | TimerFires, Some Waiting =>
    goto (sem s) (Refused (Wrap "" (Sentinel ErrBusy) (" (max " +:+ Itoa (Max g) +:+ ")")))
  | InnerFails e, Some Booting => n ← receive s; goto n (Refused e)
  | InnerBoots, Some Booting => goto (sem s) (Leased (mkLease true 0 false))
  | InnerPanics, Some Booting => goto (sem s) Crashed
  | InnerDestroyed, Some (Leased l) =>
    goto (sem s) (Leased (mkLease false (S (pending l)) (released l)))
  | Release, Some (Leased (mkLease a (S k) r)) =>
    if r then goto (sem s) (Leased (mkLease a k true))
    else n ← receive s; goto n (Leased (mkLease a k true))
  | _, _ => None
  end.

(** A schedule: which goroutine does what, in order. *)
Definition turn (g : Gate) (ia : nat * action) : gate_state → option gate_state := step g ia.1 ia.2.
#[local] Notation execute g := (steps (turn g)).
#[local] Notation reachable g := (reached (turn g) (eq gate_init)).

(** ** Counting *)

(** Does a goroutine hold a slot, is its machine alive? *)
Definition holds (p : phase) : bool :=
  match p with Booting | Crashed => true | Leased l => negb (released l) | _ => false end.
Definition machine (p : phase) : bool :=
  match p with Leased l => inner_alive l | _ => false end.
Definition crashed (p : phase) : bool := match p with Crashed => true | _ => false end.
Definition count (f : phase → bool) (m : gmap nat phase) : Z :=
  Z.of_nat (size (filter (λ kv, f kv.2 = true) m)).
Definition at_ (f : phase → bool) (o : option phase) : Z :=
  match o with Some p => Z.b2z (f p) | None => 0 end.

Lemma count_insert f i p m : count f (<[i := p]> m) + at_ f (m !! i) = count f m + Z.b2z (f p).
Proof.
  assert (∀ m, m !! i = None → count f (<[i := p]> m) = count f m + Z.b2z (f p)) as H.
  { intros m' Hm. unfold count. destruct (f p) eqn:E.
    - rewrite map_filter_insert_True by done. rewrite map_size_insert_None; [cbn; lia|].
      apply map_lookup_filter_None. by left.
    - rewrite map_filter_insert_False by (cbn; congruence). rewrite delete_id by done. cbn. lia. }
  destruct (m !! i) as [q|] eqn:Hq; cbn [at_]; [|rewrite H by done; lia].
  rewrite <- (insert_id m i q Hq) at 2. rewrite <- (insert_delete_eq m i q).
  rewrite <- (insert_delete_eq m i p). rewrite H by apply lookup_delete_eq.
  assert (count f (<[i := q]> (delete i m)) = count f (delete i m) + Z.b2z (f q)) as ->; [|lia].
  unfold count. destruct (f q) eqn:E.
  - rewrite map_filter_insert_True by done. rewrite map_size_insert_None; [cbn; lia|].
    apply map_lookup_filter_None. left. apply lookup_delete_eq.
  - rewrite map_filter_insert_False by (cbn; congruence).
    rewrite delete_id by apply lookup_delete_eq. cbn. lia.
Qed.
Lemma phase_count_nonneg f m : 0 <= count f m.
Proof. unfold count. lia. Qed.
Lemma count_empty f : count f ∅ = 0.
Proof. unfold count. by rewrite map_filter_empty. Qed.
Lemma count_le (f h : phase → bool) m :
  (∀ i p, m !! i = Some p → f p = true → h p = true) → count f m <= count h m.
Proof.
  intros Hfh. unfold count. apply inj_le, map_subseteq_size, map_subseteq_spec.
  intros i p. rewrite !map_lookup_filter_Some. naive_solver.
Qed.
Lemma count_pos f m i p : m !! i = Some p → f p = true → 0 < count f m.
Proof.
  intros Hi Hf. pose proof (count_insert f i p (delete i m)) as H.
  rewrite lookup_delete_eq, insert_delete_id in H by done. cbn [at_] in H. rewrite Hf in H.
  cbn in H. pose proof (phase_count_nonneg f (delete i m)). lia.
Qed.
Lemma count_zero f m : (∀ i p, m !! i = Some p → f p = false) → count f m = 0.
Proof.
  intros H. unfold count.
  assert (filter (λ kv : nat * phase, f kv.2 = true) m = ∅) as ->; [|done].
  apply map_empty. intros i. apply map_lookup_filter_None. right. intros p Hi. cbn.
  by rewrite (H i p Hi).
Qed.

(** ** Invariant *)

(** What holds of every state a schedule leads to. *)
Record gate_inv (g : Gate) (s : gate_state) : Prop := {
  inv_sem : sem s = count holds (calls s);
  inv_max : sem s <= Z.max 0 (Max g);
  inv_lease i l : calls s !! i = Some (Leased l) →
    (inner_alive l = true → pending l = 0%nat ∧ released l = false)
}.

(** A step changes one goroutine, and the semaphore as its phase says. *)
Lemma step_shape g i a s s' :
  gate_inv g s → step g i a s = Some s' →
  ∃ p, calls s' = <[i := p]> (calls s) ∧
       sem s' = sem s + Z.b2z (holds p) - at_ holds (calls s !! i) ∧
       (sem s' <= sem s ∨ sem s < Max g ∧ sem s' = sem s + 1) ∧
       (∀ l, p = Leased l → inner_alive l = true → pending l = 0%nat ∧ released l = false).
Proof.
  intros Hinv Hs. unfold step, receive in Hs.
  assert (∀ p, calls s !! i = Some p → holds p = true → 0 < sem s) as Hpos.
  { intros p Hp Hh. rewrite (inv_sem _ _ Hinv). by eapply count_pos. }
  pose proof (inv_lease _ _ Hinv i) as Hl.
  destruct a, (calls s !! i) as [[| |[[] [|k] []]| |]|] eqn:E; try done; cbn in Hs;
    repeat case_match; try done; simplify_eq/=; bool_prop;
    (eexists; split; [reflexivity|]; cbn; split_and!; [lia|lia|]); intros l' [= <-]; cbn;
    try done; intros _; destruct (Hl _ eq_refl eq_refl); done.
Qed.

Lemma inv_step g i a s s' : gate_inv g s → step g i a s = Some s' → gate_inv g s'.
Proof.
  intros Hinv Hs. destruct (step_shape g i a s s' Hinv Hs) as (p & Hc & Hn & Hm & Hp).
  pose proof (count_insert holds i p (calls s)) as Hci. destruct Hinv as [H1 H2 H3]. split.
  - rewrite Hc. lia.
  - lia.
  - intros j l. rewrite Hc, lookup_insert_Some. intros [[-> ->]|[? ?]]; eauto.
Qed.
Lemma inv_reachable g s : reachable g s → gate_inv g s.
Proof.
  apply reached_preserved; [intros [i a]; apply inv_step|]. intros _ <-.
  split; [by rewrite count_empty|cbn; lia|done].
Qed.
Lemma NewGate_Max b max wait : 1 <= Max (NewGate b max wait) ∧ (1 <= max → Max (NewGate b max wait) = max).
Proof. cbn. destruct (Z.ltb_spec max 1); lia. Qed.

(** ** Properties *)

(** C18 (safety): however many goroutines boot and destroy, in whatever order,
    the slots taken are the goroutines that hold one, at most Max of them; so
    at most Max machines exist at any time, and Max is at least 1. *)
Theorem gate_bounds_machines b max wait s :
  let g := NewGate b max wait in
  reachable g s →
  sem s = count holds (calls s) ∧ sem s <= Max g ∧ count machine (calls s) <= Max g ∧
  1 <= Max g ∧ (1 <= max → Max g = max).
Proof.
  intros g Hr. pose proof (NewGate_Max b max wait) as [H1 H2]. fold g in H1, H2.
  destruct (inv_reachable g s Hr) as [Hs Hm Hl]. split_and!; [done|lia| |done|done].
  transitivity (count holds (calls s)); [|lia]. apply count_le. intros i p Hi. destruct p; try done.
  cbn. intros Ha. by destruct (Hl i l Hi Ha) as [_ ->].
Qed.

(** (liveness) Giving a slot back never blocks: after a failed inner boot
    and after an inner Destroy the channel has a token to receive, whatever
    the other goroutines did meanwhile. *)
Theorem gate_release_never_blocks g s i :
  reachable g s →
  (∀ e, calls s !! i = Some Booting → ∃ s', step g i (InnerFails e) s = Some s') ∧
  (∀ l, calls s !! i = Some (Leased l) → (0 < pending l)%nat → ∃ s', step g i Release s = Some s').
Proof.
  intros Hr%inv_reachable. split; [intros e Hi|intros [a [|k] r] Hi Hp]; [| |];
    unfold step; rewrite Hi; unfold receive.
  - rewrite (proj2 (Z.ltb_lt 0 (sem s))); [eexists; reflexivity|].
    rewrite (inv_sem _ _ Hr). by eapply count_pos.
  - cbn in Hp. lia.
  - destruct r; [eexists; reflexivity|].
    rewrite (proj2 (Z.ltb_lt 0 (sem s))); [eexists; reflexivity|].
    rewrite (inv_sem _ _ Hr). by eapply count_pos.
Qed.

(** A call is over: refused, or its instance destroyed with the release run. *)
Definition finished (p : phase) : bool :=
  match p with Refused _ => true | Leased l => released l | _ => false end.

(** (invariant) No slot is lost: once every goroutine's call is over (refused, or
    destroyed at least once), all slots are free again, however often and by
    however many goroutines an instance was destroyed. *)
Theorem gate_quiescent_free g s :
  reachable g s → (∀ i p, calls s !! i = Some p → finished p = true) → sem s = 0.
Proof.
  intros Hr%inv_reachable Hf. rewrite (inv_sem _ _ Hr). apply count_zero. intros i p Hi.
  apply Hf in Hi. destruct p; try done. cbn in *. by rewrite Hi.
Qed.

(** A goroutine whose inner boot panicked stays crashed. *)
Lemma crashed_stays g i : preserved (turn g) (λ s, calls s !! i = Some Crashed).
Proof.
  intros [j a] s s' Hc E. cbn in E.
  destruct (decide (j = i)) as [->|Hne]; [by destruct a; unfold turn, step in E; cbn in E; rewrite Hc in E|].
  assert (∃ n p, s' = mkState n (<[j := p]> (calls s))) as (n & p & ->).
  { unfold turn, step, receive in E. cbn in E.
    destruct a, (calls s !! j) as [[| |[? [] []]| |]|]; try done; cbn in E;
      repeat case_match; try done; simplify_eq/=; by eexists _, _. }
  cbn. by rewrite lookup_insert_ne.
Qed.
Lemma crashed_subset g tr s s' :
  execute g tr s = Some s' → count crashed (calls s) <= count crashed (calls s').
Proof.
  intros He. unfold count. apply inj_le, map_subseteq_size, map_subseteq_spec.
  intros i p. rewrite !map_lookup_filter_Some. intros [Hi Hp]. destruct p; try done.
  split; [|done]. exact (steps_preserved _ _ tr s s' (crashed_stays g i) Hi He).
Qed.

(** (error) A panic of the inner Boot costs a slot for good: nothing gives
    it back, so once Max of them have happened no schedule ever lets another
    call acquire a slot. *)
Theorem gate_panics_exhaust g s tr s' i :
  1 <= Max g → reachable g s → Max g <= count crashed (calls s) → execute g tr s = Some s' →
  step g i Acquire s' = None.
Proof.
  intros Hmax Hr Hc He. pose proof (inv_reachable g s' (steps_reached _ _ tr s s' Hr He)) as Hi.
  pose proof (crashed_subset g tr s s' He). unfold step.
  destruct (calls s' !! i) as [[]|]; try done.
  assert (count crashed (calls s') <= count holds (calls s')) as Hle.
  { apply count_le. intros ? [] _; done. }
  rewrite (proj2 (Z.ltb_ge (sem s') (Max g))); [done|]. rewrite (inv_sem _ _ Hi). lia.
Qed.

(** ** Instances *)

(** Two slots, three callers; the second instance is destroyed twice. *)
Definition busy_schedule : list (nat * action) :=
  [(0, CallBoot); (1, CallBoot); (2, CallBoot); (0, Acquire); (1, Acquire); (1, InnerBoots);
   (2, TimerFires); (0, InnerFails (New "no kvm")); (1, InnerDestroyed); (1, InnerDestroyed);
   (1, Release); (1, Release)]%nat.
Definition busy_end : gate_state :=
  mkState 0 {[0%nat := Refused (New "no kvm"); 1%nat := Leased (mkLease false 0 true);
              2%nat := Refused (Wrap "" (Sentinel ErrBusy) " (max 2)")]}.
Lemma gate_bounds_machines_witness :
  execute (NewGate true 2 0) (take 7 busy_schedule) gate_init ≠ None ∧
  (let s := default gate_init (execute (NewGate true 2 0) (take 7 busy_schedule) gate_init) in
   sem s = 2 ∧ sem s <= Max (NewGate true 2 0)).
Proof.
  split; [vm_compute; discriminate|]. split; [vm_compute; reflexivity|].
  eapply (gate_bounds_machines true 2 0).
  eapply (steps_reached _ _ (take 7 busy_schedule) gate_init); [by apply reached_start|vm_compute; reflexivity].
Defined.
Lemma gate_release_never_blocks_witness :
  ∃ s', step (NewGate true 1 0) 0 Release
    (mkState 1 {[0%nat := Leased (mkLease false 1 false)]}) = Some s'.
Proof.
  eapply (gate_release_never_blocks (NewGate true 1 0)); [|vm_compute; reflexivity|cbn; lia].
  eapply (steps_reached _ _ [(0%nat, CallBoot); (0%nat, Acquire); (0%nat, InnerBoots);
    (0%nat, InnerDestroyed)] gate_init); [by apply reached_start|vm_compute; reflexivity].
Defined.
Lemma gate_quiescent_free_witness :
  execute (NewGate true 2 0) busy_schedule gate_init = Some busy_end ∧ sem busy_end = 0.
Proof.
  split; [vm_compute; reflexivity|].
  apply (gate_quiescent_free (NewGate true 2 0)).
  - eapply (steps_reached _ _ busy_schedule gate_init); [by apply reached_start|vm_compute; reflexivity].
  - change (map_Forall (λ _ p, finished p = true) (calls busy_end)).
    apply (bool_decide_unpack _). vm_compute. exact I.
Defined.
Lemma gate_panics_exhaust_witness :
  step (NewGate true 1 0) 1 Acquire
    (mkState 1 {[0%nat := Crashed; 1%nat := Waiting]}) = None.
Proof.
  eapply (gate_panics_exhaust (NewGate true 1 0) (mkState 1 {[0%nat := Crashed]}) [(1%nat, CallBoot)]);
    [vm_compute; discriminate| |vm_compute; discriminate|vm_compute; reflexivity].
  eapply (steps_reached _ _ [(0%nat, CallBoot); (0%nat, Acquire); (0%nat, InnerPanics)] gate_init);
    [by apply reached_start|vm_compute; reflexivity].
Defined.
