(* ===== verification/GateRuntime.v ===== *)
(** * The gate as a backend (internal/runtime/gate.go)

    What one caller of the gate sees: a runtime around a runtime.  [Gate] treats
    the gate's concurrency; here its calls are actions, so that the server can be
    put on top of it.  The gate passes on the promise of the runtime inside
    ([gated_VMs]), and its slots keep the same promise themselves
    ([gated_slots]). *)
From S2P Require Import Prelude GoUnicode GoStrings GoError GoTime Resources Policy Runtime Gate.

(** The slots that are taken, the [released] flag of every lease, and the world
    of the runtime inside. *)
Record gworld (W : Type) := mkGW { slots : Z; leases : list bool; within_gate : W }.
Arguments mkGW {W}. Arguments slots {W}. Arguments leases {W}. Arguments within_gate {W}.

(** What the select of [Boot] takes, of what is ready. *)
Inductive selection := TakeSlot | TakeDone (err : error) | TakeTimer.

Section Gated.
Context {W : Type} (g : Gate) (inner : option (Runtime W)) (pick : context → gworld W → selection).

Definition on_inner {A} (m : M W A) : M (gworld W) A := λ w,
  let '(o, x) := m (within_gate w) in (o, mkGW (slots w) (leases w) x).
(** [<-g.sem], which waits for ever on an empty channel. *)
Definition receive_slot : M (gworld W) unit := λ w,
  if 0 <? slots w then (Ret tt, mkGW (slots w - 1) (leases w) (within_gate w))
  else (Blocked, w).
Definition busy : error := Wrap "" (Sentinel ErrBusy) (" (max " +:+ Itoa (Max g) +:+ ")").
(** The select: a full channel takes nothing. *)
Definition acquire (ctx : context) : M (gworld W) (option error) := λ w,
  match pick ctx w with
  | TakeDone err => (Ret (Some err), w)
  | TakeSlot =>
    if slots w <? Max g then (Ret None, mkGW (slots w + 1) (leases w) (within_gate w)) else (Ret (Some busy), w)
  | TakeTimer => (Ret (Some busy), w)
  end.

(** The once-function of a lease. *)
Definition release_lease (n : nat) : M (gworld W) unit := λ w,
  match leases w !! n with
  | Some false =>
    (receive_slot ;;; ret tt) (mkGW (slots w) (<[n := true]> (leases w)) (within_gate w))
  | _ => (Ret tt, w)
  end.
Definition leasedInstance (inst : Instance W) (n : nat) : Instance (gworld W) :=
  mkInstance (ID inst) (λ ctx req, on_inner (Execute inst ctx req))
    (λ ctx, defer (release_lease n) (on_inner (Destroy inst ctx))).
Definition new_lease : M (gworld W) nat := λ w,
  (Ret (length (leases w)), mkGW (slots w) (leases w ++ [false]) (within_gate w)).

Definition gate_Boot (ctx : context) (spec : Spec) : M (gworld W) (result (Instance (gworld W))) :=
  match inner with
  | None => ret (Err (New "runtime: gate has no inner runtime"))
  | Some rt =>
    guard Err (acquire ctx)
    (let! inst := on_inner (Boot rt ctx spec) in
     match inst with
     | Err err => receive_slot ;;; ret (Err err)
     | Ok inst => let! n := new_lease in ret (Ok (leasedInstance inst n))
     end)
  end.
Definition gate_Name : string := match inner with Some rt => Name rt | None => "gate" end.
Definition gate_Ready : M (gworld W) (option error) :=
  match inner ≫= Ready with Some ready => on_inner ready | None => ret None end.
Definition gated : Runtime (gworld W) := mkRuntime gate_Boot gate_Name (Some gate_Ready).

Lemma acquire_inner ctx w : within_gate (acquire ctx w).2 = within_gate w.
Proof. unfold acquire. destruct (pick ctx w); [destruct (_ <? _)|..]; done. Qed.
Lemma acquire_returns ctx : returns (acquire ctx).
Proof. intros w. unfold acquire. destruct (pick ctx w); [destruct (_ <? _)|..]; by eexists _, _. Qed.
Lemma release_inner n w : within_gate (release_lease n w).2 = within_gate w.
Proof.
  unfold release_lease. destruct (leases w !! n) as [[|]|]; [done| |done].
  unfold bind, receive_slot. cbn. by destruct (0 <? slots w).
Qed.
End Gated.
#[global] Arguments gate_Boot : simpl never.

(** ** The machines behind the gate *)
Section Machines.
Context {W : Type} (g : Gate) (rt : Runtime W) (pick : context → gworld W → selection) `{HV : !VMs rt}.

Lemma gate_Boot_inner ctx spec w :
  let r := gate_Boot g (Some rt) pick ctx spec w in
  (∃ err, r.1 = Ret (Err err) ∧ within_gate r.2 = within_gate w) ∨
  (∃ x', within_gate r.2 = x' ∧
    match r.1 with
    | Ret (Ok inst) => ∃ i n, inst = leasedInstance i n ∧ Boot rt ctx spec (within_gate w) = (Ret (Ok i), x')
    | Ret (Err e) => Boot rt ctx spec (within_gate w) = (Ret (Err e), x')
    | Panic v => Boot rt ctx spec (within_gate w) = (Panic v, x')
    | Blocked => Boot rt ctx spec (within_gate w) = (Blocked, x') ∨
                 ∃ e, Boot rt ctx spec (within_gate w) = (Ret (Err e), x')
    end).
Proof.
  cbv zeta. unfold gate_Boot, guard. destruct (acquire_returns g pick ctx w) as (e & w1 & E).
  pose proof (acquire_inner g pick ctx w) as Hi. rewrite E in Hi. cbn in Hi. rewrite (bind_Ret _ _ _ _ _ E).
  destruct e as [err|]; [left; exists err; by split|]. right. unfold bind, on_inner, receive_slot, new_lease, ret. rewrite Hi.
  destruct (Boot rt ctx spec (within_gate w)) as [[[inst|err]|v|] x'] eqn:Eb; (exists x').
  - cbn. split; [done|]. by eexists _, _.
  - cbn. destruct (0 <? slots w1); cbn; (split; [done|]); [done|]. right. by exists err.
  - by split.
  - split; [done|]. by left.
Qed.

(** The gate passes the promise of its runtime on. *)
#[export] Program Instance gated_VMs : VMs (gated g (Some rt) pick) := {|
  vms w := vms (within_gate w);
  vm_inv w := vm_inv (within_gate w);
  owned inst i := ∃ inst' n, inst = leasedInstance inst' n ∧ owned inst' i
|}.
Next Obligation.
  cbn. intros c spec w inst w' Hinv E. pose proof (gate_Boot_inner c spec w) as H. cbv zeta in H.
  rewrite E in H. cbn in H. destruct H as [(err & H & _)|(x' & -> & i & n & -> & Hb)]; [done|].
  apply boot_ok in Hb as (Hi & k & Ho & Hk); [|done]. split; [done|]. exists k. split; [|done]. by exists i, n.
Qed.
Next Obligation.
  cbn. intros c spec w e w' Hinv E. pose proof (gate_Boot_inner c spec w) as H. cbv zeta in H.
  rewrite E in H. cbn in H. destruct H as [(err & _ & ->)|(x' & -> & Hb)]; [done|]. by eapply boot_err.
Qed.
Next Obligation.
  cbn. intros c spec w v w' Hinv E. pose proof (gate_Boot_inner c spec w) as H. cbv zeta in H.
  rewrite E in H. cbn in H. destruct H as [(err & H & _)|(x' & -> & Hb)]; [done|]. by eapply boot_panic.
Qed.
Next Obligation.
  cbn. intros c spec w w' Hinv E. pose proof (gate_Boot_inner c spec w) as H. cbv zeta in H.
  rewrite E in H. cbn in H. destruct H as [(err & H & _)|(x' & -> & [Hb|[e Hb]])]; [done|..].
  - by eapply boot_blocked.
  - by eapply boot_err.
Qed.
Next Obligation.
  cbn. intros inst i c req w Hinv (inst' & n & -> & Ho). cbn. unfold on_inner.
  pose proof (execute_ends inst' i c req (within_gate w) Hinv Ho) as H.
  by destruct (Execute inst' c req (within_gate w)).
Qed.
Next Obligation.
  cbn. intros inst i c req w Hinv (inst' & n & -> & Ho). cbn. unfold on_inner.
  pose proof (execute_vms inst' i c req (within_gate w) Hinv Ho) as H.
  by destruct (Execute inst' c req (within_gate w)).
Qed.
Next Obligation.
  cbn. intros inst i c w Hinv (inst' & n & -> & Ho). cbn.
  pose proof (destroy_vms inst' i c (within_gate w) Hinv Ho) as H.
  destruct (decide ((on_inner (Destroy inst' c) w).1 = Blocked)) as [E|E].
  - rewrite (defer_Blocked _ _ _ E). unfold on_inner. by destruct (Destroy inst' c (within_gate w)).
  - rewrite (defer_world _ _ _ E), release_inner. unfold on_inner.
    by destruct (Destroy inst' c (within_gate w)).
Qed.
End Machines.

(** ** The slots of the gate *)
Section Slots.
Context {W : Type} (g : Gate) (rt : Runtime W) (pick : context → gworld W → selection).
(** A boot that panics never gives its slot back ([Gate.gate_panics_exhaust]), and
    neither does a machine whose [Destroy] waits for ever. *)
Hypothesis Hboot : ∀ ctx spec, returns (Boot rt ctx spec).
Hypothesis Hends : ∀ ctx spec w inst w', Boot rt ctx spec w = (Ret (Ok inst), w') →
  ∀ c req, ends (Execute inst c req) ∧ ends (Destroy inst c).

Definition open_leases (w : gworld W) : gset nat := alive_from 0 (leases w).
(** Every slot that is taken belongs to a lease that was not released. *)
Definition slots_owned (w : gworld W) : Prop := slots w = Z.of_nat (size (open_leases w)).

Lemma length_not_alive l : length l ∉ alive_from 0 l.
Proof. rewrite elem_of_alive_from. intros (k & Hl & Hk). apply lookup_lt_Some in Hk. lia. Qed.
Lemma release_spec n w :
  slots_owned w →
  ∃ w', release_lease n w = (Ret tt, w') ∧ slots_owned w' ∧ open_leases w' = open_leases w ∖ {[n]}.
Proof.
  intros Hw. unfold release_lease. destruct (leases w !! n) as [[|]|] eqn:E.
  1, 3: exists w; split; [done|]; split; [done|]; unfold open_leases;
    assert (n ∉ alive_from 0 (leases w)) by
      (rewrite elem_of_alive_from; intros (k & -> & Hk); cbn in E; congruence); set_solver.
  assert (n ∈ open_leases w) as Hn by (apply elem_of_alive_from; by exists n).
  assert (size (open_leases w) ≠ 0%nat) as Hs by (intros H0%size_empty_inv; set_solver).
  unfold bind, receive_slot. cbn. rewrite Hw, (proj2 (Z.ltb_lt _ _)) by lia. eexists. split; [done|].
  unfold slots_owned, open_leases. cbn. rewrite alive_from_insert. split; [|done].
  rewrite size_difference by set_solver. rewrite size_singleton. fold (open_leases w). lia.
Qed.
Lemma acquire_spec ctx w :
  slots_owned w → ∃ w', open_leases w' = open_leases w ∧ leases w' = leases w ∧
    (acquire g pick ctx w = (Ret None, w') ∧ slots w' = slots w + 1 ∧ slots w < Max g ∨
     ∃ e, acquire g pick ctx w = (Ret (Some e), w') ∧ w' = w).
Proof.
  intros Hw. unfold acquire. destruct (pick ctx w) as [|err|].
  - destruct (Z.ltb_spec (slots w) (Max g)).
    + eexists. split; [|split; [|left; split; [done|split; [done|lia]]]]; done.
    + exists w. split_and!; eauto.
  - exists w. split_and!; eauto.
  - exists w. split_and!; eauto.
Qed.
(** A boot takes one slot for the lease of its instance, or none. *)
Lemma gate_Boot_slots ctx spec w :
  slots_owned w →
  ∃ w', slots_owned w' ∧
    ((∃ i, gate_Boot g (Some rt) pick ctx spec w = (Ret (Ok (leasedInstance i (length (leases w)))), w') ∧
        (∀ c req, ends (Execute i c req) ∧ ends (Destroy i c)) ∧
        open_leases w' = open_leases w ∪ {[length (leases w)]}) ∨
     (∃ e, gate_Boot g (Some rt) pick ctx spec w = (Ret (Err e), w') ∧ open_leases w' = open_leases w)).
Proof.
  intros Hw. destruct (acquire_spec ctx w Hw) as (w1 & Ho & Hl & [(E & Hs & _)|(e & E & ->)]).
  2: { exists w. split; [done|]. right. exists e. split; [|done]. unfold gate_Boot, guard.
       by rewrite (bind_Ret _ _ _ _ _ E). }
  unfold gate_Boot, guard. rewrite (bind_Ret _ _ _ _ _ E).
  destruct (Hboot ctx spec (within_gate w1)) as ([inst|err] & x' & Eb);
    unfold bind, on_inner; rewrite Eb; unfold new_lease, receive_slot, ret; cbn.
  - eexists. split; [|left; exists inst; rewrite Hl; split; [done|split; [by eapply Hends|]]].
    + unfold slots_owned, open_leases. cbn. rewrite alive_from_snoc, Hs, Hw.
      rewrite size_union by (pose proof (length_not_alive (leases w)); set_solver).
      rewrite size_singleton. fold (open_leases w). lia.
    + unfold open_leases. cbn. by rewrite alive_from_snoc.
  - rewrite (proj2 (Z.ltb_lt _ _)) by (rewrite Hs, Hw; lia). eexists.
    split; [|right; exists err; split; [done|]].
    + unfold slots_owned, open_leases in *. cbn. rewrite Hl, Hs, Hw. lia.
    + unfold open_leases. cbn. by rewrite Hl.
Qed.

(** The open leases, as machines, keep the promise of the runtime interface. *)
Program Definition gated_slots : VMs (gated g (Some rt) pick) := {|
  vms := open_leases;
  vm_inv := slots_owned;
  owned inst n := ∃ inst', inst = leasedInstance inst' n ∧ ∀ c req, ends (Execute inst' c req) ∧ ends (Destroy inst' c)
|}.
Next Obligation.
  cbn. intros c spec w inst w' Hw E. destruct (gate_Boot_slots c spec w Hw) as (w1 & Hw1 & [(i & E' & Hi & Ho)|(e & E' & _)]);
    rewrite E' in E; [|done]. injection E as <- <-. split; [done|]. exists (length (leases w)).
  split_and!; [by exists i|apply length_not_alive|done].
Qed.
Next Obligation.
  cbn. intros c spec w e w' Hw E. destruct (gate_Boot_slots c spec w Hw) as (w1 & Hw1 & [(i & E' & _)|(e' & E' & Ho)]);
    rewrite E' in E; [done|]. by injection E as <- <-.
Qed.
Next Obligation.
  cbn. intros c spec w v w' Hw E.
  destruct (gate_Boot_slots c spec w Hw) as (w1 & _ & [(i & E' & _)|(e' & E' & _)]); by rewrite E' in E.
Qed.
Next Obligation.
  cbn. intros c spec w w' Hw E.
  destruct (gate_Boot_slots c spec w Hw) as (w1 & _ & [(i & E' & _)|(e' & E' & _)]); by rewrite E' in E.
Qed.
Next Obligation.
  cbn. intros inst n c req w Hw (inst' & -> & Hi). cbn. unfold on_inner.
  pose proof (proj1 (Hi c req) (within_gate w)) as H. by destruct (Execute inst' c req (within_gate w)).
Qed.
Next Obligation.
  cbn. intros inst n c req w Hw (inst' & -> & _). cbn. unfold on_inner.
  by destruct (Execute inst' c req (within_gate w)).
Qed.
Next Obligation.
  cbn. intros inst n c w Hw (inst' & -> & Hi). cbn.
  pose proof (proj2 (Hi c (mkExec "" 0)) (within_gate w)) as He.
  rewrite defer_world by (unfold on_inner; by destruct (Destroy inst' c (within_gate w))). unfold on_inner.
  destruct (Destroy inst' c (within_gate w)) as [o x].
  destruct (release_spec n (mkGW (slots w) (leases w) x) Hw) as (w' & E & Hw' & Ho). cbn [snd].
  by rewrite E.
Qed.
End Slots.
