(* ===== verification/Lift.v ===== *)
(** * Backends as parts of a process

    A runtime on the world [A] runs on any world that contains one; the machines
    of the part keep their promise in the whole. *)
From S2P Require Import Prelude GoStrings GoError GoTime Resources Policy Runtime.

Section Zoom.
Context {A W : Type} (get : W → A) (put : A → W → W).
Local Notation zoom := (zoom get put).
Definition lift_instance (i : Instance A) : Instance W :=
  mkInstance (ID i) (λ ctx req, zoom (Execute i ctx req)) (λ ctx, zoom (Destroy i ctx)).
Definition lift_runtime (rt : Runtime A) : Runtime W :=
  mkRuntime (λ ctx spec, let! r := zoom (Boot rt ctx spec) in
               ret (match r with Ok i => Ok (lift_instance i) | Err err => Err err end))
    (Name rt) (zoom <$> Ready rt).

Hypothesis get_put : ∀ a w, get (put a w) = a.
Lemma lift_Boot rt ctx spec w r w' :
  Boot (lift_runtime rt) ctx spec w = (r, w') →
  ∃ a, get w' = a ∧
  match r with
  | Ret (Ok inst) => ∃ i, inst = lift_instance i ∧ Boot rt ctx spec (get w) = (Ret (Ok i), a)
  | Ret (Err e) => Boot rt ctx spec (get w) = (Ret (Err e), a)
  | Panic v => Boot rt ctx spec (get w) = (Panic v, a)
  | Blocked => Boot rt ctx spec (get w) = (Blocked, a)
  end.
Proof.
  cbn. unfold bind, zoom, ret. destruct (Boot rt ctx spec (get w)) as [[[i|e]|v|] a];
    intros [= <- <-]; exists a; rewrite get_put; eauto.
Qed.

#[export] Program Instance lifted_VMs (rt : Runtime A) `{HV : !VMs rt} : VMs (lift_runtime rt) := {|
  vms w := vms (get w);
  vm_inv w := vm_inv (get w);
  owned inst n := ∃ i, inst = lift_instance i ∧ owned i n
|}.
Next Obligation.
  intros rt HV c spec w inst w' Hw E. apply lift_Boot in E as (a & <- & i & -> & E). cbn in *.
  apply boot_ok in E as (Hw' & n & Ho & Hn); [|done]. split; [done|]. exists n. split; [by exists i|done].
Qed.
Next Obligation.
  intros rt HV c spec w e w' Hw E. apply lift_Boot in E as (a & <- & E). by eapply boot_err.
Qed.
Next Obligation.
  intros rt HV c spec w v w' Hw E. apply lift_Boot in E as (a & <- & E). by eapply boot_panic.
Qed.
Next Obligation.
  intros rt HV c spec w w' Hw E. apply lift_Boot in E as (a & <- & E). by eapply boot_blocked.
Qed.
Next Obligation.
  cbn. intros rt HV inst n c req w Hw (i & -> & Ho). cbn. unfold zoom.
  pose proof (execute_ends i n c req (get w) Hw Ho) as H. by destruct (Execute i c req (get w)).
Qed.
Next Obligation.
  cbn. intros rt HV inst n c req w Hw (i & -> & Ho). cbn. rewrite (zoom_get get put get_put). by apply execute_vms with n.
Qed.
Next Obligation.
  cbn. intros rt HV inst n c w Hw (i & -> & Ho). cbn. rewrite (zoom_get get put get_put). by apply destroy_vms.
Qed.
End Zoom.
