(* ===== verification/AuditTrail.v ===== *)
(** * The audit trail (internal/audit)

    Events, their sinks, and the fan-out to several sinks.  A sink is an action
    on its world; files, databases, HTTP clients and encoding/json are
    arguments. *)
From S2P Require Import Prelude GoUnicode GoStrings GoError GoTime GoPath GoCrypto.

Definition MaxCodePreview : nat := 256.

(** Timestamps are nanoseconds; [None] is the zero time. *)
Record Event := mkEvent {
  Timestamp : option Z; ev_RequestID : string; ev_SessionID : string; ev_Runtime : string;
  CodeSHA256 : string; CodeBytes : Z; CodePreview : string; ev_VMID : string; ev_ExitCode : Z;
  ev_TimedOut : bool; DurationMS : Z; ev_Error : string; AuthMethod : string; ClientCN : string
}.
Definition with_timestamp (t : option Z) (e : Event) : Event :=
  mkEvent t (ev_RequestID e) (ev_SessionID e) (ev_Runtime e) (CodeSHA256 e) (CodeBytes e)
    (CodePreview e) (ev_VMID e) (ev_ExitCode e) (ev_TimedOut e) (DurationMS e) (ev_Error e)
    (AuthMethod e) (ClientCN e).

Definition Logger (W : Type) : Type := Event → M W (option error).

Definition SummarizeCode (code : string) : string * Z * string :=
  let sha := EncodeToString (Sum256 code) in
  let n := len code in
  let preview := if Z.of_nat MaxCodePreview <? len code then take_str MaxCodePreview code else code in
  (sha, n, preview).

(** ** Fanout *)

(** The loop, with the errors so far; a nil sink is skipped. *)
Fixpoint fan_loop {W} (sinks : list (option (Logger W))) (event : Event) (errs : list error)
    : M W (list error) :=
  match sinks with
  | [] => ret errs
  | None :: r => fan_loop r event errs
  | Some s :: r =>
    let! e := s event in
    fan_loop r event (match e with Some err => errs ++ [err] | None => errs end)
  end.
Definition Fanout_Record {W} (sinks : list (option (Logger W))) : Logger W := λ event,
  let! errs := fan_loop sinks event [] in ret (Join_errors errs).

(** ** Sinks *)

(** A structured attribute or an SQL argument. *)
Inductive attr := AText (s : string) | AInt (z : Z) | ABool (b : bool) | ATime (t : option Z).

Definition SlogSink_Record {W} (Info : string → list (string * attr) → M W unit) : Logger W := λ event,
  Info "audit"
    [("request_id", AText (ev_RequestID event)); ("session_id", AText (ev_SessionID event));
     ("runtime", AText (ev_Runtime event)); ("code_sha256", AText (CodeSHA256 event));
     ("code_bytes", AInt (CodeBytes event)); ("vm_id", AText (ev_VMID event));
     ("exit_code", AInt (ev_ExitCode event)); ("timed_out", ABool (ev_TimedOut event));
     ("duration_ms", AInt (DurationMS event)); ("error", AText (ev_Error event));
     ("auth_method", AText (AuthMethod event)); ("client_cn", AText (ClientCN event))] ;;;
  ret None.

(** The state of a [MemoryLogger] is its slice of events. *)
Definition MemoryLogger_Record : Logger (list Event) := λ event,
  modify (λ events, events ++ [event]) ;;; ret None.
Definition MemoryLogger_Events : M (list Event) (list Event) := gets (λ events, events).

(** An open file of the log, and what may go wrong with it. *)
Record log_file (W : Type) := mkLogFile {
  OpenFile : string → M W (option error); Write : string → M W (option error);
  Sync : M W (option error)
}.
Arguments mkLogFile {W}. Arguments OpenFile {W}. Arguments Write {W}. Arguments Sync {W}.

Definition stamp (now : Z) (event : Event) : Event :=
  match Timestamp event with None => with_timestamp (Some now) event | Some _ => event end.

Definition JSONL_Record {W} (Marshal : Event → result string) (f : log_file W) (now : M W Z)
    (path : string) : Logger W := λ event,
  let! event := match Timestamp event with
                | None => let! t := now in ret (with_timestamp (Some t) event)
                | Some _ => ret event
                end in
  match Marshal event with
  | Err err => ret (Some (Wrap "audit marshal: " err ""))
  | Ok line =>
    let! e := OpenFile f path in
    match e with
    | Some err => ret (Some (Wrap ("audit open " +:+ path +:+ ": ") err ""))
    | None =>
      let! e := Write f (line +:+ newline) in
      match e with
      | Some err => ret (Some (Wrap "audit write: " err ""))
      | None =>
        let! e := Sync f in
        match e with
        | Some err => ret (Some (Wrap "audit fsync: " err ""))
        | None => ret None
        end
      end
    end
  end.

(** *** SQL: the statements, and the sink with its [ensured] flag *)
Inductive statement := auditDDL | auditInsert (args : list attr).
Definition insert_args (e : Event) : list attr :=
  [ATime (Timestamp e); AText (ev_RequestID e); AText (ev_SessionID e); AText (ev_Runtime e);
   AText (CodeSHA256 e); AInt (CodeBytes e); AText (CodePreview e); AText (ev_VMID e);
   AInt (ev_ExitCode e); ABool (ev_TimedOut e); AInt (DurationMS e); AText (ev_Error e);
   AText (AuthMethod e); AText (ClientCN e)].

Definition StdSQL_ExecContext {D} (Do : option (statement → M D (option error))) (s : statement) : M D (option error) :=
  match Do with None => ret (Some (New "audit sql: nil adapter")) | Some exec => exec s end.
(** The world has the flag beside the database's own state. *)
Definition SQLSink_Record {D} (DB : option (statement → M D (option error))) (EnsureSchema : bool)
    (now : Z) : Logger (bool * D) := λ event '(ensured, d),
  match DB with
  | None => (Ret (Some (New "audit sql: no database")), (ensured, d))
  | Some exec =>
    let insert ensured d :=
      match exec (auditInsert (insert_args (stamp now event))) d with
      | (Ret (Some err), d') => (Ret (Some (Wrap "audit sql insert: " err "")), (ensured, d'))
      | (Ret None, d') => (Ret None, (ensured, d'))
      | (Panic v, d') => (Panic v, (ensured, d'))
      | (Blocked, d') => (Blocked, (ensured, d'))
      end in
    if negb ensured && EnsureSchema then
      match exec auditDDL d with
      | (Ret (Some err), d') => (Ret (Some (Wrap "audit sql schema: " err "")), (ensured, d'))
      | (Ret None, d') => insert true d'
      | (Panic v, d') => (Panic v, (ensured, d'))
      | (Blocked, d') => (Blocked, (ensured, d'))
      end
    else insert ensured d
  end.

(** *** HTTP *)
Record post := mkPost { post_URL : string; post_headers : list (string * string); post_body : string }.
Definition HTTPSink_Record {W} (Marshal : Event → result string)
    (NewRequest : string → option error) (Do : post → M W (result Z)) (URL Token : string)
    : Logger W := λ event,
  if String.eqb URL "" then ret (Some (New "audit http: empty URL"))
  else
    match Marshal event with
    | Err err => ret (Some err)
    | Ok body =>
      match NewRequest URL with
      | Some err => ret (Some err)
      | None =>
        let headers := ("Content-Type", "application/json") ::
          (if negb (String.eqb Token "") then [("Authorization", "Bearer " +:+ Token)] else []) in
        let! resp := Do (mkPost URL headers body) in
        ret (match resp with
             | Err err => Some (Wrap "audit http: " err "")
             | Ok status =>
               if (status <? 200) || (300 <=? status)
               then Some (New ("audit http: status " +:+ Itoa status)) else None
             end)
      end
    end.

(** ** Fan-out: every sink gets the event, whichever of them fail *)

(** Sinks that each keep their own log and answer as told. *)
Definition store_sink (i : nat) (answer : option error) : Logger (gmap nat (list Event)) := λ ev w,
  (Ret answer, <[i := default [] (w !! i) ++ [ev]]> w).
Fixpoint store_sinks (i : nat) (answers : list (option (option error)))
    : list (option (Logger (gmap nat (list Event)))) :=
  match answers with
  | [] => []
  | a :: r => (store_sink i <$> a) :: store_sinks (S i) r
  end.

Lemma fan_loop_stores i answers ev errs w :
  ∃ w', fan_loop (store_sinks i answers) ev errs w = (Ret (errs ++ omap mjoin answers), w') ∧
    (∀ j, (j < i)%nat → w' !! j = w !! j) ∧
    ∀ j, w' !! (i + j)%nat =
      match answers !! j with
      | Some (Some _) => Some (default [] (w !! (i + j)%nat) ++ [ev])
      | _ => w !! (i + j)%nat
      end.
Proof.
  revert i errs w. induction answers as [|a r IH]; intros i errs w.
  { exists w. cbn. rewrite app_nil_r. by split_and!. }
  assert (∃ errs' w1, fan_loop (store_sinks i (a :: r)) ev errs w =
            fan_loop (store_sinks (S i) r) ev errs' w1 ∧
          errs' ++ omap mjoin r = errs ++ omap mjoin (a :: r) ∧
          (∀ j, j ≠ i → w1 !! j = w !! j) ∧
          w1 !! i = match a with Some _ => Some (default [] (w !! i) ++ [ev]) | None => w !! i end)
    as (errs' & w1 & E & Ee & Hne & Hi).
  { destruct a as [[err|]|]; cbn; eexists _, _; (split; [reflexivity|]); split_and!;
      try done; try (by rewrite <- app_assoc); try (by rewrite lookup_insert_eq);
      by intros; rewrite lookup_insert_ne. }
  destruct (IH (S i) errs' w1) as (w' & E' & Hlt & Hge). exists w'. rewrite E, E', Ee.
  split_and!; [done| |].
  - intros j Hj. rewrite Hlt by lia. apply Hne. lia.
  - intros [|j]; cbn [lookup list_lookup].
    + rewrite Nat.add_0_r. rewrite Hlt by lia. by destruct a.
    + replace (i + S j)%nat with (S i + j)%nat by lia. rewrite Hge. by rewrite Hne by lia.
Qed.

(** (functional) [Fanout] hands the event to every sink exactly once, also to
    those after a sink that failed; it reports an error exactly when some sink
    did, and the error joins all of theirs in order. *)
Theorem Fanout_delivers answers ev w :
  ∃ w', Fanout_Record (store_sinks 0 answers) ev w = (Ret (Join_errors (omap mjoin answers)), w') ∧
    (∀ i, w' !! i = match answers !! i with
                    | Some (Some _) => Some (default [] (w !! i) ++ [ev])
                    | _ => w !! i
                    end) ∧
    (Join_errors (omap mjoin answers) = None ↔ ∀ i e, answers !! i ≠ Some (Some (Some e))).
Proof.
  destruct (fan_loop_stores 0 answers ev [] w) as (w' & E & _ & Hw). exists w'.
  unfold Fanout_Record, bind. rewrite E. split_and!; [done|exact Hw|].
  rewrite Join_errors_None. clear. induction answers as [|a r IH]; cbn; [done|].
  destruct a as [[e|]|]; cbn.
  - split; [done|]. intros H. by destruct (H 0%nat e).
  - rewrite IH. split; [by intros H [|i] e; cbn|intros H i e; exact (H (S i) e)].
  - rewrite IH. split; [by intros H [|i] e; cbn|intros H i e; exact (H (S i) e)].
Qed.

(** ** The JSON lines file *)

(** Records on a file that does not fail, at one time. *)
Definition good_file : log_file string :=
  mkLogFile (λ _, ret None) (λ line, modify (λ s, s +:+ line) ;;; ret None) (ret None).
Fixpoint record_all {W} (log : Logger W) (evs : list Event) : M W (list (option error)) :=
  match evs with
  | [] => ret []
  | ev :: r => let! e := log ev in let! es := record_all log r in ret (e :: es)
  end.
Definition lines_of (ls : list string) : string := concat_str ((λ l, l +:+ newline) <$> ls).

Lemma SplitByte_lines ls :
  Forall (λ l, ContainsByte l (chr 10) = false) ls → SplitByte (lines_of ls) (chr 10) = ls ++ [""].
Proof.
  induction 1 as [|l ls Hl _ IH]; [done|]. cbn [lines_of fmap list_fmap concat_str].
  change (concat_str ((λ l, l +:+ newline) <$> ls)) with (lines_of ls).
  rewrite append_assoc. change (newline +:+ lines_of ls) with (String (chr 10) (lines_of ls)).
  rewrite SplitByte_app, SplitByte_plain by done. by rewrite IH.
Qed.

Section Lines.
Context (encode : Event → string) (now : Z) (path : string).
Let record := JSONL_Record (λ ev, Ok (encode ev)) good_file (ret now) path.

Lemma record_one ev s :
  record ev s = (Ret None, s +:+ encode (stamp now ev) +:+ newline).
Proof.
  unfold record, JSONL_Record, stamp, bind. by destruct (Timestamp ev).
Qed.
Lemma record_all_lines evs s :
  record_all record evs s =
  (Ret (replicate (length evs) None), s +:+ lines_of ((λ ev, encode (stamp now ev)) <$> evs)).
Proof.
  revert s. induction evs as [|ev evs IH]; intros s; cbn [record_all].
  { unfold ret. f_equal. symmetry. apply append_nil_r. }
  unfold bind at 1. rewrite record_one. unfold bind. rewrite IH. cbn [length replicate].
  unfold ret. f_equal. cbn [lines_of fmap list_fmap concat_str]. by rewrite !append_assoc.
Qed.

(** (roundtrip) When no encoding contains a newline, as encoding/json
    promises, the lines of the file are the encodings of the events in order,
    each with its time set, and nothing else: no event is lost, split or
    merged with another. *)
Theorem jsonl_lines evs :
  (∀ ev, ContainsByte (encode ev) (chr 10) = false) →
  let '(answers, file) := record_all record evs "" in
  answers = Ret (replicate (length evs) None) ∧
  SplitByte file (chr 10) = ((λ ev, encode (stamp now ev)) <$> evs) ++ [""].
Proof.
  intros Henc. rewrite record_all_lines. split; [done|]. rewrite append_nil_l.
  apply SplitByte_lines. apply Forall_fmap, Forall_true. intros ev. apply Henc.
Qed.
End Lines.

(** ** The SQL sink *)
Section Statements.
Context (fails : list statement → option error) (now : Z).

(** A database that logs the statements and answers each from the log so far. *)
Definition logging_db (st : statement) : M (list statement) (option error) := λ log,
  (Ret (fails (log ++ [st])), log ++ [st]).
Let record := SQLSink_Record (Some logging_db) true now.

(** The log is attempts at the schema, only the last of which may have
    succeeded, and then inserts, only after one that did. *)
Definition schema_first (ensured : bool) (log : list statement) : Prop :=
  ∃ n args, log = replicate n auditDDL ++ (auditInsert <$> args) ∧
    (∀ k, (0 < k < n)%nat → fails (replicate k auditDDL) ≠ None) ∧
    (if ensured then (0 < n)%nat ∧ fails (replicate n auditDDL) = None
     else args = [] ∧ ((0 < n)%nat → fails (replicate n auditDDL) ≠ None)).

Lemma schema_insert log a : schema_first true log → schema_first true (log ++ [auditInsert a]).
Proof.
  intros (n & args & -> & H). exists n, (args ++ [a]). split; [|done].
  by rewrite fmap_app, app_assoc.
Qed.
Lemma schema_ddl log :
  schema_first false log →
  schema_first (match fails (log ++ [auditDDL]) with None => true | Some _ => false end)
    (log ++ [auditDDL]).
Proof.
  intros (n & args & -> & Hk & -> & Hn). cbn [fmap list_fmap]. rewrite app_nil_r.
  assert (replicate n auditDDL ++ [auditDDL] = replicate (S n) auditDDL) as ->
    by (by rewrite replicate_S_end).
  exists (S n), []. split; [by rewrite app_nil_r|]. split.
  - intros k Hlt. destruct (decide (k = n)) as [->|]; [apply Hn; lia|apply Hk; lia].
  - destruct (fails (replicate (S n) auditDDL)) as [e|] eqn:E.
    { split; [done|]. by intros _. }
    split; [lia|done].
Qed.
Lemma record_schema ev ensured log :
  schema_first ensured log →
  ∃ e ensured' log', record ev (ensured, log) = (Ret e, (ensured', log')) ∧ schema_first ensured' log'.
Proof.
  intros H. unfold record, SQLSink_Record. destruct ensured; cbn [negb andb].
  - unfold logging_db. destruct (fails _); eexists _, _, _; (split; [reflexivity|]);
      by apply schema_insert.
  - apply schema_ddl in H. unfold logging_db at 1. destruct (fails (log ++ [auditDDL])).
    + eexists _, _, _. by split.
    + unfold logging_db. destruct (fails _); eexists _, _, _; (split; [reflexivity|]);
        by apply schema_insert.
Qed.

(** (invariant) Over any sequence of records, with any failures of the
    database, no event is inserted before the schema statement has succeeded,
    and the schema statement is never issued again after it has. *)
Theorem sql_schema_first evs :
  ∃ answers ensured log, record_all record evs (false, []) = (Ret answers, (ensured, log)) ∧
    length answers = length evs ∧ schema_first ensured log.
Proof.
  assert (∀ ensured log, schema_first ensured log →
    ∃ answers ensured' log', record_all record evs (ensured, log) = (Ret answers, (ensured', log')) ∧
      length answers = length evs ∧ schema_first ensured' log') as H.
  { induction evs as [|ev evs IH]; intros ensured log Hs; cbn [record_all]; [by eexists _, _, _|].
    destruct (record_schema ev ensured log Hs) as (e & en & l & E & H1).
    destruct (IH en l H1) as (as' & en' & l' & E' & Hl & H2).
    unfold bind at 1. rewrite E. unfold bind. rewrite E'. eexists (e :: as'), en', l'.
    split; [done|]. split; [cbn; by rewrite Hl|done]. }
  apply H. exists 0%nat, []. split; [done|]. split; [lia|]. split; [done|lia].
Qed.
End Statements.

(** ** The preview *)

Lemma SummarizeCode_spec code :
  SummarizeCode code = (EncodeToString (Sum256 code), len code, take_str MaxCodePreview code).
Proof.
  unfold SummarizeCode. destruct (Z.ltb_spec (Z.of_nat MaxCodePreview) (len code)); [done|].
  rewrite take_str_all; [done|]. unfold len in *. lia.
Qed.

(** Well-formed UTF-8: no byte decodes to an error. *)
Definition valid_utf8 (s : string) : bool :=
  forallb (λ seg, negb ((seg.1 =? RuneError) && (len seg.2 =? 1))) (segments 0 s).

(** (bounds) The preview is the first 256 bytes of the code, so it is never
    longer, but it can end in the middle of a character: code that is valid
    UTF-8 can have a preview that is not, which a TEXT column refuses. *)
Theorem preview_splits_rune :
  (∀ code, let '(_, n, preview) := SummarizeCode code in
     n = len code ∧ len preview <= 256 ∧ ∃ rest, code = preview +:+ rest) ∧
  ∃ code, valid_utf8 code = true ∧ valid_utf8 (SummarizeCode code).2 = false.
Proof.
  split.
  - intros code. rewrite SummarizeCode_spec. split_and!; [done| |].
    + unfold len. rewrite length_take_str. unfold MaxCodePreview. lia.
    + exists (drop_str MaxCodePreview code). symmetry. apply take_drop_str.
  - exists (concat_str (repeat "#" 255) +:+ String (chr 195) (String (chr 169) "")).
    rewrite SummarizeCode_spec. vm_compute. by split.
Qed.

(** ** Instances *)
Definition sample_event (id : string) : Event :=
  mkEvent None id "" "python" "" 0 "" "" 0 false 0 "" "none" "".
Definition line_of (ev : Event) : string :=
  if ContainsByte (ev_RequestID ev) (chr 10) then "?" else ev_RequestID ev.
Lemma jsonl_lines_witness :
  let record := JSONL_Record (λ ev, Ok (line_of ev)) good_file (ret 7) "/var/log/warden.jsonl" in
  record_all record [sample_event "r1"; sample_event "r2"] "" =
    (Ret [None; None], "r1" +:+ newline +:+ "r2" +:+ newline) ∧
  SplitByte ("r1" +:+ newline +:+ "r2" +:+ newline) (chr 10) = ["r1"; "r2"; ""].
Proof.
  split; [vm_compute; reflexivity|].
  apply (jsonl_lines line_of 7 "/var/log/warden.jsonl" [sample_event "r1"; sample_event "r2"]).
  intros ev. unfold line_of. destruct (ContainsByte (ev_RequestID ev) (chr 10)) eqn:E; [reflexivity|exact E].
Defined.
