(* ===== verification/Server.v ===== *)
(** * The HTTP server (internal/api/server.go, execute.go, health.go, types.go, id.go)

    The handlers and their middleware as actions on a world: the response being
    written, the rate limiter's table, and the world [X] of the backends
    (runtime, audit sink, JWT verifier, clock).  net/http's routing of other
    paths and encoding/json's decoder are arguments. *)
From S2P Require Import Prelude GoUnicode GoStrings GoError GoTime GoNet GoCrypto.
From S2P Require Import Resources Policy Runtime RateLimit Validate AuditTrail Auth.

Definition CodeInvalidJSON : string := "invalid_json".
Definition CodeInvalidRequest : string := "invalid_request".
Definition CodeBodyTooLarge : string := "body_too_large".
Definition CodeMethodNotAllow : string := "method_not_allowed".
Definition CodeInternal : string := "internal_error".
Definition CodeUnavailable : string := "backend_unavailable".
Definition CodeUnauthorized : string := "unauthorized".
Definition CodeBusy : string := "busy".
Definition CodeRateLimited : string := "rate_limited".
Definition CodeAuditFailed : string := "audit_failed".

(** ** Responses *)

Record ErrorBody := mkErrorBody { eb_Error : string; eb_Code : string; eb_RequestID : string }.
Record ExecuteResponse := mkResponse {
  resp_Stdout : string; resp_Stderr : string; resp_ExitCode : Z; resp_VMID : string;
  resp_Runtime : string; resp_RequestID : string; resp_SessionID : string;
  resp_DurationMS : Z; resp_TimedOut : bool; resp_Backend : string
}.
Record healthResponse := mkHealth { h_Status : string; h_Backend : string; h_Ready : bool }.
(** What is encoded into the body. *)
Inductive body :=
| BError (e : ErrorBody) | BExecute (r : ExecuteResponse) | BHealth (h : healthResponse)
| BText (s : string).

(** An [http.ResponseWriter]: the header map, the status and headers that went
    out with the first [WriteHeader], and what was written after it. *)
Record response := mkResp {
  header : gmap string string; sent : option (Z * gmap string string); content : list body
}.
Definition resp_init : response := mkResp ∅ None [].
(** The status that the client sees. *)
Definition status_of (r : response) : Z := match sent r with Some (c, _) => c | None => 200 end.

(** The world of a request; [sw_status] is the status of the [statusWriter]. *)
Record world (X : Type) := mkWorld {
  ext : X; rate_hits : counters; rw : response; sw_status : Z
}.
Arguments mkWorld {X}. Arguments ext {X}. Arguments rate_hits {X}. Arguments rw {X}.
Arguments sw_status {X}.

Section Writers.
Context {X : Type}.

Definition on_ext {A} (m : M X A) : M (world X) A := λ w,
  let '(o, x) := m (ext w) in (o, mkWorld x (rate_hits w) (rw w) (sw_status w)).
Definition on_rw (f : response → response) : M (world X) unit :=
  modify (λ w, mkWorld (ext w) (rate_hits w) (f (rw w)) (sw_status w)).

Definition Header_Set (k v : string) : M (world X) unit :=
  on_rw (λ r, mkResp (<[k := v]> (header r)) (sent r) (content r)).
(** net/http ignores every call after the first. *)
Definition WriteHeader (code : Z) : M (world X) unit :=
  on_rw (λ r, mkResp (header r)
    (match sent r with Some s => Some s | None => Some (code, header r) end) (content r)).
Definition statusWriter_WriteHeader (code : Z) : M (world X) unit :=
  modify (λ w, mkWorld (ext w) (rate_hits w) (rw w) code) ;;; WriteHeader code.
Definition Encode (b : body) : M (world X) unit :=
  on_rw (λ r, mkResp (header r)
    (match sent r with Some s => Some s | None => Some (200, header r) end) (content r ++ [b])).

(** [wrapped]: the writer is the middleware's [statusWriter]. *)
Definition writeJSON (wrapped : bool) (status : Z) (b : body) : M (world X) unit :=
  Header_Set "Content-Type" "application/json" ;;;
  (if wrapped then statusWriter_WriteHeader status else WriteHeader status) ;;;
  Encode b.
Definition writeError (wrapped : bool) (requestID : string) (status : Z) (code msg : string)
    : M (world X) unit :=
  writeJSON wrapped status (BError (mkErrorBody msg code requestID)).
End Writers.

(** ** Configuration *)
Record Config (X : Type) := mkConfig {
  Addr : string; auth : auth_config X; Rate : option FixedWindow;
  ReadTimeout : Z; WriteTimeout : Z; IdleTimeout : Z; ShutdownTimeout : Z
}.
Arguments mkConfig {X}. Arguments Addr {X}. Arguments auth {X}. Arguments Rate {X}.
Arguments ReadTimeout {X}. Arguments WriteTimeout {X}. Arguments IdleTimeout {X}.
Arguments ShutdownTimeout {X}.
Definition DefaultConfig {X} (addr : string) : Config X :=
  mkConfig addr (mkAuth "" None false false false) None
    (15 * Second) ((MaxTimeoutS + 15) * Second) (60 * Second) (10 * Second).

Record Dependencies (X : Type) := mkDeps {
  d_Runtime : Runtime.Runtime X;
  d_Limiter : option (string → Profile → SeccompProfile → option error);
  d_Limits : Profile; d_Seccomp : SeccompProfile; d_Network : StaticFilter;
  d_Audit : option (Logger X); d_AuditStrict : bool; d_BootTimeout : Z; d_QueueWait : Z
}.
Arguments mkDeps {X}. Arguments d_Runtime {X}. Arguments d_Limiter {X}. Arguments d_Limits {X}.
Arguments d_Seccomp {X}. Arguments d_Network {X}. Arguments d_Audit {X}.
Arguments d_AuditStrict {X}. Arguments d_BootTimeout {X}. Arguments d_QueueWait {X}.

(** ** Requests *)

(** The values the middleware puts into a request's context. *)
Record req_ctx := mkCtx { ctxRequestID : string; ctxAuthMethod : string; ctxClientCN : string }.

Record request := mkReq { http : http_request; Body : string }.
(** A reader: the bytes left, and the error after them. *)
Record reader := mkReader { data : string; at_end : error }.
Definition MaxBytesReader (s : string) (n : Z) : reader :=
  if n <? len s then mkReader (take_str (Z.to_nat n) s) (Sentinel MaxBytesError)
  else mkReader s (Sentinel EOF).

(** What the server takes from the process it runs in: the clock, the random
    bytes of a request id, the JSON decoder (strict about unknown fields; it
    fills the request as far as it got) and net/http's answer to other paths. *)
Record env (X : Type) := mkEnv {
  clock : M X Z; rand : M X (option (list Z));
  decode_request : reader → ExecuteRequest * option error * reader;
  decode_end : reader → option error;
  serve_other : request → M (world X) unit
}.
Arguments mkEnv {X}. Arguments clock {X}. Arguments rand {X}. Arguments decode_request {X}.
Arguments decode_end {X}. Arguments serve_other {X}.

Definition newRequestID {X} (e : env X) : M X string :=
  let! b := rand e in
  ret (match b with None => "00000000000000000000000000000000" | Some b => EncodeToString b end).

Definition maxBytesExceeded (e : error) : bool := Is e MaxBytesError.

Definition mapExecError (e : error) : Z * string * string :=
  if Is e ErrNotImplemented || Is e ErrMissingAssets then
    (503, CodeUnavailable, "firecracker backend is not ready")
  else if Is e ErrBusy then (429, CodeBusy, "too many concurrent VMs")
  else if Is e DeadlineExceeded then (504, CodeInternal, "execution timed out before a VM result")
  else (500, CodeInternal, "failed to execute in sandbox").

Definition resultToResponse (req : ExecuteRequest) (requestID backend : string) (res : Result)
    (durationMS : Z) : ExecuteResponse :=
  mkResponse (Stdout res) (Stderr res) (ExitCode res) (VMID res) (Validate.Runtime req) requestID
    (SessionID req) durationMS (TimedOut res) backend.

(** ** The handlers *)
Section Handlers.
Context {X : Type} (e : env X) (cfg : Config X) (deps : Dependencies X).

Definition bootTimeout : Z := if 0 <? d_BootTimeout deps then d_BootTimeout deps else 20 * Second.
(** The time a boot may take: the queue for a slot included. *)
Definition boot_budget : Z :=
  if 0 <? d_QueueWait deps then bootTimeout + d_QueueWait deps else bootTimeout.

Definition run_spec (req : ExecuteRequest) : Spec :=
  mkSpec (Validate.Runtime req) (SessionID req) (d_Limits deps) (d_Seccomp deps)
    (StaticFilter_Policy (d_Network deps)).

(** [Server.run]: an error of the deferred [Destroy] is only logged. *)
Definition run (ctx : context) (req : ExecuteRequest) : M X (Result * option error) :=
  let spec := run_spec req in
  match (match d_Limiter deps with
         | Some apply => apply "pending-vm" (Limits spec) (Seccomp spec)
         | None => None
         end) with
  | Some err => ret (Result0, Some err)
  | None =>
    let! inst := Boot (d_Runtime deps) (WithTimeout ctx boot_budget) spec in
    match inst with
    | Err err => ret (Result0, Some err)
    | Ok inst =>
      defer (Destroy inst (WithTimeout Background (5 * Second)) ;;; ret tt)
        (Execute inst (WithTimeout ctx (seconds (Timeout req)))
           (mkExec (Code req) (seconds (Timeout req))))
    end
  end.

Definition audit_event (ctx : req_ctx) (req : ExecuteRequest) (requestID : string) (res : Result)
    (durationMS : Z) (execErr : option error) : Event :=
  let '(hash, n, preview) := SummarizeCode (Code req) in
  mkEvent None requestID (SessionID req) (Validate.Runtime req) hash n preview (VMID res)
    (match execErr with Some _ => if ExitCode res =? 0 then -1 else ExitCode res | None => ExitCode res end)
    (TimedOut res) durationMS
    (match execErr with Some err => Error err | None => "" end)
    (ctxAuthMethod ctx) (ctxClientCN ctx).
Definition recordAudit (ctx : req_ctx) (req : ExecuteRequest) (requestID : string) (res : Result)
    (durationMS : Z) (execErr : option error) : M X (option error) :=
  match d_Audit deps with
  | None => ret None
  | Some record => record (audit_event ctx req requestID res durationMS execErr)
  end.

(** An invalid request: audited with what was decoded of it, answered 400. *)
Definition reject (ctx : req_ctx) (req : ExecuteRequest) (err : error) (code msg : string)
    : M (world X) unit :=
  on_ext (recordAudit ctx req (ctxRequestID ctx) Result0 0 (Some err)) ;;;
  writeError true (ctxRequestID ctx) 400 code msg.

(** The part of [handleExecute] that follows validation. *)
Definition execute_valid (ctx : req_ctx) (req : ExecuteRequest) : M (world X) unit :=
  let requestID := ctxRequestID ctx in
  let! started := on_ext (clock e) in
  let! r := on_ext (run RequestContext req) in
  let '(res, execErr) := r in
  let! ended := on_ext (clock e) in
  let durationMS := Z.quot (ended - started) Millisecond in
  let! auditErr := on_ext (recordAudit ctx req requestID res durationMS execErr) in
  match execErr with
  | Some err =>
    let '(status, code, msg) := mapExecError err in
    writeError true requestID status code msg
  | None =>
    if isSome auditErr && d_AuditStrict deps then
      writeError true requestID 500 CodeAuditFailed "audit sink failed"
    else
      writeJSON true 200
        (BExecute (resultToResponse req requestID (Name (d_Runtime deps)) res durationMS))
  end.

Definition handleExecute (ctx : req_ctx) (r : request) : M (world X) unit :=
  let requestID := ctxRequestID ctx in
  if negb (String.eqb (Method (http r)) "POST") then
    writeError true requestID 405 CodeMethodNotAllow "POST required"
  else
    let '(req, err, rest) := decode_request e (MaxBytesReader (Body r) MaxRequestBytes) in
    match err with
    | Some err =>
      if maxBytesExceeded err then
        writeError true requestID 413 CodeBodyTooLarge "request body too large"
      else reject ctx req err CodeInvalidJSON "invalid JSON body"
    | None =>
      match decode_end e rest with
      | Some end_err =>
        if Is end_err EOF then
          match validateExecute req with
          | (req, Some err) => reject ctx req err CodeInvalidRequest (Error err)
          | (req, None) => execute_valid ctx req
          end
        else reject ctx req (New "trailing data after JSON object") CodeInvalidJSON "invalid JSON body"
      | None => reject ctx req (New "trailing data after JSON object") CodeInvalidJSON "invalid JSON body"
      end
    end.

Definition handleHealth (ctx : req_ctx) (r : request) : M (world X) unit :=
  if negb (String.eqb (Method (http r)) "GET") && negb (String.eqb (Method (http r)) "HEAD") then
    writeError true (ctxRequestID ctx) 405 CodeMethodNotAllow "method not allowed"
  else
    let! ready := match Ready (d_Runtime deps) with
                  | Some ready => let! err := on_ext ready in ret (negb (isSome err))
                  | None => ret true
                  end in
    writeJSON true 200
      (BHealth (mkHealth (if ready then "ok" else "degraded") (Name (d_Runtime deps)) ready)).

(** The routes of [NewServer]. *)
Definition serve (ctx : req_ctx) (r : request) : M (world X) unit :=
  if String.eqb (Path (http r)) "/health" then handleHealth ctx r
  else if String.eqb (Path (http r)) "/execute" then handleExecute ctx r
  else serve_other e r.

Definition rate_allow (key : string) : M (world X) bool :=
  match Rate cfg with
  | None => ret true
  | Some rate =>
    if Limit rate <=? 0 then ret true else
    let! now := on_ext (clock e) in
    λ w, let '(ok, hits) := Allow (Some rate) now key (rate_hits w) in
         (Ret ok, mkWorld (ext w) hits (rw w) (sw_status w))
  end.

(** What [middleware] does between naming the request and logging it. *)
Definition guarded (requestID : string) (r : request) : M (world X) unit :=
  modify (λ w, mkWorld (ext w) (rate_hits w) (rw w) 200) ;;;
  if String.eqb (Path (http r)) "/health" then serve (mkCtx requestID "" "") r
  else
    let! a := on_ext (authorize (auth cfg) (http r)) in
    let '(method, cn, ok) := a in
    if negb ok then
      on_ext (recordAudit (mkCtx requestID "" "") (mkRequest "" "" 0 "") requestID Result0 0
                (Some (Sentinel ErrUnauthorized))) ;;;
      writeError true requestID 401 CodeUnauthorized "unauthorized"
    else
      let! allowed := rate_allow (rateKey (http r) method cn) in
      if negb allowed then writeError true requestID 429 CodeRateLimited "rate limit exceeded"
      else serve (mkCtx requestID method cn) r.

Definition middleware (r : request) : M (world X) unit :=
  let given := Header_Get (http r) HeaderRequestID in
  let! requestID := if String.eqb given "" then on_ext (newRequestID e) else ret given in
  Header_Set HeaderRequestID requestID ;;;
  Header_Set "X-Content-Type-Options" "nosniff" ;;;
  recovering (λ _, writeError false requestID 500 CodeInternal "internal error")
    (guarded requestID r).
End Handlers.
