(* ===== verification/ServerSpec.v ===== *)
(** * What the HTTP server guarantees (theorems about Server.v)

    Every request is answered, whatever panics; who is not authorized or over
    its rate reaches no backend; only valid work is booted; no machine outlives
    its request; every execution leaves one audit event. *)
From S2P Require Import Prelude GoUnicode GoStrings GoError GoTime GoNet GoCrypto.
From S2P Require Import Resources Policy Runtime RateLimit Validate AuditTrail Auth Server.

(** ** The effect of the small actions *)

(** The response after [writeJSON]. *)
Definition answered (r : response) (status : Z) (b : body) : response :=
  let h := <["Content-Type" := "application/json"]> (header r) in
  mkResp h (match sent r with Some s => Some s | None => Some (status, h) end) (content r ++ [b]).

Section Effects.
Context {X : Type}.
Implicit Types (w : world X).

Lemma on_ext_run {A} (m : M X A) w o x :
  m (ext w) = (o, x) → on_ext m w = (o, mkWorld x (rate_hits w) (rw w) (sw_status w)).
Proof. unfold on_ext. by intros ->. Qed.
Lemma bind_ext {A C} (m : M X A) (k : A → M (world X) C) x h rp st a x' :
  m x = (Ret a, x') → bind (on_ext m) k (mkWorld x h rp st) = k a (mkWorld x' h rp st).
Proof. intros Hm. apply bind_Ret. unfold on_ext. cbn. by rewrite Hm. Qed.
Lemma on_ext_Ret {A} (m : M X A) w a w' :
  on_ext m w = (Ret a, w') ↔
  ∃ x, m (ext w) = (Ret a, x) ∧ w' = mkWorld x (rate_hits w) (rw w) (sw_status w).
Proof. unfold on_ext. destruct (m (ext w)) as [o x]. naive_solver. Qed.
Lemma writeJSON_run wrapped status b w :
  writeJSON wrapped status b w =
  (Ret tt, mkWorld (ext w) (rate_hits w) (answered (rw w) status b)
             (if wrapped then status else sw_status w)).
Proof. unfold answered. destruct wrapped, w as [x h [hd [[]|] ct] st]; reflexivity. Qed.
Lemma writeError_run wrapped id status code msg w :
  writeError wrapped id status code msg w =
  (Ret tt, mkWorld (ext w) (rate_hits w)
             (answered (rw w) status (BError (mkErrorBody msg code id)))
             (if wrapped then status else sw_status w)).
Proof. apply writeJSON_run. Qed.

(** A relation of the backends' worlds, seen by the handlers. *)
Definition on_ext_rel (R : X → X → Prop) (w w' : world X) : Prop := R (ext w) (ext w').
Context (R : X → X → Prop) `{HR : !PreOrder R}.
#[export] Instance on_ext_rel_preorder : PreOrder (on_ext_rel R).
Proof. unfold on_ext_rel. split; [by intros w|]. intros x y z H1 H2. by etrans. Qed.
Lemma respects_on_ext {A} (m : M X A) : respects R m → respects (on_ext_rel R) (on_ext m).
Proof. intros Hm w. specialize (Hm (ext w)). unfold on_ext, on_ext_rel. by destruct (m (ext w)). Qed.
Lemma respects_write wrapped status b : respects (on_ext_rel R) (writeJSON wrapped status b).
Proof. intros w. rewrite writeJSON_run. by unfold on_ext_rel. Qed.
Lemma respects_error wrapped id status code msg :
  respects (on_ext_rel R) (writeError wrapped id status code msg).
Proof. apply respects_write. Qed.
Lemma respects_set k v : respects (on_ext_rel R) (Header_Set k v).
Proof. intros w. by unfold on_ext_rel. Qed.
End Effects.
#[export] Hint Resolve respects_on_ext respects_write respects_error respects_set : go.

(** ** Naming the request *)
Section Naming.
Context {X : Type} (e : env X).

Definition name_request (r : request) : M X string :=
  let given := Header_Get (http r) HeaderRequestID in
  if String.eqb given "" then newRequestID e else ret given.
(** The response headers every answer starts from. *)
Definition named (id : string) (rp : response) : response :=
  mkResp (<["X-Content-Type-Options" := "nosniff"]> (<[HeaderRequestID := id]> (header rp)))
    (sent rp) (content rp).

Lemma middleware_run cfg deps r w id x :
  name_request r (ext w) = (Ret id, x) →
  middleware e cfg deps r w =
  recovering (λ _, writeError false id 500 CodeInternal "internal error")
    (guarded e cfg deps id r) (mkWorld x (rate_hits w) (named id (rw w)) (sw_status w)).
Proof.
  unfold name_request, middleware. intros Hn. unfold bind at 1.
  destruct (String.eqb _ "").
  - unfold on_ext. rewrite Hn. reflexivity.
  - injection Hn as <- <-. destruct w. reflexivity.
Qed.
Lemma named_id id rp : header (named id rp) !! HeaderRequestID = Some id.
Proof. cbn. rewrite lookup_insert_ne by done. apply lookup_insert_eq. Qed.
End Naming.

(** ** Panics are contained *)
Section Panics.
Context {X : Type} (e : env X) (cfg : Config X) (deps : Dependencies X).

(** (safety) Once the request has its id the middleware returns, whatever
    panics below it (verifier, audit sink, runtime, limiter), unless something
    there waits for ever; a panic before
    anything was sent is answered 500 with the id of the request in the body. *)
Theorem middleware_contains_panics r w id x :
  name_request e r (ext w) = (Ret id, x) →
  (guarded e cfg deps id r (mkWorld x (rate_hits w) (named id (rw w)) (sw_status w))).1 ≠ Blocked →
  ∃ w', middleware e cfg deps r w = (Ret tt, w') ∧
    ∀ v w1, guarded e cfg deps id r (mkWorld x (rate_hits w) (named id (rw w)) (sw_status w)) =
              (Panic v, w1) →
            sent (rw w1) = None →
            status_of (rw w') = 500 ∧
            content (rw w') = content (rw w1) ++ [BError (mkErrorBody "internal error" CodeInternal id)].
Proof.
  intros Hn He. rewrite (middleware_run e cfg deps r w id x Hn). unfold recovering.
  destruct (guarded _ _ _ _ _ _) as [[[]|v|] w1].
  - by exists w1.
  - rewrite writeError_run. eexists. split; [done|]. intros v' w1' [= <- <-] Hs.
    unfold status_of, answered. cbn. by rewrite Hs.
  - by destruct He.
Qed.
End Panics.

(** ** The doors: authentication and rate limit *)
Section Doors.
Context {X : Type} (e : env X) (cfg : Config X) (deps : Dependencies X).

(** The answer to a fresh request named [id]. *)
Definition reply (id : string) (status : Z) (b : body) : response :=
  answered (named id resp_init) status b.

(** Who is refused by the check gets a 401, the audit sink one event, and nothing
    else happens. *)
Lemma refused_run r w id x0 m cn x1 a x2 :
  Path (http r) ≠ "/health" → rw w = resp_init →
  name_request e r (ext w) = (Ret id, x0) →
  authorize (auth cfg) (http r) x0 = (Ret (m, cn, false), x1) →
  recordAudit deps (mkCtx id "" "") (mkRequest "" "" 0 "") id Result0 0
    (Some (Sentinel ErrUnauthorized)) x1 = (Ret a, x2) →
  middleware e cfg deps r w =
    (Ret tt, mkWorld x2 (rate_hits w)
               (reply id 401 (BError (mkErrorBody "unauthorized" CodeUnauthorized id))) 401).
Proof.
  intros Hp Hw Hn Ea Ha. rewrite (middleware_run e cfg deps r w id x0 Hn), Hw.
  unfold recovering, guarded. unfold bind at 1. cbn [modify ext rate_hits rw].
  rewrite (proj2 (String.eqb_neq _ _) Hp).
  rewrite (bind_ext _ _ _ _ _ _ _ _ Ea). cbn [negb].
  rewrite (bind_ext _ _ _ _ _ _ _ _ Ha). by rewrite writeError_run.
Qed.

(** C9 (safety): a request that does not meet the policy is answered 401 and
    touches nothing but the verifier and the audit sink, which gets one event
    that says unauthorized: no rate-limit slot is used and no machine is
    booted. *)
Theorem unauthorized_touches_nothing r w id x0 j x1 a x2 :
  Path (http r) ≠ "/health" → rw w = resp_init →
  name_request e r (ext w) = (Ret id, x0) →
  jwt_verdict (auth cfg) (http r) x0 = (Ret j, x1) →
  ¬ authorized (auth cfg) (http r) (j = true) →
  recordAudit deps (mkCtx id "" "") (mkRequest "" "" 0 "") id Result0 0
    (Some (Sentinel ErrUnauthorized)) x1 = (Ret a, x2) →
  middleware e cfg deps r w =
    (Ret tt, mkWorld x2 (rate_hits w)
               (reply id 401 (BError (mkErrorBody "unauthorized" CodeUnauthorized id))) 401).
Proof.
  intros Hp Hw Hn Hj Hna Ha.
  destruct (authorize_after_verdict _ _ _ _ _ Hj) as (m & ok & Ea & Hok).
  destruct ok; [by exfalso; apply Hna, Hok|]. by eapply refused_run.
Qed.

(** A limiter that reads the clock and decides. *)
Lemma rate_allow_run rate now key x1 x2 h ok hits rp st :
  Rate cfg = Some rate → clock e x1 = (Ret now, x2) → Allow (Some rate) now key h = (ok, hits) →
  0 < Limit rate →
  rate_allow e cfg key (mkWorld x1 h rp st) = (Ret ok, mkWorld x2 hits rp st).
Proof.
  intros Hr Hc Ha Hl. unfold rate_allow. rewrite Hr, (proj2 (Z.leb_gt _ _) Hl).
  rewrite (bind_ext _ _ _ _ _ _ _ _ Hc). cbn [ext rate_hits]. by rewrite Ha.
Qed.
(** Only a limiter with a limit refuses. *)
Lemma Allow_refuses rate now key h hits : Allow (Some rate) now key h = (false, hits) → 0 < Limit rate.
Proof. unfold Allow. by destruct (Z.leb_spec (Limit rate) 0). Qed.

(** (safety) An authorized request over its rate is answered 429 and reaches
    no backend at all; only the limiter's table has changed. *)
Theorem rate_limited_touches_nothing r w id x0 j x1 rate now x2 m hits :
  Path (http r) ≠ "/health" → rw w = resp_init →
  name_request e r (ext w) = (Ret id, x0) →
  jwt_verdict (auth cfg) (http r) x0 = (Ret j, x1) →
  authorize (auth cfg) (http r) x0 = (Ret (m, clientCN (TLS (http r)), true), x1) →
  Rate cfg = Some rate → clock e x1 = (Ret now, x2) →
  Allow (Some rate) now (rateKey (http r) m (clientCN (TLS (http r)))) (rate_hits w) = (false, hits) →
  middleware e cfg deps r w =
    (Ret tt, mkWorld x2 hits
               (reply id 429 (BError (mkErrorBody "rate limit exceeded" CodeRateLimited id))) 429).
Proof.
  intros Hp Hw Hn Hj Ea Hr Hc Hal. rewrite (middleware_run e cfg deps r w id x0 Hn), Hw.
  unfold recovering, guarded. unfold bind at 1. cbn [modify ext rate_hits rw].
  rewrite (proj2 (String.eqb_neq _ _) Hp).
  rewrite (bind_ext _ _ _ _ _ _ _ _ Ea). cbn [negb].
  rewrite (bind_Ret _ _ _ _ _ (rate_allow_run rate now _ x1 x2 _ _ _ _ _ Hr Hc Hal (Allow_refuses _ _ _ _ _ Hal))). cbn [negb].
  by rewrite writeError_run.
Qed.
End Doors.

(** ** The life of a machine *)
Section Machines.
Context {X : Type} (e : env X) (cfg : Config X) (deps : Dependencies X).

(** (functional) A machine that was booted is destroyed, exactly once and last,
    whether its execution returns, fails or panics; the outcome is that of the
    execution, an error of the destruction is not reported. *)
Theorem run_destroys ctx req w inst x1 o x2 d x3 :
  (match d_Limiter deps with
   | Some apply => apply "pending-vm" (d_Limits deps) (d_Seccomp deps) | None => None end) = None →
  Boot (d_Runtime deps) (WithTimeout ctx (boot_budget deps)) (run_spec deps req) w = (Ret (Ok inst), x1) →
  Execute inst (WithTimeout ctx (seconds (Timeout req)))
    (mkExec (Code req) (seconds (Timeout req))) x1 = (o, x2) → o ≠ Blocked →
  Destroy inst (WithTimeout Background (5 * Second)) x2 = (Ret d, x3) →
  run deps ctx req w = (o, x3).
Proof.
  intros Hl Hb He Ho Hd. unfold run. cbn [Limits Seccomp run_spec]. rewrite Hl.
  unfold bind at 1. rewrite Hb. unfold defer. rewrite He. unfold bind. rewrite Hd. by destruct o.
Qed.

Context `{HV : !VMs (d_Runtime deps)}.

Notation calm := (respects (same_vms (d_Runtime deps))).
Notation calm_handler := (respects (on_ext_rel (same_vms (d_Runtime deps)))).

Lemma run_calm ctx req : calm (run deps ctx req).
Proof.
  intros w Hw. unfold run.
  destruct (match d_Limiter deps with Some apply => apply "pending-vm" _ _ | None => None end); [done|].
  unfold bind at 1 3.
  destruct (Boot (d_Runtime deps) _ _ w) as [[[inst|err]|v|] w1] eqn:Eb;
    [|by apply boot_err in Eb|by apply boot_panic in Eb|by apply boot_blocked in Eb].
  apply boot_ok in Eb as (Hw1 & i & Ho & Hi & Hv); [|done]. cbv beta iota.
  rewrite defer_world by by eapply execute_ends.
  pose proof (execute_vms inst i (WithTimeout ctx (seconds (Timeout req)))
    (mkExec (Code req) (seconds (Timeout req))) w1 Hw1 Ho) as [Hw2 He].
  destruct (Execute inst _ _ w1) as [o w2]. cbn [snd] in Hw2, He |- *.
  pose proof (destroy_vms inst i (WithTimeout Background (5 * Second)) w2 Hw2 Ho) as [Hw3 Hd].
  unfold bind. destruct (Destroy inst _ w2) as [[d|v|] w3]; unfold ret; cbn [snd] in Hw3, Hd |- *;
    (split; [done|]); rewrite Hd, He, Hv; clear -Hi; set_solver.
Qed.

(** The actions of the world that have nothing to do with machines. *)
Record apart : Prop := {
  apart_clock : calm (clock e);
  apart_rand : calm (rand e);
  apart_audit record ev : d_Audit deps = Some record → calm (record ev);
  apart_jwt valid tok : JWT (auth cfg) = Some valid → calm (valid tok);
  apart_ready ready : Ready (d_Runtime deps) = Some ready → calm ready;
  apart_other r : calm_handler (serve_other e r)
}.
Hypothesis Hap : apart.

Lemma recordAudit_calm ctx req id res d err : calm (recordAudit deps ctx req id res d err).
Proof.
  unfold recordAudit. destruct (d_Audit deps) eqn:E; [by apply apart_audit|auto with go].
Qed.
Hint Resolve recordAudit_calm run_calm : core.
Lemma handleExecute_calm ctx r : calm_handler (handleExecute e deps ctx r).
Proof.
  assert (∀ c q er cd ms, calm_handler (reject deps c q er cd ms)) as Hrej.
  { intros. resp_bind; auto with go. }
  assert (∀ q, calm_handler (execute_valid e deps ctx q)) as Hex.
  { intros q. unfold execute_valid. resp_bind; [apply respects_on_ext, Hap|]. intros t0.
    resp_bind; [auto with go|]. intros [res er].
    resp_bind; [apply respects_on_ext, Hap|]. intros t1.
    resp_bind; [auto with go|]. intros a.
    destruct er as [er|]; [destruct (mapExecError er) as [[]]; auto with go|].
    destruct (isSome a && d_AuditStrict deps); auto with go. }
  unfold handleExecute. repeat case_match; auto with go.
Qed.
Lemma serve_calm ctx r : calm_handler (serve e deps ctx r).
Proof.
  unfold serve. case_match; [|case_match; [apply handleExecute_calm|apply apart_other, Hap]].
  unfold handleHealth. case_match; [auto with go|]. resp_bind; [|auto with go].
  destruct (Ready (d_Runtime deps)) eqn:E; [|auto with go].
  resp_bind; [by apply respects_on_ext, (apart_ready Hap)|auto with go].
Qed.
Lemma authorize_calm r : calm (authorize (auth cfg) r).
Proof.
  unfold authorize. resp_bind.
  - destruct (JWT (auth cfg)) eqn:E; [|auto with go].
    case_match; [by apply (apart_jwt Hap)|auto with go].
  - intros j. repeat case_match; auto with go.
Qed.
Lemma rate_allow_calm k : calm_handler (rate_allow e cfg k).
Proof.
  unfold rate_allow. destruct (Rate cfg); [|auto with go]. case_match; [auto with go|].
  resp_bind; [apply respects_on_ext, Hap|]. intros t w. by destruct (Allow _ _ _ _).
Qed.

Lemma middleware_calm r : calm_handler (middleware e cfg deps r).
Proof.
  unfold middleware. resp_bind.
  { case_match; [|auto with go]. apply respects_on_ext; resp_bind; [apply Hap|auto with go]. }
  intros id. repeat (resp_bind; [auto with go|intros _]).
  apply respects_recovering; [by_order|auto with go|]. unfold guarded.
  resp_bind; [by intros w'|]. intros _. case_match; [apply serve_calm|].
  resp_bind; [apply respects_on_ext, authorize_calm|]. intros [[m cn] ok].
  destruct ok; cbn [negb]; [|resp_bind; auto with go].
  resp_bind; [apply rate_allow_calm|]. intros [|]; cbn [negb]; [apply serve_calm|auto with go].
Qed.

(** (invariant) No machine outlives the request it was booted for: with a
    runtime that keeps its promise, the machines that exist after a request
    was served are those that existed before, whatever the request, and
    whatever failed or panicked on the way. *)
Theorem no_machine_leaks r w :
  vm_inv (ext w) →
  vm_inv (ext (middleware e cfg deps r w).2) ∧ vms (ext (middleware e cfg deps r w).2) = vms (ext w).
Proof. apply middleware_calm. Qed.
End Machines.

(** ** Only valid work is booted *)

(** A specification that every backend can rely on. *)
Definition good_spec (spec : Spec) : Prop :=
  Supported (Language spec) = true ∧ valid_session (spec_SessionID spec) ∧
  constrains (Limits spec) ∧ fail_closed (Seccomp spec) ∧ closed_policy (Network spec).

Definition with_runtime {X} (deps : Dependencies X) (rt : Runtime.Runtime X) : Dependencies X :=
  mkDeps rt (d_Limiter deps) (d_Limits deps) (d_Seccomp deps) (d_Network deps) (d_Audit deps)
    (d_AuditStrict deps) (d_BootTimeout deps) (d_QueueWait deps).

Section ValidWork.
Context {X : Type} (e : env X) (cfg : Config X) (deps : Dependencies X) (rt : Runtime.Runtime X).
Hypothesis Hlimiter : d_Limiter deps = Some ProfileLimiter_Apply.
Hypothesis Hfilter : NewStaticFilter (policy (d_Network deps)) = Ok (d_Network deps).
Hypothesis Hname : Name rt = Name (d_Runtime deps).
Hypothesis Hready : Ready rt = Ready (d_Runtime deps).
Hypothesis Hboot : ∀ c spec w, good_spec spec → Boot rt c spec w = Boot (d_Runtime deps) c spec w.

Lemma run_same ctx req0 req w :
  validateExecute req0 = (req, None) → run (with_runtime deps rt) ctx req w = run deps ctx req w.
Proof.
  intros Hv. apply validateExecute_accepts in Hv as [-> Hwf].
  set (req := normalised req0) in *. clearbody req. unfold run. cbn [d_Limiter with_runtime].
  change (run_spec (with_runtime deps rt) req) with (run_spec deps req). rewrite Hlimiter.
  destruct (ProfileLimiter_Apply _ _ _) eqn:El; [done|].
  apply ProfileLimiter_Apply_spec in El as [Hc Hf].
  apply bind_cong; [|done]. cbn [d_Runtime with_runtime].
  change (boot_budget (with_runtime deps rt)) with (boot_budget deps). apply Hboot.
  destruct Hwf as [_ _ _ Hr _ _ Hs]. split_and!; try done.
  - unfold Supported. cbn. by destruct Hr as [-> | ->].
  - apply Policy_Validate_spec. cbn. revert Hfilter. unfold NewStaticFilter, StaticFilter_Policy.
    destruct (d_Network deps) as [[dp al]]. cbn [policy DefaultPolicy Allowlist].
    by destruct (Policy_Validate (mkPolicy dp al)).
Qed.
Lemma execute_valid_same ctx req0 req w :
  validateExecute req0 = (req, None) →
  execute_valid e (with_runtime deps rt) ctx req w = execute_valid e deps ctx req w.
Proof.
  intros Hv. unfold execute_valid. apply bind_cong; [done|]. intros t0 w1.
  apply bind_cong; [unfold on_ext; by rewrite (run_same _ req0)|]. intros [res er] w2.
  apply bind_cong; [done|]. intros t1 w3. apply bind_cong; [done|]. intros a w4.
  cbn [d_Runtime with_runtime]. by rewrite Hname.
Qed.
Lemma serve_same ctx r w : serve e (with_runtime deps rt) ctx r w = serve e deps ctx r w.
Proof.
  unfold serve. case_match; [|case_match; [|done]].
  - unfold handleHealth. cbn [d_Runtime with_runtime]. by rewrite Hname, Hready.
  - unfold handleExecute. case_match; [done|]. destruct (decode_request _ _) as [[req er] rest].
    destruct er; [by case_match|]. destruct (decode_end _ _); [|done]. case_match; [|done].
    destruct (validateExecute req) as [req' [err|]] eqn:Ev; [done|]. by apply (execute_valid_same _ req).
Qed.

(** C1 (safety): the server boots nothing but valid work: replacing the runtime by
    any other that agrees with it on specifications with a supported language,
    a valid session id, constraining limits, a fail-closed seccomp profile and
    a deny-by-default policy makes no difference to any request. *)
Theorem only_valid_work_is_booted r w :
  middleware e cfg (with_runtime deps rt) r w = middleware e cfg deps r w.
Proof.
  unfold middleware. apply bind_cong; [done|]. intros id w1. do 2 (apply bind_cong; [done|]; intros [] ?).
  unfold recovering. assert (∀ w, guarded e cfg (with_runtime deps rt) id r w = guarded e cfg deps id r w)
    as Hg; [|by rewrite Hg].
  intros w2. unfold guarded. apply bind_cong; [done|]. intros [] w3.
  case_match; [apply serve_same|]. apply bind_cong; [done|]. intros [[m cn] ok] w4.
  case_match; [done|]. apply bind_cong; [done|]. intros b w5. case_match; [done|]. apply serve_same.
Qed.
End ValidWork.

(** ** The trail *)

(** Answers that are refusals before anything was attempted: they leave no event. *)
Definition unaudited_codes : list string := [CodeRateLimited; CodeMethodNotAllow; CodeBodyTooLarge].
Definition audited (b : body) : bool :=
  match b with
  | BExecute _ => true
  | BError eb => negb (existsb (String.eqb (eb_Code eb)) unaudited_codes)
  | BHealth _ | BText _ => false
  end.
(** The event tells what the client was told. *)
Definition agrees (b : body) (ev : Event) : Prop :=
  match b with
  | BExecute p =>
    ev_RequestID ev = resp_RequestID p ∧ ev_SessionID ev = resp_SessionID p ∧
    ev_Runtime ev = resp_Runtime p ∧ ev_VMID ev = resp_VMID p ∧
    ev_ExitCode ev = resp_ExitCode p ∧ ev_TimedOut ev = resp_TimedOut p ∧
    DurationMS ev = resp_DurationMS p ∧ ev_Error ev = ""
  | BError eb => ev_RequestID ev = eb_RequestID eb
  | BHealth _ | BText _ => False
  end.

Section Trail.
Context {X : Type} (e : env X) (cfg : Config X) (deps : Dependencies X).
Context (trail : X → list Event) (record : Logger X).
Hypothesis Haudit : d_Audit deps = Some record.
Hypothesis Hrecord : ∀ ev x, ∃ a x', record ev x = (Ret a, x') ∧ trail x' = trail x ++ [ev].
Hypothesis Hclock : keeps trail (clock e).
Hypothesis Hjwt : ∀ r, keeps trail (jwt_verdict (auth cfg) r).
Hypothesis Hrun : ∀ ctx req, keeps trail (run deps ctx req).

(** One answer with status [status] and body [b], with its event if it has one. *)
Definition answers_once (id : string) (w w' : world X) : Prop :=
  ∃ status b, rw w' = answered (rw w) status b ∧ (status = 200 ↔ ∃ p, b = BExecute p) ∧
    if audited b then ∃ ev, trail (ext w') = trail (ext w) ++ [ev] ∧ agrees b ev ∧ ev_RequestID ev = id
    else trail (ext w') = trail (ext w).

Lemma recordAudit_trail ctx req id res d er x a x' :
  recordAudit deps ctx req id res d er x = (Ret a, x') →
  trail x' = trail x ++ [audit_event ctx req id res d er].
Proof.
  unfold recordAudit. rewrite Haudit. intros H.
  destruct (Hrecord (audit_event ctx req id res d er) x) as (a' & x1 & E & Ht).
  rewrite H in E. injection E as <- <-. done.
Qed.
Lemma audit_event_id ctx req id res d er : ev_RequestID (audit_event ctx req id res d er) = id.
Proof. done. Qed.
Lemma keeps_Ret {A} (m : M X A) x a x' : keeps trail m → m x = (Ret a, x') → trail x' = trail x.
Proof. intros Hk Hm. specialize (Hk x). by rewrite Hm in Hk. Qed.

(** An error answer, with or without an event before it. *)
Lemma error_once id status code msg w w1 w' :
  writeError true id status code msg w1 = (Ret tt, w') → rw w1 = rw w → status ≠ 200 →
  (if audited (BError (mkErrorBody msg code id))
   then ∃ ev, trail (ext w1) = trail (ext w) ++ [ev] ∧ ev_RequestID ev = id
   else trail (ext w1) = trail (ext w)) →
  answers_once id w w'.
Proof.
  rewrite writeError_run. intros [= <-] Hrw Hs Ht. exists status, (BError (mkErrorBody msg code id)).
  rewrite Hrw. split; [done|]. split; [split; [done|by intros [p ?]]|].
  destruct (audited _); [|done]. destruct Ht as (ev & ? & ?). by exists ev.
Qed.
Lemma reject_once ctx req er code msg w w' :
  audited (BError (mkErrorBody msg code (ctxRequestID ctx))) = true →
  reject deps ctx req er code msg w = (Ret tt, w') → answers_once (ctxRequestID ctx) w w'.
Proof.
  intros Ha (a & w1 & (x & Hr & ->)%on_ext_Ret & Hw)%bind_inv_Ret.
  eapply error_once; [exact Hw|done|done|]. rewrite Ha. eexists. split; [|apply audit_event_id].
  by eapply recordAudit_trail.
Qed.

Lemma mapExecError_audited err status code msg id :
  mapExecError err = (status, code, msg) →
  status ≠ 200 ∧ audited (BError (mkErrorBody msg code id)) = true.
Proof. unfold mapExecError. repeat case_match; intros [= <- <- <-]; done. Qed.

Lemma execute_valid_once ctx req w w' :
  execute_valid e deps ctx req w = (Ret tt, w') → answers_once (ctxRequestID ctx) w w'.
Proof.
  intros (t0 & w1 & (x1 & H1 & ->)%on_ext_Ret & H)%bind_inv_Ret.
  apply bind_inv_Ret in H as ([res er] & w2 & (x2 & H2 & ->)%on_ext_Ret & H).
  apply bind_inv_Ret in H as (t1 & w3 & (x3 & H3 & ->)%on_ext_Ret & H).
  apply bind_inv_Ret in H as (a & w4 & (x4 & H4 & ->)%on_ext_Ret & H).
  cbn [ext rate_hits rw sw_status] in *.
  apply recordAudit_trail in H4. apply keeps_Ret in H1, H2, H3; [|done..].
  rewrite H3, H2, H1 in H4.
  destruct er as [er|].
  - destruct (mapExecError er) as [[status code] msg] eqn:Em.
    destruct (mapExecError_audited _ _ _ _ (ctxRequestID ctx) Em) as [Hs Ha].
    eapply error_once; [exact H|done|done|]. rewrite Ha. eexists. split; [exact H4|apply audit_event_id].
  - destruct (isSome a && d_AuditStrict deps).
    + eapply error_once; [exact H|done|done|]. cbn. eexists. split; [exact H4|apply audit_event_id].
    + rewrite writeJSON_run in H. injection H as <-. eexists 200, (BExecute _).
      split; [reflexivity|]. split; [split; [by eexists|done]|]. cbn [audited ext].
      eexists. split; [exact H4|]. by split_and!.
Qed.

Lemma handleExecute_once ctx r w w' :
  handleExecute e deps ctx r w = (Ret tt, w') → answers_once (ctxRequestID ctx) w w'.
Proof.
  unfold handleExecute. case_match; [intros H'; by eapply error_once|].
  destruct (decode_request _ _) as [[req er] rest].
  destruct er; [case_match; [intros H'; by eapply error_once|by apply reject_once]|].
  destruct (decode_end _ _); [|by apply reject_once]. case_match; [|by apply reject_once].
  destruct (validateExecute req) as [req' [err|]]; [by apply reject_once|apply execute_valid_once].
Qed.

Lemma authorize_trail r x a x' : authorize (auth cfg) r x = (Ret a, x') → trail x' = trail x.
Proof.
  unfold authorize. intros (j & x1 & Hj & Ha)%bind_inv_Ret.
  apply (keeps_Ret (jwt_verdict (auth cfg) r)) in Hj; [|done]. rewrite <- Hj.
  repeat case_match; by injection Ha as _ <-.
Qed.
Lemma rate_allow_trail k w b w' :
  rate_allow e cfg k w = (Ret b, w') → trail (ext w') = trail (ext w) ∧ rw w' = rw w.
Proof.
  unfold rate_allow. destruct (Rate cfg) as [rate|]; [|by intros [= <- <-]].
  case_match; [by intros [= <- <-]|].
  intros (now & w1 & (x & Hc & ->)%on_ext_Ret & Ha)%bind_inv_Ret. cbn [ext rate_hits rw] in Ha.
  destruct (Allow _ _ _ _). injection Ha as <- <-. split; [|done].
  by eapply (keeps_Ret (clock e)).
Qed.

(** C8 (invariant): a request to /execute that is answered without a panic gets one
    answer and leaves exactly one audit event, with the request's id, unless it
    was refused before anything was attempted (405, 413, 429), which leaves
    none.  The answer is 200 exactly when it carries a result, and then the event
    says the same as the response. *)
Theorem execute_audited_once id r w w' :
  Path (http r) = "/execute" → guarded e cfg deps id r w = (Ret tt, w') → answers_once id w w'.
Proof.
  intros Hp ([] & w1 & [= <-] & H)%bind_inv_Ret. rewrite Hp in H. cbn [String.eqb Ascii.eqb Bool.eqb] in H.
  apply bind_inv_Ret in H as ([[m cn] ok] & w2 & (x & Ha & ->)%on_ext_Ret & H).
  apply authorize_trail in Ha. cbn [ext rate_hits rw sw_status] in *.
  destruct ok; cbn [negb] in H.
  - apply bind_inv_Ret in H as (b & w3 & (Ht & Hw)%rate_allow_trail & H). cbn [ext rw] in *.
    assert (trail (ext w3) = trail (ext w)) as Ht' by congruence.
    destruct b; cbn [negb] in H; [|by eapply error_once].
    unfold serve in H. rewrite Hp in H. cbn [String.eqb Ascii.eqb Bool.eqb] in H.
    apply handleExecute_once in H. unfold answers_once in H. by rewrite Ht', Hw in H.
  - apply bind_inv_Ret in H as (a & w3 & (x3 & Hr & ->)%on_ext_Ret & H). cbn [ext rw] in *.
    eapply error_once; [exact H|done|done|]. cbn. eexists. split; [|apply audit_event_id].
    rewrite <- Ha. by eapply recordAudit_trail.
Qed.

(** (error) A panic of the runtime escapes the trail: the handler panics on,
    nothing has been answered yet, and no event says that the code was run. *)
Theorem panic_leaves_no_event ctx req w t0 x1 v x2 :
  clock e (ext w) = (Ret t0, x1) → run deps RequestContext req x1 = (Panic v, x2) →
  execute_valid e deps ctx req w = (Panic v, mkWorld x2 (rate_hits w) (rw w) (sw_status w)) ∧
  trail x2 = trail (ext w).
Proof.
  intros Hc Hr. split.
  - unfold execute_valid. destruct w as [x h rp st]. cbn [ext] in Hc.
    rewrite (bind_ext _ _ _ _ _ _ _ _ Hc). apply bind_Panic. unfold on_ext. cbn [ext]. by rewrite Hr.
  - pose proof (Hclock (ext w)) as H1. rewrite Hc in H1. cbn in H1. rewrite <- H1.
    pose proof (Hrun RequestContext req x1) as H2. by rewrite Hr in H2.
Qed.
End Trail.

(** ** Instances

    A server whose decoder takes the whole body for Python code, on the stub
    backend, and one on a backend whose world is the audit trail. *)
Definition sample_env (X : Type) : env X :=
  mkEnv (ret 0) (ret (Some (repeat 0 16))) (λ rd, (mkRequest (data rd) "python" 5 "s1", None, rd))
    (λ _, Some (Sentinel EOF)) (λ _, writeJSON true 404 (BText "404 page not found")).
Definition sample_config (X : Type) (key : string) : Config X :=
  mkConfig "127.0.0.1:8080" (mkAuth key None false false false) (Some (mkWindow 1 minute)) 0 0 0 0.
Definition sample_seccomp : SeccompProfile := mkSeccomp "SCMP_ACT_ERRNO" [] [mkSyscall "SCMP_ACT_ALLOW" ["read"]].
Definition sample_deps {X} (rt : Runtime.Runtime X) (audit : option (Logger X)) : Dependencies X :=
  mkDeps rt (Some ProfileLimiter_Apply) DefaultProfile sample_seccomp (mkFilter Default) audit true
    (20 * Second) (15 * Second).
Definition sample_post (key code : string) : request :=
  mkReq (mkHTTP "POST" "/execute" {["X-Api-Key" := key]} "10.0.0.9:4000" None) code.
Definition stub_rt : Runtime.Runtime stub_world := NewStub (λ _, None).
Definition fresh {X} (x : X) : world X := mkWorld x ∅ resp_init 0.
Definition stub0 : stub_world := mkStub 0 [].
Definition zero_id : string := "00000000000000000000000000000000".

(** A runtime that returns [res], or panics while executing. *)
Definition fake_rt (boom : bool) : Runtime.Runtime (list Event) :=
  mkRuntime (λ _ _, ret (Ok (mkInstance "vm-1"
    (λ _ _, if boom then panic "boom" else ret (mkResult "hi" "" 3 "vm-1" false, None))
    (λ _, ret None)))) "fake" None.

(** The whole way on the stub: 200, one VM made and destroyed. *)
Example stub_end_to_end :
  let w' := (middleware (sample_env _) (sample_config _ "k") (sample_deps stub_rt None)
               (sample_post "k" "print(1)") (fresh stub0)).2 in
  status_of (rw w') = 200 ∧ ext w' = mkStub 1 [true] ∧
  content (rw w') = [BExecute (mkResponse (
    "[warden-stub] vm=stub-1 language=python session=s1 bytes=8 timeout=5s" +:+ newline +:+
    "[warden-stub] guest code was NOT executed; Firecracker is not wired yet" +:+ newline)
    "" 0 "stub-1" "python" zero_id "s1" 0 false "stub")].
Proof. vm_compute. split_and!; reflexivity. Qed.

Lemma middleware_contains_panics_witness :
  ∃ w', middleware (sample_env _) (sample_config _ "k") (sample_deps (fake_rt true) None)
          (sample_post "k" "x") (fresh []) = (Ret tt, w') ∧ status_of (rw w') = 500.
Proof.
  destruct (middleware_contains_panics (sample_env _) (sample_config _ "k")
    (sample_deps (fake_rt true) None) (sample_post "k" "x") (fresh []) zero_id [] eq_refl)
    as (w' & E & H); [vm_compute; discriminate|].
  exists w'. split; [exact E|]. eapply H; [vm_compute; reflexivity|reflexivity].
Defined.
Lemma unauthorized_touches_nothing_witness :
  middleware (sample_env _) (sample_config _ "k") (sample_deps stub_rt None) (sample_post "no" "x")
    (fresh stub0) =
  (Ret tt, mkWorld stub0 ∅
    (reply zero_id 401 (BError (mkErrorBody "unauthorized" CodeUnauthorized zero_id))) 401).
Proof.
  apply (unauthorized_touches_nothing (sample_env _) (sample_config _ "k") (sample_deps stub_rt None)
    (sample_post "no" "x") (fresh stub0) zero_id stub0 false stub0 None stub0); try reflexivity.
  - discriminate.
  - intros [[_ H]|[H|[_ [H|H]]]]; [|discriminate..]. revert H. vm_compute. discriminate.
Defined.
Lemma rate_limited_touches_nothing_witness :
  let full := {["tok:" +:+ EncodeToString (take 8 (Sum256 "k")) := mkCounter minute 1]} in
  middleware (sample_env _) (sample_config _ "k") (sample_deps stub_rt None) (sample_post "k" "x")
    (mkWorld stub0 full resp_init 0) =
  (Ret tt, mkWorld stub0 full
    (reply zero_id 429 (BError (mkErrorBody "rate limit exceeded" CodeRateLimited zero_id))) 429).
Proof.
  apply (rate_limited_touches_nothing (sample_env _) (sample_config _ "k") (sample_deps stub_rt None)
    (sample_post "k" "x") _ zero_id stub0 false stub0 (mkWindow 1 minute) 0 stub0 "api_key");
    try reflexivity; try discriminate; vm_compute; reflexivity.
Defined.
Definition stub_1 : Spec → Instance stub_world := λ spec,
  mkInstance "stub-1" (stub_Execute (λ _, None) "stub-1" spec 0) (stub_Destroy "stub-1" 0).
Lemma run_destroys_witness :
  let deps := sample_deps stub_rt None in
  let req := mkRequest "x" "node" 5 "" in
  ∃ o, run deps RequestContext req stub0 = (o, mkStub 1 [true]).
Proof.
  intros deps req.
  set (o := (stub_Execute (λ _, None) "stub-1" (run_spec deps req) 0
    (WithTimeout RequestContext (seconds 5)) (mkExec "x" (seconds 5)) (mkStub 1 [false])).1).
  exists o.
  apply (run_destroys deps RequestContext req stub0 (stub_1 (run_spec deps req)) (mkStub 1 [false]) o
    (mkStub 1 [false]) None (mkStub 1 [true])); try reflexivity. vm_compute. discriminate.
Defined.
Lemma no_machine_leaks_witness :
  alive (ext (middleware (sample_env _) (sample_config _ "k") (sample_deps stub_rt None)
                (sample_post "k" "x") (fresh stub0)).2) = ∅.
Proof.
  apply (no_machine_leaks (sample_env _) (sample_config _ "k") (sample_deps stub_rt None)
    (HV := stub_VMs (λ _, None)) ltac:(split; try discriminate;
      [intros w _; done..|intros ready [= <-] w _; done|intros r w _; done])
    (sample_post "k" "x") (fresh stub0) I).
Defined.
(** A runtime that crashes on languages no one may ask for. *)
Definition picky (rt : Runtime.Runtime stub_world) : Runtime.Runtime stub_world :=
  mkRuntime (λ c spec, if Supported (Language spec) then Boot rt c spec else panic "language")
    (Name rt) (Ready rt).
Lemma only_valid_work_is_booted_witness :
  middleware (sample_env _) (sample_config _ "k") (sample_deps (picky stub_rt) None)
    (sample_post "k" "x") (fresh stub0) =
  middleware (sample_env _) (sample_config _ "k") (sample_deps stub_rt None)
    (sample_post "k" "x") (fresh stub0).
Proof.
  apply (only_valid_work_is_booted (sample_env _) (sample_config _ "k") (sample_deps stub_rt None)
    (picky stub_rt)); try reflexivity.
  intros c spec w (Hs & _). cbn. rewrite Hs. reflexivity.
Defined.
Definition trail_log : Logger (list Event) := λ ev x, (Ret None, x ++ [ev]).
Lemma execute_audited_once_witness :
  ∃ w', guarded (sample_env _) (sample_config _ "k") (sample_deps (fake_rt false) (Some trail_log))
          "r1" (sample_post "k" "x") (fresh []) = (Ret tt, w') ∧
        answers_once (λ x, x) "r1" (fresh []) w' ∧ length (ext w') = 1%nat.
Proof.
  eexists. split; [vm_compute; reflexivity|]. split; [|reflexivity].
  apply (execute_audited_once (sample_env _) (sample_config _ "k")
    (sample_deps (fake_rt false) (Some trail_log)) (λ x, x) trail_log eq_refl
    (λ ev x, ex_intro _ None (ex_intro _ (x ++ [ev]) (conj eq_refl eq_refl)))
    (λ _, eq_refl) (λ _ _, eq_refl) (λ _ _ _, eq_refl) "r1" (sample_post "k" "x")); [reflexivity|].
  vm_compute. reflexivity.
Defined.
Lemma panic_leaves_no_event_witness :
  execute_valid (sample_env _) (sample_deps (fake_rt true) (Some trail_log)) (mkCtx "r1" "none" "")
    (mkRequest "x" "node" 5 "") (fresh []) = (Panic "boom", fresh []).
Proof.
  apply (panic_leaves_no_event (sample_env (list Event)) (sample_deps (fake_rt true) (Some trail_log))
    (λ x, x) (λ w, eq_refl) (λ _ _ _, eq_refl) (mkCtx "r1" "none" "") (mkRequest "x" "node" 5 "")
    (fresh []) 0 [] "boom" []); reflexivity.
Defined.
