(* ===== verification/Lifecycle.v ===== *)
(** * Serving and stopping (internal/api/server.go, cmd/warden/main.go)

    The HTTP server that [NewServer] makes, and how the process serves until a
    signal and then stops: the goroutine of [ListenAndServe], the requests that
    were taken, and the main goroutine, as atomic steps.  A request is served in
    one step, by the handler of the server ([Server.middleware]), which may wait
    for ever; how the calls of several handlers interleave is in [Gate], [Pool]
    and [Reaper].  net/http does what its
    documentation says: [Shutdown] closes the listener, waits until no request is
    in flight, and gives up when its context ends. *)
From S2P Require Import Prelude GoUnicode GoStrings GoError GoTime RateLimit Validate Auth Tls Runtime Server ServerSpec.

(** ** The server *)
Record http_server (X C : Type) := mkHTTPServer {
  hs_Addr : string; hs_Handler : request → M (world X) unit; hs_TLS : option (tls_config C);
  hs_ReadHeaderTimeout : Z; hs_ReadTimeout : Z; hs_WriteTimeout : Z; hs_IdleTimeout : Z
}.
Arguments mkHTTPServer {X C}. Arguments hs_Addr {X C}. Arguments hs_Handler {X C}. Arguments hs_TLS {X C}.
Arguments hs_ReadHeaderTimeout {X C}. Arguments hs_ReadTimeout {X C}. Arguments hs_WriteTimeout {X C}.
Arguments hs_IdleTimeout {X C}.
Definition NewServer {X C} (e : env X) (cfg : Config X) (deps : Dependencies X) (tls : option (tls_config C)) :
    http_server X C :=
  mkHTTPServer (Addr cfg) (middleware e cfg deps) tls (5 * Second) (ReadTimeout cfg) (WriteTimeout cfg)
    (IdleTimeout cfg).

Section Listening.
Context {W X C L : Type} (net_Listen : string → M W (result L)) (NewListener : tls_config C → L → L).
Context (Serve : http_server X C → L → M W error).
(** [http.Server.ListenAndServe], which serves in the clear. *)
Definition http_ListenAndServe (s : http_server X C) : M W error :=
  let! ln := net_Listen (if String.eqb (hs_Addr s) "" then ":http" else hs_Addr s) in
  match ln with Err err => ret err | Ok ln => Serve s ln end.
Definition ListenAndServe (s : http_server X C) : M W error :=
  match hs_TLS s with
  | Some tls =>
    let! ln := net_Listen (hs_Addr s) in
    match ln with Err err => ret err | Ok ln => Serve s (NewListener tls ln) end
  | None => http_ListenAndServe s
  end.
End Listening.

(** ** The life of the process *)

(** A request that was taken: not begun, answered ([Ret], or [Panic] when
    net/http has to recover), or its handler waits for ever. *)
Inductive req_state := Taken (r : request) | Answered (o : outcome unit) (rp : response) | Waiting.
Definition is_answered (q : req_state) : bool := match q with Answered _ _ => true | _ => false end.
Inductive main_phase := Selecting | Draining | Exited (err : option error).
Section Life.
Context {X : Type}.
Record life := mkLife {
  accepting : bool; requests : gmap nat req_state;
  backend : X; hits : counters;            (* what the handlers share *)
  served : option error;                   (* what ListenAndServe has returned *)
  errCh : option (option error);           (* its report: an error, or just closed *)
  signalled : bool; main : main_phase
}.
Definition started_life (x : X) : life := mkLife true ∅ x ∅ None None false Selecting.

Inductive event :=
| Arrives (n : nat) (r : request) | Handles (n : nat)
| ServeFails (err : error)                 (* ListenAndServe returns by itself *)
| Reports                                  (* its goroutine: errCh <- err; close(errCh) *)
| Signal
| TakeErr | TakeSignal | Drained | DrainTimeout.

Definition set_requests q s :=
  mkLife (accepting s) q (backend s) (hits s) (served s) (errCh s) (signalled s) (main s).
Definition set_main m s :=
  mkLife (accepting s) (requests s) (backend s) (hits s) (served s) (errCh s) (signalled s) m.
Definition running (s : life) : bool := match main s with Exited _ => false | _ => true end.

Context (srv_Handler : request → M (world X) unit).
(** The handler of one request, on what the handlers share. *)
Definition handle (n : nat) (r : request) (s : life) : life :=
  let '(o, w) := srv_Handler r (mkWorld (backend s) (hits s) resp_init 0) in
  mkLife (accepting s) (<[n := match o with Blocked => Waiting | _ => Answered o (rw w) end]> (requests s))
    (ext w) (rate_hits w) (served s) (errCh s) (signalled s) (main s).

(** A step of the process; when main has returned there is none. *)
Definition live_step (ev : event) (s : life) : option life :=
  match ev with
  | Arrives n r =>
    if accepting s then
      match requests s !! n with None => Some (set_requests (<[n := Taken r]> (requests s)) s) | Some _ => None end
    else None
  | Handles n => match requests s !! n with Some (Taken r) => Some (handle n r s) | _ => None end
  | ServeFails err =>
    match served s with
    | None => if Is err ErrServerClosed then None
              else Some (mkLife false (requests s) (backend s) (hits s) (Some err) (errCh s) (signalled s) (main s))
    | Some _ => None
    end
  | Reports =>
    match served s, errCh s with
    | Some err, None =>
      Some (mkLife (accepting s) (requests s) (backend s) (hits s) (served s)
              (Some (if Is err ErrServerClosed then None else Some err)) (signalled s) (main s))
    | _, _ => None
    end
  | Signal =>
    Some (mkLife (accepting s) (requests s) (backend s) (hits s) (served s) (errCh s) true (main s))
  | TakeErr =>
    match main s, errCh s with Selecting, Some err => Some (set_main (Exited err) s) | _, _ => None end
  | TakeSignal =>
    match main s with
    | Selecting =>
      if signalled s then
        (* srv.Shutdown *)
        Some (mkLife false (requests s) (backend s) (hits s)
                (match served s with None => Some (Sentinel ErrServerClosed) | e => e end)
                (errCh s) true Draining)
      else None
    | _ => None
    end
  | Drained =>
    match main s with
    | Draining =>
      if decide (map_Forall (λ _ q, is_answered q = true) (requests s)) then Some (set_main (Exited None) s) else None
    | _ => None
    end
  | DrainTimeout =>
    match main s with Draining => Some (set_main (Exited (Some (Sentinel DeadlineExceeded))) s) | _ => None end
  end.
Definition step (ev : event) (s : life) : option life := if running s then live_step ev s else None.
#[local] Notation execute := (steps step).
#[local] Notation reachable x := (reached step (eq (started_life x))).

(** [main]: 0, or 1 with the error on stderr. *)
Definition exit_code (s : life) : option Z :=
  match main s with Exited None => Some 0 | Exited (Some _) => Some 1 | _ => None end.

(** ** What holds of every state *)
Record life_inv (s : life) : Prop := {
  li_accepting : accepting s = true → main s = Selecting ∧ served s = None;
  li_selecting : main s = Selecting → ∀ err, served s = Some err → Is err ErrServerClosed = false;
  li_report : main s = Selecting → errCh s ≠ Some None;
  li_errCh : errCh s ≠ None → served s ≠ None;
  li_exit : main s = Exited None → map_Forall (λ _ q, is_answered q = true) (requests s) ∧ signalled s = true;
  li_draining : main s = Draining → signalled s = true
}.
(** Requests come and are handled before main has returned. *)
Lemma requests_inv q x h s : life_inv s → running s = true →
  life_inv (mkLife (accepting s) q x h (served s) (errCh s) (signalled s) (main s)).
Proof.
  intros [] Hr. split; try done. cbn. unfold running in Hr. by intros Hm; rewrite Hm in Hr.
Qed.
Lemma handle_inv n r s : life_inv s → running s = true → life_inv (handle n r s).
Proof. intros Hi Hr. unfold handle. destruct (srv_Handler r _) as [o w]. by apply requests_inv. Qed.
Lemma step_life_inv : preserved step life_inv.
Proof.
  intros ev s s' Hi. unfold step. destruct (running s) eqn:Er; [|done].
  assert (∀ e, main s ≠ Exited e) as Hne by (unfold running in Er; intros e He; by rewrite He in Er).
  pose proof (requests_inv (requests s) (backend s) (hits s) s Hi Er) as Hi'.
  unfold live_step. destruct ev; intros Hs; repeat case_match; simplify_eq;
    try (by apply requests_inv); try (by apply handle_inv);
    destruct Hi' as [Hacc Hsel Hrep Herr Hex Hdr]; cbn in Hacc, Hsel, Hrep, Herr, Hex, Hdr;
    try match goal with Hx : served s = Some _ |- _ => rewrite Hx in * end.
  - (* ServeFails *) split; cbn; [done|by intros _ err' [= <-]|done|done|by intros ?%Hne|done].
  - (* Reports, closed *) split; cbn; [done|done| |congruence|by intros ?%Hne|done].
    intros Hm. pose proof (Hsel Hm _ eq_refl). congruence.
  - (* Reports, an error *) split; cbn; [done|done|done|congruence|by intros ?%Hne|done].
  - (* Signal *) split; cbn; [done..|by intros ?%Hne|done].
  - (* TakeErr *) split; cbn; [|done|done|intros _; by apply Herr| |done].
    + intros [_ Ha]%Hacc. destruct Herr; [congruence|done].
    + intros [= ->]. destruct Hrep; congruence.
  - (* TakeSignal *) split; cbn; done.
  - split; cbn; done.
  - (* Drained *) split; cbn; try done; [intros [Hm _]%Hacc; congruence|]. intros _. split; [done|by apply Hdr].
  - (* DrainTimeout *) split; cbn; try done. intros [Hm _]%Hacc. congruence.
Qed.
Lemma life_inv_of_reached x s : reachable x s → life_inv s.
Proof. apply reached_preserved; [apply step_life_inv|]. intros _ <-. by split. Qed.

(** What every handler keeps of the backend, the process keeps. *)
Lemma backend_kept (R : X → X → Prop) `{!PreOrder R} x s :
  (∀ r, respects (on_ext_rel R) (srv_Handler r)) → reachable x s → R x (backend s).
Proof.
  intros HR. induction 1 as [s <-|ev s s' _ IH Hs]; [done|]. etrans; [exact IH|].
  unfold step, live_step in Hs. destruct (running s); [|done].
  destruct ev as [n r|n| | | | | | |]; repeat case_match; simplify_eq; try done.
  unfold handle. match goal with |- context [srv_Handler ?r ?w] => specialize (HR r w) end.
  unfold on_ext_rel in HR. by destruct (srv_Handler _ _).
Qed.

(** (liveness) A process that is stopping, and none of whose handlers waits for
    ever, can always finish what it has taken and exit with 0: one step for each
    request that was not begun, and one more. *)
Definition pending (s : life) : gmap nat req_state := filter (λ kv, is_answered kv.2 = false) (requests s).
Theorem drain_completes s :
  main s = Draining → (∀ r w, (srv_Handler r w).1 ≠ Blocked) →
  (∀ n, requests s !! n ≠ Some Waiting) →
  ∃ tr s', length tr = S (size (pending s)) ∧ execute tr s = Some s' ∧ exit_code s' = Some 0.
Proof.
  intros Hm Hends. remember (size (pending s)) as m eqn:Em. revert s Em Hm.
  induction m as [|m IH]; intros s Em Hm Hw.
  - symmetry in Em. apply map_size_empty_inv in Em. exists [Drained]. eexists. split; [done|].
    cbn. unfold step, running. rewrite Hm. cbn. rewrite Hm, decide_True; [done|].
    intros n q Hq. apply not_false_is_true. intros Hf.
    apply (map_filter_empty_not_lookup _ _ n q Em Hf Hq).
  - destruct (map_choose (pending s)) as (n & q & Hq).
    { intros He. rewrite He in Em. by rewrite map_size_empty in Em. }
    pose proof Hq as Hq'. apply map_lookup_filter_Some in Hq' as [Hn Hf]. cbn in Hf.
    destruct q as [r| |]; [|done|by apply Hw in Hn].
    set (s1 := handle n r s).
    assert (step (Handles n) s = Some s1) as H1 by (unfold step, running; rewrite Hm; cbn; by rewrite Hn).
    assert (main s1 = Draining ∧ ∃ q, is_answered q = true ∧ requests s1 = <[n := q]> (requests s)) as (Hm1 & q & Hqa & Hr1).
    { unfold s1, handle. pose proof (Hends r (mkWorld (backend s) (hits s) resp_init 0)) as He.
      destruct (srv_Handler _ _) as [[u|v|] w]; [..|by destruct He];
        (split; [exact Hm|]); eexists; (split; [|reflexivity]); done. }
    destruct (IH s1) as (tr & s' & Hl & Hx & Hc); [|done| |].
    + assert (pending s1 = delete n (pending s)) as ->.
      { unfold pending. rewrite Hr1, map_filter_insert_False by (cbn; congruence). apply map_filter_delete. }
      rewrite map_size_delete_Some by (by eexists). lia.
    + intros k. rewrite Hr1. destruct (decide (n = k)) as [->|]; [|by rewrite lookup_insert_ne].
      rewrite lookup_insert_eq. by destruct q.
    + exists (Handles n :: tr), s'. split_and!; [cbn; lia| |done]. cbn. by rewrite H1.
Qed.

(** (error) What the deadline of the shutdown cuts off is abandoned: the process
    then exits with 1 at once, with every request still in flight and every
    machine still running, and nothing in it can end them any more. *)
Theorem deadline_abandons s :
  main s = Draining →
  ∃ s', step DrainTimeout s = Some s' ∧ exit_code s' = Some 1 ∧
        requests s' = requests s ∧ backend s' = backend s ∧ ∀ ev, step ev s' = None.
Proof.
  intros Hm. eexists. unfold step at 1, running. rewrite Hm. cbn. rewrite Hm.
  split; [reflexivity|]. split_and!; done.
Qed.
End Life.
Arguments life : clear implicits. Arguments event : clear implicits.

(** ** Stopping *)
Section Stopping.
Context {X C : Type} (e : env X) (cfg : Config X) (deps : Dependencies X) (tls : option (tls_config C)).
Context `{HV : !VMs (d_Runtime deps)} (Hap : apart e cfg deps).
Notation process_step := (step (hs_Handler (NewServer e cfg deps tls))).

(** C6 (safety): A process that exits with 0 was told to stop and has finished:
    every request that it took was answered by its handler, none was cut off,
    and the machines that its backend runs are those of its start, because each
    handler destroyed what it had booted; and from the moment it begins to stop
    no request is taken any more.  A handler runs as one step. *)
Theorem exit_zero_is_clean x s :
  vm_inv x → reached process_step (eq (started_life x)) s →
  (exit_code s = Some 0 →
     (∀ n q, requests s !! n = Some q → ∃ o rp, q = Answered o rp) ∧
     vms (backend s) = vms x ∧ signalled s = true) ∧
  (main s ≠ Selecting → ∀ n r, process_step (Arrives n r) s = None).
Proof.
  intros Hx Hr. pose proof Hr as [Hacc _ _ _ Hex _]%life_inv_of_reached. split.
  - unfold exit_code. destruct (main s) as [| |[err|]] eqn:Em; try done. intros _.
    destruct (Hex eq_refl) as [Hq Hs]. split_and!; [| |done].
    + intros n q Hn. specialize (Hq n q Hn). cbn in Hq. destruct q as [|o rp|]; [done|by exists o, rp|done].
    + apply (backend_kept (hs_Handler (NewServer e cfg deps tls)) (same_vms (d_Runtime deps)) x s); [|exact Hr|exact Hx].
      intros r. by apply middleware_calm.
  - intros Hm n r. unfold step. destruct (running s); [|done]. cbn.
    destruct (accepting s) eqn:Ea; [|done]. by destruct (Hacc eq_refl).
Qed.
End Stopping.

(** ** Examples *)

(** A server on the stub backend: a job, and a probe, before the signal. *)
Definition sample_server : http_server stub_world unit :=
  NewServer (ServerSpec.sample_env _) (sample_config _ "k") (sample_deps stub_rt None) None.
Definition sample_probe : request := mkReq (mkHTTP "GET" "/health" ∅ "10.0.0.9:4000" None) "".
Notation sample_step := (step (hs_Handler sample_server)).
Definition sample_schedule : list event :=
  [Arrives 0 (sample_post "k" "x"); Arrives 1 sample_probe; Handles 0; Signal; TakeSignal].
Definition sample_life : life stub_world :=
  default (started_life stub0) (steps sample_step sample_schedule (started_life stub0)).
Definition ended_life : life stub_world :=
  default (started_life stub0) (steps sample_step [Handles 1; Drained] sample_life).
Lemma ended_life_reached : reached sample_step (eq (started_life stub0)) ended_life.
Proof.
  apply (steps_reached _ _ (sample_schedule ++ [Handles 1; Drained]) (started_life stub0));
    [by apply reached_start|vm_compute; reflexivity].
Qed.
Lemma stub_apart :
  apart (ServerSpec.sample_env _) (sample_config _ "k") (sample_deps stub_rt None) (HV := stub_VMs (λ _, None)).
Proof.
  split; try discriminate; [intros w _; done..|intros ready [= <-] w _; done|intros r w _; done].
Qed.
#[local] Opaque ended_life.
Lemma exit_zero_is_clean_witness :
  exit_code ended_life = Some 0 ∧ backend ended_life = mkStub 1 [true] ∧ alive (backend ended_life) = ∅ ∧
  ∀ n q, requests ended_life !! n = Some q → ∃ o rp, q = Answered o rp.
Proof.
  assert (exit_code ended_life = Some 0) as E by (vm_compute; reflexivity).
  pose proof (exit_zero_is_clean (ServerSpec.sample_env _) (sample_config _ "k") (sample_deps stub_rt None)
    (@None (tls_config unit)) (HV := stub_VMs (λ _, None)) stub_apart stub0 ended_life I) as H.
  change (NewServer (ServerSpec.sample_env _) (sample_config _ "k") (sample_deps stub_rt None) None)
    with sample_server in H.
  destruct (H ended_life_reached) as [H' _]. clear H.
  destruct (H' E) as (Hq & Hv & _). split_and!; [exact E|vm_compute; reflexivity|exact Hv|exact Hq].
Defined.
Lemma drain_completes_witness :
  ∃ tr s', length tr = 2%nat ∧ steps (step (λ _, writeJSON true 200 (BText ""))) tr sample_life = Some s' ∧
    exit_code s' = Some 0.
Proof.
  destruct (drain_completes (λ _, writeJSON true 200 (BText "")) sample_life) as (tr & s' & Hl & H);
    [vm_compute; reflexivity|intros r w; by rewrite writeJSON_run| |].
  - intros n. assert (map_Forall (λ _ q, q ≠ Waiting) (requests sample_life)) as Hf; [|by intros ?%Hf].
    apply map_Forall_to_list. vm_compute. repeat constructor; discriminate.
  - exists tr, s'. split; [rewrite Hl; vm_compute; reflexivity|exact H].
Defined.

(** A backend whose jobs outlast every deadline. *)
Definition sleeping_rt : Runtime.Runtime nat :=
  mkRuntime (λ _ _, modify S ;;; ret (Ok (mkInstance "vm" (λ _ _, block) (λ _, modify pred ;;; ret None)))) "sleeping" None.
Definition sleeping_server : http_server nat unit :=
  NewServer (ServerSpec.sample_env _) (sample_config _ "k") (sample_deps sleeping_rt None) None.
Definition sleeping_life : life nat :=
  default (started_life 0%nat)
    (steps (step (hs_Handler sleeping_server)) [Arrives 0 (sample_post "k" "x"); Handles 0; Signal; TakeSignal]
       (started_life 0%nat)).
(** It exits with its machine still running. *)
Lemma deadline_abandons_witness :
  ∃ s', step (hs_Handler sleeping_server) DrainTimeout sleeping_life = Some s' ∧ exit_code s' = Some 1 ∧
    requests s' !! 0%nat = Some Waiting ∧ backend s' = 1%nat.
Proof.
  destruct (deadline_abandons (hs_Handler sleeping_server) sleeping_life) as (s' & Hs & He & Hr & Hb & _);
    [vm_compute; reflexivity|].
  exists s'. rewrite Hr, Hb. split; [exact Hs|]. split; [exact He|]. split; vm_compute; reflexivity.
Defined.
