(* ===== verification/GoFS.v ===== *)
(** * The file system that the code sees through package os

    A tree as a map from cleaned paths to nodes.  Any operation may fail as the
    host decides ([fault]); a write that fails may leave part of its data. *)
From S2P Require Import Prelude GoUnicode GoStrings GoError GoPath.

Inductive node := Dir | Regular (content : string).
#[export] Instance node_eq_dec : EqDecision node.
Proof. solve_decision. Defined.
Abbreviation fs := (gmap string node).

(** [filepath.Dir] of a cleaned path with more than one element. *)
Definition parent (p : string) : string :=
  match LastIndexByte p slash with
  | None => "."
  | Some O => "/"
  | Some i => take_str i p
  end.
Definition is_dir (w : fs) (p : string) : bool :=
  String.eqb p "/" || String.eqb p "." || bool_decide (w !! p = Some Dir).

(** [p] is [dir] or lies below it. *)
Definition under (dir p : string) : bool := String.eqb p dir || HasPrefix p (dir +:+ "/").

(** The directories on the way to a path, the path included. *)
Definition ancestors (p : string) : list string :=
  let '(rooted, es) := path_id p in
  (λ k, path_text (rooted, take k es)) <$> seq 1 (length es).

Definition path_error (op p : string) (e : error) : error := Wrap (op +:+ " " +:+ p +:+ ": ") e "".
Definition enoent (op p : string) : error := path_error op p (Sentinel NotExist).

Section Ops.
(** The failures of the host: for an operation on a path, an error and, for a
    write, what is in the file then. *)
Context (fault : string → string → fs → option (error * option string)).

Definition attempt {A} (op p : string) (m : M fs (result A)) : M fs (result A) := λ w,
  match fault op p w with Some (e, _) => (Ret (Err (path_error op p e)), w) | None => m w end.
Definition attempt_unit (op p : string) (m : M fs (option error)) : M fs (option error) := λ w,
  match fault op p w with Some (e, _) => (Ret (Some (path_error op p e)), w) | None => m w end.

Definition Stat (p : string) : M fs (result node) := attempt "stat" p (λ w,
  (Ret match w !! p with Some n => Ok n | None => Err (enoent "stat" p) end, w)).
Definition ReadFile (p : string) : M fs (result string) := attempt "open" p (λ w,
  (Ret match w !! p with
       | Some (Regular c) => Ok c
       | Some Dir => Err (path_error "read" p (New "is a directory"))
       | None => Err (enoent "open" p)
       end, w)).
Definition WriteFile (p data : string) : M fs (option error) := λ w,
  match fault "write" p w with
  | Some (e, None) => (Ret (Some (path_error "open" p e)), w)
  | Some (e, Some part) => (Ret (Some (path_error "write" p e)), <[p := Regular part]> w)
  | None =>
    if negb (is_dir w (parent p)) then (Ret (Some (enoent "open" p)), w)
    else match w !! p with
         | Some Dir => (Ret (Some (path_error "open" p (New "is a directory"))), w)
         | _ => (Ret None, <[p := Regular data]> w)
         end
  end.
(** Of a regular file. *)
Definition Rename (p q : string) : M fs (option error) := attempt_unit "rename" p (λ w,
  match w !! p, w !! q with
  | Some (Regular c), (None | Some (Regular _)) => (Ret None, <[q := Regular c]> (delete p w))
  | Some _, _ => (Ret (Some (path_error "rename" p (New "is a directory"))), w)
  | None, _ => (Ret (Some (enoent "rename" p)), w)
  end).
Definition MkdirAll (p : string) : M fs (option error) := attempt_unit "mkdir" p (λ w,
  if existsb (λ a, match w !! a with Some (Regular _) => true | _ => false end) (ancestors p)
  then (Ret (Some (path_error "mkdir" p (New "not a directory"))), w)
  else (Ret None, fold_left (λ w a, <[a := Dir]> w) (ancestors p) w)).
(** One that fails may have removed a part: all but what leads to, or lies below,
    the path at which it stopped. *)
Definition RemoveAll (p : string) : M fs (option error) := λ w,
  match fault "remove" p w with
  | None => (Ret None, filter (λ kv, under p kv.1 = false) w)
  | Some (e, None) => (Ret (Some (path_error "remove" p e)), w)
  | Some (e, Some stop) =>
    (Ret (Some (path_error "remove" p e)),
     filter (λ kv, under p kv.1 = false ∨ under stop kv.1 = true ∨ under kv.1 stop = true) w)
  end.
(** [os.OpenFile(p, O_CREATE|O_WRONLY)], which keeps what a file holds. *)
Definition Touch (p : string) : M fs (option error) := λ w,
  match w !! p with
  | Some (Regular c) => attempt_unit "open" p (ret None) w
  | _ => WriteFile p "" w
  end.
(** Of a file, or a directory that nothing lies under. *)
Definition Remove (p : string) : M fs (option error) := attempt_unit "remove" p (λ w,
  match w !! p with
  | None => (Ret (Some (enoent "remove" p)), w)
  | Some Dir =>
    if bool_decide (map_Forall (λ q _, under p q = false ∨ q = p) w) then (Ret None, delete p w)
    else (Ret (Some (path_error "remove" p (New "directory not empty"))), w)
  | Some (Regular _) => (Ret None, delete p w)
  end).

Lemma returns_attempt {A} op p (m : M fs (result A)) : returns m → returns (attempt op p m).
Proof. intros Hm w. unfold attempt. destruct (fault op p w) as [[e part]|]; [by eexists _, _|apply Hm]. Qed.
Lemma returns_Stat p : returns (Stat p).
Proof. apply returns_attempt. intros w. by eexists _, _. Qed.
Lemma returns_ReadFile p : returns (ReadFile p).
Proof. apply returns_attempt. intros w. by eexists _, _. Qed.
Lemma returns_WriteFile p data : returns (WriteFile p data).
Proof. intros w. unfold WriteFile. repeat case_match; by eexists _, _. Qed.
Lemma returns_Rename p q : returns (Rename p q).
Proof. intros w. unfold Rename, attempt_unit. repeat case_match; by eexists _, _. Qed.
Lemma returns_MkdirAll p : returns (MkdirAll p).
Proof. intros w. unfold MkdirAll, attempt_unit. repeat case_match; by eexists _, _. Qed.
Lemma returns_Remove p : returns (Remove p).
Proof. intros w. unfold Remove, attempt_unit. repeat case_match; by eexists _, _. Qed.

Lemma Stat_world p w : (Stat p w).2 = w.
Proof. unfold Stat, attempt. by destruct (fault _ _ _) as [[]|]. Qed.
Lemma Stat_Ok p w n w' : Stat p w = (Ret (Ok n), w') → w' = w ∧ w !! p = Some n.
Proof.
  unfold Stat, attempt. destruct (fault _ _ _) as [[]|]; [done|]. destruct (w !! p); [|done].
  by intros [= <- <-].
Qed.
Lemma ReadFile_world p w : (ReadFile p w).2 = w.
Proof. unfold ReadFile, attempt. by destruct (fault _ _ _) as [[]|]. Qed.
(** A write touches its own path only. *)
Lemma WriteFile_other p data q w : q ≠ p → (WriteFile p data w).2 !! q = w !! q.
Proof.
  intros Hq. unfold WriteFile. repeat case_match; cbn; try done; by rewrite lookup_insert_ne by done.
Qed.
Lemma WriteFile_None p data w w' : WriteFile p data w = (Ret None, w') → w' = <[p := Regular data]> w.
Proof. unfold WriteFile. repeat case_match; intros [=]; done. Qed.
Lemma Rename_Some p q w e w' : Rename p q w = (Ret (Some e), w') → w' = w.
Proof. unfold Rename, attempt_unit. repeat case_match; intros [=]; by subst. Qed.
Lemma Rename_None p q w w' :
  Rename p q w = (Ret None, w') → ∃ c, w !! p = Some (Regular c) ∧ w' = <[q := Regular c]> (delete p w).
Proof.
  unfold Rename, attempt_unit. repeat case_match; intros [=]; subst; eauto.
Qed.
Lemma RemoveAll_other p q w : under p q = false → (RemoveAll p w).2 !! q = w !! q.
Proof.
  intros Hu. unfold RemoveAll. destruct (fault _ _ _) as [[e [stop|]]|]; [|done|]; cbn;
    (destruct (w !! q) as [n|] eqn:E; [|apply map_lookup_filter_None; by left]);
    apply map_lookup_filter_Some_2; [done| |done|done]. by left.
Qed.
Lemma RemoveAll_gone p q w w' : RemoveAll p w = (Ret None, w') → under p q = true → w' !! q = None.
Proof.
  unfold RemoveAll. destruct (fault _ _ _) as [[e [stop|]]|]; [done..|]. intros [= <-] Hu.
  apply map_lookup_filter_None. right. intros n _. cbn. congruence.
Qed.
Lemma MkdirAll_other p q w : q ∉ ancestors p → (MkdirAll p w).2 !! q = w !! q.
Proof.
  intros Hq. unfold MkdirAll, attempt_unit. destruct (fault _ _ _) as [[]|]; [done|].
  case_match; [done|]. cbn [snd]. clear -Hq. revert w Hq. generalize (ancestors p) as l.
  induction l as [|a l IH]; intros w Hq; [done|].
  cbn. apply not_elem_of_cons in Hq as [Hne Hq]. rewrite (IH _ Hq). by rewrite lookup_insert_ne by congruence.
Qed.
Lemma MkdirAll_files p w q c :
  w !! q = Some (Regular c) → (MkdirAll p w).2 !! q = Some (Regular c).
Proof.
  intros Hq. unfold MkdirAll, attempt_unit. destruct (fault _ _ _) as [[]|]; [done|].
  destruct (existsb _ (ancestors p)) eqn:E; [done|]. cbn [snd].
  rewrite existsb_false in E. revert E. generalize (ancestors p) as l. revert w Hq.
  enough (∀ l (w : fs), w !! q = Some (Regular c) → q ∉ l →
    fold_left (λ (w : fs) a, <[a := Dir]> w) l w !! q = Some (Regular c)) as H.
  { intros w Hq l E. apply H; [done|]. intros Hin. apply E in Hin. by rewrite Hq in Hin. }
  induction l as [|a l IH]; intros w Hq Hn; [done|]. apply not_elem_of_cons in Hn as [Hne Hn]. cbn.
  apply IH; [|done]. by rewrite lookup_insert_ne by congruence.
Qed.
End Ops.

(** A world of which the file system is a part. *)
Definition host (X : Type) : Type := fs * X.
Definition on_disk {X A} (m : M fs A) : M (host X) A := λ h,
  let '(o, d) := m h.1 in (o, (d, h.2)).

#[export] Hint Resolve returns_Stat returns_ReadFile returns_WriteFile returns_Rename returns_MkdirAll
  returns_Remove : go.
Lemma returns_on_disk {X A} (m : M fs A) : returns m → returns (on_disk (X:=X) m).
Proof. intros Hm [d x]. unfold on_disk. cbn. destruct (Hm d) as (a & d' & ->). by eexists _, _. Qed.
Lemma ends_on_disk {X A} (m : M fs A) : ends m → ends (on_disk (X:=X) m).
Proof. intros Hm [d x]. specialize (Hm d). unfold on_disk. cbn. by destruct (m d). Qed.
#[export] Hint Resolve returns_on_disk ends_on_disk : go.

Lemma under_spec dir p : under dir p = true ↔ p = dir ∨ ∃ r, p = (dir +:+ "/") +:+ r.
Proof.
  unfold under. rewrite orb_true_iff, String.eqb_eq, HasPrefix_spec. done.
Qed.
