(* ===== verification/Snapshot.v ===== *)
(** * The snapshot store (internal/snapshot/store.go)

    Session snapshots in a directory tree: destinations, the commit protocol,
    restoring and deleting.  The encoding of a record (encoding/json), the
    failures of the file system and the clock are arguments. *)
From S2P Require Import Prelude GoUnicode GoStrings GoError GoPath GoFS.

Record Record_ := mkRecord {
  rec_SessionID : string; rec_VMID : string; rec_Path : string; SnapshotPath : string;
  MemoryPath : string; RootfsPath : string; GuestCID : Z; HasNetwork : bool;
  HostDevName : string; rec_GuestMAC : string; rec_GuestIP : string; rec_HostIP : string;
  rec_NetNS : string; rec_NetNSPath : string; rec_HostVeth : string; rec_NSVeth : string;
  rec_UplinkHost : string; rec_UplinkNS : string; rec_Table : string; Generation : Z;
  LastKind : string; CreatedAt : option Z
}.
Definition set_meta (path : string) (created : option Z) (r : Record_) : Record_ :=
  mkRecord (rec_SessionID r) (rec_VMID r) path (SnapshotPath r) (MemoryPath r) (RootfsPath r)
    (GuestCID r) (HasNetwork r) (HostDevName r) (rec_GuestMAC r) (rec_GuestIP r) (rec_HostIP r)
    (rec_NetNS r) (rec_NetNSPath r) (rec_HostVeth r) (rec_NSVeth r) (rec_UplinkHost r)
    (rec_UplinkNS r) (rec_Table r) (Generation r) (LastKind r) created.

(** [Store]: [Commit] writes to the record it is given, which is returned. *)
Record Store (W : Type) := mkStore {
  st_Prepare : string → string → M W (result Record_);
  st_Commit : option Record_ → M W (option error * option Record_);
  st_Restore : string → M W (result Record_);
  st_Delete : string → M W (option error)
}.
Arguments mkStore {W}. Arguments st_Prepare {W}. Arguments st_Commit {W}.
Arguments st_Restore {W}. Arguments st_Delete {W}.

(** A store on a disk that is a part of the host. *)
Definition hosted {X} (s : Store fs) : Store (host X) :=
  mkStore (λ a b, on_disk (st_Prepare s a b)) (λ r, on_disk (st_Commit s r))
    (λ a, on_disk (st_Restore s a)) (λ a, on_disk (st_Delete s a)).

(** ** Unsupported *)
Definition not_supported (id : string) : error :=
  Wrap "" (Sentinel ErrSnapNotImplemented) (" (session " +:+ id +:+ ")").
Definition Unsupported {W} : Store W :=
  mkStore (λ id _, ret (Err (not_supported id)))
    (λ rec, ret (Some (not_supported (match rec with Some r => rec_SessionID r | None => "" end)), rec))
    (λ id, ret (Err (not_supported id))) (λ id, ret (Some (not_supported id))).

(** ** DirStore *)
Definition metaName : string := "meta.json".

Definition sanitizeSession (id : string) : result string :=
  if String.eqb id "" then Err (New "snapshot: empty session id")
  else if negb (String.eqb id (Base id)) || IsAbs id || String.eqb id "." || String.eqb id ".." then
    Err (New ("snapshot: invalid session id " +:+ Quote id))
  else Ok id.

Section DirStore.
Context (fault : string → string → fs → option (error * option string)).
Context (Marshal : Record_ → result string) (Unmarshal : string → result Record_) (now : Z).
Context (Root : string).

Definition sessionDir (id : string) : result string :=
  let? clean := sanitizeSession id in
  if String.eqb Root "" then Err (New "snapshot: store root is empty")
  else Ok (path_join [Root; clean]).

Definition Prepare (sessionID vmID : string) : M fs (result Record_) :=
  match sessionDir sessionID with
  | Err err => ret (Err err)
  | Ok dir =>
    let! e := MkdirAll fault dir in
    ret (match e with
         | Some err => Err (Wrap ("snapshot mkdir " +:+ dir +:+ ": ") err "")
         | None =>
           Ok (mkRecord sessionID vmID dir (path_join [dir; "vm.snap"]) (path_join [dir; "vm.mem"])
                 (path_join [dir; "rootfs.ext4"]) 0 false "" "" "" "" "" "" "" "" "" "" "" 0 "" None)
         end)
  end.

(** One round of the loop over the snapshot and the memory file. *)
Definition check_file (sessionID name path : string) : M fs (option error) :=
  if String.eqb path "" then ret (Some (New ("snapshot: " +:+ name +:+ " path is empty")))
  else
    let! st := Stat fault path in
    ret (match st with
         | Err err => Some (Wrap ("snapshot: refusing to commit " +:+ sessionID +:+ ": missing " +:+ name +:+ ": ") err "")
         | Ok (Dir | Regular "") =>
           Some (New ("snapshot: refusing to commit " +:+ sessionID +:+ ": " +:+ name +:+ " is empty"))
         | Ok (Regular _) => None
         end).
Definition check_rootfs (r : Record_) : M fs (option error) :=
  if String.eqb (RootfsPath r) "" then ret None
  else
    let! st := Stat fault (RootfsPath r) in
    ret (match st with
         | Err err => Some (Wrap ("snapshot: refusing to commit " +:+ rec_SessionID r +:+ ": missing rootfs: ") err "")
         | Ok _ => None
         end).

(** The record with the fields that [Commit] fills in. *)
Definition stamped (dir : string) (r : Record_) : Record_ :=
  set_meta dir (match CreatedAt r with None => Some now | t => t end) r.

Definition Commit (rec : option Record_) : M fs (option error * option Record_) :=
  match rec with
  | None => ret (Some (New "snapshot: nil record"), None)
  | Some r =>
    match sessionDir (rec_SessionID r) with
    | Err err => ret (Some err, rec)
    | Ok dir =>
      let! e := check_file (rec_SessionID r) "snapshot" (SnapshotPath r) in
      match e with Some err => ret (Some err, rec) | None =>
      let! e := check_file (rec_SessionID r) "memory" (MemoryPath r) in
      match e with Some err => ret (Some err, rec) | None =>
      let! e := check_rootfs r in
      match e with Some err => ret (Some err, rec) | None =>
      let r := stamped dir r in
      match Marshal r with Err err => ret (Some err, Some r) | Ok data =>
      let tmp := path_join [dir; metaName +:+ ".tmp"] in
      let! e := WriteFile fault tmp data in
      match e with Some err => ret (Some (Wrap "snapshot meta: " err ""), Some r) | None =>
      let! e := Rename fault tmp (path_join [dir; metaName]) in
      ret (e, Some r)
      end end end end end
    end
  end.

(** One round of the loop of [Restore]. *)
Definition check_path (sessionID p : string) : M fs (option error) :=
  if String.eqb p "" then
    ret (Some (New ("snapshot: corrupt session " +:+ sessionID +:+ ": missing path in meta")))
  else
    let! st := Stat fault p in
    ret (match st with
         | Err err => Some (Wrap ("snapshot: corrupt session " +:+ sessionID +:+ ": ") err "")
         | Ok _ => None
         end).

Definition Restore (sessionID : string) : M fs (result Record_) :=
  match sessionDir sessionID with
  | Err err => ret (Err err)
  | Ok dir =>
    let! raw := ReadFile fault (path_join [dir; metaName]) in
    match raw with
    | Err err =>
      if Is err NotExist
      then ret (Err (Wrap "" (Sentinel ErrSnapNotFound) (" (session " +:+ sessionID +:+ ")")))
      else ret (Err err)
    | Ok raw =>
      match Unmarshal raw with
      | Err err => ret (Err (Wrap ("snapshot: corrupt meta for " +:+ sessionID +:+ ": ") err ""))
      | Ok r =>
        let! e := check_path sessionID (SnapshotPath r) in
        match e with Some err => ret (Err err) | None =>
        let! e := check_path sessionID (MemoryPath r) in
        match e with Some err => ret (Err err) | None => ret (Ok r) end end
      end
    end
  end.

Definition Delete (sessionID : string) : M fs (option error) :=
  match sessionDir sessionID with
  | Err err => ret (Some err)
  | Ok dir => RemoveAll fault dir
  end.

Definition DirStore : Store fs := mkStore Prepare Commit Restore Delete.

Lemma returns_Prepare id vm : returns (Prepare id vm).
Proof. unfold Prepare. returns_steps. Qed.
Lemma returns_check_file id name p : returns (check_file id name p).
Proof. unfold check_file. returns_steps. Qed.
Hint Resolve returns_check_file : go.
Lemma returns_Commit rec : returns (Commit rec).
Proof. unfold Commit, check_rootfs. returns_steps. Qed.
End DirStore.

(** ** Where a session lives *)

Lemma sanitizeSession_spec id s : sanitizeSession id = Ok s ↔ s = id ∧ element id = true.
Proof.
  unfold sanitizeSession. rewrite element_spec.
  destruct (String.eqb_spec id "") as [->|Hne]; [split; [done|tauto]|].
  destruct (String.eqb_spec id (Base id)) as [E|E]; cbn [negb orb].
  - destruct (IsAbs id) eqn:Ea; cbn [orb].
    { split; [done|]. intros (_ & Hs & _). by rewrite noslash_rel in Ea. }
    destruct (Base_fix id E) as [_ Hs]; [by intros ->|].
    destruct (String.eqb_spec id "."), (String.eqb_spec id ".."); cbn; naive_solver.
  - split; [done|]. intros (_ & Hs & _). by rewrite Base_id in E.
Qed.

Section Sessions.
Context (fault : string → string → fs → option (error * option string)).
Context (Marshal : Record_ → result string) (Unmarshal : string → result Record_) (now : Z).
Context (Root : string).
Let dir_of := sessionDir Root.

(** The directory of a session is the root with the id as one more element. *)
Lemma sessionDir_spec id dir :
  dir_of id = Ok dir ↔ element id = true ∧ Root ≠ "" ∧
    dir = path_text ((path_id Root).1, (path_id Root).2 ++ [id]).
Proof.
  unfold dir_of, sessionDir, result in *. rewrite (res_bind_Ok (sanitizeSession id)).
  setoid_rewrite sanitizeSession_spec.
  destruct (String.eqb_spec Root "") as [Hr|Hr].
  - split; [by intros (s & _ & ?)|by intros (_ & ? & _)].
  - split.
    + intros (s & [-> He] & [= <-]). split_and!; [done..|]. by apply path_join_element.
    + intros (He & _ & ->). exists id. split; [done|]. f_equal. by apply path_join_element.
Qed.
Lemma session_id_ok id : element id = true → id_ok ((path_id Root).1, (path_id Root).2 ++ [id]).
Proof. apply id_ok_snoc, path_id_ok. Qed.
(** Its files are directly in it. *)
Lemma session_file id dir e :
  dir_of id = Ok dir → element e = true → path_join [dir; e] = dir +:+ "/" +:+ e.
Proof.
  intros (He & _ & ->)%sessionDir_spec Hf. apply path_join_under; [by apply session_id_ok| |done].
  by destruct (path_id Root).2.
Qed.

(** What every session directory starts with. *)
Lemma session_prefix : ∃ pre, ∀ id dir, dir_of id = Ok dir → dir = pre +:+ id.
Proof.
  destruct (path_id Root) as [r es] eqn:E. destruct (decide (Join es "/" = "")) as [Hj|Hj].
  - exists (if r then "/" else ""). intros id dir (He & _ & ->)%sessionDir_spec. rewrite E. cbn [fst snd].
    apply element_spec in He as (_ & Hne & _).
    assert (Join (es ++ [id]) "/" = id) as Hs.
    { destruct es as [|e es]; [done|]. exfalso. revert Hj. apply Join_ne; [done|]. intros x Hx.
      pose proof (path_id_ok Root) as Hok. rewrite E in Hok.
      by eapply id_ok_elem. }
    unfold path_text. cbn [fst snd]. rewrite Hs. destruct r; [done|].
    by rewrite (proj2 (String.eqb_neq id "") Hne).
  - exists (path_text (r, es) +:+ "/"). intros id dir (He & _ & ->)%sessionDir_spec. rewrite E. cbn [fst snd].
    rewrite append_assoc. destruct (path_text_snoc r es id) as [H|H]; [by intros ->|done|done].
Qed.

(** A path below one session's directory is below no other's. *)
Lemma sessions_apart id1 id2 d1 d2 q :
  dir_of id1 = Ok d1 → dir_of id2 = Ok d2 → under d1 q = true → under d2 q = true → id1 = id2.
Proof.
  intros H1 H2. destruct session_prefix as [pre Hp]. rewrite (Hp _ _ H1), (Hp _ _ H2), !under_spec.
  apply sessionDir_spec in H1 as (E1 & _), H2 as (E2 & _).
  apply element_spec in E1 as (E1 & _), E2 as (E2 & _).
  assert (∀ a r, ContainsByte a slash = false →
    ∃ tl, SplitByte (a +:+ "/" +:+ r) slash = a :: tl) as Hs.
  { intros a r Ha. change ("/" +:+ r) with (String slash r). rewrite SplitByte_app, SplitByte_plain by done.
    by eexists. }
  intros [->|[r1 ->]] [Hq|[r2 Hq]]; rewrite ?append_assoc in Hq; apply append_inj_l in Hq.
  - done.
  - destruct (Hs id2 r2 E2) as [tl Ht]. rewrite <- Hq, SplitByte_plain in Ht by done. by injection Ht.
  - destruct (Hs id1 r1 E1) as [tl Ht]. rewrite Hq, SplitByte_plain in Ht by done. by injection Ht.
  - destruct (Hs id1 r1 E1) as [tl1 Ht1], (Hs id2 r2 E2) as [tl2 Ht2]. rewrite Hq in Ht1. congruence.
Qed.

(** ** Operations stay in their session *)

(** Two paths of file [q] in a directory. *)
Lemma under_file dir e : under dir (dir +:+ "/" +:+ e) = true.
Proof. apply under_spec. right. exists e. by rewrite append_assoc. Qed.

Lemma check_file_world id name p w : (check_file fault id name p w).2 = w.
Proof.
  unfold check_file. case_match; [done|]. unfold bind. pose proof (Stat_world fault p w).
  destruct (Stat fault p w) as [[]]; done.
Qed.
Lemma check_rootfs_world r w : (check_rootfs fault r w).2 = w.
Proof.
  unfold check_rootfs. case_match; [done|]. unfold bind. pose proof (Stat_world fault (RootfsPath r) w).
  destruct (Stat fault _ w) as [[]]; done.
Qed.

(** The two files that a commit writes. *)
Definition meta_of (dir : string) : string := path_join [dir; metaName].
Definition tmp_of (dir : string) : string := path_join [dir; metaName +:+ ".tmp"].
Lemma meta_tmp id dir :
  dir_of id = Ok dir →
  meta_of dir ≠ tmp_of dir ∧ under dir (meta_of dir) = true ∧ under dir (tmp_of dir) = true.
Proof.
  intros Hd. unfold meta_of, tmp_of. rewrite !(session_file id dir) by done.
  split_and!; [|apply under_file..]. intros H. apply append_inj_l in H. done.
Qed.

(** A non-empty regular file. *)
Definition has_file (w : fs) (p : string) : Prop := ∃ c, w !! p = Some (Regular c) ∧ c ≠ "".
Lemma check_file_None id name p w w' :
  check_file fault id name p w = (Ret None, w') → w' = w ∧ p ≠ "" ∧ has_file w p.
Proof.
  unfold check_file. destruct (String.eqb_spec p ""); [done|].
  intros (st & w1 & Hs & Hr)%bind_inv_Ret. destruct st as [[|[|a c]]|]; [done|done| |done].
  injection Hr as <-. apply Stat_Ok in Hs as [-> Hs]. split_and!; [done..|]. by eexists.
Qed.

(** The commit protocol, outcome by outcome. *)
Lemma Commit_cases id dir r w e r' w' :
  rec_SessionID r = id → dir_of id = Ok dir →
  Commit fault Marshal now Root (Some r) w = (Ret (e, r'), w') →
  (e ≠ None ∧ ∀ q, q ≠ tmp_of dir → w' !! q = w !! q) ∨
  (e = None ∧ r' = Some (stamped now dir r) ∧ has_file w (SnapshotPath r) ∧ has_file w (MemoryPath r) ∧
   SnapshotPath r ≠ "" ∧ MemoryPath r ≠ "" ∧
   ∃ data, Marshal (stamped now dir r) = Ok data ∧
     w' = <[meta_of dir := Regular data]> (delete (tmp_of dir) (<[tmp_of dir := Regular data]> w))).
Proof.
  intros <- Hd. unfold Commit. change (sessionDir Root (rec_SessionID r)) with (dir_of (rec_SessionID r)).
  rewrite Hd. intros (e1 & w1 & H1 & H)%bind_inv_Ret.
  assert (w1 = w) as -> by (by rewrite <- (check_file_world (rec_SessionID r) "snapshot" (SnapshotPath r) w), H1).
  destruct e1; [injection H as <- <- <-; by left|]. apply check_file_None in H1 as (_ & Hn1 & Hf1).
  apply bind_inv_Ret in H as (e2 & w2 & H2 & H).
  assert (w2 = w) as -> by (by rewrite <- (check_file_world (rec_SessionID r) "memory" (MemoryPath r) w), H2).
  destruct e2; [injection H as <- <- <-; by left|]. apply check_file_None in H2 as (_ & Hn2 & Hf2).
  apply bind_inv_Ret in H as (e3 & w3 & H3 & H).
  assert (w3 = w) as -> by (by rewrite <- (check_rootfs_world r w), H3).
  destruct e3; [injection H as <- <- <-; by left|].
  destruct (Marshal (stamped now dir r)) as [data|] eqn:Em; [|injection H as <- <- <-; by left].
  fold (tmp_of dir) (meta_of dir) in H. apply bind_inv_Ret in H as (e4 & w4 & H4 & H).
  pose proof (WriteFile_other fault (tmp_of dir) data) as Hw. destruct e4 as [e4|].
  { injection H as <- <- <-. left. split; [done|]. intros q Hq. specialize (Hw q w Hq). by rewrite H4 in Hw. }
  apply WriteFile_None in H4 as ->. apply bind_inv_Ret in H as (e5 & w5 & H5 & H). injection H as <- <- <-.
  destruct e5 as [e5|].
  - apply Rename_Some in H5 as ->. left. split; [done|]. intros q Hq. by rewrite lookup_insert_ne.
  - right. apply Rename_None in H5 as (c & Hc & ->). rewrite lookup_insert_eq in Hc. injection Hc as <-.
    split_and!; try done. by exists data.
Qed.

(** C20 (safety): an operation on one session neither changes nor removes a file of
    another session, whatever the ids (they may not leave the root) and
    whatever fails on the way. *)
Theorem sessions_isolated id1 id2 d2 q c w :
  id1 ≠ id2 → dir_of id2 = Ok d2 → under d2 q = true → w !! q = Some (Regular c) →
  (∀ vm, (Prepare fault Root id1 vm w).2 !! q = Some (Regular c)) ∧
  (∀ r, rec_SessionID r = id1 → ∀ o w', Commit fault Marshal now Root (Some r) w = (Ret o, w') →
        w' !! q = Some (Regular c)) ∧
  (Delete fault Root id1 w).2 !! q = Some (Regular c).
Proof.
  intros Hne H2 Hq Hc. split_and!.
  - intros vm. unfold Prepare. case_match; [|done]. unfold bind. pose proof (MkdirAll_files fault a w q c Hc) as H'.
    by destruct (MkdirAll fault a w) as [[]].
  - intros r Hr [e r'] w' Hrun. destruct (dir_of id1) as [d1|err] eqn:H1.
    + assert (under d1 q = true → False) as Hu by (intros Hu; by pose proof (sessions_apart _ _ _ _ _ H1 H2 Hu Hq)).
      destruct (meta_tmp _ _ H1) as (_ & Hm & Ht).
      destruct (Commit_cases id1 d1 r w e r' w' Hr H1 Hrun) as [[_ H']|(_ & _ & _ & _ & _ & _ & data & _ & ->)].
      * rewrite H'; [done|]. intros ->. auto.
      * rewrite lookup_insert_ne by (intros <-; auto). rewrite lookup_delete_ne by (intros <-; auto).
        by rewrite lookup_insert_ne by (intros <-; auto).
    + revert Hrun. unfold Commit. rewrite Hr. change (sessionDir Root id1) with (dir_of id1). rewrite H1.
      by intros [= _ _ <-].
  - unfold Delete. change (sessionDir Root id1) with (dir_of id1). destruct (dir_of id1) as [d1|] eqn:H1; [|done].
    rewrite RemoveAll_other; [done|]. destruct (under d1 q) eqn:Hu; [|done].
    by pose proof (sessions_apart _ _ _ _ _ H1 H2 Hu Hq).
Qed.

(** C39 (functional): Committing is all or nothing: either it reports an error
    and the session's meta file is what it was before, or it reports none, the
    snapshot and memory files exist and are not empty, and the meta file holds
    the encoding of the record, complete. *)
Theorem Commit_atomic id dir r w e r' w' :
  rec_SessionID r = id → dir_of id = Ok dir →
  Commit fault Marshal now Root (Some r) w = (Ret (e, r'), w') →
  (e ≠ None ∧ w' !! meta_of dir = w !! meta_of dir) ∨
  (e = None ∧ has_file w (SnapshotPath r) ∧ has_file w (MemoryPath r) ∧
   ∃ data, Marshal (stamped now dir r) = Ok data ∧ w' !! meta_of dir = Some (Regular data)).
Proof.
  intros Hr Hd Hrun. destruct (meta_tmp _ _ Hd) as (Hne & _).
  destruct (Commit_cases id dir r w e r' w' Hr Hd Hrun) as [[He H]|(-> & _ & H1 & H2 & _ & _ & data & Hm & ->)].
  - left. split; [done|]. by apply H.
  - right. split_and!; try done. exists data. split; [done|]. apply lookup_insert_eq.
Qed.

(** What [Commit] writes leaves the other files of the session as they are. *)
Lemma Commit_keeps id dir e data n (w : fs) :
  dir_of id = Ok dir → element e = true → e ≠ metaName → e ≠ metaName +:+ ".tmp" →
  w !! path_join [dir; e] = Some n →
  (<[meta_of dir := Regular data]> (delete (tmp_of dir) (<[tmp_of dir := Regular data]> w)))
    !! path_join [dir; e] = Some n.
Proof.
  intros Hd He Hne1 Hne2 Hn. unfold meta_of, tmp_of. rewrite !(session_file id dir) in * by done.
  rewrite lookup_insert_ne by (intros H; by repeat apply append_inj_l in H).
  rewrite lookup_delete_ne by (intros H; by repeat apply append_inj_l in H).
  by rewrite lookup_insert_ne by (intros H; by repeat apply append_inj_l in H).
Qed.
Lemma Restore_reads id dir data r n1 n2 w :
  dir_of id = Ok dir → (∀ op p, fault op p w = None) →
  w !! meta_of dir = Some (Regular data) → Unmarshal data = Ok r →
  SnapshotPath r ≠ "" → MemoryPath r ≠ "" →
  w !! SnapshotPath r = Some n1 → w !! MemoryPath r = Some n2 →
  Restore fault Unmarshal Root id w = (Ret (Ok r), w).
Proof.
  intros Hd Hf Hmeta Hj Hn1 Hn2 E1 E2.
  unfold Restore. change (sessionDir Root id) with (dir_of id). rewrite Hd. fold (meta_of dir).
  assert (ReadFile fault (meta_of dir) w = (Ret (Ok data), w)) as Hread.
  { unfold ReadFile, attempt. by rewrite Hf, Hmeta. }
  assert (∀ p n, p ≠ "" → w !! p = Some n → check_path fault id p w = (Ret None, w)) as Hcheck.
  { intros p n Hp Hn. unfold check_path. rewrite (proj2 (String.eqb_neq p "") Hp).
    unfold bind, Stat, attempt. by rewrite Hf, Hn. }
  rewrite (bind_Ret _ _ _ _ _ Hread), Hj.
  rewrite (bind_Ret _ _ _ _ _ (Hcheck _ n1 Hn1 E1)).
  by rewrite (bind_Ret _ _ _ _ _ (Hcheck _ n2 Hn2 E2)).
Qed.

(** (roundtrip) A session that was committed is restored as it was: on a
    host that can read it back, [Restore] returns the committed record, as far
    as encoding/json returns what it was given. *)
Theorem Restore_Commit id dir r w r' w' :
  rec_SessionID r = id → dir_of id = Ok dir →
  SnapshotPath r = path_join [dir; "vm.snap"] → MemoryPath r = path_join [dir; "vm.mem"] →
  (∀ data, Marshal (stamped now dir r) = Ok data → Unmarshal data = Ok (stamped now dir r)) →
  (∀ op p, fault op p w' = None) →
  Commit fault Marshal now Root (Some r) w = (Ret (None, r'), w') →
  r' = Some (stamped now dir r) ∧
  Restore fault Unmarshal Root id w' = (Ret (Ok (stamped now dir r)), w').
Proof.
  intros Hr Hd Hs Hm Hj Hf Hrun.
  destruct (Commit_cases id dir r w None r' w' Hr Hd Hrun)
    as [[? _]|(_ & -> & (c1 & H1 & _) & (c2 & H2 & _) & Hn1 & Hn2 & data & Hdata & Hw)]; [done|]. split; [done|].
  rewrite Hs in H1. rewrite Hm in H2.
  eapply (Restore_reads id dir data); [done|done| |by apply Hj|done|done| |].
  - rewrite Hw. apply lookup_insert_eq.
  - cbn. rewrite Hs, Hw. by apply (Commit_keeps id).
  - cbn. rewrite Hm, Hw. by apply (Commit_keeps id).
Qed.
End Sessions.

(** ** Instances *)
Definition no_fault (op p : string) (w : fs) : option (error * option string) := None.
Definition disk_full (op p : string) (w : fs) : option (error * option string) :=
  if String.eqb op "write" then Some (New "no space left on device", Some "{") else None.
Definition sample_record : Record_ :=
  mkRecord "s1" "fc-1" "" "/snap/s1/vm.snap" "/snap/s1/vm.mem" "" 3 false
    "" "" "" "" "" "" "" "" "" "" "" 1 "Full" None.
Definition sample_disk : fs :=
  {["/snap" := Dir; "/snap/s1" := Dir; "/snap/s1/vm.snap" := Regular "snap";
    "/snap/s1/vm.mem" := Regular "mem"; "/snap/s2" := Dir; "/snap/s2/vm.mem" := Regular "other"]}.
Lemma sessions_isolated_witness :
  (Delete no_fault "/snap" "s1" sample_disk).2 !! "/snap/s2/vm.mem" = Some (Regular "other") ∧
  (Delete no_fault "/snap" "s1" sample_disk).2 !! "/snap/s1/vm.mem" = None.
Proof.
  split; [|vm_compute; reflexivity].
  apply (sessions_isolated no_fault (λ _, Ok "{}") 7 "/snap" "s1" "s2" "/snap/s2" "/snap/s2/vm.mem");
    [discriminate|vm_compute; reflexivity..].
Defined.
Lemma Commit_atomic_witness :
  let w' := (Commit disk_full (λ _, Ok "{}") 7 "/snap" (Some sample_record) sample_disk).2 in
  w' !! meta_of "/snap/s1" = sample_disk !! meta_of "/snap/s1".
Proof.
  intros w'.
  edestruct (Commit_atomic disk_full (λ _, Ok "{}") 7 "/snap" "s1" "/snap/s1" sample_record sample_disk
    (Some (Wrap "snapshot meta: " (path_error "write" "/snap/s1/meta.json.tmp" (New "no space left on device")) ""))
    (Some (stamped 7 "/snap/s1" sample_record)) w') as [[_ H]|[H _]];
    [reflexivity|vm_compute; reflexivity|vm_compute; reflexivity|exact H|discriminate].
Defined.
Lemma Restore_Commit_witness :
  let r := stamped 7 "/snap/s1" sample_record in
  let w' := (Commit no_fault (λ _, Ok "{}") 7 "/snap" (Some sample_record) sample_disk).2 in
  Restore no_fault (λ _, Ok r) "/snap" "s1" w' = (Ret (Ok r), w').
Proof.
  intros r w'.
  apply (Restore_Commit no_fault (λ _, Ok "{}") (λ _, Ok r) 7 "/snap" "s1" "/snap/s1" sample_record
    sample_disk (Some r) w'); try reflexivity; vm_compute; reflexivity.
Defined.
