(* ===== verification/GuestAgent.v ===== *)
(** * The guest agent (cmd/guest-agent/main.go, internal/guestproto/proto.go)

    What runs as PID 1 inside the machine: one job per connection, with capped
    output, rlimits and a timeout.  The guest's kernel (processes, rlimits,
    mounts, the connection) is an argument, as a record of actions. *)
From S2P Require Import Prelude GoUnicode GoStrings GoError GoTime.

(** ** The protocol's values *)
Definition DefaultPort : Z := 52.
Definition MaxOutputBytes : Z := Z.shiftl 1 20.
Record Request := mkRequest {
  Code : string; Runtime : string; TimeoutS : Z; MemoryBytes : Z; PIDsMax : Z
}.
Record Response := mkResponse { Stdout : string; Stderr : string; ExitCode : Z; TimedOut : bool }.

(** ** Capped output *)
Record limitedBuffer := mkBuffer { buf : string; rest : Z; hit : bool }.
(** [Write]: the count it reports, and the buffer after it; it never fails. *)
Definition Write (l : limitedBuffer) (p : string) : Z * limitedBuffer :=
  if rest l <=? 0 then (len p, mkBuffer (buf l) (rest l) true)
  else if rest l <? len p then
    (len p, mkBuffer (buf l +:+ take_str (Z.to_nat (rest l)) p) 0 true)
  else (len p, mkBuffer (buf l +:+ p) (rest l - len p) (hit l)).
Definition truncated_mark : string := newline +:+ "[truncated]".
Definition Buffer_String (l : limitedBuffer) : string :=
  if hit l then buf l +:+ truncated_mark else buf l.
(** A process's output arrives in pieces. *)
Definition collect (max : Z) (chunks : list string) : string :=
  Buffer_String (fold_left (λ l p, (Write l p).2) chunks (mkBuffer "" max false)).

(** ** Jobs *)
Record command := mkCommand { bin : string; args : list string }.

Fixpoint firstExisting (LookPath : string → option string) (names : list string) : string :=
  match names with
  | [] => ""
  | n :: r => match LookPath n with Some p => p | None => firstExisting LookPath r end
  end.
Definition commandFor (LookPath : string → option string) (runtime code : string) : result command :=
  let r := ToLower (TrimSpace runtime) in
  if String.eqb r "python" || String.eqb r "python3" then
    let bin := firstExisting LookPath ["python3"; "python"] in
    if String.eqb bin "" then Err (New "python interpreter not found in guest")
    else Ok (mkCommand bin ["-c"; code])
  else if String.eqb r "node" then
    let bin := firstExisting LookPath ["node"; "nodejs"] in
    if String.eqb bin "" then Err (New "node interpreter not found in guest")
    else Ok (mkCommand bin ["-e"; code])
  else Err (New ("unsupported runtime " +:+ Quote runtime)).

Inductive rlimit := RLIMIT_AS | RLIMIT_NPROC | RLIMIT_NOFILE.
(** How a job ended: an exit status, or an error of [Wait] itself. *)
Inductive run_error := ExitError (code : Z) | OtherError (e : error).
(** What [Wait] leaves: the output in pieces, the error, and whether the
    context's deadline has passed. *)
Record finished := mkFinished {
  out : list string; errout : list string; run_err : option run_error; deadline : bool
}.

(** The guest's kernel. *)
Record guest (W : Type) := mkGuest {
  LookPath : string → option string;
  Start : command → Z → M W (result Z);
  Prlimit : Z → rlimit → Z → Z → M W (option error);
  Wait : Z → M W finished;
  KillGroup : Z → M W unit
}.
Arguments mkGuest {W}. Arguments LookPath {W}. Arguments Start {W}. Arguments Prlimit {W}.
Arguments Wait {W}. Arguments KillGroup {W}.

Section Agent.
Context {W : Type} (g : guest W).

(** [err := m; err != nil] with its wrapping, or on with [k]. *)
Definition or_fail (pre : string) (m k : M W (option error)) : M W (option error) :=
  let! e := m in match e with Some err => ret (Some (Wrap pre err "")) | None => k end.

(** The sizes that a job gets. *)
Definition guest_mem (req : Request) : Z :=
  let mem := if MemoryBytes req <=? 0 then Z.shiftl 256 20 else MemoryBytes req in
  if mem <? Z.shiftl 16 20 then Z.shiftl 16 20 else mem.
Definition guest_pids (req : Request) : Z :=
  let pids := if PIDsMax req <=? 0 then 64 else PIDsMax req in
  if pids <? 1 then 1 else pids.
Definition applyGuestLimits (pid : Z) (req : Request) : M W (option error) :=
  let mem := u64 (guest_mem req) in
  let pids := u64 (guest_pids req) in
  or_fail "RLIMIT_AS: " (Prlimit g pid RLIMIT_AS mem mem)
  (or_fail "RLIMIT_NPROC: " (Prlimit g pid RLIMIT_NPROC pids pids)
  (or_fail "RLIMIT_NOFILE: " (Prlimit g pid RLIMIT_NOFILE 256 256) (ret None))).

Definition append_line (s line : string) : string :=
  if String.eqb s "" then line else s +:+ newline +:+ line.

Definition job_timeout (req : Request) : Z :=
  let t := seconds (TimeoutS req) in if t <=? 0 then 30 * Second else t.

Definition execute (req : Request) : M W Response :=
  match commandFor (LookPath g) (Runtime req) (Code req) with
  | Err err => ret (mkResponse "" (Error err) 127 false)
  | Ok cmd =>
    let! started := Start g cmd (job_timeout req) in
    match started with
    | Err err => ret (mkResponse "" (Error err) 1 false)
    | Ok pid =>
      let! e := applyGuestLimits pid req in
      match e with
      | Some err =>
        KillGroup g pid ;;; Wait g pid ;;;
        ret (mkResponse "" ("guest: rlimit: " +:+ Error err) 1 false)
      | None =>
        let! f := Wait g pid in
        let stdout := collect MaxOutputBytes (out f) in
        let stderr := collect MaxOutputBytes (errout f) in
        if deadline f then
          KillGroup g pid ;;;
          ret (mkResponse stdout (append_line stderr "guest: execution timed out") (-1) true)
        else
          ret match run_err f with
              | Some (ExitError code) => mkResponse stdout stderr code false
              | Some (OtherError err) => mkResponse stdout (append_line stderr (Error err)) 1 false
              | None => mkResponse stdout stderr 0 false
              end
      end
    end
  end.

(** [handle] on a connection that yields a request (or not) and takes a response. *)
Definition handle (SetDeadline : Z → M W unit) (ReadRequest : M W (result Request))
    (WriteResponse : Response → M W (option error)) (Close : M W unit) : M W unit :=
  defer Close
    (SetDeadline (300 * Second) ;;;
     let! req := ReadRequest in
     match req with
     | Err _ => ret tt
     | Ok req => let! resp := execute req in WriteResponse resp ;;; ret tt
     end).
End Agent.

(** ** Start-up *)

(** [mountEssential]: every mount is tried; a file system that is mounted
    already is no error. *)
Definition mount_list : list (string * string * string) :=
  [("proc", "/proc", "proc"); ("sysfs", "/sys", "sysfs"); ("devtmpfs", "/dev", "devtmpfs")].
Fixpoint mount_loop {W} (MkdirAll : string → M W (option error))
    (Mount : string → string → string → M W (option error))
    (ms : list (string * string * string)) (errs : list error) : M W (list error) :=
  match ms with
  | [] => ret errs
  | (src, dst, fstype) :: r =>
    let! e := MkdirAll dst in
    match e with
    | Some err => mount_loop MkdirAll Mount r (errs ++ [err])
    | None =>
      let! e := Mount src dst fstype in
      mount_loop MkdirAll Mount r
        (match e with
         | Some err => if negb (Is err EBUSY) && negb (Is err EEXIST)
                       then errs ++ [Wrap ("mount " +:+ dst +:+ ": ") err ""] else errs
         | None => errs
         end)
    end
  end.
Definition mountEssential {W} (MkdirAll : string → M W (option error))
    (Mount : string → string → string → M W (option error)) : M W (option error) :=
  let! errs := mount_loop MkdirAll Mount mount_list [] in ret (Join_errors errs).

(** ** Capped output, specified *)

(** What is kept of an output: its first [max] bytes, and a mark if there were more. *)
Definition capped (max : Z) (s : string) : string :=
  take_str (Z.to_nat max) s +:+ (if max <? len s then truncated_mark else "").

Lemma take_str_app_le n a b : (String.length a <= n)%nat →
  take_str n (a +:+ b) = a +:+ take_str (n - String.length a) b.
Proof.
  revert n. induction a as [|x a IH]; intros n H; [by rewrite append_nil_l, Nat.sub_0_r|].
  destruct n as [|n]; [cbn in H; lia|]. rewrite append_cons. cbn [take_str String.length Nat.sub].
  rewrite append_cons, IH by (cbn in H; lia). done.
Qed.

(** The buffer after the pieces [s] so far. *)
Definition buffer_inv (max : Z) (s : string) (l : limitedBuffer) : Prop :=
  buf l = take_str (Z.to_nat max) s ∧ hit l = (max <? len s) ∧ rest l = Z.max 0 (max - len s).
Lemma Write_inv max s l p :
  0 <= max → p ≠ "" → buffer_inv max s l → buffer_inv max (s +:+ p) (Write l p).2.
Proof.
  intros Hm Hp (Hb & Hh & Hr). assert (0 < len p) as Hlp.
  { unfold len. destruct p; [done|]. cbn [String.length]. lia. }
  pose proof (len_nonneg s) as Hs. unfold buffer_inv. rewrite len_append. unfold Write.
  assert (Z.of_nat (String.length s) = len s) as Els by done.
  destruct (Z.leb_spec (rest l) 0) as [H|H];
    [|destruct (Z.ltb_spec (rest l) (len p)) as [H'|H']]; cbn [snd buf hit rest]; split_and!; try lia.
  - rewrite Hb. symmetry. apply take_str_app_lt. lia.
  - rewrite Hb, (take_str_all _ s), take_str_app_le by lia. f_equal. f_equal. lia.
  - rewrite Hb, (take_str_all _ s) by lia. symmetry. apply take_str_all. rewrite length_append.
    unfold len in *. lia.
  - rewrite Hh. destruct (Z.ltb_spec max (len s + len p)), (Z.ltb_spec max (len s)); done || lia.
Qed.
Lemma collect_inv max chunks s l :
  0 <= max → Forall (λ p, p ≠ "") chunks → buffer_inv max s l →
  buffer_inv max (s +:+ concat_str chunks) (fold_left (λ l p, (Write l p).2) chunks l).
Proof.
  intros Hm Hf. revert s l. induction Hf as [|p chunks Hp _ IH]; intros s l Hl; cbn.
  - by rewrite append_nil_r.
  - rewrite <- append_assoc. apply IH. by apply Write_inv.
Qed.

(** C24 (equivalence): however the output of a job is cut into pieces, what is kept
    is its first [max] bytes, with a mark exactly when there were more; and every
    piece is reported as written in full, so the job never sees a short write. *)
Theorem collect_capped max chunks :
  0 <= max → Forall (λ p, p ≠ "") chunks →
  collect max chunks = capped max (concat_str chunks) ∧ (∀ l p, (Write l p).1 = len p).
Proof.
  intros Hm Hf. split.
  - destruct (collect_inv max chunks "" (mkBuffer "" max false) Hm Hf) as (Hb & Hh & _).
    { split_and!; cbn [buf hit rest]; change (len "") with 0; [by destruct (Z.to_nat max)|lia|lia]. }
    rewrite append_nil_l in *. unfold collect, Buffer_String, capped. rewrite Hb, Hh.
    case_match; [done|by rewrite append_nil_r].
  - intros l p. unfold Write. by repeat case_match.
Qed.
Lemma collect_capped_witness :
  collect 5 ["ab"; "cde"; "f"] = "abcde" +:+ newline +:+ "[truncated]" ∧ collect 5 ["ab"; "cde"] = "abcde".
Proof.
  split.
  - rewrite (proj1 (collect_capped 5 ["ab"; "cde"; "f"] ltac:(lia) ltac:(repeat constructor; discriminate))).
    reflexivity.
  - vm_compute. reflexivity.
Defined.

(** ** What a job meets

    A kernel that logs what it is asked and answers as told. *)
Inductive job_event :=
| EStart (c : command) (timeout : Z) | ELimit (pid : Z) (r : rlimit) (cur max : Z)
| EWait (pid : Z) | EKill (pid : Z).

Section Jobs.
Context (look : string → option string) (start : result Z) (refuses : rlimit → option error).
Context (fin : finished).

Definition log_event (e : job_event) : M (list job_event) unit := modify (λ tr, tr ++ [e]).
Definition logging_guest : guest (list job_event) :=
  mkGuest look (λ c t, log_event (EStart c t) ;;; ret start)
    (λ pid r cur max, log_event (ELimit pid r cur max) ;;; ret (refuses r))
    (λ pid, log_event (EWait pid) ;;; ret fin) (λ pid, log_event (EKill pid)).

Definition limits_of (req : Request) : list (rlimit * Z) :=
  [(RLIMIT_AS, guest_mem req); (RLIMIT_NPROC, guest_pids req); (RLIMIT_NOFILE, 256)].
Definition limit_events (pid : Z) (ls : list (rlimit * Z)) : list job_event :=
  (λ '(r, n), ELimit pid r n n) <$> ls.

(** The fields of a request are int64. *)
Definition int64_request (req : Request) : Prop :=
  MemoryBytes req < 2 ^ 63 ∧ PIDsMax req < 2 ^ 63.
Lemma guest_sizes req : int64_request req →
  2 ^ 24 <= guest_mem req < 2 ^ 63 ∧ 1 <= guest_pids req < 2 ^ 63 ∧
  u64 (guest_mem req) = guest_mem req ∧ u64 (guest_pids req) = guest_pids req ∧
  (2 ^ 24 <= MemoryBytes req → guest_mem req = MemoryBytes req) ∧
  (1 <= PIDsMax req → guest_pids req = PIDsMax req).
Proof.
  intros [Hm Hp]. unfold guest_mem, guest_pids. change (Z.shiftl 16 20) with (2 ^ 24).
  change (Z.shiftl 256 20) with (2 ^ 28).
  destruct (Z.leb_spec (MemoryBytes req) 0), (Z.leb_spec (PIDsMax req) 0);
    repeat (case_match; bool_prop); split_and!; try lia; apply wrapu_small; lia.
Qed.

(** How a limit that was refused is reported. *)
Definition refused_text (r : rlimit) (err : error) : string :=
  "guest: rlimit: " +:+
  Error (Wrap (match r with RLIMIT_AS => "RLIMIT_AS: " | RLIMIT_NPROC => "RLIMIT_NPROC: "
               | RLIMIT_NOFILE => "RLIMIT_NOFILE: " end) err "").

(** C22 (safety): a job that was started either has all three limits set on it, of
    the requested sizes but at least 16 MiB of memory and one process, and is
    then waited for, or it is killed at the first limit that could not be set,
    its output is dropped and the refusal reported.  The response carries the
    capped output of both streams and the exit status; a timeout is reported
    with -1 and a line on stderr, and its job is killed only after it has been
    waited for.  The limits are set on a process that was started already:
    until then it runs without them. *)
Theorem job_limited_or_killed req cmd pid tr :
  int64_request req → commandFor look (Runtime req) (Code req) = Ok cmd → start = Ok pid →
  let limits := limits_of req in
  let begun := tr ++ [EStart cmd (job_timeout req)] in
  let stderr := collect MaxOutputBytes (errout fin) in
  (∃ k r n err, limits !! k = Some (r, n) ∧ refuses r = Some err ∧
     (∀ j r' n', (j < k)%nat → limits !! j = Some (r', n') → refuses r' = None) ∧
     execute logging_guest req tr =
       (Ret (mkResponse "" (refused_text r err) 1 false),
        begun ++ limit_events pid (take (S k) limits) ++ [EKill pid; EWait pid])) ∨
  ((∀ r, refuses r = None) ∧ 2 ^ 24 <= guest_mem req ∧ 1 <= guest_pids req ∧
   ∃ resp, execute logging_guest req tr =
     (Ret resp, begun ++ limit_events pid limits ++ EWait pid :: (if deadline fin then [EKill pid] else [])) ∧
     Stdout resp = collect MaxOutputBytes (out fin) ∧ TimedOut resp = deadline fin ∧
     (deadline fin = true →
        ExitCode resp = -1 ∧ Stderr resp = append_line stderr "guest: execution timed out") ∧
     (deadline fin = false →
        match run_err fin with
        | None => ExitCode resp = 0 ∧ Stderr resp = stderr
        | Some (ExitError code) => ExitCode resp = code ∧ Stderr resp = stderr
        | Some (OtherError err) => ExitCode resp = 1 ∧ Stderr resp = append_line stderr (Error err)
        end)).
Proof.
  intros Hi Hc Hs limits begun stderr. destruct (guest_sizes req Hi) as (Hm & Hp & Hu1 & Hu2 & _).
  unfold execute. cbn [LookPath logging_guest]. rewrite Hc.
  cbn [Start Prlimit Wait KillGroup logging_guest]. unfold log_event, applyGuestLimits, or_fail, bind, modify, ret.
  rewrite Hs. cbn [LookPath Start Prlimit Wait KillGroup logging_guest]. rewrite Hu1, Hu2.
  unfold log_event, bind, modify, ret.
  destruct (refuses RLIMIT_AS) eqn:E1.
  { left. eexists 0%nat, _, _, _. split; [reflexivity|]. split; [exact E1|]. split; [intros; lia|].
    f_equal. unfold begun. cbn. by rewrite <- !app_assoc. }
  destruct (refuses RLIMIT_NPROC) eqn:E2.
  { left. eexists 1%nat, _, _, _. split; [reflexivity|]. split; [exact E2|].
    split; [intros [|j] ? ? ?; [by intros [= <- _]|lia]|].
    f_equal. unfold begun. cbn. by rewrite <- !app_assoc. }
  destruct (refuses RLIMIT_NOFILE) eqn:E3.
  { left. eexists 2%nat, _, _, _. split; [reflexivity|]. split; [exact E3|].
    split; [intros [|[|j]] ? ? ?; [by intros [= <- _]..|lia]|].
    f_equal. unfold begun. cbn. by rewrite <- !app_assoc. }
  right. split; [by intros []|]. split; [lia|]. split; [lia|].
  destruct (deadline fin); eexists; (split; [f_equal; unfold begun; cbn; by rewrite <- !app_assoc|]).
  - done.
  - split_and!; [by destruct (run_err fin) as [[]|]..|done|]. intros _. by destruct (run_err fin) as [[]|].
Qed.
End Jobs.

Definition sample_finished : finished := mkFinished ["hello"] [] (Some (ExitError 3)) false.
Definition sample_request : Request := mkRequest "exit 3" "python" 5 (Z.shiftl 64 20) 8.
Lemma job_limited_or_killed_witness :
  let g := logging_guest (λ n, Some n) (Ok 42) (λ r, match r with RLIMIT_NPROC => Some (New "EPERM") | _ => None end)
             sample_finished in
  execute g sample_request [] =
    (Ret (mkResponse "" "guest: rlimit: RLIMIT_NPROC: EPERM" 1 false),
     [EStart (mkCommand "python3" ["-c"; "exit 3"]) (5 * Second);
      ELimit 42 RLIMIT_AS (2 ^ 26) (2 ^ 26); ELimit 42 RLIMIT_NPROC 8 8; EKill 42; EWait 42]).
Proof.
  destruct (job_limited_or_killed (λ n, Some n) (Ok 42)
    (λ r, match r with RLIMIT_NPROC => Some (New "EPERM") | _ => None end) sample_finished sample_request
    (mkCommand "python3" ["-c"; "exit 3"]) 42 [])
    as [(k & r & n & err & Hk & Hr & _ & He)|[H _]];
    [split; reflexivity|reflexivity..| |discriminate (H RLIMIT_NPROC)].
  intros g. unfold g. rewrite He.
  destruct k as [|[|[|k]]]; cbn in Hk; [injection Hk as <- <-; discriminate Hr| |
    injection Hk as <- <-; discriminate Hr|discriminate Hk].
  injection Hk as <- <-. injection Hr as <-. reflexivity.
Defined.
