(* ===== verification/GuestServe.v ===== *)
(** * The guest agent on the wire (cmd/guest-agent/main.go, internal/guestproto/proto.go)

    How the agent comes to listen, takes connections until it is told to stop,
    and reads and answers one job on each.  The sockets of the guest's kernel and
    encoding/json are arguments. *)
From S2P Require Import Prelude GoUnicode GoStrings GoError GoTime GuestAgent.

(** ** Addresses *)

(** [strings.Cut] at one byte. *)
Definition Cut (s : string) (c : ascii) : option (string * string) :=
  i ← IndexByte s c; Some (take_str i s, drop_str (S i) s).

(** [strconv.ParseUint(s, 10, 32)]: it stops at the first byte that is no digit
    or takes the number past 32 bits. *)
Inductive num_error := ErrSyntax | ErrRange.
Definition num_error_text (e : num_error) : string :=
  match e with ErrSyntax => "invalid syntax" | ErrRange => "value out of range" end.
Fixpoint parse_digits (s : string) (n : Z) : res num_error Z :=
  match s with
  | "" => Ok n
  | String a r =>
    if ascii_digit (byte a) then
      let n := n * 10 + (byte a - 48) in
      if 2 ^ 32 <=? n then Err ErrRange else parse_digits r n
    else Err ErrSyntax
  end.
Definition ParseUint32 (s : string) : result Z :=
  match (if String.eqb s "" then Err ErrSyntax else parse_digits s 0) with
  | Ok n => Ok n
  | Err e => Err (New ("strconv.ParseUint: parsing " +:+ Quote s +:+ ": " +:+ num_error_text e))
  end.

(** ** Listening *)

(** The sockets of a kernel; descriptors and listeners are numbers. *)
Record sockets (W : Type) := mkSockets {
  Socket : M W (result Z);
  Bind : Z → Z → M W (option error);
  Listen : Z → Z → M W (option error);
  CloseFd : Z → M W unit;
  FileListener : Z → M W (result Z);
  TCPListen : string → M W (result Z)
}.
Arguments mkSockets {W}. Arguments Socket {W}. Arguments Bind {W}. Arguments Listen {W}.
Arguments CloseFd {W}. Arguments FileListener {W}. Arguments TCPListen {W}.

Section Agent.
Context {W : Type} (k : sockets W).

(** [err := m; err != nil]: the descriptor is closed first. *)
Definition or_close (fd : Z) (pre : string) (m : M W (option error)) (rest : M W (result Z)) :
    M W (result Z) :=
  let! e := m in
  match e with Some err => CloseFd k fd ;;; ret (Err (Wrap pre err "")) | None => rest end.
Definition listenVsock (port : Z) : M W (result Z) :=
  let! fd := Socket k in
  match fd with
  | Err err => ret (Err (Wrap "vsock socket: " err ""))
  | Ok fd =>
    or_close fd ("vsock bind :" +:+ Itoa port +:+ ": ") (Bind k fd port)
    (or_close fd "vsock listen: " (Listen k fd 16)
    (let! ln := FileListener k fd in
     CloseFd k fd ;;;
     ret match ln with Err err => Err (Wrap "vsock file listener: " err "") | Ok ln => Ok ln end))
  end.
Definition listen (addr : string) : M W (result Z) :=
  match Cut addr ":"%char with
  | None => ret (Err (New ("listen addr " +:+ Quote addr +:+ ": want vsock:PORT or tcp:HOST:PORT")))
  | Some (kind, value) =>
    if String.eqb kind "vsock" then
      match ParseUint32 value with
      | Err err => ret (Err (Wrap "vsock port: " err ""))
      | Ok port => listenVsock port
      end
    else if String.eqb kind "tcp" then TCPListen k value
    else ret (Err (New ("unknown listen scheme " +:+ Quote kind)))
  end.

(** ** Connections

    [Accept] answers with a connection or an error; after the signal the
    listener is closed.  [fuel] bounds the calls of [Accept]; [None] when it is
    used up. *)
Context {C : Type} (Accept : Z → M W (result C)) (signalled : M W bool) (spawn : C → M W unit).

Fixpoint accept_loop (fuel : nat) (ln : Z) : M W (option (option error)) :=
  match fuel with
  | O => ret None
  | S fuel =>
    let! conn := Accept ln in
    match conn with
    | Err err =>
      let! done := signalled in
      if (done : bool) || Is err ErrClosed then ret (Some None) else accept_loop fuel ln
    | Ok conn => spawn conn ;;; accept_loop fuel ln
    end
  end.
(** The address: from the environment, or the protocol's port. *)
Definition agent_addr (getenv : string → string) : string :=
  let v := getenv "WARDEN_AGENT_LISTEN" in
  if negb (String.eqb v "") then v else "vsock:" +:+ Itoa DefaultPort.
Definition run (fuel : nat) (mount : M W (option error)) (addr : string) : M W (option (option error)) :=
  mount ;;;
  (let! ln := listen addr in
   match ln with
   | Err err => ret (Some (Some err))
   | Ok ln => defer (CloseFd k ln) (accept_loop fuel ln)
   end).
End Agent.

(** ** One value each way *)
Section Codec.
Context {W : Type} (decode : string * error → result Request) (encode : Response → result string).

(** What the connection delivers, and how it ends. *)
Definition ReadRequest (incoming : M W (string * error)) : M W (result Request) :=
  let! text := incoming in
  ret match decode text with Err err => Err (Wrap "guestproto read request: " err "") | Ok r => Ok r end.
Definition WriteResponse (write : string → M W (option error)) (r : Response) : M W (option error) :=
  wrapping "guestproto write response: "
    (match encode r with Err err => ret (Some err) | Ok text => write (text +:+ newline) end).
End Codec.

(** ** The agent's address *)
Lemma parse_digits_spec s n r :
  0 <= n → parse_digits s n = Ok r ↔ digits_val s n = Some r ∧ (s = "" ∨ r < 2 ^ 32).
Proof.
  revert n. induction s as [|a s IH]; intros n Hn; cbn [parse_digits digits_val].
  - split; [intros [= ->]; auto|intros [[= ->] _]; done].
  - destruct (ascii_digit (byte a)) eqn:Ed; [|split; [done|by intros [? _]]].
    assert (0 <= byte a - 48) as Hd by (unfold ascii_digit in Ed; bool_prop; lia).
    assert (∀ s m, 0 <= m → ∀ v, digits_val s m = Some v → m <= v) as Hmono.
    { clear. induction s as [|a s IH]; intros m Hm v; cbn [digits_val]; [intros [= ->]; lia|].
      destruct (ascii_digit (byte a)) eqn:Ed; [|done]. unfold ascii_digit in Ed. bool_prop.
      intros Hv%IH; lia. }
    destruct (Z.leb_spec (2 ^ 32) (n * 10 + (byte a - 48))) as [Hb|Hb].
    + split; [done|]. intros [Hv [|Hr]]; [done|]. apply Hmono in Hv; lia.
    + rewrite IH by lia. split; intros [Hv Hr]; (split; [done|]); right; [|destruct Hr; [done|done]].
      destruct Hr as [->|]; [|done]. cbn in Hv. injection Hv as <-. lia.
Qed.
Lemma ParseUint32_spec s n :
  ParseUint32 s = Ok n ↔ s ≠ "" ∧ digits_val s 0 = Some n ∧ n < 2 ^ 32.
Proof.
  unfold ParseUint32. destruct (String.eqb_spec s "") as [->|Hs]; [by split; [|intros [? _]]|].
  destruct (parse_digits s 0) as [m|e] eqn:E.
  - pose proof (proj1 (parse_digits_spec s 0 m ltac:(lia)) E) as [Hv Hr]. split.
    + intros [= <-]. split_and!; [done|done|]. by destruct Hr.
    + intros (_ & H & _). congruence.
  - split; [done|]. intros (_ & Hv & Hn).
    rewrite (proj2 (parse_digits_spec s 0 n ltac:(lia))) in E; [done|]. auto.
Qed.

(** ** Descriptors

    A kernel with a table of open descriptors, whose calls answer as told. *)
Section Descriptors.
Context (sock dup tcp : result Z) (bind_ listen_ : option error).
Definition opening (r : result Z) : M (gset Z) (result Z) := λ w,
  (Ret r, match r with Ok fd => {[fd]} ∪ w | Err _ => w end).
Definition fd_table : sockets (gset Z) :=
  mkSockets (opening sock) (λ _ _, ret bind_) (λ _ _, ret listen_) (λ fd, modify (λ w, w ∖ {[fd]}))
    (λ _, opening dup) (λ _, opening tcp).

(** (safety) Coming to listen loses no descriptor: when it fails, exactly those
    of before are open, whichever call failed, and when it succeeds exactly the
    listener is open in addition; it always comes to an end. *)
Theorem listen_keeps_descriptors addr w :
  (∀ fd, sock = Ok fd → fd ∉ w) → (∀ l, dup = Ok l ∨ tcp = Ok l → l ∉ w ∧ sock ≠ Ok l) →
  ∃ r w', listen fd_table addr w = (Ret r, w') ∧
    match r with Err _ => w' = w | Ok l => w' = {[l]} ∪ w ∧ l ∉ w end.
Proof.
  intros Hs Hd. unfold listen. destruct (Cut addr ":"%char) as [[kind value]|]; [|by eexists _, _].
  destruct (String.eqb kind "vsock").
  - destruct (ParseUint32 value) as [port|e]; [|by eexists _, _].
    unfold listenVsock, or_close, bind. cbn. destruct sock as [fd|e]; [|by eexists _, _].
    specialize (Hs fd eq_refl). destruct bind_, listen_; cbn; try (eexists _, _; split; [done|]; set_solver).
    destruct dup as [l|e]; cbn; (eexists _, _; split; [done|]); [|set_solver].
    destruct (Hd l ltac:(by left)) as [Hl Hne]. assert (l ≠ fd) by congruence. set_solver.
  - destruct (String.eqb kind "tcp"); [|by eexists _, _]. cbn. unfold opening.
    destruct tcp as [l|e]; eexists _, _; (split; [done|]); [|done]. by split; [|apply Hd; right].
Qed.
End Descriptors.
Lemma listen_keeps_descriptors_witness :
  let k := fd_table (Ok 5) (Err (New "EMFILE")) (Ok 9) None None in
  agent_addr (λ _, "") = "vsock:52" ∧
  ∃ r w', listen k "vsock:52" {[0; 1; 2]} = (Ret r, w') ∧
    match r with Err _ => w' = {[0; 1; 2]} | Ok l => w' = {[l]} ∪ {[0; 1; 2]} ∧ l ∉ ({[0; 1; 2]} : gset Z) end.
Proof.
  split; [reflexivity|]. apply listen_keeps_descriptors.
  - intros fd [= <-]. set_solver.
  - intros l [[=]|[= <-]]. split; [set_solver|discriminate].
Defined.

(** ** Taking connections

    A listener with a script of what arrives; when the script is over, the
    signal has come and the listener is closed. *)
Section Script.
Context {C : Type}.
Notation W := (list (result C) * list C)%type.
Definition next_connection (_ : Z) : M W (result C) := λ w,
  match w.1 with
  | r :: rest => (Ret r, (rest, w.2))
  | [] => (Ret (Err (Sentinel ErrClosed)), w)
  end.
Definition at_end : M W bool := gets (λ w, match w.1 with [] => true | _ => false end).
Definition begin_handler (c : C) : M W unit := modify (λ w, (w.1, w.2 ++ [c])).
Definition arrived (rs : list (result C)) : list C :=
  omap (λ r, match r with Ok c => Some c | Err _ => None end) rs.

(** C23 (liveness): The agent serves every connection that arrives until it is told
    to stop: whatever errors [Accept] reports in between, it begins a handler
    for each connection, once and in order, and then returns without an error;
    enough fuel is one call of [Accept] more than there are arrivals. *)
Theorem every_connection_served fuel ln rs done_ :
  (∀ r, r ∈ rs → ∀ e, r = Err e → Is e ErrClosed = false) → (length rs < fuel)%nat →
  accept_loop next_connection at_end begin_handler fuel ln (rs, done_) = (Ret (Some None), ([], done_ ++ arrived rs)).
Proof.
  intros Hrs. revert fuel done_. induction rs as [|r rs IH]; intros fuel done_ Hf;
    (destruct fuel as [|fuel]; [cbn in Hf; lia|]); cbn [accept_loop].
  - cbn. by rewrite app_nil_r.
  - assert (accept_loop next_connection at_end begin_handler fuel ln (rs, done_ ++ arrived [r]) =
      (Ret (Some None), ([], (done_ ++ arrived [r]) ++ arrived rs))) as Hrest.
    { apply IH; [intros r' Hr'; apply Hrs; by right|cbn in Hf; lia]. }
    rewrite <- app_assoc in Hrest. unfold bind at 1. cbn [next_connection fst snd].
    destruct r as [c|e]; [exact Hrest|]. cbn in Hrest. rewrite app_nil_r in Hrest.
    unfold bind, at_end, gets. cbn [fst]. rewrite (Hrs (Err e) ltac:(by left) e eq_refl).
    destruct rs; [by rewrite app_nil_r|exact Hrest].
Qed.
End Script.
Lemma every_connection_served_witness :
  accept_loop next_connection at_end begin_handler 4 3 ([Ok 7; Err (New "EMFILE"); Ok 8], []) =
  (Ret (Some None), ([], [7; 8])).
Proof.
  apply (every_connection_served (C := Z) 4 3 [Ok 7; Err (New "EMFILE"); Ok 8] []); [|cbn; lia].
  intros r Hr e ->. decompose_list_elem_of; by simplify_eq.
Defined.
