(* ===== verification/Cgroup.v ===== *)
(** * Cgroup attachment (internal/resources/cgroup.go)

    Limits are written to a fresh cgroup and the processes of a machine are
    moved into it.  /proc and the cgroup file system are an argument, as a
    record of actions; the order in which Go iterates over a map is one too. *)
From S2P Require Import Prelude GoUnicode GoStrings GoError GoPath Resources.

Record host (W : Type) := mkHost {
  ReadFile : string → M W (result string);
  ReadDir : string → M W (result (list string));
  Mkdir : string → M W (option error);
  WriteFile : string → string → M W (option error);
  Remove : string → M W (option error);
  RemoveAll : string → M W (option error)
}.
Arguments mkHost {W}. Arguments ReadFile {W}. Arguments ReadDir {W}. Arguments Mkdir {W}.
Arguments WriteFile {W}. Arguments Remove {W}. Arguments RemoveAll {W}.

(** ** Names and parsing *)

Definition id_rune (r : Z) : bool := alnum r || (r =? 45) || (r =? 95).
Definition sanitizeID (id : string) : string :=
  let b := concat_str ((λ r, if id_rune r then EncodeRune r else "_") <$> runes id) in
  if String.eqb b "" then "vm" else b.

(** The fields of /proc/<pid>/stat after the command name. *)
Definition parse_stat (pid : Z) (s : string) : result Z :=
  match LastIndexByte s ")"%char with
  | None => Err (New ("parse /proc/" +:+ Itoa pid +:+ "/stat"))
  | Some rparen =>
    if (String.length s <=? rparen + 1)%nat then Err (New ("parse /proc/" +:+ Itoa pid +:+ "/stat"))
    else
      match Fields (drop_str (S rparen) s) with
      | _ :: f :: _ =>
        match Atoi f with
        | Some z => Ok z
        | None => Err (New ("strconv.Atoi: parsing " +:+ Quote f))
        end
      | _ => Err (New ("parse /proc/" +:+ Itoa pid +:+ "/stat fields"))
      end
  end.

(** The first cgroup v2 line, or one with the id 0. *)
Fixpoint cgroup_line (root : string) (lines : list string) : option string :=
  match lines with
  | [] => None
  | line :: r =>
    match SplitN line ":"%char 3 with
    | [p0; p1; rel] =>
      if String.eqb p1 "" || String.eqb p0 "0" then
        Some (if String.eqb rel "/" then root else path_join [root; rel])
      else cgroup_line root r
    | _ => cgroup_line root r
    end
  end.

(** ** Descendants *)

(** One pass over the table of parents, in the order [es]. *)
Definition visit (st : gset Z * list Z * bool) (e : Z * Z) : gset Z * list Z * bool :=
  let '(seen, out, changed) := st in
  let '(pid, parent) := e in
  if bool_decide (pid ∈ seen) || negb (bool_decide (parent ∈ seen)) then st
  else ({[pid]} ∪ seen, out ++ [pid], true).
Fixpoint close (fuel : nat) (order : nat → list (Z * Z)) (seen : gset Z) (out : list Z) : option (list Z) :=
  match fuel with
  | O => None
  | S fuel =>
    match fold_left visit (order fuel) (seen, out, false) with
    | (seen, out, true) => close fuel order seen out
    | (_, out, false) => Some out
    end
  end.
(** [order ppid n]: the entries of the table as the pass with [n] to go meets them. *)
Definition descendants (order : gmap Z Z → nat → list (Z * Z)) (ppid : gmap Z Z) (root : Z) : option (list Z) :=
  close (S (size ppid)) (order ppid) {[root]} [].

Section Host.
Context {W : Type} (h : host W) (order : gmap Z Z → nat → list (Z * Z)).

Definition procPPid (pid : Z) : M W (result Z) :=
  let! data := ReadFile h (path_join ["/proc"; Itoa pid; "stat"]) in
  ret match data with Err err => Err err | Ok s => parse_stat pid s end.
Fixpoint parents (names : list string) (ppid : gmap Z Z) : M W (gmap Z Z) :=
  match names with
  | [] => ret ppid
  | name :: r =>
    match Atoi name with
    | None => parents r ppid
    | Some pid =>
      let! parent := procPPid pid in
      parents r match parent with Ok p => <[pid := p]> ppid | Err _ => ppid end
    end
  end.
Definition descendantPIDs (rootPID : Z) : M W (list Z) :=
  let! entries := ReadDir h "/proc" in
  match entries with
  | Err _ => ret []
  | Ok names => let! ppid := parents names ∅ in ret (default [] (descendants order ppid rootPID))
  end.

Definition currentCgroupDir (root self : string) : M W (result string) :=
  let self := if String.eqb self "" then "/proc/self/cgroup" else self in
  let! data := ReadFile h self in
  ret match data with
      | Err err => Err err
      | Ok data =>
        match cgroup_line root (SplitByte data (chr 10)) with
        | Some dir => Ok dir
        | None => Err (New ("no cgroup v2 line in " +:+ self))
        end
      end.

(** ** Attaching *)
Definition writeCgroup (dir file value : string) : M W (option error) :=
  WriteFile h (path_join [dir; file]) (value +:+ newline).
Fixpoint move_loop (dir : string) (pids : list Z) (last : option error) (moved : nat)
    : M W (option error * nat) :=
  match pids with
  | [] => ret (last, moved)
  | pid :: r =>
    let! e := writeCgroup dir "cgroup.procs" (Itoa pid) in
    match e with
    | Some err => move_loop dir r (Some err) moved
    | None => move_loop dir r last (S moved)
    end
  end.
Definition moveProcs (dir : string) (pids : list Z) : M W (option error) :=
  let! r := move_loop dir pids None 0 in
  let '(last, moved) := r in
  ret (match moved with
       | O => Some (match last with Some err => err | None => New "no processes to move" end)
       | S _ => None
       end).

Fixpoint write_pids (path : string) (pids : list Z) : M W unit :=
  match pids with
  | [] => ret tt
  | p :: r => WriteFile h path (Itoa p) ;;; write_pids path r
  end.
(** The cleanup that [Attach] returns. *)
Definition cleanup (parent dir : string) (pid : Z) : M W (option error) :=
  let! ds := descendantPIDs pid in
  write_pids (path_join [parent; "cgroup.procs"]) (pid :: ds) ;;;
  let! e := Remove h dir in
  match e with None => ret None | Some _ => RemoveAll h dir end.

Record CgroupV2 := mkCgroup { Require : bool; Root : string; Self : string }.

Definition missing (c : CgroupV2) (what : string) (err : error) : result (M W (option error)) :=
  if Require c then Err (Wrap ("cgroup v2 " +:+ what +:+ ": ") err "") else Ok (ret None).

(** One mandatory write: on failure the cleanup runs and the rest is skipped. *)
Definition mandatory (c : CgroupV2) (parent dir : string) (pid : Z) (what : string)
    (m : M W (option error)) (k : M W (result (M W (option error)))) : M W (result (M W (option error))) :=
  let! e := m in
  match e with
  | Some err => cleanup parent dir pid ;;; ret (missing c what err)
  | None => k
  end.

Definition Attach (c : CgroupV2) (id : string) (pid : Z) (profile : Profile)
    : M W (result (M W (option error))) :=
  match Profile_Validate profile with
  | Some err => ret (Err err)
  | None =>
    let root := if String.eqb (Root c) "" then "/sys/fs/cgroup" else Root c in
    let! parent := currentCgroupDir root (Self c) in
    match parent with
    | Err err => ret (missing c "resolve current cgroup" err)
    | Ok parent =>
      let dir := path_join [parent; "warden-" +:+ sanitizeID id] in
      let! e := Mkdir h dir in
      match (match e with Some err => if Is err EEXIST then None else Some err | None => None end) with
      | Some err => ret (missing c ("create " +:+ dir) err)
      | None =>
        mandatory c parent dir pid "memory.max"
          (writeCgroup dir "memory.max" (Itoa (MemoryBytes profile)))
        (mandatory c parent dir pid "cpu.max"
          (writeCgroup dir "cpu.max" (Itoa (CPUQuotaUs profile) +:+ " " +:+ Itoa (CPUPeriodUs profile)))
        (mandatory c parent dir pid "pids.max"
          (writeCgroup dir "pids.max" (Itoa (PIDsMax profile)))
        (writeCgroup dir "memory.swap.max" "0" ;;;
         writeCgroup dir "memory.oom.group" "1" ;;;
         let! ds := descendantPIDs pid in
         mandatory c parent dir pid "cgroup.procs" (moveProcs dir (pid :: ds))
         (ret (Ok (cleanup parent dir pid))))))
      end
    end
  end.
End Host.

(** ** Attaching returns if the host's calls do *)
Record host_returns {W} (h : host W) : Prop := {
  ret_ReadFile p : returns (ReadFile h p); ret_ReadDir p : returns (ReadDir h p);
  ret_Mkdir p : returns (Mkdir h p); ret_WriteFile p s : returns (WriteFile h p s);
  ret_Remove p : returns (Remove h p); ret_RemoveAll p : returns (RemoveAll h p)
}.
Section Returns.
Context {W : Type} (h : host W) (order : gmap Z Z → nat → list (Z * Z)) (Hh : host_returns h).
Local Ltac host_steps :=
  destruct Hh; repeat first
    [ progress intros
    | match goal with
      | |- returns (bind _ _) => apply returns_bind
      | |- returns (match ?x with _ => _ end) => destruct x
      end
    | solve [auto with go] ].
Lemma descendantPIDs_returns pid : returns (descendantPIDs h order pid).
Proof.
  assert (∀ names ppid, returns (parents h names ppid)) as Hp.
  { induction names as [|n names IH]; intros ppid; cbn [parents]; unfold procPPid; host_steps. }
  unfold descendantPIDs. host_steps.
Qed.
Lemma cleanup_returns parent dir pid : returns (cleanup h order parent dir pid).
Proof.
  pose proof (descendantPIDs_returns pid).
  assert (∀ path pids, returns (write_pids h path pids)) as Hw
    by (intros path; induction pids as [|p pids IH]; cbn [write_pids]; host_steps).
  unfold cleanup. host_steps.
Qed.
Lemma moveProcs_returns dir pids : returns (moveProcs h dir pids).
Proof.
  assert (∀ l m, returns (move_loop h dir pids l m)) as Hm
    by (induction pids as [|p pids IH]; intros l m; cbn [move_loop]; unfold writeCgroup; host_steps).
  unfold moveProcs. host_steps.
Qed.
Lemma Attach_returns c id pid profile : returns (Attach h order c id pid profile).
Proof.
  pose proof cleanup_returns. pose proof moveProcs_returns. pose proof (descendantPIDs_returns pid).
  unfold Attach, currentCgroupDir, mandatory, writeCgroup. host_steps.
Qed.
End Returns.

(** ** Descendants, specified *)

Inductive descends (ppid : gmap Z Z) (root : Z) : Z → Prop :=
| desc_child p : ppid !! p = Some root → descends ppid root p
| desc_step p q : ppid !! p = Some q → descends ppid root q → descends ppid root p.

Section Closure.
Context (ppid : gmap Z Z) (root : Z).

(** The search so far: what was found is new, distinct, and descends from the root. *)
Record found (seen : gset Z) (out : list Z) : Prop := {
  found_seen : seen = {[root]} ∪ list_to_set out;
  found_nodup : NoDup out;
  found_root : root ∉ out;
  found_desc p : p ∈ out → descends ppid root p ∧ is_Some (ppid !! p)
}.
Lemma visit_found seen out ch e :
  ppid !! e.1 = Some e.2 → found seen out →
  ∃ seen' out' ch', visit (seen, out, ch) e = (seen', out', ch') ∧ found seen' out' ∧
    ((seen', out', ch') = (seen, out, ch) ∧ (e.2 ∈ seen → e.1 ∈ seen) ∨
     ch' = true ∧ length out' = S (length out)).
Proof.
  intros He Hf. destruct e as [p q]. cbn [fst snd] in He. unfold visit.
  destruct (bool_decide_reflect (p ∈ seen)) as [Hp|Hp]; cbn [orb].
  { eexists _, _, _. split; [reflexivity|]. split; [done|]. by left. }
  destruct (bool_decide_reflect (q ∈ seen)) as [Hq|Hq]; cbn [negb].
  2: { eexists _, _, _. split; [reflexivity|]. split; [done|]. left. by split. }
  eexists _, _, _. split; [reflexivity|]. split; [|right; split; [done|rewrite length_app; cbn; lia]].
  destruct Hf as [Hs Hn Hr Hd]. rewrite Hs in Hp, Hq.
  assert (p ∉ out ∧ p ≠ root) as [Hpo Hpr] by (split; [intros H|intros ->]; apply Hp; set_solver).
  split.
  - rewrite Hs. set_solver.
  - apply NoDup_app. split; [done|]. split; [|apply NoDup_singleton]. intros x Hx ->%list_elem_of_singleton.
    done.
  - rewrite elem_of_app, list_elem_of_singleton. intros [|]; congruence.
  - intros x [Hx| ->%list_elem_of_singleton]%elem_of_app; [by apply Hd|]. split; [|by eexists].
    apply elem_of_union in Hq as [->%elem_of_singleton|Hq]; [by apply desc_child|].
    apply elem_of_list_to_set in Hq. by apply (desc_step _ _ _ q); [|apply Hd].
Qed.
Lemma pass_found es seen out ch :
  (∀ e, e ∈ es → ppid !! e.1 = Some e.2) → found seen out →
  ∃ seen' out' ch', fold_left visit es (seen, out, ch) = (seen', out', ch') ∧ found seen' out' ∧
    ((seen', out', ch') = (seen, out, ch) ∧ (∀ e, e ∈ es → e.2 ∈ seen → e.1 ∈ seen) ∨
     ch' = true ∧ (length out < length out')%nat).
Proof.
  revert seen out ch. induction es as [|e es IH]; intros seen out ch He Hf; cbn [fold_left].
  { eexists _, _, _. split; [reflexivity|]. split; [done|]. left. split; [done|].
    by intros e ?%not_elem_of_nil. }
  destruct (visit_found seen out ch e) as (s1 & o1 & c1 & -> & Hf1 & H1); [apply He; by left|done|].
  destruct (IH s1 o1 c1) as (s2 & o2 & c2 & -> & Hf2 & H2); [intros; apply He; by right|done|].
  eexists _, _, _. split; [reflexivity|]. split; [done|].
  destruct H1 as [[[= -> -> ->] H1]|[-> H1]], H2 as [[[= -> -> ->] H2]|[-> H2]]; [left|right; split; done || lia..].
  split; [done|]. intros e' [->|He']%elem_of_cons; auto.
Qed.

(** A table is met in some order, each entry once. *)
Context (order : nat → list (Z * Z)).
Hypothesis Horder : ∀ n, order n ≡ₚ map_to_list ppid.

Lemma found_length seen out : found seen out → (length out <= size ppid)%nat.
Proof.
  intros [_ Hn _ Hd]. rewrite <- (size_list_to_set (C := gset Z) out Hn).
  rewrite <- (size_dom (D := gset Z) ppid). apply subseteq_size. intros p Hp%elem_of_list_to_set.
  apply elem_of_dom. by apply Hd.
Qed.
Lemma close_correct fuel seen out :
  found seen out → (size ppid < fuel + length out)%nat →
  ∃ res, close fuel order seen out = Some res ∧ NoDup res ∧
    ∀ p, p ∈ res ↔ p ≠ root ∧ descends ppid root p.
Proof.
  revert seen out. induction fuel as [|fuel IH]; intros seen out Hf Hfuel.
  { pose proof (found_length _ _ Hf). lia. }
  cbn [close]. assert (∀ e, e ∈ order fuel ↔ ppid !! e.1 = Some e.2) as He.
  { intros [p q]. rewrite (Horder fuel). apply elem_of_map_to_list. }
  destruct (pass_found (order fuel) seen out false) as (s1 & o1 & c1 & -> & Hf1 & H); [by intros; apply He|done|].
  destruct H as [[[= -> -> ->] Hcl]|[-> Hlen]]; [|apply IH; [done|lia]].
  exists out. split; [done|]. destruct Hf1 as [Hs Hn Hr Hd]. split; [done|]. intros p. split.
  - intros Hp. split; [by intros ->|]. by apply Hd.
  - intros [Hne Hp].
    assert (∀ p, descends ppid root p → p ∈ seen) as Hall.
    { induction 1 as [x Hx|x y Hx _ IHx].
      - apply (Hcl (x, root)); [by apply He|]. set_solver.
      - by apply (Hcl (x, y)); [apply He|]. }
    apply Hall in Hp. rewrite Hs in Hp. set_solver.
Qed.
End Closure.

(** C26 (termination): in whatever order the table of parents is walked, the search
    ends within one pass per process, and finds exactly the descendants of
    the root, each once, even if the table has cycles. *)
Theorem descendants_correct order ppid root :
  (∀ n, order ppid n ≡ₚ map_to_list ppid) →
  ∃ res, descendants order ppid root = Some res ∧ NoDup res ∧
    ∀ p, p ∈ res ↔ p ≠ root ∧ descends ppid root p.
Proof.
  intros Ho. unfold descendants. apply (close_correct ppid root (order ppid) Ho); [|cbn; lia].
  split; [set_solver|apply NoDup_nil_2|set_solver|set_solver].
Qed.
(** 7 and 8 are children of 1, 9 of 8; 4 and 5 are each other's parents. *)
Definition sample_table : gmap Z Z := {[7 := 1; 8 := 1; 9 := 8; 4 := 5; 5 := 4]}.
Lemma descendants_correct_witness :
  ∃ res, descendants (λ m _, map_to_list m) sample_table 1 = Some res ∧ NoDup res ∧ 9 ∈ res ∧ 4 ∉ res.
Proof.
  destruct (descendants_correct (λ m _, map_to_list m) sample_table 1) as (res & E & Hn & Hp);
    [reflexivity|].
  exists res. split; [exact E|]. split; [exact Hn|]. vm_compute in E. injection E as <-.
  split; apply (bool_decide_unpack _); vm_compute; exact I.
Defined.

(** ** Attaching, specified

    A host that logs what it is asked and answers from the log so far. *)
Inductive host_event :=
| HRead (path : string) | HReadDir (path : string) | HMkdir (path : string)
| HWrite (path data : string) | HRemove (path : string) | HRemoveAll (path : string).

Section Enforced.
Context (reads : string → result string) (dirs : string → result (list string)).
Context (fails : list host_event → option error) (order : gmap Z Z → nat → list (Z * Z)).

Definition ask (e : host_event) : M (list host_event) (option error) := λ log,
  (Ret (fails (log ++ [e])), log ++ [e]).
Definition logging_host : host (list host_event) :=
  mkHost (λ p log, (Ret (reads p), log ++ [HRead p])) (λ p log, (Ret (dirs p), log ++ [HReadDir p]))
    (λ p, ask (HMkdir p)) (λ p d, ask (HWrite p d)) (λ p, ask (HRemove p)) (λ p, ask (HRemoveAll p)).

(** In the log, [e] was asked and did not fail. *)
Definition succeeded (log : list host_event) (e : host_event) : Prop :=
  ∃ pre post, log = pre ++ e :: post ∧ fails (pre ++ [e]) = None.
(** The action only adds to the log. *)
Definition extends {A} (m : M (list host_event) A) : Prop := ∀ log, ∃ l, (m log).2 = log ++ l.

Lemma extends_ret {A} (a : A) : extends (ret a).
Proof. intros log. exists []. by rewrite app_nil_r. Qed.
Lemma extends_bind {A B} (m : M _ A) (k : A → M _ B) :
  extends m → (∀ a, extends (k a)) → extends (bind m k).
Proof.
  intros Hm Hk log. destruct (Hm log) as [l1 E]. unfold bind.
  destruct (m log) as [[a|v|] log1]; cbn in E; subst; [|by exists l1..].
  destruct (Hk a (log ++ l1)) as [l2 ->]. exists (l1 ++ l2). by rewrite app_assoc.
Qed.
Lemma extends_ask e : extends (ask e).
Proof. intros log. by exists [e]. Qed.
Lemma extends_read p : extends (ReadFile logging_host p).
Proof. intros log. by exists [HRead p]. Qed.
Lemma extends_dir p : extends (ReadDir logging_host p).
Proof. intros log. by exists [HReadDir p]. Qed.
Hint Resolve extends_ret extends_bind extends_ask extends_read extends_dir : core.
Lemma extends_run {A} (m : M _ A) log a log' : extends m → m log = (Ret a, log') → ∃ l, log' = log ++ l.
Proof. intros Hm E. destruct (Hm log) as [l El]. rewrite E in El. by exists l. Qed.

Lemma extends_parents names ppid : extends (parents logging_host names ppid).
Proof.
  revert ppid. induction names as [|n names IH]; intros ppid; cbn [parents]; [auto|].
  destruct (Atoi n); [|auto]. apply extends_bind; [|auto]. unfold procPPid. auto.
Qed.
Hint Resolve extends_parents : core.
Lemma extends_descendants pid : extends (descendantPIDs logging_host order pid).
Proof. unfold descendantPIDs. apply extends_bind; [auto|]. intros [names|err]; auto. Qed.
Lemma extends_current root self : extends (currentCgroupDir logging_host root self).
Proof. unfold currentCgroupDir. auto. Qed.
Hint Resolve extends_descendants extends_current : core.
Lemma extends_writeCgroup dir f v : extends (writeCgroup logging_host dir f v).
Proof. apply extends_ask. Qed.
Hint Resolve extends_writeCgroup : core.
Lemma extends_moves dir pids last n : extends (move_loop logging_host dir pids last n).
Proof.
  revert last n. induction pids as [|p pids IH]; intros last n; cbn [move_loop]; [auto|].
  apply extends_bind; [auto|]. intros [err|]; auto.
Qed.

Lemma succeeded_app log l e : succeeded log e → succeeded (log ++ l) e.
Proof.
  intros (pre & post & -> & H). exists pre, (post ++ l). split; [by rewrite <- app_assoc|done].
Qed.
Lemma asked_succeeded e log log' : ask e log = (Ret None, log') → succeeded log' e.
Proof. intros [= Hf <-]. exists log, []. by split. Qed.

(** Every process was tried, and one that was moved is among them. *)
Definition moved_into (dir : string) (p : Z) : host_event :=
  HWrite (path_join [dir; "cgroup.procs"]) (Itoa p +:+ newline).
Lemma move_loop_some dir pids last n log last' n' log' :
  move_loop logging_host dir pids last n log = (Ret (last', n'), log') →
  (∀ p, p ∈ pids → moved_into dir p ∈ log') ∧
  ((n < n')%nat → ∃ p, p ∈ pids ∧ succeeded log' (moved_into dir p)).
Proof.
  revert last n log. induction pids as [|p pids IH]; intros last n log; cbn [move_loop].
  { intros [= <- <- <-]. split; [set_solver|lia]. }
  intros (e & log1 & H1 & H2)%bind_inv_Ret.
  assert (moved_into dir p ∈ log') as Hin.
  { assert (∃ l, log' = log1 ++ l) as [l ->].
    { destruct e; (eapply extends_run; [|exact H2]); apply extends_moves. }
    injection H1 as _ <-. rewrite !elem_of_app. left. right. by left. }
  destruct e as [err|]; (destruct (IH _ _ _ H2) as [Hall Hs]; split; [set_solver|]).
  - intros (q & Hq & Hsq)%Hs. exists q. split; [by right|done].
  - intros _. exists p. split; [by left|]. apply asked_succeeded in H1.
    destruct (extends_run _ _ _ _ (extends_moves _ _ _ _) H2) as [l ->]. by apply succeeded_app.
Qed.
Lemma moveProcs_some dir pids log log' :
  moveProcs logging_host dir pids log = (Ret None, log') →
  (∀ p, p ∈ pids → moved_into dir p ∈ log') ∧ ∃ p, p ∈ pids ∧ succeeded log' (moved_into dir p).
Proof.
  intros ([last n] & log1 & H1 & H2)%bind_inv_Ret. destruct n as [|n]; [done|]. injection H2 as <-.
  apply move_loop_some in H1 as [Ha Hs]. split; [exact Ha|]. apply Hs. lia.
Qed.

(** What /proc says: [q] is the parent of [p]. *)
Definition parent_in_proc (p q : Z) : Prop :=
  ∃ names name stat, dirs "/proc" = Ok names ∧ name ∈ names ∧ Atoi name = Some p ∧
    reads (path_join ["/proc"; Itoa p; "stat"]) = Ok stat ∧ parse_stat p stat = Ok q.
(** A process of the machine: its own, or one below it. *)
Inductive of_machine (pid : Z) : Z → Prop :=
| of_itself : of_machine pid pid
| of_child p q : parent_in_proc p q → of_machine pid q → of_machine pid p.

Lemma parents_run names ppid log :
  ∃ table log', parents logging_host names ppid log = (Ret table, log') ∧
    ∀ p q, table !! p = Some q →
      ppid !! p = Some q ∨ ∃ name stat, name ∈ names ∧ Atoi name = Some p ∧
        reads (path_join ["/proc"; Itoa p; "stat"]) = Ok stat ∧ parse_stat p stat = Ok q.
Proof.
  revert ppid log. induction names as [|name names IH]; intros ppid log; cbn [parents].
  { eexists _, _. split; [done|]. by left. }
  destruct (Atoi name) as [pid|] eqn:Ea.
  2: { destruct (IH ppid log) as (t & l & E & H). exists t, l. split; [done|]. intros p q Hp.
       destruct (H p q Hp) as [?|(n & st & Hn & ?)]; [by left|right]. exists n, st. split; [by right|done]. }
  unfold procPPid. cbn [logging_host ReadFile]. unfold bind, ret.
  destruct (IH (match match reads (path_join ["/proc"; Itoa pid; "stat"]) with Err err => Err err | Ok s => parse_stat pid s end
                with Ok p => <[pid := p]> ppid | Err _ => ppid end)
               (log ++ [HRead (path_join ["/proc"; Itoa pid; "stat"])])) as (t & l & E & H).
  exists t, l. split; [exact E|]. intros p q Hp.
  destruct (H p q Hp) as [Hold|(n & st & Hn & ?)]; [|right; exists n, st; split; [by right|done]].
  destruct (reads _) as [stat|err] eqn:Er; [|by left].
  destruct (parse_stat pid stat) as [par|err] eqn:Eps; [|by left].
  apply lookup_insert_Some in Hold as [[<- <-]|[_ ?]]; [right|by left].
  exists name, stat. split; [by left|done].
Qed.
Hypothesis Horder : ∀ ppid n, order ppid n ≡ₚ map_to_list ppid.
Lemma descendantPIDs_of pid log ds log' :
  descendantPIDs logging_host order pid log = (Ret ds, log') → ∀ p, p ∈ ds → of_machine pid p.
Proof.
  intros (names & log1 & H1 & H2)%bind_inv_Ret. injection H1 as <- <-.
  destruct (dirs "/proc") as [names|err] eqn:Ed; [|injection H2 as <- <-; set_solver].
  destruct (parents_run names ∅ (log ++ [HReadDir "/proc"])) as (t & l & E & Ht).
  rewrite (bind_Ret _ _ _ _ _ E) in H2. injection H2 as <- <-.
  destruct (descendants order t pid) as [res|] eqn:Er; [|cbn; set_solver].
  assert (∀ p q, t !! p = Some q → parent_in_proc p q) as Hpar.
  { intros p q [Hp|(n & st & Hn)]%Ht; [by rewrite lookup_empty in Hp|]. by exists names, n, st. }
  intros p Hp. assert (descends t pid p) as Hd.
  { unfold descendants in Er. destruct (close_correct t pid (order t) (Horder t) (S (size t)) {[pid]} [])
      as (res' & Er' & _ & H); [|cbn; lia|].
    - split; [set_solver|apply NoDup_nil_2|set_solver|set_solver].
    - rewrite Er in Er'. injection Er' as <-. by apply H in Hp as [_ ?]. }
  clear Hp. induction Hd as [p Hp|p q Hp _ IH].
  - eapply of_child; [by apply Hpar|apply of_itself].
  - eapply of_child; [by apply Hpar|done].
Qed.

(** A mandatory step of a required cgroup did not fail. *)
Lemma mandatory_ok c parent dir pid what m k log cl log' :
  Require c = true → mandatory logging_host order c parent dir pid what m k log = (Ret (Ok cl), log') →
  ∃ log1, m log = (Ret None, log1) ∧ k log1 = (Ret (Ok cl), log').
Proof.
  intros Hr. unfold mandatory. intros (e & log1 & H1 & H2)%bind_inv_Ret. destruct e as [err|]; [|by exists log1].
  apply bind_inv_Ret in H2 as (? & ? & _ & H2). unfold missing in H2. by rewrite Hr in H2.
Qed.

(** The group of a machine: below the one that the process itself is in. *)
Definition group_of (c : CgroupV2) (id dir : string) : Prop :=
  ∃ text parent,
    reads (if String.eqb (Self c) "" then "/proc/self/cgroup" else Self c) = Ok text ∧
    cgroup_line (if String.eqb (Root c) "" then "/sys/fs/cgroup" else Root c) (SplitByte text (chr 10)) = Some parent ∧
    dir = path_join [parent; "warden-" +:+ sanitizeID id].

(** C25 (safety): when the cgroup is required, [Attach] returns without an error
    only if the profile constrains, each of its memory, cpu and pids limits has
    been written to the machine's own group, named by its id below the process's
    own, without an error, the machine's process was told to move there, and it
    or a process below it in /proc has been moved.  (One is enough, see
    [Attach_leaves_machine_outside]; /proc does not change meanwhile.) *)
Theorem Attach_enforces c id pid profile log cl log' :
  Require c = true → Attach logging_host order c id pid profile log = (Ret (Ok cl), log') →
  constrains profile ∧
  ∃ dir, group_of c id dir ∧ HMkdir dir ∈ log' ∧
    succeeded log' (HWrite (path_join [dir; "memory.max"]) (Itoa (MemoryBytes profile) +:+ newline)) ∧
    succeeded log' (HWrite (path_join [dir; "cpu.max"])
      ((Itoa (CPUQuotaUs profile) +:+ " " +:+ Itoa (CPUPeriodUs profile)) +:+ newline)) ∧
    succeeded log' (HWrite (path_join [dir; "pids.max"]) (Itoa (PIDsMax profile) +:+ newline)) ∧
    moved_into dir pid ∈ log' ∧
    ∃ p, of_machine pid p ∧ succeeded log' (moved_into dir p).
Proof.
  intros Hr. unfold Attach. destruct (Profile_Validate profile) eqn:Ev; [done|].
  apply Profile_Validate_spec in Ev. intros (pr & log1 & H1 & H)%bind_inv_Ret. split; [done|].
  destruct pr as [parent|err]; [|unfold missing in H; by rewrite Hr in H].
  set (dir := path_join [parent; _]) in *. exists dir.
  assert (group_of c id dir) as Hdir.
  { unfold currentCgroupDir in H1. apply bind_inv_Ret in H1 as (data & l1 & [= <- _] & [= H1 _]).
    destruct (reads _) as [text|err] eqn:Er; [|done]. destruct (cgroup_line _ _) as [par|] eqn:El; [|done].
    injection H1 as ->. by exists text, parent. }
  apply bind_inv_Ret in H as (e & log2 & H2 & H).
  destruct (match e with Some err => _ | None => None end); [unfold missing in H; by rewrite Hr in H|].
  assert (HMkdir dir ∈ log2) as Hmk by (injection H2 as _ <-; apply elem_of_app; right; by left).
  apply mandatory_ok in H as (log3 & Hmem & H); [|done].
  apply mandatory_ok in H as (log4 & Hcpu & H); [|done].
  apply mandatory_ok in H as (log5 & Hpids & H); [|done].
  apply bind_inv_Ret in H as (? & log6 & H6 & H). apply bind_inv_Ret in H as (? & log7 & H7 & H).
  apply bind_inv_Ret in H as (ds & log8 & H8 & H).
  apply mandatory_ok in H as (log9 & H9 & [= _ <-]); [|done].
  destruct (extends_run _ _ _ _ (extends_writeCgroup _ _ _) Hmem) as [l3 E3].
  destruct (extends_run _ _ _ _ (extends_writeCgroup _ _ _) Hcpu) as [l4 E4].
  destruct (extends_run _ _ _ _ (extends_writeCgroup _ _ _) Hpids) as [l5 E5].
  destruct (extends_run _ _ _ _ (extends_writeCgroup _ _ _) H6) as [l6 E6].
  destruct (extends_run _ _ _ _ (extends_writeCgroup _ _ _) H7) as [l7 E7].
  destruct (extends_run _ _ _ _ (extends_descendants pid) H8) as [l8 E8].
  assert (∃ l9, log9 = log8 ++ l9) as [l9 E9].
  { eapply extends_run; [|exact H9]. apply extends_bind; [apply extends_moves|]. intros [? []]; auto. }
  pose proof (descendantPIDs_of _ _ _ _ H8) as Hds.
  apply moveProcs_some in H9 as (Hall & p & Hp & H9). apply asked_succeeded in Hmem, Hcpu, Hpids.
  split_and!; [exact Hdir| | | | | |].
  - subst. rewrite !elem_of_app. tauto.
  - subst log4 log5 log6 log7 log8 log9. by repeat (done || apply succeeded_app).
  - subst log5 log6 log7 log8 log9. by repeat (done || apply succeeded_app).
  - subst log6 log7 log8 log9. by repeat (done || apply succeeded_app).
  - apply Hall. by left.
  - exists p. split; [|done]. apply elem_of_cons in Hp as [->|Hp]; [apply of_itself|by apply Hds].
Qed.
End Enforced.

(** A host where everything works; the machine is process 42 with no children. *)
Definition sample_reads (p : string) : result string :=
  if String.eqb p "/proc/self/cgroup" then Ok ("0::/system.slice/warden.service" +:+ newline)
  else Ok "42 (firecracker) S 1 42".
Lemma Attach_enforces_witness :
  ∃ cl log', Attach (logging_host sample_reads (λ _, Ok ["42"; "self"]) (λ _, None)) (λ m _, map_to_list m)
      (mkCgroup true "" "") "fc-1" 42 DefaultProfile [] = (Ret (Ok cl), log') ∧ length log' = 10%nat ∧
    ∃ dir, group_of sample_reads (mkCgroup true "" "") "fc-1" dir ∧
      HWrite (path_join [dir; "cgroup.procs"]) ("42" +:+ newline) ∈ log'.
Proof.
  eexists _, _. split; [vm_compute; reflexivity|]. split; [reflexivity|].
  destruct (Attach_enforces sample_reads (λ _, Ok ["42"; "self"]) (λ _, None) (λ m _, map_to_list m)
    ltac:(done) (mkCgroup true "" "") "fc-1" 42 DefaultProfile []
    (cleanup (logging_host sample_reads (λ _, Ok ["42"; "self"]) (λ _, None)) (λ m _, map_to_list m)
      "/sys/fs/cgroup/system.slice/warden.service" "/sys/fs/cgroup/system.slice/warden.service/warden-fc-1" 42)
    (Attach (logging_host sample_reads (λ _, Ok ["42"; "self"]) (λ _, None)) (λ m _, map_to_list m)
      (mkCgroup true "" "") "fc-1" 42 DefaultProfile []).2)
    as (_ & dir & Hg & _ & _ & _ & _ & Hm & _); [reflexivity|vm_compute; reflexivity|].
  exists dir. split; [exact Hg|]. vm_compute in Hm |- *. exact Hm.
Defined.
(** It is enough that one process was moved: here the machine itself (42) stays
    outside the group, and only its child (43) is limited. *)
Example Attach_leaves_machine_outside :
  let fails log := match last log with
                   | Some (HWrite p d) => if String.eqb d ("42" +:+ newline) then Some (New "EPERM") else None
                   | _ => None
                   end in
  let reads p := if String.eqb p "/proc/43/stat" then Ok "43 (fc_vcpu 0) S 42 42" else sample_reads p in
  is_ok (default (Err (New "")) (match (Attach (logging_host reads (λ _, Ok ["42"; "43"]) fails)
    (λ m _, map_to_list m) (mkCgroup true "" "") "fc-1" 42 DefaultProfile []).1 with
    | Ret r => Some r | _ => None end)) = true.
Proof. vm_compute. reflexivity. Qed.
