(* ===== verification/Sparse.v ===== *)
(** * Rebasing a sparse memory diff (internal/runtime/sparse.go)

    A Diff memory file is sparse: a byte is either data or lies in a hole.
    [applySparseDiff] walks its extents with SEEK_DATA and SEEK_HOLE and copies
    each onto the base file at the same offset. *)
From S2P Require Import Prelude GoStrings GoError.

Abbreviation sparse := (list (option Z)).
Abbreviation bytes := (list Z).

(** [lseek]: the next data at or after an offset ([None] is ENXIO), the next
    hole, of which every file has one at its end. *)
Definition seek_data (d : sparse) (off : nat) : option nat :=
  match list_find is_Some (drop off d) with Some (i, _) => Some (off + i)%nat | None => None end.
Definition seek_hole (d : sparse) (off : nat) : nat :=
  match list_find (λ b, b = None) (drop off d) with
  | Some (i, _) => (off + i)%nat
  | None => length d
  end.
(** A write at an offset; beyond its end the file grows, with zeros between. *)
Definition pad (n : nat) (l : bytes) : bytes := l ++ replicate (n - length l) 0.
Definition write_at (base : bytes) (off : nat) (chunk : bytes) : bytes :=
  list_inserts off chunk (pad (off + length chunk) base).
Definition extent (d : sparse) (first last : nat) : bytes :=
  default 0 <$> take (last - first) (drop first d).

Section Rebase.
(** The failures of the host: of a search for data or a hole from an offset, of
    positioning a file there, and of a copy, which may have written some bytes
    by then. *)
Context (seek_fails pos_fails : nat → option error) (copy_fails : nat → option (error * nat)).

Fixpoint rebase_loop (fuel : nat) (diff : sparse) (base : bytes) (off : nat)
    : option (option error * bytes) :=
  match fuel with
  | O => None
  | S fuel =>
    match seek_fails off with
    | Some err => Some (Some (Wrap ("seek data " +:+ Itoa (Z.of_nat off) +:+ ": ") err ""), base)
    | None =>
      match seek_data diff off with
      | None => Some (None, base)
      | Some first =>
        match seek_fails first with
        | Some err => Some (Some (Wrap ("seek hole " +:+ Itoa (Z.of_nat first) +:+ ": ") err ""), base)
        | None =>
          let last := seek_hole diff first in
          if (last <=? first)%nat then Some (None, base)
          else
            match pos_fails first with
            | Some err => Some (Some err, base)
            | None =>
              match copy_fails first with
              | Some (err, n) =>
                Some (Some (Wrap ("copy extent [" +:+ Itoa (Z.of_nat first) +:+ "," +:+
                                  Itoa (Z.of_nat last) +:+ "): ") err ""),
                      write_at base first (take n (extent diff first last)))
              | None => rebase_loop fuel diff (write_at base first (extent diff first last)) last
              end
            end
        end
      end
    end
  end.
(** Every round ends at a later offset, so the size of the diff is enough fuel. *)
Definition applySparseDiff (diff : result sparse) (base : result bytes) : option (option error * bytes) :=
  match diff with
  | Err err => Some (Some (Wrap "open diff: " err ""), match base with Ok b => b | Err _ => [] end)
  | Ok d =>
    match base with
    | Err err => Some (Some (Wrap "open base mem: " err ""), [])
    | Ok b => rebase_loop (S (length d)) d b 0
    end
  end.
End Rebase.

(** ** Specification *)

(** A byte of the rebased file: the diff's where it has data. *)
Definition overlay (diff : sparse) (base : bytes) (i : nat) : option Z :=
  match diff !! i with Some (Some b) => Some b | _ => base !! i end.

Lemma seek_data_Some d off i : seek_data d off = Some i →
  (off <= i)%nat ∧ is_Some (d !! i ≫= id) ∧ ∀ j, (off <= j < i)%nat → d !! j = Some None.
Proof.
  unfold seek_data. destruct (list_find _ _) as [[k x]|] eqn:E; [|done]. intros [= <-].
  apply list_find_Some in E as (Hk & [b ->] & Hj). rewrite lookup_drop in Hk. split; [lia|].
  split; [rewrite Hk; by eexists|]. intros j Hlt.
  destruct (d !! j) as [o|] eqn:Ej.
  - destruct o; [|done]. exfalso. apply (Hj (j - off)%nat (Some z)); [|lia|by eexists].
    rewrite lookup_drop. by replace (off + (j - off))%nat with j by lia.
  - apply lookup_ge_None in Ej. assert (off + k < length d)%nat by (by eapply lookup_lt_Some). lia.
Qed.
Lemma seek_data_None d off i : seek_data d off = None → (off <= i)%nat → d !! i ≫= id = None.
Proof.
  unfold seek_data. destruct (list_find _ _) as [[k x]|] eqn:E; [done|]. intros _ Hi.
  apply list_find_None in E. rewrite Forall_lookup in E.
  destruct (d !! i) as [[b|]|] eqn:Ei; [|done..]. exfalso. apply (E (i - off)%nat (Some b)); [|by eexists].
  rewrite lookup_drop. by replace (off + (i - off))%nat with i by lia.
Qed.
Lemma seek_hole_spec d off : (off < length d)%nat → is_Some (d !! off ≫= id) →
  (off < seek_hole d off <= length d)%nat ∧
  ∀ j, (off <= j < seek_hole d off)%nat → is_Some (d !! j ≫= id).
Proof.
  intros Hlt [b Hb]. unfold seek_hole. destruct (list_find _ _) as [[k x]|] eqn:E.
  - apply list_find_Some in E as (Hk & -> & Hj). rewrite lookup_drop in Hk.
    assert (off + k < length d)%nat by (by eapply lookup_lt_Some).
    assert (k ≠ 0)%nat by (intros ->; rewrite Nat.add_0_r in Hk; by rewrite Hk in Hb).
    split; [lia|]. intros j Hjk. destruct (d !! j) as [[c|]|] eqn:Ej; [by eexists| |].
    + exfalso. apply (Hj (j - off)%nat None); [|lia|done]. rewrite lookup_drop.
      by replace (off + (j - off))%nat with j by lia.
    + apply lookup_ge_None in Ej. lia.
  - apply list_find_None in E. rewrite Forall_lookup in E. split; [lia|]. intros j Hj.
    destruct (d !! j) as [[c|]|] eqn:Ej; [by eexists| |].
    + exfalso. apply (E (j - off)%nat None); [|done]. rewrite lookup_drop.
      by replace (off + (j - off))%nat with j by lia.
    + apply lookup_ge_None in Ej. lia.
Qed.
Lemma write_at_lookup base off chunk i : (off + length chunk <= length base)%nat →
  write_at base off chunk !! i =
  if decide (off <= i < off + length chunk)%nat then chunk !! (i - off)%nat else base !! i.
Proof.
  intros Hl. unfold write_at, pad. replace (off + length chunk - length base)%nat with 0%nat by lia.
  rewrite app_nil_r. case_decide.
  - apply list_lookup_inserts; lia.
  - destruct (decide (i < off)%nat); [by apply list_lookup_inserts_lt|apply list_lookup_inserts_ge; lia].
Qed.
Lemma length_write_at base off chunk : (off + length chunk <= length base)%nat →
  length (write_at base off chunk) = length base.
Proof.
  intros Hl. unfold write_at, pad. rewrite length_inserts, length_app, length_replicate. lia.
Qed.

Section Correct.
Context (seek_fails pos_fails : nat → option error) (copy_fails : nat → option (error * nat)).
Context (diff : sparse).

Lemma extent_length first last : (last <= length diff)%nat → length (extent diff first last) = (last - first)%nat.
Proof. intros H. unfold extent. rewrite length_fmap, length_take, length_drop. lia. Qed.
(** One copied extent, or the part of it that was copied. *)
Lemma extent_overlay base first last n :
  (last <= length diff)%nat → (length diff <= length base)%nat → (first <= last)%nat →
  (∀ j, (first <= j < last)%nat → is_Some (diff !! j ≫= id)) →
  length (write_at base first (take n (extent diff first last))) = length base ∧
  ∀ i, write_at base first (take n (extent diff first last)) !! i =
    if decide (first <= i < first + n `min` (last - first))%nat then overlay diff base i else base !! i.
Proof.
  intros Hl Hd Hf Hdata. pose proof (extent_length first last Hl) as He.
  assert (length (take n (extent diff first last)) = n `min` (last - first))%nat as Ht
    by (rewrite length_take, He; lia).
  split; [apply length_write_at; lia|]. intros i. rewrite write_at_lookup by lia. rewrite Ht.
  case_decide; [|done]. rewrite lookup_take_lt by lia. unfold extent, overlay.
  rewrite list_lookup_fmap, lookup_take_lt, lookup_drop by lia.
  replace (first + (i - first))%nat with i by lia.
  destruct (Hdata i ltac:(lia)) as [b Hb]. destruct (diff !! i) as [[c|]|]; done.
Qed.

Lemma rebase_spec fuel base off :
  (length diff <= length base)%nat → (length diff - off < fuel)%nat →
  ∃ e base', rebase_loop seek_fails pos_fails copy_fails fuel diff base off = Some (e, base') ∧
    length base' = length base ∧
    (∀ i, base' !! i = base !! i ∨ base' !! i = overlay diff base i) ∧
    (e = None → ∀ i, base' !! i = if decide (i < off)%nat then base !! i else overlay diff base i) ∧
    ((∀ n, seek_fails n = None) → (∀ n, pos_fails n = None) → (∀ n, copy_fails n = None) → e = None).
Proof.
  revert base off. induction fuel as [|fuel IH]; intros base off Hlen Hfuel; [lia|]. cbn [rebase_loop].
  destruct (seek_fails off) as [err|] eqn:Es.
  { eexists _, base. split_and!; [done|done|by left|done|]. intros H. by rewrite H in Es. }
  destruct (seek_data diff off) as [first|] eqn:Ed.
  2: { exists None, base. split_and!; [done|done|by left| |done]. intros _ i. case_decide; [done|].
       unfold overlay. pose proof (seek_data_None diff off i Ed ltac:(lia)).
       by destruct (diff !! i) as [[b|]|]. }
  destruct (seek_data_Some _ _ _ Ed) as (Hfirst & Hd & Hhole).
  assert (first < length diff)%nat as Hlt.
  { destruct Hd as [b Hb]. destruct (diff !! first) eqn:E; [|done]. by eapply lookup_lt_Some. }
  destruct (seek_fails first) as [err|] eqn:Ef.
  { eexists _, base. split_and!; [done|done|by left|done|]. intros H. by rewrite H in Ef. }
  destruct (seek_hole_spec diff first Hlt Hd) as [Hlast Hdata].
  set (last := seek_hole diff first) in *.
  rewrite (proj2 (Nat.leb_gt last first)) by lia.
  destruct (pos_fails first) as [err|] eqn:Ep.
  { eexists _, base. split_and!; [done|done|by left|done|]. intros _ H. by rewrite H in Ep. }
  destruct (copy_fails first) as [[err n]|] eqn:Ec.
  { destruct (extent_overlay base first last n) as [Hl Hi]; [lia..|done|].
    eexists _, _. split_and!; [done|done| |done|by intros _ _ H; rewrite H in Ec].
    intros i. rewrite Hi. case_decide; auto. }
  destruct (extent_overlay base first last (last - first)) as [Hl Hi]; [lia..|done|].
  rewrite take_ge in Hl, Hi by (rewrite extent_length; lia).
  rewrite Nat.min_id in Hi. set (base1 := write_at base first (extent diff first last)) in *.
  assert (∀ i, overlay diff base1 i = overlay diff base i) as Ho.
  { intros i. unfold overlay. rewrite Hi. case_decide; [|done].
    unfold overlay. by destruct (diff !! i) as [[b|]|]. }
  destruct (IH base1 last) as (e & base' & -> & Hl' & Hany & Hok & Hno); [lia..|].
  exists e, base'. split_and!; [done|lia| | |done].
  - intros i. destruct (Hany i) as [->| ->]; [rewrite Hi; case_decide; auto|right; apply Ho].
  - intros He i. rewrite (Hok He), Ho, Hi.
    destruct (decide (i < last)%nat), (decide (first <= i < first + (last - first))%nat),
      (decide (i < off)%nat); try done; try lia.
    unfold overlay. by rewrite Hhole by lia.
Qed.
End Correct.

(** C31 (equivalence): Rebasing always ends.  Without failures the base becomes the
    overlay: the diff's byte wherever the diff has data, the old byte in its
    holes.  A failure can leave it half done: every byte is then either the old
    one or the diff's, so a base that is overwritten in place is lost. *)
Theorem applySparseDiff_overlay seek_fails pos_fails copy_fails diff base :
  (length diff <= length base)%nat →
  ∃ e base', applySparseDiff seek_fails pos_fails copy_fails (Ok diff) (Ok base) = Some (e, base') ∧
    length base' = length base ∧
    (e = None → ∀ i, base' !! i = overlay diff base i) ∧
    (∀ i, base' !! i = base !! i ∨ base' !! i = overlay diff base i) ∧
    ((∀ n, seek_fails n = None) → (∀ n, pos_fails n = None) → (∀ n, copy_fails n = None) → e = None).
Proof.
  intros Hlen. destruct (rebase_spec seek_fails pos_fails copy_fails diff (S (length diff)) base 0)
    as (e & base' & E & Hl & Hany & Hok & Hno); [done|lia|].
  exists e, base'. split; [exact E|]. split; [exact Hl|]. split; [|by split].
  intros He i. by rewrite (Hok He).
Qed.
Lemma applySparseDiff_overlay_witness :
  applySparseDiff (λ _, None) (λ _, None) (λ _, None) (Ok [None; Some 7; Some 8; None; Some 9]) (Ok [1; 2; 3; 4; 5; 6]) =
    Some (None, [1; 7; 8; 4; 9; 6]) ∧
  overlay [None; Some 7; Some 8; None; Some 9] [1; 2; 3; 4; 5; 6] 4 = Some 9.
Proof.
  split; [vm_compute; reflexivity|].
  destruct (applySparseDiff_overlay (λ _, None) (λ _, None) (λ _, None) [None; Some 7; Some 8; None; Some 9]
    [1; 2; 3; 4; 5; 6] ltac:(cbn; lia)) as (e & base' & E & _ & H & _ & Hn).
  rewrite <- H by (apply Hn; reflexivity). vm_compute in E. injection E as <- <-. reflexivity.
Defined.
