(* ===== verification/FcConfig.v ===== *)
(** * Firecracker settings (internal/runtime/config.go)

    The configuration file under the environment, defaults for what neither
    gives, and the check that the assets are there.  encoding/json and the
    environment are arguments. *)
From S2P Require Import Prelude GoUnicode GoStrings GoError GoPath GoTime GoFS.

Record Config := mkConfig {
  Binary : string; Kernel : string; Rootfs : string; WorkDir : string; BootArgs : string;
  AgentPort : Z; BootTimeout : Z; VCPUCount : Z; Jailer : string; JailerUID : Z; JailerGID : Z;
  JailerSudo : bool; JailerCgroup : bool; NewPIDNS : bool; SnapshotDir : string; RootfsPoolSize : Z
}.

Definition defaultBootArgs : string :=
  "console=ttyS0 reboot=k panic=1 pci=off init=/usr/local/bin/guest-agent".
Definition AgentDefaultPort : Z := 52.
Definition DefaultConfig : Config :=
  mkConfig "assets/firecracker" "assets/vmlinux" "assets/rootfs.ext4" "data/vms" defaultBootArgs
    AgentDefaultPort (20 * Second) 1 "" 0 0 false false false "data/snapshots" 0.

Section Env.
Context (getenv : string → string).

(** A variable that is set and not empty wins. *)
Definition env_or (name old : string) : string :=
  let v := getenv name in if String.eqb v "" then old else v.
Definition env_int (name : string) (old : Z) : Z :=
  let v := getenv name in if String.eqb v "" then old else Sscanf_d v old.
Definition env_flag (name : string) (old : bool) : bool := String.eqb (getenv name) "1" || old.

Definition overlayEnv (c : Config) : Config :=
  mkConfig (env_or "WARDEN_FC_BINARY" (Binary c)) (env_or "WARDEN_FC_KERNEL" (Kernel c))
    (env_or "WARDEN_FC_ROOTFS" (Rootfs c)) (env_or "WARDEN_FC_WORKDIR" (WorkDir c)) (BootArgs c)
    (AgentPort c)
    (let v := getenv "WARDEN_BOOT_TIMEOUT" in
     if String.eqb v "" then BootTimeout c else default (BootTimeout c) (ParseDuration v))
    (VCPUCount c) (env_or "WARDEN_JAILER" (Jailer c)) (env_int "WARDEN_JAILER_UID" (JailerUID c))
    (env_int "WARDEN_JAILER_GID" (JailerGID c)) (env_flag "WARDEN_JAILER_SUDO" (JailerSudo c))
    (env_flag "WARDEN_JAILER_CGROUP" (JailerCgroup c)) (env_flag "WARDEN_JAILER_NEWPID" (NewPIDNS c))
    (env_or "WARDEN_SNAPSHOT_DIR" (SnapshotDir c)) (env_int "WARDEN_ROOTFS_POOL" (RootfsPoolSize c)).

(** The values that must not stay empty. *)
Definition fill_defaults (c : Config) : Config :=
  mkConfig (Binary c) (Kernel c) (Rootfs c)
    (if String.eqb (WorkDir c) "" then "data/vms" else WorkDir c)
    (if String.eqb (BootArgs c) "" then defaultBootArgs else BootArgs c)
    (if AgentPort c =? 0 then AgentDefaultPort else AgentPort c)
    (if BootTimeout c <=? 0 then 20 * Second else BootTimeout c)
    (if VCPUCount c <=? 0 then 1 else VCPUCount c) (Jailer c) (JailerUID c) (JailerGID c)
    (JailerSudo c) (JailerCgroup c) (NewPIDNS c) (SnapshotDir c) (RootfsPoolSize c).

Context (fault : string → string → fs → option (error * option string)).
Context (decode : string → Config → result Config).

Definition LoadConfig (path : string) : M fs (result Config) :=
  let cfg := DefaultConfig in
  let! cfg :=
    (if String.eqb path "" then ret (Ok cfg)
     else
       let! data := ReadFile fault path in
       ret match data with
           | Err err =>
             if Is err NotExist then Ok cfg
             else Err (Wrap ("read firecracker config " +:+ path +:+ ": ") err "")
           | Ok data =>
             match decode data cfg with
             | Err err => Err (Wrap ("parse firecracker config " +:+ path +:+ ": ") err "")
             | Ok cfg => Ok cfg
             end
           end) in
  ret match cfg with Err err => Err err | Ok cfg => Ok (fill_defaults (overlayEnv cfg)) end.

(** ** The assets *)
Definition missing_asset (text : string) : error :=
  Wrap "" (Sentinel ErrMissingAssets) (": " +:+ text).
Definition check_asset (name path : string) : M fs (option error) :=
  if String.eqb path "" then ret (Some (missing_asset (name +:+ " path is empty")))
  else
    let! st := Stat fault path in
    ret match st with
        | Err err => Some (missing_asset (name +:+ " " +:+ path +:+ ": " +:+ Error err))
        | Ok Dir => Some (missing_asset (name +:+ " " +:+ path +:+ " is a directory"))
        | Ok (Regular _) => None
        end.
Definition Config_Validate (c : Config) : M fs (option error) :=
  let! e := check_asset "binary" (Binary c) in
  match e with Some err => ret (Some err) | None =>
  let! e := check_asset "kernel" (Kernel c) in
  match e with Some err => ret (Some err) | None =>
  let! e := check_asset "rootfs" (Rootfs c) in
  match e with Some err => ret (Some err) | None =>
  if String.eqb (Jailer c) "" then ret None else check_asset "jailer" (Jailer c)
  end end end.

(** [absPath]; the working directory is an argument. *)
Definition absPath (cwd p : string) : string :=
  if String.eqb p "" then p else if IsAbs p then p else path_join [cwd; p].

(** ** What a loaded configuration promises *)
Record usable (c : Config) : Prop := {
  use_port : AgentPort c ≠ 0; use_args : BootArgs c ≠ ""; use_cpus : 0 < VCPUCount c;
  use_timeout : 0 < BootTimeout c; use_dir : WorkDir c ≠ ""
}.
Lemma fill_defaults_usable c : usable (fill_defaults c).
Proof.
  split; cbn.
  - destruct (Z.eqb_spec (AgentPort c) 0); done.
  - destruct (String.eqb_spec (BootArgs c) ""); done.
  - destruct (Z.leb_spec (VCPUCount c) 0); lia.
  - unfold Second. destruct (Z.leb_spec (BootTimeout c) 0); lia.
  - destruct (String.eqb_spec (WorkDir c) ""); done.
Qed.

(** (functional) A configuration that loads can be used (port, arguments,
    processors, timeout and work directory are set), and each path in it is the
    environment's if that is set, else the file's; a file that is missing is no
    error, one that cannot be read or parsed is. *)
Theorem LoadConfig_spec path w c w' :
  LoadConfig path w = (Ret (Ok c), w') →
  usable c ∧ ∃ base, (path = "" ∧ base = DefaultConfig ∨
      ∃ data, ReadFile fault path w = (Ret data, w') ∧
        match data with
        | Ok text => decode text DefaultConfig = Ok base
        | Err err => Is err NotExist = true ∧ base = DefaultConfig
        end) ∧
    c = fill_defaults (overlayEnv base).
Proof.
  unfold LoadConfig. intros (r & w1 & H1 & H2)%bind_inv_Ret. destruct r as [base|err]; [|done].
  injection H2 as <- <-. split; [apply fill_defaults_usable|]. exists base. split; [|done].
  destruct (String.eqb_spec path ""); [left; by injection H1 as <-|right].
  apply bind_inv_Ret in H1 as (data & w2 & H1 & H2). exists data.
  destruct data as [text|err].
  - destruct (decode text DefaultConfig); injection H2; [|done]. intros <- ->. by split.
  - destruct (Is err NotExist); injection H2; [|done]. intros <- ->. by split.
Qed.
End Env.
Lemma LoadConfig_spec_witness :
  let getenv v := if String.eqb v "WARDEN_FC_WORKDIR" then "/srv/vms" else "" in
  let fault := λ (_ _ : string) (_ : fs), (None : option (error * option string)) in
  ∃ c, LoadConfig getenv fault (λ _ c, Ok c) "fc.json" ∅ = (Ret (Ok c), ∅) ∧
    usable c ∧ WorkDir c = "/srv/vms".
Proof.
  intros getenv fault. eexists. split; [vm_compute; reflexivity|]. split; [|reflexivity].
  apply (LoadConfig_spec getenv fault (λ _ c, Ok c) "fc.json" ∅ _ ∅). vm_compute. reflexivity.
Defined.
