(* ===== verification/Jailer.v ===== *)
(** * The jailer (internal/runtime/jailer.go, clone.go)

    The chroot of a jailed machine: its layout, how it is filled, and the
    command line that confines the VMM to it. *)
From S2P Require Import Prelude GoUnicode GoStrings GoError GoPath GoTime GoFS FcConfig.

Record jailLayout := mkLayout {
  jl_ID : string; ExecName : string; ChrootBase : string; JailDir : string; jl_Root : string
}.

Definition jailer_rune (r : Z) : bool := alnum r || (r =? 45).
Definition validateJailerID (id : string) : option error :=
  if String.eqb id "" || (64 <? len id) then
    Some (New ("jailer id " +:+ Quote id +:+ ": must be 1-64 chars"))
  else if forallb jailer_rune (runes id) then None
  else Some (New ("jailer id " +:+ Quote id +:+ ": only letters, digits and '-' are allowed")).

Definition newJailLayout (chrootBase execFile id : string) : result jailLayout :=
  match validateJailerID id with
  | Some err => Err err
  | None =>
    let execName := Base execFile in
    if String.eqb execName "" || String.eqb execName "." || String.eqb execName "/" then
      Err (New ("jailer: invalid exec-file " +:+ Quote execFile))
    else
      let base := if String.eqb chrootBase "" then "/srv/jailer" else chrootBase in
      let jail := path_join [base; execName; id] in
      Ok (mkLayout id execName base jail (path_join [jail; "root"]))
  end.

Section Fill.
Context (fault : string → string → fs → option (error * option string)).
(** The [cp] and [link] of the host, as the code falls back between them. *)
Context (cp : string → string → M fs bool) (link : string → string → M fs bool).

(** [copyFile] opens both files, truncating [dst], before it copies: a directory
    fails only when it is read, and a file copied onto itself ends up empty. *)
Definition copyFile (src dst : string) : M fs (option error) := λ w,
  let copy_error e := Wrap ("copy " +:+ src +:+ " → " +:+ dst +:+ ": ") e "" in
  match fault "open" src w, w !! src with
  | Some (e, _), _ => (Ret (Some (path_error "open" src e)), w)
  | None, None => (Ret (Some (enoent "open" src)), w)
  | None, Some n =>
    if negb (is_dir w (parent dst)) then (Ret (Some (enoent "open" dst)), w)
    else if bool_decide (w !! dst = Some Dir) then
      (Ret (Some (path_error "open" dst (New "is a directory"))), w)
    else
      match fault "write" dst w, n with
      | Some (e, None), _ => (Ret (Some (path_error "open" dst e)), w)
      | Some (e, Some part), _ =>
        (Ret (Some (copy_error (path_error "write" dst e))), <[dst := Regular part]> w)
      | None, Dir =>
        (Ret (Some (copy_error (path_error "read" src (New "is a directory")))), <[dst := Regular ""]> w)
      | None, Regular c =>
        (Ret None, <[dst := Regular (if String.eqb src dst then "" else c)]> w)
      end
  end.
Definition cloneFile (src dst : string) : M fs (option error) :=
  let! ok := cp src dst in if ok : bool then ret None else copyFile src dst.
Definition linkOrCopy (src dst : string) : M fs (option error) :=
  let! ok := link src dst in if ok : bool then ret None else cloneFile src dst.

Definition prepareJail {X} (layout : jailLayout) (kernel rootfs : string)
    (place : option (string → string → M (host X) (option error))) : M (host X) (option error) :=
  let place := match place with Some p => p | None => λ src dst, on_disk (cloneFile src dst) end in
  guard Some (wrapping ("jailer mkdir " +:+ jl_Root layout +:+ ": ")
    (on_disk (MkdirAll fault (jl_Root layout))))
  (guard Some (wrapping "jailer kernel: "
    (on_disk (linkOrCopy kernel (path_join [jl_Root layout; "vmlinux"]))))
  (guard Some (wrapping "jailer rootfs: " (place rootfs (path_join [jl_Root layout; "rootfs.ext4"])))
  (on_disk (WriteFile fault (path_join [jl_Root layout; "firecracker.log"]) "")))).
End Fill.

(** ** The command *)

(** The user of the process: its ids as os/user gives them. *)
Definition jailerCreds (current : result (string * string)) (cfg : Config) : result (Z * Z) :=
  if negb (JailerUID cfg =? 0) || negb (JailerGID cfg =? 0) then Ok (JailerUID cfg, JailerGID cfg)
  else
    match current with
    | Err err => Err (Wrap "jailer uid: " err "")
    | Ok (u, g) =>
      match Atoi u, Atoi g with
      | None, _ => Err (New ("strconv.Atoi: parsing " +:+ Quote u +:+ ": invalid syntax"))
      | Some _, None => Err (New ("strconv.Atoi: parsing " +:+ Quote g +:+ ": invalid syntax"))
      | Some uid, Some gid =>
        if uid =? 0 then
          Err (New "jailer refuses to drop to uid 0; set WARDEN_JAILER_UID to an unprivileged user")
        else Ok (uid, gid)
      end
    end.

Record exec_cmd := mkCmd { cmd_name : string; cmd_args : list string; cmd_dir : string }.

Definition jailer_args (cfg : Config) (layout : jailLayout) (uid gid : Z) (netnsPath : string)
    : list string :=
  ["--id"; jl_ID layout; "--exec-file"; Binary cfg; "--uid"; Itoa uid; "--gid"; Itoa gid;
   "--chroot-base-dir"; ChrootBase layout] ++
  (if JailerCgroup cfg then ["--cgroup-version"; "2"] else []) ++
  (if NewPIDNS cfg then ["--new-pid-ns"] else []) ++
  (if negb (String.eqb netnsPath "") then ["--netns"; netnsPath] else []) ++
  ["--"; "--api-sock"; "/api.sock"].
Definition jailerCommand (current : result (string * string)) (cfg : Config) (layout : jailLayout)
    (netnsPath : string) : result exec_cmd :=
  if String.eqb (Jailer cfg) "" then Err (New "jailer binary is empty")
  else
    let? creds := jailerCreds current cfg in
    let args := jailer_args cfg layout creds.1 creds.2 netnsPath in
    Ok (if JailerSudo cfg then mkCmd "sudo" ("-n" :: Jailer cfg :: args) ""
        else mkCmd (Jailer cfg) args "").

(** ** Where a jail is *)

Lemma jailer_id_element id : validateJailerID id = None → element id = true ∧ len id <= 64.
Proof.
  unfold validateJailerID. destruct (String.eqb_spec id "") as [|Hne]; [done|]. cbn [orb].
  destruct (Z.ltb_spec 64 (len id)) as [|Hl]; [done|]. destruct (forallb _ _) eqn:E; [|done].
  intros _. split; [|done]. apply runes_class in E.
  - apply element_spec. split_and!; [by eapply ContainsByte_class|done|by intros ->..].
  - unfold jailer_rune, alnum, ascii_letter, ascii_digit. intros r.
    rewrite !orb_true_iff, !andb_true_iff. lia.
Qed.

(** The directory that the jails of one executable share. *)
Definition jails_of (l : jailLayout) : bool * list string := path_id (ChrootBase l +:+ "/" +:+ ExecName l).

Lemma newJailLayout_inv base exec id l :
  newJailLayout base exec id = Ok l →
  element id = true ∧ len id <= 64 ∧ jl_ID l = id ∧ ExecName l = Base exec ∧
  ChrootBase l = (if String.eqb base "" then "/srv/jailer" else base) ∧
  JailDir l = path_text ((jails_of l).1, (jails_of l).2 ++ [id]) ∧
  jl_Root l = JailDir l +:+ "/root".
Proof.
  unfold newJailLayout. destruct (validateJailerID id) eqn:Ev; [done|].
  apply jailer_id_element in Ev as [He Hl].
  destruct (String.eqb_spec (Base exec) "") as [|Hn]; [done|]. cbn [orb].
  destruct (_ || _); [done|]. set (b := if String.eqb base "" then _ else _). intros [= <-].
  assert (b ≠ "") as Hb by (unfold b; by destruct (String.eqb_spec base "")).
  cbn [ChrootBase JailDir jl_Root jl_ID ExecName jails_of]. split_and!; try done.
  - by apply path_join3.
  - rewrite path_join3 by done. rewrite path_join_under; [done|..|done].
    + apply id_ok_snoc; [|done]. apply path_id_ok.
    + by destruct (path_id _).2.
Qed.

(** C35 (safety): A jail is made only for an id that is one path element of at most
    64 bytes; its directory is the shared one with the id as one more element,
    its chroot is "root" in it, and different ids have different jails. *)
Theorem jail_confined base exec id l :
  newJailLayout base exec id = Ok l →
  element id = true ∧ len id <= 64 ∧
  path_id (JailDir l) = ((jails_of l).1, (jails_of l).2 ++ [id]) ∧ jl_Root l = JailDir l +:+ "/root" ∧
  ∀ id' l', newJailLayout base exec id' = Ok l' → JailDir l' = JailDir l → id' = id.
Proof.
  intros H. apply newJailLayout_inv in H as (He & Hl & _ & Hx & Hb & Hj & Hr).
  assert (∀ i, element i = true → path_id (path_text ((jails_of l).1, (jails_of l).2 ++ [i])) =
    ((jails_of l).1, (jails_of l).2 ++ [i])) as Hid.
  { intros i Hi. apply path_id_text; [|by destruct (jails_of l).2].
    apply id_ok_snoc; [apply path_id_ok|done]. }
  split_and!; [done|done|rewrite Hj; by apply Hid|done|].
  intros id' l' H' E. apply newJailLayout_inv in H' as (He' & _ & _ & Hx' & Hb' & Hj' & _).
  assert (jails_of l' = jails_of l) as Es by (unfold jails_of; by rewrite Hx, Hx', Hb, Hb').
  rewrite Es in Hj'. rewrite Hj', Hj in E. apply (f_equal path_id) in E.
  rewrite !Hid in E by done. injection E as E. by apply app_inj_2 in E as [_ [= ?]].
Qed.
Lemma jail_confined_witness :
  newJailLayout "/srv/vms" "/opt/fc/firecracker" "fc-1" =
    Ok (mkLayout "fc-1" "firecracker" "/srv/vms" "/srv/vms/firecracker/fc-1" "/srv/vms/firecracker/fc-1/root") ∧
  len "fc-1" <= 64.
Proof.
  split; [vm_compute; reflexivity|].
  eapply (jail_confined "/srv/vms" "/opt/fc/firecracker" "fc-1"). vm_compute. reflexivity.
Defined.

(** ** Who the machine runs as *)

(** (error) The command line carries the ids that were chosen.  A jailed machine
    never runs as root by default: without configured ids they are the current
    user's, and root is refused.  But a configured group alone turns the refusal
    off: with a gid and no uid the jailer is told to run the machine as uid 0. *)
Theorem jailer_uid current cfg layout netns :
  (∀ cmd, jailerCommand current cfg layout netns = Ok cmd →
     ∃ uid gid pre post, jailerCreds current cfg = Ok (uid, gid) ∧
       cmd_args cmd = pre ++ ["--uid"; Itoa uid; "--gid"; Itoa gid] ++ post) ∧
  (JailerUID cfg = 0 → JailerGID cfg = 0 →
     ∀ uid gid, jailerCreds current cfg = Ok (uid, gid) →
     uid ≠ 0 ∧ ∃ u g, current = Ok (u, g) ∧ Atoi u = Some uid ∧ Atoi g = Some gid) ∧
  (JailerUID cfg = 0 → JailerGID cfg ≠ 0 → jailerCreds current cfg = Ok (0, JailerGID cfg)).
Proof.
  split_and!.
  - intros cmd. unfold jailerCommand. destruct (String.eqb_spec (Jailer cfg) ""); [done|].
    intros ([uid gid] & Hc & [= <-])%res_bind_Ok. exists uid, gid. cbn [fst snd].
    exists ((if JailerSudo cfg then ["-n"; Jailer cfg] else []) ++
            ["--id"; jl_ID layout; "--exec-file"; Binary cfg]),
           (drop 8 (jailer_args cfg layout uid gid netns)).
    split; [done|]. by destruct (JailerSudo cfg).
  - intros Hu Hg uid gid. unfold jailerCreds. rewrite Hu, Hg. cbn.
    destruct current as [[u g]|]; [|done]. destruct (Atoi u) eqn:Eu; [|done]. destruct (Atoi g) eqn:Eg; [|done].
    destruct (Z.eqb_spec z 0); [done|]. intros [= <- <-]. split; [done|]. by exists u, g.
  - intros Hu Hg. unfold jailerCreds. rewrite Hu. by rewrite (proj2 (Z.eqb_neq _ 0) Hg).
Qed.
Lemma jailer_uid_witness :
  let cfg := overlayEnv (λ v, if String.eqb v "WARDEN_JAILER_GID" then "100" else "") DefaultConfig in
  jailerCreds (Ok ("1000", "1000")) cfg = Ok (0, 100) ∧
  jailerCreds (Ok ("1000", "1000")) DefaultConfig = Ok (1000, 1000).
Proof.
  intros cfg. split; [|vm_compute; reflexivity].
  apply (jailer_uid (Ok ("1000", "1000")) cfg (mkLayout "" "" "" "" "") ""); vm_compute; [reflexivity|discriminate].
Defined.
