(* ===== verification/FcApi.v ===== *)
(** * The Firecracker API client (internal/runtime/fcapi.go)

    The requests that configure, start, pause and snapshot a machine.  The
    HTTP exchange and encoding/json are arguments. *)
From S2P Require Import Prelude GoUnicode GoStrings GoError.

Record fcNetIface := mkNic { IfaceID : string; nic_GuestMAC : string; nic_HostDevName : string }.
(** The bodies, with the source's types. *)
Inductive body :=
| fcMachineConfig (VCPUCount MemSizeMiB : Z) (SMT TrackDirtyPages : bool)
| fcBootSource (KernelImagePath BootArgs : string)
| fcDrive (DriveID PathOnHost : string) (IsRootDevice IsReadOnly : bool)
| fcVsock (GuestCID : Z) (UDSPath : string)
| fcLogger (LogPath Level : string) (ShowLevel ShowLogOrigin : bool)
| fcNetIface_ (nic : fcNetIface)
| fcAction (ActionType : string)
| fcSnapshotCreate (SnapshotType SnapshotPath MemFilePath : string)
| fcSnapshotLoad (SnapshotPath BackendType BackendPath : string) (ResumeVM TrackDirtyPages : bool)
| fcVMState (State : string).
Record api_request := mkApi { api_Method : string; api_Path : string; api_Body : body }.

Section Client.
Context {W : Type}.
(** The exchange: the status and the start of the payload; and the fault message
    that a payload decodes to. *)
Context (Do : api_request → M W (result (Z * string))) (fault_message : string → string).

Definition do_ (method path : string) (b : body) : M W (option error) :=
  let! resp := Do (mkApi method path b) in
  ret match resp with
      | Err err => Some (Wrap ("firecracker " +:+ method +:+ " " +:+ path +:+ ": ") err "")
      | Ok (status, payload) =>
        if (status =? 204) || (status =? 200) then None
        else
          let msg := fault_message payload in
          let msg := if String.eqb msg "" then payload else msg in
          Some (New ("firecracker " +:+ method +:+ " " +:+ path +:+ ": " +:+ msg +:+ " (" +:+
                     Itoa status +:+ ")"))
      end.
Definition put (path : string) (b : body) : M W (option error) := do_ "PUT" path b.
Definition patch (path : string) (b : body) : M W (option error) := do_ "PATCH" path b.
Definition pauseVM : M W (option error) := patch "/vm" (fcVMState "Paused").
Definition createSnapshot (kind snapPath memPath : string) : M W (option error) :=
  let kind := if String.eqb kind "" then "Full" else kind in
  put "/snapshot/create" (fcSnapshotCreate kind snapPath memPath).
Definition loadSnapshot (snapPath memPath : string) : M W (option error) :=
  put "/snapshot/load" (fcSnapshotLoad snapPath "File" memPath true true).
Definition startInstance : M W (option error) := put "/actions" (fcAction "InstanceStart").
Definition sendCtrlAltDel : M W (option error) := put "/actions" (fcAction "SendCtrlAltDel").

(** The id of the drive, for its path. *)
Definition drive_id (b : body) : string := match b with fcDrive id _ _ _ => id | _ => "" end.
Definition configure (machine boot drive vsock : body) (logger : option body) (nic : option fcNetIface)
    : M W (option error) :=
  (match logger with Some l => put "/logger" l | None => ret None end) >>?
  put "/machine-config" machine >>?
  put "/boot-source" boot >>?
  put ("/drives/" +:+ drive_id drive) drive >>?
  put "/vsock" vsock >>?
  match nic with
  | Some n => put ("/network-interfaces/" +:+ IfaceID n) (fcNetIface_ n)
  | None => ret None
  end.

Hypothesis HDo : ∀ r, returns (Do r).
Lemma returns_put path b : returns (put path b).
Proof. unfold put, do_. auto with go. Qed.
Lemma returns_configure machine boot drive vsock logger nic :
  returns (configure machine boot drive vsock logger nic).
Proof.
  unfold configure. destruct logger, nic; repeat apply returns_and_then; auto using returns_put with go.
Qed.
End Client.

(** ** The order of configuration *)

Definition configure_requests (machine boot drive vsock : body) (logger : option body)
    (nic : option fcNetIface) : list api_request :=
  (λ '(p, b), mkApi "PUT" p b) <$>
  (match logger with Some l => [("/logger", l)] | None => [] end) ++
  [("/machine-config", machine); ("/boot-source", boot); ("/drives/" +:+ drive_id drive, drive);
   ("/vsock", vsock)] ++
  (match nic with Some n => [("/network-interfaces/" +:+ IfaceID n, fcNetIface_ n)] | None => [] end).

Section Order.
(** A VMM that logs the requests and accepts (204) or refuses them. *)
Context (fails : list api_request → option error) (fault_message : string → string).
Definition logging_vmm (r : api_request) : M (list api_request) (result (Z * string)) := λ log,
  (Ret match fails (log ++ [r]) with Some err => Err err | None => Ok (204, "") end, log ++ [r]).
Definition failure (log : list api_request) : option error :=
  match fails log, last log with
  | Some err, Some r =>
    Some (Wrap ("firecracker " +:+ api_Method r +:+ " " +:+ api_Path r +:+ ": ") err "")
  | _, _ => None
  end.

Lemma put_logged p b log :
  put logging_vmm fault_message p b log = logged failure (mkApi "PUT" p b) log.
Proof.
  unfold put, do_, bind, logging_vmm, logged, failure. rewrite last_snoc.
  destruct (fails (log ++ [mkApi "PUT" p b])); done.
Qed.
Lemma and_then_ret {W} (m : M W (option error)) w : (m >>? ret None) w = m w.
Proof. unfold and_then, bind. by destruct (m w) as [[[e|]|v|] w']. Qed.
Lemma and_then_cong {W} (m m' k k' : M W (option error)) w :
  m w = m' w → (∀ w, k w = k' w) → (m >>? k) w = (m' >>? k') w.
Proof. intros Hm Hk. unfold and_then. apply bind_cong; [done|]. intros [e|] w'; done. Qed.

Lemma ret_and_then {W} (k : M W (option error)) w : (ret None >>? k) w = k w.
Proof. done. Qed.
Ltac and_then_step :=
  lazymatch goal with
  | |- (?m >>? _) _ = (?n >>? _) _ => apply and_then_cong; [apply put_logged|intros ?]
  end.

(** (functional) The machine is configured by exactly these requests, in this
    order (the logger first, if there is one; a network interface only if there
    is one), and the first that is refused ends it with that error. *)
Theorem configure_order machine boot drive vsock logger nic log :
  let rs := configure_requests machine boot drive vsock logger nic in
  (∃ e k, configure logging_vmm fault_message machine boot drive vsock logger nic log =
      (Ret (Some e), log ++ take (S k) rs) ∧ (k < length rs)%nat ∧
      failure (log ++ take (S k) rs) = Some e) ∨
  configure logging_vmm fault_message machine boot drive vsock logger nic log = (Ret None, log ++ rs).
Proof.
  intros rs. assert (configure logging_vmm fault_message machine boot drive vsock logger nic log =
    all_ok (logged failure) rs log) as ->.
  { unfold configure, rs, configure_requests. destruct logger, nic; cbn [app fmap list_fmap all_ok];
      rewrite ?ret_and_then; repeat and_then_step; rewrite ?and_then_ret; try done; apply put_logged. }
  destruct (all_ok_logged failure rs log) as [(e & k & ? & ? & ? & _)|[? _]]; [left|by right].
  by exists e, k.
Qed.
End Order.
