(* ===== verification/FcVsock.v ===== *)
(** * The host end of the vsock (internal/runtime/fcvsock.go)

    The handshake with Firecracker's vsock socket, and the wait for the guest
    agent behind it.  The socket is an argument: a connection delivers its bytes
    in pieces, one per Read, and then an error (the end, or the deadline). *)
From S2P Require Import Prelude GoUnicode GoStrings GoError GoTime.

Record unix_conn := mkUnix { fd : Z; incoming : list string; ending : error }.
(** [vsockConn]: what the reader has buffered beyond the handshake, before the
    rest of the connection. *)
Record vsockConn := mkVsock { Conn : unix_conn; buffered : string }.
(** All that reading the connection delivers, and its end. *)
Definition stream (c : vsockConn) : string * error :=
  (buffered c +:+ String.concat "" (incoming (Conn c)), ending (Conn c)).

Definition lf : ascii := chr 10.
(** [bufio.Reader.ReadString('\n')], with [cur] in its buffer: the line or the
    error, what stays buffered, and the pieces that are still to come. *)
Fixpoint ReadString (cur : string) (pieces : list string) (eof : error)
    : result string * string * list string :=
  match IndexByte cur lf with
  | Some i => (Ok (take_str (S i) cur), drop_str (S i) cur, pieces)
  | None =>
    match pieces with
    | [] => (Err eof, "", [])
    | p :: r => ReadString (cur +:+ p) r eof
    end
  end.

Section Vsock.
Context {W : Type}.
Context (Dial : context → string → M W (result unix_conn)).
Context (Fprint : unix_conn → string → M W (option error)) (Close : unix_conn → M W unit).

(** The deadlines that are set on the connection are part of it. *)
Definition dialGuestVsock (ctx : context) (uds : string) (port : Z) : M W (result vsockConn) :=
  let! conn := Dial ctx uds in
  match conn with
  | Err err => ret (Err (Wrap ("vsock uds " +:+ uds +:+ ": ") err ""))
  | Ok conn =>
    let! e := Fprint conn ("CONNECT " +:+ Itoa port +:+ newline) in
    match e with
    | Some err => Close conn ;;; ret (Err (Wrap ("vsock CONNECT " +:+ Itoa port +:+ ": ") err ""))
    | None =>
      match ReadString "" (incoming conn) (ending conn) with
      | (Err err, _, _) => Close conn ;;; ret (Err (Wrap "vsock handshake read: " err ""))
      | (Ok line, more, pieces) =>
        let line := TrimRight line (str1 13 +:+ newline) in
        if negb (HasPrefix line "OK ") then
          Close conn ;;; ret (Err (New ("vsock handshake rejected: " +:+ Quote line)))
        else ret (Ok (mkVsock (mkUnix (fd conn) pieces (ending conn)) more))
      end
    end
  end.

(** A wait for the ticker, and the error of the context once it is done. *)
Context (tick : M W unit) (ctx_Err : context → M W error).

(** [waitForGuestAgent].  [n] is the number of times its select takes the
    ticker before it takes the end of the context. *)
Fixpoint waitForGuestAgent (n : nat) (ctx : context) (uds : string) (port : Z) : M W (option error) :=
  let! conn := dialGuestVsock ctx uds port in
  match conn with
  | Ok conn => Close (Conn conn) ;;; ret None
  | Err last =>
    match n with
    | O => let! err := ctx_Err ctx in
           ret (Some (Wrap "guest agent not ready: " err (" (" +:+ Error last +:+ ")")))
    | S n => tick ;;; waitForGuestAgent n ctx uds port
    end
  end.

(** ** Nothing of the guest's stream is lost *)

(** However the text is cut into pieces, the reader sees its first line and
    leaves the rest. *)
Lemma ReadString_spec cur pieces eof :
  let text := cur +:+ String.concat "" pieces in
  match IndexByte text lf with
  | Some i => ∃ more rest, ReadString cur pieces eof = (Ok (take_str (S i) text), more, rest) ∧
      more +:+ String.concat "" rest = drop_str (S i) text
  | None => ReadString cur pieces eof = (Err eof, "", [])
  end.
Proof.
  revert cur. induction pieces as [|p r IH]; intros cur; cbn [ReadString].
  - rewrite concat_nil, append_nil_r. destruct (IndexByte cur lf) as [i|]; [|done].
    exists (drop_str (S i) cur), []. by rewrite concat_nil, append_nil_r.
  - rewrite concat_cons, <- append_assoc. specialize (IH (cur +:+ p)).
    destruct (IndexByte cur lf) as [i|] eqn:E; [|done].
    rewrite append_assoc, (IndexByte_app _ _ _ _ E).
    assert (S i <= String.length cur)%nat as Hi by (apply IndexByte_lt in E; lia).
    eexists _, _. rewrite take_str_app_lt, drop_str_app_lt by done. split; [done|].
    by rewrite concat_cons.
Qed.

(** C33 (functional): After the request "CONNECT port" is sent, the handshake
    depends on the text the other side sends only, not on how it arrives: it
    succeeds exactly when there is a first line and that line begins with "OK ",
    and the connection then delivers everything after that line, neither less
    nor more.  On a refusal the connection has been closed. *)
Theorem dialGuestVsock_lossless ctx uds port w conn w1 w2 :
  Dial ctx uds w = (Ret (Ok conn), w1) →
  Fprint conn ("CONNECT " +:+ Itoa port +:+ newline) w1 = (Ret None, w2) →
  let text := String.concat "" (incoming conn) in
  let refused err := dialGuestVsock ctx uds port w = (Close conn ;;; ret (Err err)) w2 in
  match IndexByte text lf with
  | None => refused (Wrap "vsock handshake read: " (ending conn) "")
  | Some i =>
    let line := TrimRight (take_str (S i) text) (str1 13 +:+ newline) in
    if HasPrefix line "OK " then
      ∃ c, dialGuestVsock ctx uds port w = (Ret (Ok c), w2) ∧
        stream c = (drop_str (S i) text, ending conn) ∧ fd (Conn c) = fd conn
    else refused (New ("vsock handshake rejected: " +:+ Quote line))
  end.
Proof.
  intros Hd Hf text refused. unfold refused, dialGuestVsock.
  rewrite (bind_Ret _ _ _ _ _ Hd). cbv beta iota zeta. rewrite (bind_Ret _ _ _ _ _ Hf). cbv beta iota zeta.
  pose proof (ReadString_spec "" (incoming conn) (ending conn)) as H. cbv zeta in H. rewrite append_nil_l in H.
  fold text in H. destruct (IndexByte text lf) as [i|]; [|by rewrite H].
  destruct H as (more & rest & -> & Hm). cbv zeta. destruct (HasPrefix _ _) eqn:Ep; cbn [negb].
  - eexists. split; [done|]. unfold stream. cbn. by rewrite Hm.
  - done.
Qed.
End Vsock.
(** An answer in three pieces, the guest's first bytes in the middle one. *)
Definition chopped : unix_conn :=
  mkUnix 5 ["O"; "K 1073" +:+ newline +:+ "{'exit"; "':0}"] (Sentinel EOF).
Lemma dialGuestVsock_lossless_witness :
  ∃ c, dialGuestVsock (W:=unit) (λ _ _, ret (Ok chopped)) (λ _ _, ret None) (λ _, ret tt)
         RequestContext "v.sock" 52 tt = (Ret (Ok c), tt) ∧
       stream c = ("{'exit':0}", Sentinel EOF).
Proof.
  destruct (dialGuestVsock_lossless (W:=unit) (λ _ _, ret (Ok chopped)) (λ _ _, ret None) (λ _, ret tt)
    RequestContext "v.sock" 52 tt chopped tt tt eq_refl eq_refl) as (c & E & Hs & _).
  by exists c.
Defined.
