(* ===== verification/Pool.v ===== *)
(** * The pool of root disks (internal/runtime/pool.go)

    Boots call [Acquire] while the goroutines of [fill] copy the golden image in
    the background.  Every access to the disk or to the channel is an atomic
    step of one goroutine, and a schedule is a list of steps.  Files have their
    contents in inodes, since a rename moves a name but not what is open: the
    copy of a goroutine and the disk of a running machine can be one file. *)
From S2P Require Import Prelude GoUnicode GoStrings GoError GoPath.

(** ** Files *)

Record files := mkFiles { names : gmap string nat; inodes : list string }.
Definition no_files : files := mkFiles ∅ [].

(** Opening for a copy: [O_CREATE|O_TRUNC]. *)
Definition open_trunc (path : string) (d : files) : nat * files :=
  match names d !! path with
  | Some i => (i, mkFiles (names d) (<[i := ""]> (inodes d)))
  | None => (length (inodes d),
             mkFiles (<[path := length (inodes d)]> (names d)) (inodes d ++ [""]))
  end.
Definition write_inode (i : nat) (text : string) (d : files) : files :=
  mkFiles (names d) (<[i := text]> (inodes d)).
Definition unlink (path : string) (d : files) : files := mkFiles (delete path (names d)) (inodes d).
(** [os.Rename] to another path; a missing source is an error. *)
Definition rename (src dst : string) (d : files) : option files :=
  i ← names d !! src; Some (mkFiles (<[dst := i]> (delete src (names d))) (inodes d)).

(** ** Pools *)

Record FilePool := mkPool { Golden : string; Dir : string; Size : Z }.
Definition NewFilePool (golden dir : string) (size : Z) : option FilePool :=
  if (size <? 1) || String.eqb golden "" || String.eqb dir "" then None
  else Some (mkPool golden dir size).

(** The counter, the channel, and the [go p.fill()] that have not begun. *)
Record chan := mkChan { seq : Z; ready : list string; starting : Z }.
Definition opened (p : FilePool) : chan := mkChan 0 [] (Size p).
Definition Available (c : option chan) : Z :=
  match c with Some c => Z.of_nat (length (ready c)) | None => 0 end.
Definition pool_path (p : FilePool) (n : Z) : string :=
  path_join [Dir p; "ready-" +:+ Itoa n +:+ ".ext4"].

(** Where a goroutine stands; [k] is its pool. *)
Inductive thread :=
| Calling (k : nat) (dst : string)                 (* Acquire, before MkdirAll *)
| Selecting (k : nat) (dst : string)               (* at the select *)
| Received (k : nat) (src dst : string)            (* before the rename *)
| Cloning (k : nat) (path : string) (fd : option nat) (filling : bool)  (* in cloneFile *)
| Publishing (k : nat) (path : string)             (* fill, at its select *)
| Acquired (k : nat) (dst : string)                (* Acquire returned nil *)
| Running (k : nat) (dst : string) (ino : nat)     (* a machine has the disk open *)
| Finished (err : option error).

Inductive move :=
| Mkdir | MkdirFails (err : error)
| Receive | Default
| Rename | RenameFails
| Open | Copied | CloneFails (kept : string) (err : error)
| Publish
| BootDisk | GuestWrites (text : string) | Discard.
Inductive action :=
| Fill (k : nat)                    (* a fill of pool k begins *)
| Call (k : nat) (dst : string)     (* a boot calls Acquire *)
| Step (t : nat) (m : move).

Record state := mkState { chans : list chan; threads : list thread; disk : files }.

(** The paths a goroutine has in hand. *)
Definition claims (th : thread) : list string :=
  match th with
  | Calling _ dst | Selecting _ dst | Acquired _ dst | Running _ dst _ => [dst]
  | Received _ src dst => [src; dst]
  | Cloning _ path _ _ | Publishing _ path => [path]
  | Finished _ => []
  end.
Definition all_paths (s : state) : list string :=
  concat (ready <$> chans s) ++ concat (claims <$> threads s).

Section Steps.
(** The pools, and the golden images, which nobody changes. *)
Context (pools : list FilePool) (image : string → string).

Definition in_pool_dir (p : FilePool) (path : string) : bool :=
  bool_decide ((path_id path).1 = (path_id (Dir p)).1 ∧
               removelast (path_id path).2 = (path_id (Dir p)).2).

(** One goroutine's move: what it does to the channel of its pool and to the
    disk, and where it is then. *)
Definition moved (p : FilePool) (c : chan) (d : files) (th : thread) (m : move) :
    option (chan * files * thread) :=
  match th, m with
  | Calling k dst, Mkdir => Some (c, d, Selecting k dst)
  | Calling k dst, MkdirFails err => Some (c, d, Finished (Some err))
  | Selecting k dst, Receive =>
    match ready c with
    | src :: rest => Some (mkChan (seq c) rest (starting c + 1), d, Received k src dst)
    | [] => None
    end
  | Selecting k dst, Default =>
    match ready c with
    | [] => Some (c, d, Cloning k dst None false)
    | _ => None
    end
  | Received k src dst, Rename => d' ← rename src dst d; Some (c, d', Acquired k dst)
  | Received k src dst, RenameFails => Some (c, d, Cloning k dst None false)
  | Cloning k path _ filling, Open =>
    let '(i, d') := open_trunc path d in Some (c, d', Cloning k path (Some i) filling)
  | Cloning k path (Some i) filling, Copied =>
    Some (c, write_inode i (image (Golden p)) d, if filling then Publishing k path else Acquired k path)
  | Cloning k path fd filling, CloneFails kept err =>
    Some (c, match fd with Some i => write_inode i kept d | None => d end,
          Finished (if filling then None else Some err))
  | Publishing k path, Publish =>
    if Z.of_nat (length (ready c)) <? Size p then
      Some (mkChan (seq c) (ready c ++ [path]) (starting c), d, Finished None)
    else Some (c, unlink path d, Finished None)
  | Acquired k dst, BootDisk => i ← names d !! dst; Some (c, d, Running k dst i)
  | Running k dst i, GuestWrites text => Some (c, write_inode i text d, th)
  | Acquired k dst, Discard | Running k dst _, Discard => Some (c, unlink dst d, Finished None)
  | _, _ => None
  end.
Definition pool_of (th : thread) : option nat :=
  match th with
  | Calling k _ | Selecting k _ | Received k _ _ | Cloning k _ _ _ | Publishing k _
  | Acquired k _ | Running k _ _ => Some k
  | Finished _ => None
  end.

Definition step (a : action) (s : state) : option state :=
  match a with
  | Fill k =>
    p ← pools !! k; c ← chans s !! k;
    if 0 <? starting c then
      let n := u64 (seq c + 1) in
      Some (mkState (<[k := mkChan n (ready c) (starting c - 1)]> (chans s))
              (threads s ++ [Cloning k (pool_path p n) None true]) (disk s))
    else None
  | Call k dst =>
    match pools !! k with
    | None => Some (mkState (chans s) (threads s ++ [Finished (Some (New "rootfs pool is nil"))]) (disk s))
    | Some _ => Some (mkState (chans s) (threads s ++ [Calling k dst]) (disk s))
    end
  | Step t m =>
    th ← threads s !! t; k ← pool_of th; p ← pools !! k; c ← chans s !! k;
    '(c', d', th') ← moved p c (disk s) th m;
    Some (mkState (<[k := c']> (chans s)) (<[t := th']> (threads s)) d')
  end.
Definition pool_init : state := mkState (opened <$> pools) [] no_files.

(** What [Acquire] leaves to its callers: the destination of a call lies in no
    pool's directory, and no other boot has it in hand. *)
Definition fresh_dst (dst : string) (s : state) : bool :=
  negb (existsb (λ p, in_pool_dir p dst) pools) && negb (bool_decide (dst ∈ all_paths s)).
Fixpoint own_destinations (tr : list action) (s : state) : bool :=
  match tr with
  | [] => true
  | a :: tr =>
    match a with Call _ dst => fresh_dst dst s | _ => true end &&
    match step a s with Some s' => own_destinations tr s' | None => true end
  end.
End Steps.
#[local] Notation execute pools image := (steps (step pools image)).

(** ** The disk *)

(** Different names are different files. *)
Record files_ok (d : files) : Prop := {
  ok_inj a b i : names d !! a = Some i → names d !! b = Some i → a = b;
  ok_bound a i : names d !! a = Some i → (i < length (inodes d))%nat
}.
(** Only files with these names have changed. *)
Definition changes_only (ps : list string) (d d' : files) : Prop :=
  ∀ x, x ∉ ps → names d' !! x = names d !! x ∧
    ∀ i, names d !! x = Some i → inodes d' !! i = inodes d !! i.
Definition good_change (ps : list string) (d d' : files) : Prop :=
  files_ok d → files_ok d' ∧ changes_only ps d d'.

Lemma no_change ps d : good_change ps d d.
Proof. by intros H; split. Qed.
Lemma open_change path d i d' :
  open_trunc path d = (i, d') →
  good_change [path] d d' ∧ (files_ok d → names d' !! path = Some i).
Proof.
  unfold open_trunc. destruct (names d !! path) as [j|] eqn:E; intros [= <- <-]; cbn.
  - split; [|done]. intros [Hinj Hb]. split.
    + split; cbn; [done|]. intros a i. rewrite length_insert. apply Hb.
    + intros x Hx. split; [done|]. intros i Hi. cbn. apply list_lookup_insert_ne.
      intros <-. apply Hx. rewrite (Hinj x path j) by done. by left.
  - split; [|intros _; apply lookup_insert_eq]. intros [Hinj Hb]. split.
    + split; cbn.
      * intros a b i. rewrite !lookup_insert_Some.
        intros [[? ?]|[? Ha]] [[? ?]|[? Hb']]; subst; try done; [| |by eapply Hinj].
        { apply Hb in Hb'. lia. } { apply Hb in Ha. lia. }
      * intros a i. rewrite lookup_insert_Some, length_app. cbn.
        intros [[_ <-]|[_ Ha]]; [lia|]. apply Hb in Ha. lia.
    + intros x Hx. apply not_elem_of_cons in Hx as [Hx _]. cbn. rewrite lookup_insert_ne by done.
      split; [done|]. intros i Hi. apply lookup_app_l. by eapply Hb.
Qed.
Lemma write_change path i text d :
  names d !! path = Some i → good_change [path] d (write_inode i text d).
Proof.
  intros Hp [Hinj Hb]. split.
  - split; cbn; [done|]. intros a j. rewrite length_insert. apply Hb.
  - intros x Hx. split; [done|]. intros j Hj. cbn. apply list_lookup_insert_ne. intros <-.
    apply Hx. rewrite (Hinj x path i) by done. by left.
Qed.
Lemma unlink_change path d : good_change [path] d (unlink path d).
Proof.
  intros [Hinj Hb]. split.
  - split; cbn; intros a; intros *; rewrite !lookup_delete_Some; [|by intros [_ ?%Hb]].
    intros [_ Ha] [_ Hb']. by eapply Hinj.
  - intros x Hx. apply not_elem_of_cons in Hx as [Hx _]. cbn. by rewrite lookup_delete_ne.
Qed.
Lemma rename_change src dst d d' :
  rename src dst d = Some d' → good_change [src; dst] d d' ∧
  ∃ i, names d !! src = Some i ∧ names d' !! dst = Some i ∧ inodes d' = inodes d.
Proof.
  unfold rename. destruct (names d !! src) as [i|] eqn:E; [|done]. intros [= <-].
  split; [|exists i; cbn; by rewrite lookup_insert_eq]. intros [Hinj Hb]. split.
  - split; cbn.
    + intros a b j. rewrite !lookup_insert_Some, !lookup_delete_Some.
      intros [[? ?]|[? [? Ha]]] [[? ?]|[? [? Hb']]]; subst; try done; [| |by eapply Hinj].
      * destruct (Hinj src b j); done.
      * destruct (Hinj src a j); done.
    + intros a j. rewrite lookup_insert_Some, lookup_delete_Some.
      intros [[_ <-]|[_ [_ Ha]]]; by eapply Hb.
  - intros x Hx. rewrite !not_elem_of_cons in Hx. destruct Hx as (? & ? & _). cbn.
    by rewrite lookup_insert_ne, lookup_delete_ne.
Qed.

(** ** Names in the pool *)

Lemma append_cancel_r a b c : a +:+ c = b +:+ c → a = b.
Proof.
  intros H. refine (proj1 (append_inj_len a c b c _ H)). apply (f_equal String.length) in H.
  rewrite !length_append in H. lia.
Qed.
Lemma ready_element n : 0 <= n → element ("ready-" +:+ Itoa n +:+ ".ext4") = true.
Proof.
  intros Hn. apply element_spec. split; [|by split_and!].
  rewrite !ContainsByte_append. apply orb_false_iff. split; [done|]. apply orb_false_iff.
  split; [|done]. eapply ContainsByte_class; [apply Itoa_digits; lia|done].
Qed.
Lemma pool_path_id p n :
  Dir p ≠ "" → 0 <= n →
  path_id (pool_path p n) = ((path_id (Dir p)).1, (path_id (Dir p)).2 ++ ["ready-" +:+ Itoa n +:+ ".ext4"]).
Proof. intros Hd Hn. apply path_id_join; [done|]. by apply ready_element. Qed.
Lemma pool_path_inj p q n m :
  Dir p ≠ "" → Dir q ≠ "" → 0 <= n → 0 <= m → pool_path p n = pool_path q m →
  path_id (Dir p) = path_id (Dir q) ∧ n = m.
Proof.
  intros Hp Hq Hn Hm H%(f_equal path_id). rewrite !pool_path_id in H by done.
  injection H as H1 H2. apply app_inj_2 in H2 as [H2 H3]; [|done].
  split; [by apply pair_eq|]. apply (f_equal (hd "")), append_inj_l in H3. apply append_cancel_r in H3. by apply (inj pretty) in H3.
Qed.
Lemma pool_path_in p n : Dir p ≠ "" → 0 <= n → in_pool_dir p (pool_path p n) = true.
Proof.
  intros Hp Hn. unfold in_pool_dir. rewrite pool_path_id by done. cbn.
  apply bool_decide_eq_true. split; [done|]. by rewrite removelast_last.
Qed.

(** ** What holds of every state *)
Lemma concat_split {A B} (f : A → list B) l i x :
  l !! i = Some x → ∃ rest, concat (f <$> l) ≡ₚ f x ++ rest ∧
    (∀ y, concat (f <$> <[i := y]> l) ≡ₚ f y ++ rest) ∧
    ∀ j y z, j ≠ i → l !! j = Some y → z ∈ f y → z ∈ rest.
Proof.
  intros Hx. destruct (list_elem_of_split_length l i x Hx) as (l1 & l2 & -> & ->).
  exists (concat (f <$> l1) ++ concat (f <$> l2)). split_and!.
  - rewrite fmap_app, concat_app. cbn. rewrite !(assoc_L (++)). f_equiv. apply Permutation_app_comm.
  - intros y. rewrite insert_app_r_alt, Nat.sub_diag by lia. cbn.
    rewrite fmap_app, concat_app. cbn. rewrite !(assoc_L (++)). f_equiv. apply Permutation_app_comm.
  - intros j y z Hj Hy Hz. apply elem_of_app. apply lookup_app_Some in Hy as [Hy|[Hl Hy]].
    + left. apply list_elem_of_lookup_2 in Hy. apply list_elem_of_In, in_concat. exists (f y).
      by rewrite <- !list_elem_of_In, list_elem_of_fmap; eauto.
    + right. rewrite lookup_cons_ne_0 in Hy by lia. apply list_elem_of_lookup_2 in Hy.
      apply list_elem_of_In, in_concat. exists (f y).
      by rewrite <- !list_elem_of_In, list_elem_of_fmap; eauto.
Qed.

Section Safety.
Context (pools : list FilePool) (image : string → string).
Notation step := (step pools image).

(** Pools as [NewFilePool] makes them, each with a directory of its own. *)
Record pools_ok : Prop := {
  pool_dir k p : pools !! k = Some p → Dir p ≠ "" ∧ 1 <= Size p;
  pool_own_dir k k' p p' : pools !! k = Some p → pools !! k' = Some p' →
    path_id (Dir p) = path_id (Dir p') → k = k'
}.
Lemma NewFilePool_ok golden dir size p :
  NewFilePool golden dir size = Some p → Dir p ≠ "" ∧ 1 <= Size p.
Proof.
  unfold NewFilePool. destruct ((size <? 1) || _ || _) eqn:E; [done|]. intros [= <-]. cbn. by bool_prop.
Qed.
Definition has_image (k : nat) (x : string) (d : files) : Prop :=
  ∃ p i, pools !! k = Some p ∧ names d !! x = Some i ∧ inodes d !! i = Some (image (Golden p)).
Definition thread_ok (d : files) (th : thread) : Prop :=
  match th with
  | Cloning _ x (Some i) _ | Running _ x i => names d !! x = Some i
  | Publishing k x | Acquired k x | Received k x _ => has_image k x d
  | _ => True
  end.
(** [n] bounds the number of fills that have begun. *)
Record inv (n : Z) (s : state) : Prop := {
  inv_files : files_ok (disk s);
  inv_excl : NoDup (all_paths s);
  inv_threads t th : threads s !! t = Some th → thread_ok (disk s) th;
  inv_chans k c : chans s !! k = Some c → 0 <= seq c <= n ∧
    (∀ p, pools !! k = Some p → Z.of_nat (length (ready c)) <= Size p) ∧
    ∀ x, x ∈ ready c → has_image k x (disk s);
  inv_fresh x k p c m : x ∈ all_paths s → pools !! k = Some p → chans s !! k = Some c →
    0 <= m → x = pool_path p m → m <= seq c
}.

Lemma image_frame ps d d' k x :
  changes_only ps d d' → x ∉ ps → has_image k x d → has_image k x d'.
Proof.
  intros Hc Hx (p & i & Hp & Hn & Hi). destruct (Hc x Hx) as [Hn' Hi'].
  exists p, i. split_and!; [done| |]; [by rewrite Hn'|by rewrite Hi'].
Qed.
Lemma thread_frame ps d d' th :
  changes_only ps d d' → (∀ x, x ∈ claims th → x ∉ ps) → thread_ok d th → thread_ok d' th.
Proof.
  intros Hc Hx. destruct th as [| | |k x [i|] f|k x|k x|k x i|]; cbn in *; try done.
  1,3,4: eapply image_frame; [done|apply Hx; by left].
  all: intros H; by rewrite (proj1 (Hc x (Hx x ltac:(by left)))).
Qed.
Lemma all_paths_split s t th k c :
  threads s !! t = Some th → chans s !! k = Some c →
  ∃ rest, all_paths s ≡ₚ (ready c ++ claims th) ++ rest ∧
    (∀ c' th' d, all_paths (mkState (<[k := c']> (chans s)) (<[t := th']> (threads s)) d)
                 ≡ₚ (ready c' ++ claims th') ++ rest) ∧
    (∀ t' th' x, t' ≠ t → threads s !! t' = Some th' → x ∈ claims th' → x ∈ rest) ∧
    ∀ k' c' x, k' ≠ k → chans s !! k' = Some c' → x ∈ ready c' → x ∈ rest.
Proof.
  intros Ht Hk. destruct (concat_split claims _ _ _ Ht) as (r2 & H1 & H2 & H3).
  destruct (concat_split ready _ _ _ Hk) as (r1 & G1 & G2 & G3).
  assert (∀ a b, (a ++ r1) ++ b ++ r2 ≡ₚ (a ++ b) ++ r1 ++ r2) as Hp.
  { intros a b. solve_Permutation. }
  exists (r1 ++ r2). split_and!.
  - unfold all_paths. by rewrite H1, G1.
  - intros c' th' d. unfold all_paths. cbn. by rewrite H2, G2.
  - intros. apply elem_of_app. right. by eapply H3.
  - intros. apply elem_of_app. left. by eapply G3.
Qed.

(** A move handles only the paths its goroutine has in hand and the channel of
    its pool; it gives none of them away twice. *)
Lemma moved_spec d k p c th m c' d' th' :
  files_ok d → pools !! k = Some p → pool_of th = Some k →
  thread_ok d th → NoDup (ready c ++ claims th) →
  (∀ x, x ∈ ready c → has_image k x d) → Z.of_nat (length (ready c)) <= Size p →
  moved image p c d th m = Some (c', d', th') →
  good_change (claims th) d d' ∧ seq c' = seq c ∧
  ready c' ++ claims th' ⊆+ ready c ++ claims th ∧ thread_ok d' th' ∧
  Z.of_nat (length (ready c')) <= Size p ∧ (∀ x, x ∈ ready c' → has_image k x d').
Proof.
  intros Hok Hp Hk Hth Hnd Hready Hlen Hm. apply NoDup_app in Hnd as (_ & Hdis & _).
  assert (∀ d', good_change (claims th) d d' → ∀ x, x ∈ ready c → has_image k x d') as Hkeep.
  { intros d1 Hg x Hx. eapply image_frame; [by apply Hg|by apply Hdis|by apply Hready]. }
  assert (∀ d' th', good_change (claims th) d d' → claims th' ⊆+ claims th → thread_ok d' th' →
    good_change (claims th) d d' ∧ seq c = seq c ∧ ready c ++ claims th' ⊆+ ready c ++ claims th ∧
    thread_ok d' th' ∧ Z.of_nat (length (ready c)) <= Size p ∧ ∀ x, x ∈ ready c → has_image k x d')
    as Hstay.
  { intros d1 th1 Hg Hs Ht. split_and!; [done|done|by apply submseteq_app|done|done|by apply Hkeep]. }
  destruct th as [k0 dst|k0 dst|k0 src dst|k0 x fd f|k0 x|k0 dst|k0 dst i|e]; try discriminate;
    injection Hk as ->; destruct m; try discriminate; try (destruct fd; discriminate); cbn [moved] in Hm.
  - injection Hm as <- <- <-. apply Hstay; [apply no_change|done|done].
  - injection Hm as <- <- <-. apply Hstay; [apply no_change|apply submseteq_nil_l|done].
  - destruct (ready c) as [|src rest] eqn:Er; [done|]. injection Hm as <- <- <-. cbn in *.
    split_and!; [apply no_change|done|solve_submseteq|apply Hready; by left|lia|].
    intros x Hx. apply Hready. by right.
  - destruct (ready c) eqn:Er in Hm; [|done]. injection Hm as <- <- <-. apply Hstay; [apply no_change|done|done].
  - apply bind_Some in Hm as (d1 & Hr & [= <- <- <-]). destruct (rename_change _ _ _ _ Hr) as [Hg Hn].
    apply Hstay; [done|apply submseteq_cons, reflexivity|].
    destruct Hth as (q & j & ? & ? & ?), Hn as (i & ? & ? & Hi). exists q, i.
    split_and!; [done|done|]. rewrite Hi. congruence.
  - injection Hm as <- <- <-. apply Hstay; [apply no_change|apply submseteq_cons, reflexivity|done].
  - destruct (open_trunc x d) as [i d1] eqn:Eo.
    assert (c' = c ∧ d' = d1 ∧ th' = Cloning k x (Some i) f) as (-> & -> & ->) by (destruct fd; by simplify_eq).
    destruct (open_change _ _ _ _ Eo) as [Hg Hn]. apply Hstay; [done|done|by apply Hn].
  - destruct fd as [i|]; [|done]. injection Hm as <- <- <-.
    assert (has_image k x (write_inode i (image (Golden p)) d)) as Himg.
    { exists p, i. split_and!; [done|done|]. apply list_lookup_insert_eq. by eapply ok_bound. }
    apply Hstay; [by apply write_change|by destruct f|by destruct f].
  - assert (c' = c ∧ d' = match fd with Some i => write_inode i kept d | None => d end ∧
      th' = Finished (if f then None else Some err)) as (-> & -> & ->) by (destruct fd; by simplify_eq).
    apply Hstay; [|apply submseteq_nil_l|done].
    destruct fd; [by apply write_change|apply no_change].
  - destruct (Z.ltb_spec (Z.of_nat (length (ready c))) (Size p)); injection Hm as <- <- <-.
    + cbn. rewrite length_app. cbn.
      split_and!; [apply no_change|done|by rewrite app_nil_r|done|lia|].
      intros y [Hy| ->%list_elem_of_singleton]%elem_of_app; [by apply Hready|done].
    + apply Hstay; [apply unlink_change|apply submseteq_nil_l|done].
  - apply bind_Some in Hm as (i & Hr & [= <- <- <-]). apply Hstay; [apply no_change|done|done].
  - injection Hm as <- <- <-. apply Hstay; [apply unlink_change|apply submseteq_nil_l|done].
  - injection Hm as <- <- <-. apply Hstay; [by apply write_change|done|done].
  - injection Hm as <- <- <-. apply Hstay; [apply unlink_change|apply submseteq_nil_l|done].
Qed.

(** What a move of one goroutine leaves of the others. *)
Lemma NoDup_submseteq {A} (l k : list A) : l ⊆+ k → NoDup k → NoDup l.
Proof. intros [r Hr]%submseteq_Permutation Hk. rewrite Hr in Hk. by apply NoDup_app in Hk as [? _]. Qed.
Lemma step_inv_move n s t m s' :
  inv n s → step (Step t m) s = Some s' →
  inv n s' ∧ ∃ th, threads s !! t = Some th ∧ changes_only (claims th) (disk s) (disk s') ∧
    ∃ th', threads s' = <[t := th']> (threads s).
Proof.
  intros Hi Hs. cbn in Hs. apply bind_Some in Hs as (th & Ht & Hs). apply bind_Some in Hs as (k & Hk & Hs).
  apply bind_Some in Hs as (p & Hp & Hs). apply bind_Some in Hs as (c & Hc & Hs).
  apply bind_Some in Hs as ([[c' d'] th'] & Hm & [= <-]).
  destruct (all_paths_split s t th k c Ht Hc) as (rest & Hall & Hnew & Hoth & Hochan).
  destruct (inv_chans _ _ Hi k c Hc) as (Hseq & Hlen & Himg).
  pose proof (inv_excl _ _ Hi) as Hnd. rewrite Hall in Hnd. apply NoDup_app in Hnd as (Hnd & Hdis & Hrest).
  destruct (moved_spec (disk s) k p c th m c' d' th') as (Hg & Hsq & Hsub & Hth' & Hlen' & Hr');
    try done; [apply Hi|by eapply Hi|by apply Hlen|].
  destruct (Hg (inv_files _ _ Hi)) as [Hok' Hch].
  assert (∀ x, x ∈ rest → x ∉ claims th) as Hr.
  { intros x Hx Hx'. apply (Hdis x); [apply elem_of_app; by right|done]. }
  split; [|exists th; split_and!; [done|done|by exists th']].
  split; cbn [disk threads chans].
  - done.
  - rewrite Hnew. apply NoDup_app. split_and!; [by eapply NoDup_submseteq| |done].
    intros x Hx. apply Hdis. by eapply elem_of_submseteq.
  - intros t0 th0 H0. destruct (decide (t0 = t)) as [->|Hne].
    + rewrite list_lookup_insert_eq in H0 by (by eapply lookup_lt_Some). by injection H0 as <-.
    + rewrite list_lookup_insert_ne in H0 by done.
      eapply thread_frame; [done| |by eapply Hi]. intros x Hx. apply Hr. by eapply Hoth.
  - intros k0 c0 H0. destruct (decide (k0 = k)) as [->|Hne].
    + rewrite list_lookup_insert_eq in H0 by (by eapply lookup_lt_Some). injection H0 as <-.
      rewrite Hsq. split_and!; [lia..|by intros q Hq; simplify_eq|done].
    + rewrite list_lookup_insert_ne in H0 by done. destruct (inv_chans _ _ Hi k0 c0 H0) as (? & ? & H).
      split_and!; [lia..|done|]. intros x Hx. eapply image_frame; [done| |by apply H].
      apply Hr. by eapply Hochan.
  - intros x k0 q c0 j Hx Hq H0 Hj Hxj.
    assert (x ∈ all_paths s) as Hin.
    { rewrite Hall. rewrite Hnew in Hx. eapply elem_of_submseteq; [exact Hx|by apply submseteq_app]. }
    destruct (decide (k0 = k)) as [->|Hne].
    + rewrite list_lookup_insert_eq in H0 by (by eapply lookup_lt_Some). injection H0 as <-.
      rewrite Hsq. by eapply (inv_fresh _ _ Hi).
    + rewrite list_lookup_insert_ne in H0 by done. by eapply (inv_fresh _ _ Hi).
Qed.

(** A goroutine's file, while another makes a step. *)
Lemma step_others n s a s' t th x i :
  inv n s → threads s !! t = Some th → (∀ m, a ≠ Step t m) → x ∈ claims th →
  names (disk s) !! x = Some i → step a s = Some s' →
  threads s' !! t = Some th ∧ names (disk s') !! x = Some i ∧ inodes (disk s') !! i = inodes (disk s) !! i.
Proof.
  intros Hi Ht Ha Hx Hn Hs.
  assert (∀ cs th', threads (mkState cs (threads s ++ [th']) (disk s)) !! t = Some th) as Hkeep.
  { intros. by apply lookup_app_l_Some. }
  destruct a as [k|k dst|t' m].
  - cbn in Hs. apply bind_Some in Hs as (p & _ & Hs). apply bind_Some in Hs as (c & _ & Hs).
    destruct (0 <? starting c); [|done]. by injection Hs as <-.
  - cbn in Hs. destruct (pools !! k); by injection Hs as <-.
  - assert (t' ≠ t) as Hne by (by intros ->; apply (Ha m)).
    destruct (step_inv_move n s t' m s' Hi Hs) as (_ & th0 & Ht0 & Hch & th' & Hth').
    assert (x ∉ claims th0) as Hx0.
    { intros Hx0. destruct (concat_split claims _ _ _ Ht0) as (rest & Hc & _ & Ho).
      pose proof (inv_excl _ _ Hi) as Hnd. unfold all_paths in Hnd. rewrite Hc in Hnd.
      apply NoDup_app in Hnd as (_ & _ & Hnd). apply NoDup_app in Hnd as (_ & Hd & _).
      apply (Hd x Hx0). by eapply Ho. }
    destruct (Hch x Hx0) as [H1 H2]. rewrite Hth', list_lookup_insert_ne by done.
    split_and!; [done|by rewrite H1|by apply H2].
Qed.

(** A new goroutine, whose path nobody has. *)
Lemma step_inv_new n n' s cs th :
  inv n s →
  (∀ k c', cs !! k = Some c' → ∃ c, chans s !! k = Some c ∧ ready c' = ready c ∧ seq c <= seq c' <= n') →
  ready <$> cs = ready <$> chans s →
  NoDup (claims th) → (∀ x, x ∈ claims th → x ∉ all_paths s) → thread_ok (disk s) th →
  (∀ x k p c j, x ∈ claims th → pools !! k = Some p → cs !! k = Some c → 0 <= j →
     x = pool_path p j → j <= seq c) →
  inv n' (mkState cs (threads s ++ [th]) (disk s)).
Proof.
  intros Hi Hcs Hready Hnd Hnew Hth Hfresh.
  assert (all_paths (mkState cs (threads s ++ [th]) (disk s)) ≡ₚ claims th ++ all_paths s) as Hall.
  { unfold all_paths. cbn. rewrite Hready, fmap_app, concat_app. cbn. rewrite app_nil_r. solve_Permutation. }
  split; cbn [disk threads chans].
  - apply Hi.
  - rewrite Hall. apply NoDup_app. split_and!; [done|done|apply Hi].
  - intros t0 th0 [H0|[_ H0]]%lookup_app_Some; [by eapply Hi|].
    by apply list_lookup_singleton_Some in H0 as [_ <-].
  - intros k c' Hk. destruct (Hcs k c' Hk) as (c & Hc & Hr & Hs).
    destruct (inv_chans _ _ Hi k c Hc) as (? & ? & ?). rewrite Hr. split_and!; [lia..|done|done].
  - intros x k p c j Hx Hp Hc Hj Hxj. rewrite Hall in Hx. apply elem_of_app in Hx as [Hx|Hx].
    + by eapply Hfresh.
    + destruct (Hcs k c Hc) as (c0 & Hc0 & _ & Hs). pose proof (inv_fresh _ _ Hi x k p c0 j). naive_solver lia.
Qed.
Lemma step_inv n s a s' :
  pools_ok → n + 1 < 2 ^ 64 → (∀ k dst, a = Call k dst → fresh_dst pools dst s = true) →
  inv n s → step a s = Some s' → inv (n + 1) s'.
Proof.
  intros Hok Hn Hfr Hi Hs. destruct a as [k|k dst|t m]; [| |].
  - cbn in Hs. apply bind_Some in Hs as (p & Hp & Hs). apply bind_Some in Hs as (c & Hc & Hs).
    destruct (0 <? starting c); [|done]. injection Hs as <-.
    destruct (inv_chans _ _ Hi k c Hc) as (Hseq & _ & _).
    unfold u64. rewrite wrapu_small by lia.
    assert (∀ q, pools !! k = Some q → 0 <= seq c + 1) as Hpos by lia.
    apply (step_inv_new n); [done| | | | |done|]; cbn.
    + intros k' c' [(-> & <- & _)|[_ Hc']]%list_lookup_insert_Some.
      * exists c. cbn. split_and!; [done|done|lia..].
      * exists c'. destruct (inv_chans _ _ Hi k' c' Hc'). split_and!; [done|done|lia..].
    + rewrite list_fmap_insert. cbn. apply list_insert_id. by rewrite list_lookup_fmap, Hc.
    + apply NoDup_singleton.
    + intros x ->%list_elem_of_singleton Hx.
      pose proof (inv_fresh _ _ Hi _ k p c (seq c + 1) Hx Hp Hc). specialize (H ltac:(lia) eq_refl). lia.
    + intros x k' p' c' j ->%list_elem_of_singleton Hp' Hc' Hj Heq.
      apply pool_path_inj in Heq as [Hd <-]; [|by eapply pool_dir|by eapply pool_dir|lia|done].
      assert (k = k') as <- by (by eapply pool_own_dir). rewrite list_lookup_insert_eq in Hc' by (by eapply lookup_lt_Some).
      injection Hc' as <-. cbn. lia.
  - cbn in Hs.
    assert (∀ k' c', chans s !! k' = Some c' →
      ∃ c, chans s !! k' = Some c ∧ ready c' = ready c ∧ seq c <= seq c' <= n + 1) as Hsame.
    { intros k' c' Hc'. exists c'. destruct (inv_chans _ _ Hi k' c' Hc'). split_and!; [done|done|lia..]. }
    destruct (pools !! k) as [p|] eqn:Hp.
    + specialize (Hfr k dst eq_refl). unfold fresh_dst in Hfr. apply andb_true_iff in Hfr as [He Hin].
      apply negb_true_iff in He, Hin. apply bool_decide_eq_false in Hin. injection Hs as <-.
      apply (step_inv_new n); [done|done|done|apply NoDup_singleton| |done|].
      * by intros x ->%list_elem_of_singleton.
      * intros x k' p' c j ->%list_elem_of_singleton Hp' Hc Hj ->.
        apply not_true_iff_false in He. contradict He. apply existsb_exists. exists p'.
        split; [apply list_elem_of_In; by eapply list_elem_of_lookup_2|]. apply pool_path_in; [|done].
        by eapply pool_dir.
    + injection Hs as <-. apply (step_inv_new n); [done|done|done|apply NoDup_nil_2| |done|];
        intros *; by intros ?%not_elem_of_nil.
  - destruct (step_inv_move n s t m s' Hi Hs) as [Hi' _].
    destruct Hi' as [H1 H2 H3 H4 H5]. split; try done. intros k c Hc. destruct (H4 k c Hc) as (? & ? & ?).
    split_and!; [lia..|done|done].
Qed.

Lemma inv_init : pools_ok → inv 0 (pool_init pools).
Proof.
  intros Hok. assert (all_paths (pool_init pools) = []) as Hall.
  { unfold all_paths, pool_init. cbn. rewrite app_nil_r. clear. by induction pools. }
  split; rewrite ?Hall; cbn.
  - by split.
  - by apply NoDup_nil.
  - done.
  - intros k c. rewrite list_lookup_fmap. destruct (pools !! k) as [p|] eqn:Hp; [|done].
    intros [= <-]. cbn. split_and!; [lia..| |by intros x ?%not_elem_of_nil].
    intros q [= <-]. pose proof (proj2 (pool_dir Hok k p Hp)). lia.
  - by intros x k p c j ?%not_elem_of_nil.
Qed.
Lemma execute_inv tr n s s' :
  pools_ok → n + Z.of_nat (length tr) < 2 ^ 64 → own_destinations pools image tr s = true →
  inv n s → execute pools image tr s = Some s' → inv (n + Z.of_nat (length tr)) s'.
Proof.
  intros Hok. revert n s. induction tr as [|a tr IH]; intros n s Hn Hown Hi Hs; cbn [length] in *.
  - injection Hs as <-. by rewrite Z.add_0_r.
  - cbn in Hs. apply bind_Some in Hs as (s1 & Hs1 & Hs). cbn [own_destinations] in Hown.
    rewrite Hs1 in Hown. apply andb_true_iff in Hown as [Ha Hown].
    replace (n + Z.of_nat (S (length tr))) with (n + 1 + Z.of_nat (length tr)) by lia.
    apply (IH _ s1); [lia|done| |done]. eapply step_inv; [done|lia| |done|done].
    intros k dst ->. exact Ha.
Qed.

(** The disk that a caller of [Acquire] has been given. *)
Definition disk_of (th : thread) : option string :=
  match th with Acquired _ dst | Running _ dst _ => Some dst | _ => None end.

(** C12 (safety): A boot gets a clean disk of its own: whatever the goroutines of the
    pools do in between, when [Acquire] has returned, [dst] is a file with the
    contents of the golden image; and until the machine is gone no step but its
    own renames, truncates or writes that file, so that no state of one job
    reaches another.  The pool never has more than [Size] disks ready.  This is
    so as long as the pools have directories of their own
    ([shared_directory_overwrites]) and every boot a destination of its own
    ([shared_destination_overwrites]), which [Acquire] does not check, and for
    fewer than 2^64 steps. *)
Theorem disks_clean_and_private tr s :
  pools_ok → Z.of_nat (length tr) < 2 ^ 64 → own_destinations pools image tr (pool_init pools) = true →
  execute pools image tr (pool_init pools) = Some s →
  (∀ t k dst, threads s !! t = Some (Acquired k dst) →
     ∃ p i, pools !! k = Some p ∧ names (disk s) !! dst = Some i ∧
            inodes (disk s) !! i = Some (image (Golden p))) ∧
  (∀ t th dst, threads s !! t = Some th → disk_of th = Some dst →
     ∃ i, names (disk s) !! dst = Some i ∧
     ∀ a s', (∀ m, a ≠ Step t m) → step a s = Some s' →
       threads s' !! t = Some th ∧ names (disk s') !! dst = Some i ∧
       inodes (disk s') !! i = inodes (disk s) !! i) ∧
  (∀ k p c, pools !! k = Some p → chans s !! k = Some c → Available (Some c) <= Size p).
Proof.
  intros Hok Hlen Hown Hs. pose proof (execute_inv tr 0 _ s Hok Hlen Hown (inv_init Hok) Hs) as Hi.
  split_and!.
  - intros t k dst Ht. exact (inv_threads _ _ Hi t _ Ht).
  - intros t th dst Ht Hd.
    assert (∃ i, names (disk s) !! dst = Some i) as [i Hn].
    { pose proof (inv_threads _ _ Hi t th Ht) as H. destruct th; try discriminate; injection Hd as ->; [|by eexists].
      destruct H as (_ & i & _ & ? & _). by exists i. }
    exists i. split; [done|]. intros a s' Ha Hst. eapply step_others; [done|done|done| |done|done].
    by destruct th; try discriminate; injection Hd as ->; left.
  - intros k p c Hp Hc. by apply (inv_chans _ _ Hi k c Hc).
Qed.
End Safety.

(** ** Examples *)
Definition sample_pool : FilePool := mkPool "/img/rootfs.ext4" "/data/vms/pool" 1.
Definition sample_image (_ : string) : string := "clean".
(** A fill, a boot that takes its disk and writes it, the fill that replaces it,
    and a second boot. *)
Definition two_boots : list action :=
  [Fill 0; Step 0 Open; Step 0 Copied; Step 0 Publish;
   Call 0 "/data/vms/fc-1/rootfs.ext4"; Step 1 Mkdir; Step 1 Receive; Step 1 Rename; Step 1 BootDisk;
   Step 1 (GuestWrites "secret"); Fill 0; Step 2 Open;
   Call 0 "/data/vms/fc-2/rootfs.ext4"; Step 3 Mkdir; Step 3 Default; Step 3 Open; Step 3 Copied].
Definition after_two_boots : state :=
  default (pool_init [sample_pool]) (execute [sample_pool] sample_image two_boots (pool_init [sample_pool])).
Lemma sample_pools_ok : pools_ok [sample_pool].
Proof.
  split.
  - intros [|k] p; cbn; [|done]. by intros [= <-].
  - intros [|k] [|k'] p p'; done.
Qed.
Lemma disks_clean_and_private_witness :
  threads after_two_boots !! 1%nat = Some (Running 0 "/data/vms/fc-1/rootfs.ext4" 0) ∧
  inodes (disk after_two_boots) = ["secret"; ""; "clean"] ∧
  ∃ p i, [sample_pool] !! 0%nat = Some p ∧
    names (disk after_two_boots) !! "/data/vms/fc-2/rootfs.ext4" = Some i ∧
    inodes (disk after_two_boots) !! i = Some (sample_image (Golden p)).
Proof.
  split; [vm_compute; reflexivity|]. split; [vm_compute; reflexivity|].
  destruct (disks_clean_and_private [sample_pool] sample_image two_boots after_two_boots) as (H & _ & _);
    [exact sample_pools_ok|vm_compute; reflexivity|vm_compute; reflexivity|vm_compute; reflexivity|].
  apply (H 3%nat). vm_compute. reflexivity.
Defined.

(** (error) Two pools on one directory do not have this property: both call
    their first copy the same, so that the second can still be copying into a
    file that the first has handed out, and the disk of a running machine is
    overwritten under it. *)
Theorem shared_directory_overwrites :
  ∃ tr s s' dst i,
    execute [sample_pool; sample_pool] sample_image tr (pool_init [sample_pool; sample_pool]) = Some s ∧
    threads s !! 2%nat = Some (Running 0 dst i) ∧ names (disk s) !! dst = Some i ∧
    inodes (disk s) !! i = Some "secret" ∧
    step [sample_pool; sample_pool] sample_image (Step 1 Copied) s = Some s' ∧
    inodes (disk s') !! i = Some "clean".
Proof.
  set (tr := [Fill 0; Fill 1; Step 0 Open; Step 1 Open; Step 0 Copied; Step 0 Publish;
    Call 0 "/data/vms/fc-1/rootfs.ext4"; Step 2 Mkdir; Step 2 Receive; Step 2 Rename; Step 2 BootDisk;
    Step 2 (GuestWrites "secret")]).
  exists tr. eexists _, _, "/data/vms/fc-1/rootfs.ext4", 0%nat.
  split; [vm_compute; reflexivity|]. do 3 (split; [vm_compute; reflexivity|]).
  split; vm_compute; reflexivity.
Qed.

(** (error) Nor do two boots that ask for one destination, as two requests of one
    session do: [Acquire] does not see that the file exists, and copies the image
    over the disk of the machine that runs from it. *)
Theorem shared_destination_overwrites :
  ∃ tr s s' dst i,
    execute [sample_pool] sample_image tr (pool_init [sample_pool]) = Some s ∧
    threads s !! 0%nat = Some (Running 0 dst i) ∧ names (disk s) !! dst = Some i ∧
    inodes (disk s) !! i = Some "secret" ∧
    step [sample_pool] sample_image (Step 1 Open) s = Some s' ∧
    threads s' !! 0%nat = Some (Running 0 dst i) ∧ inodes (disk s') !! i = Some "".
Proof.
  set (dst := "/data/snapshots/s1/rootfs.ext4").
  exists [Call 0 dst; Step 0 Mkdir; Step 0 Default; Step 0 Open; Step 0 Copied; Step 0 BootDisk;
    Step 0 (GuestWrites "secret"); Call 0 dst; Step 1 Mkdir; Step 1 Default].
  eexists _, _, dst, 0%nat.
  split; [vm_compute; reflexivity|]. do 4 (split; [vm_compute; reflexivity|]).
  split; vm_compute; reflexivity.
Qed.
