(* ===== verification/PoolRuntime.v ===== *)
(** * The pool of root disks as a boot sees it (internal/runtime/pool.go)

    [Acquire] as one action of the boot that calls it.  What it receives from the
    channel is the host's choice: the goroutines that fill it are in [Pool], whose
    theorem says that what they put there is a copy of the golden image. *)
From S2P Require Import Prelude GoUnicode GoStrings GoError GoPath Pool GoFS Jailer.

Section Acquire.
Context {X : Type} (fault : string → string → fs → option (error * option string)).
Context (cp : string → string → M fs bool).
(** The select on the channel of a pool; [None] is its default case. *)
Context (receive : FilePool → M (host X) (option string)).

Definition Acquire (p : FilePool) (dst : string) : M (host X) (option error) :=
  let clone := on_disk (cloneFile fault cp (Golden p) dst) in
  guard Some (on_disk (MkdirAll fault (parent dst)))
  (let! src := receive p in
   match src with
   | Some src =>
     let! e := on_disk (Rename fault src dst) in
     match e with Some _ => clone | None => ret None end
   | None => clone
   end).
Definition NewFilePool (golden dir : string) (size : Z) : option (string → M (host X) (option error)) :=
  Acquire <$> Pool.NewFilePool golden dir size.

(** ** A boot gets the golden image *)

(** [cp] copies (into [dst], if that is a directory), or leaves its source alone; the channel gives copies of the
    golden image, and nobody changes the image itself. *)
Hypothesis Hcp : ∀ src dst w ok w', cp src dst w = (Ret ok, w') →
  if ok then w' !! dst = w !! src ∨ w' !! dst = Some Dir else w' !! src = w !! src.
Hypothesis Hreceive : ∀ p h src h' image,
  receive p h = (Ret src, h') → h.1 !! Golden p = Some (Regular image) →
  h'.1 !! Golden p = Some (Regular image) ∧ (∀ s, src = Some s → h'.1 !! s = Some (Regular image)).

Lemma cloneFile_copies src dst c w w' :
  src ≠ dst → w !! src = Some (Regular c) → cloneFile fault cp src dst w = (Ret None, w') →
  w' !! dst = Some (Regular c) ∨ w' !! dst = Some Dir.
Proof.
  intros Hne Hc. unfold cloneFile. intros (ok & w1 & H1 & H)%bind_inv_Ret. apply Hcp in H1. destruct ok.
  - injection H as <-. by rewrite <- Hc.
  - rewrite Hc in H1. unfold copyFile in H. rewrite H1 in H.
    destruct (fault "open" src w1) as [[]|]; [done|]. destruct (negb _); [done|].
    case_bool_decide; [done|]. destruct (fault "write" dst w1) as [[e [part|]]|]; [done..|].
    injection H as <-. left. rewrite (proj2 (String.eqb_neq _ _) Hne). apply lookup_insert_eq.
Qed.
(** (functional) Whatever the pool had ready, and whether or not it could be
    moved, a disk that [Acquire] has placed is the golden image, unless [dst] is a
    directory. *)
Theorem Acquire_places_golden p dst image h h' :
  dst ≠ Golden p → h.1 !! Golden p = Some (Regular image) →
  Acquire p dst h = (Ret None, h') →
  h'.1 !! dst = Some (Regular image) ∨ h'.1 !! dst = Some Dir.
Proof.
  intros Hne Hg. unfold Acquire, guard. intros (e & h1 & E1 & H)%bind_inv_Ret. destruct e; [done|].
  assert (h1.1 !! Golden p = Some (Regular image)) as Hg1.
  { unfold on_disk in E1. pose proof (MkdirAll_files fault (parent dst) h.1 _ _ Hg) as Hk.
    destruct (MkdirAll fault (parent dst) h.1) as [o d]. by injection E1 as _ <-. }
  apply bind_inv_Ret in H as (src & h2 & E2 & H). apply (Hreceive p h1 src h2 image) in E2 as [Hg2 Hs]; [|done].
  assert (∀ h3, h3.1 !! Golden p = Some (Regular image) →
    on_disk (X:=X) (cloneFile fault cp (Golden p) dst) h3 = (Ret None, h') →
    h'.1 !! dst = Some (Regular image) ∨ h'.1 !! dst = Some Dir) as Hclone.
  { intros h3 H3 E. unfold on_disk in E. destruct (cloneFile fault cp (Golden p) dst h3.1) as [o d] eqn:Ec.
    injection E as -> <-. cbn. eapply (cloneFile_copies (Golden p)); [by apply not_eq_sym|exact H3|exact Ec]. }
  destruct src as [src|]; [|exact (Hclone h2 Hg2 H)].
  apply bind_inv_Ret in H as (e & h3 & E3 & H). unfold on_disk in E3.
  destruct (Rename fault src dst h2.1) as [o d] eqn:Er. injection E3 as -> <-. destruct e as [e|].
  - apply Rename_Some in Er as ->. exact (Hclone h2 Hg2 H).
  - apply Rename_None in Er as (c & Hc & ->). injection H as <-. cbn. left.
    rewrite lookup_insert_eq. specialize (Hs src eq_refl). congruence.
Qed.
End Acquire.

(** ** Example: a pool whose first disk is ready, and then none *)
Definition sample_cp (src dst : string) : M fs bool := λ w, (Ret false, w).
Definition sample_receive (p : FilePool) : M (host nat) (option string) := λ h,
  (Ret (if bool_decide (h.1 !! Golden p = h.1 !! "/data/pool/ready-1.ext4") then Some "/data/pool/ready-1.ext4"
        else None), h).
Definition sample_files : fs :=
  {["/img/rootfs.ext4" := Regular "disk"; "/data" := Dir; "/data/pool" := Dir;
    "/data/pool/ready-1.ext4" := Regular "disk"]}.
Lemma Acquire_places_golden_witness :
  let acquire := Acquire (λ _ _ _, None) sample_cp sample_receive (mkPool "/img/rootfs.ext4" "/data/pool" 1) in
  let d := (acquire "/data/vms/1/rootfs.ext4" (sample_files, 0%nat)).2.1 in
  d !! "/data/pool/ready-1.ext4" = None ∧
  (d !! "/data/vms/1/rootfs.ext4" = Some (Regular "disk") ∨ d !! "/data/vms/1/rootfs.ext4" = Some Dir).
Proof.
  intros acquire d. split; [vm_compute; reflexivity|].
  eapply (Acquire_places_golden (λ _ _ _, None) sample_cp sample_receive) with
    (p := mkPool "/img/rootfs.ext4" "/data/pool" 1) (h := (sample_files, 0%nat));
    [| |discriminate|vm_compute; reflexivity|].
  - intros src dst w ok w' [= <- <-]. done.
  - intros p' h src h' image [= <- <-] Hg. split; [done|]. intros s.
    case_bool_decide as E; [|done]. intros [= <-]. by rewrite <- E.
  - vm_compute. reflexivity.
Defined.
