(* ===== verification/Firecracker.v ===== *)
(** * The Firecracker backend (internal/runtime/firecracker.go, fcsnap.go)

    One microVM per request: its files and jail, its network, the VMM process,
    its configuration over the API socket, the wait for the guest agent, and
    the session snapshots.  The host outside the process (kernel, VMM, network
    factory, cgroups) is an argument, as a record of actions. *)
From S2P Require Import Prelude GoUnicode GoStrings GoError GoNet GoPath GoTime GoFS Resources Policy.
From S2P Require Import Tap Snapshot Sparse FcConfig Jailer FcApi FcVsock GuestAgent Runtime.

(** ** The backend's parts *)

(** [network.TapFactory], with the [Recreator] that it may also be. *)
Record TapFactory (X : Type) := mkFactory {
  tf_Setup : string → Policy → M (host X) (result Link);
  tf_Teardown : Link → M (host X) (option error);
  tf_Recreate : option (Link → Policy → M (host X) (option error * Link))
}.
Arguments mkFactory {X}. Arguments tf_Setup {X}. Arguments tf_Teardown {X}. Arguments tf_Recreate {X}.

(** The fields of [Config] that are not read from its file. *)
Record Parts (X : Type) := mkParts {
  p_Tap : option (TapFactory X);
  p_Cgroup : option (string → Z → Profile → M (host X) (result (M (host X) (option error))));
  p_Snapshots : option (Store (host X));
  p_Pool : option (string → M (host X) (option error))
}.
Arguments mkParts {X}. Arguments p_Tap {X}. Arguments p_Cgroup {X}. Arguments p_Snapshots {X}.
Arguments p_Pool {X}.

(** How a select ended that also waited for the process and the context. *)
Inductive interruption := Exited (status : string) | CtxDone (err : error).

(** The host. *)
Record kernel (X : Type) := mkKernel {
  k_fault : string → string → fs → option (error * option string);
  k_cp : string → string → M fs bool;
  k_link : string → string → M fs bool;
  k_cwd : string;
  (** exec.LookPath, and whether there is such a file *)
  k_LookPath : string → option string;
  k_exists : string → bool;
  k_user : result (string * string);
  (** processes: a start answers with the pid; a signal may be refused; whether
      [exited] is closed before the two seconds of [Destroy] are over, and whether
      a wait for it without a deadline ever comes to an end *)
  k_Start : exec_cmd → string → M (host X) (result Z);
  k_Kill : Z → M (host X) (option error);
  k_exits_in_time : Z → M (host X) bool;
  k_Wait : Z → M (host X) bool;
  (** the API socket, and the vsock *)
  k_Do : string → api_request → M (host X) (result (Z * string));
  k_fault_message : string → string;
  k_Dial : context → string → M (host X) (result unix_conn);
  k_Fprint : unix_conn → string → M (host X) (option error);
  k_Close : unix_conn → M (host X) unit;
  k_encode : Request → result string;
  k_decode : string * error → result Response;
  (** time: the clock, a ticker, how often a wait takes the ticker before it
      takes the context's end, and what whileAlive's select took *)
  k_now : M (host X) Z;
  k_tick : M (host X) unit;
  k_ticks : context → host X → nat;
  k_ctx_Err : context → M (host X) (option error);
  k_interrupted : context → M (host X) (option interruption);
  (** which bytes of a file are allocated, and what fails when extents are copied *)
  k_data : string → fs → nat → bool;
  k_seek_fails : nat → option error;
  k_pos_fails : nat → option error;
  k_copy_fails : nat → option (error * nat)
}.
Arguments mkKernel {X}. Arguments k_fault {X}. Arguments k_cp {X}. Arguments k_link {X}.
Arguments k_cwd {X}. Arguments k_LookPath {X}. Arguments k_exists {X}. Arguments k_user {X}. Arguments k_Start {X}.
Arguments k_Kill {X}. Arguments k_exits_in_time {X}. Arguments k_Wait {X}. Arguments k_Do {X}. Arguments k_fault_message {X}.
Arguments k_Dial {X}. Arguments k_Fprint {X}. Arguments k_Close {X}. Arguments k_encode {X}.
Arguments k_decode {X}. Arguments k_now {X}. Arguments k_tick {X}. Arguments k_ticks {X}.
Arguments k_ctx_Err {X}. Arguments k_interrupted {X}. Arguments k_data {X}. Arguments k_seek_fails {X}.
Arguments k_pos_fails {X}. Arguments k_copy_fails {X}.
(** The [ip] of this host. *)
Definition k_ip {X} (k : kernel X) : string := IPCommand (k_LookPath k) (k_exists k).

(** ** The backend's state *)

(** What is left to change in an instance once it is returned: the flag of
    [Destroy], and the session record that snapshots update.  An instance is a
    pointer to them. *)
Record cell := mkCell { c_dead : bool; c_snapRec : option Record_ }.
(** What the backend has done about a process: nothing that would end it, or sent
    it SIGKILL, which the kernel took or refused. *)
Inductive vmm_state := Running | Killed | SignalRefused (err : error).
(** [vmms] are the VMM processes that were started and whose end the backend has
    not seen: no [wait] for one has come back.  One of them may have ended by
    itself.  A process is known by its [exec.Cmd], which is never reused, unlike
    its pid; a returned instance is known by its process. *)
Record world (X : Type) := mkWorld {
  hw : host X; vmms : gmap nat vmm_state; cells : gmap nat cell; fc_seq : Z; fc_cids : Z
}.
Arguments mkWorld {X}. Arguments hw {X}. Arguments vmms {X}. Arguments cells {X}.
Arguments fc_seq {X}. Arguments fc_cids {X}.

(** The files of a machine; [jailed] when they are in a chroot. *)
Record vm_files := mkFiles {
  jailed : bool; workDir : string; apiSock : string; vsockUDS : string; logFile : string;
  hostRootfs : string
}.
(** The process: its handle and pid. *)
Record process := mkProc { handle : nat; pid : Z }.
Record firecrackerInstance (X : Type) := mkFC {
  i_id : string; i_language : string; i_sessionID : string; i_limits : Profile;
  i_snapRec : option Record_; i_cid : Z; i_port : Z; i_files : vm_files; i_cmd : option process;
  i_client : bool; i_cgroupCleanup : option (M (host X) (option error));
  i_tap : option Link; i_tapTeardown : option (Link → M (host X) (option error))
}.
Arguments mkFC {X}. Arguments i_id {X}. Arguments i_language {X}. Arguments i_sessionID {X}.
Arguments i_limits {X}. Arguments i_snapRec {X}. Arguments i_cid {X}. Arguments i_port {X}.
Arguments i_files {X}. Arguments i_cmd {X}. Arguments i_client {X}. Arguments i_cgroupCleanup {X}.
Arguments i_tap {X}. Arguments i_tapTeardown {X}.

Section Updates.
Context {X : Type}.
Implicit Types (i : firecrackerInstance X) (w : world X).
Definition set_files (f : vm_files) i : firecrackerInstance X :=
  mkFC (i_id i) (i_language i) (i_sessionID i) (i_limits i) (i_snapRec i) (i_cid i) (i_port i) f
    (i_cmd i) (i_client i) (i_cgroupCleanup i) (i_tap i) (i_tapTeardown i).
Definition set_cmd (c : option process) i : firecrackerInstance X :=
  mkFC (i_id i) (i_language i) (i_sessionID i) (i_limits i) (i_snapRec i) (i_cid i) (i_port i)
    (i_files i) c (i_client i) (i_cgroupCleanup i) (i_tap i) (i_tapTeardown i).
Definition set_client i : firecrackerInstance X :=
  mkFC (i_id i) (i_language i) (i_sessionID i) (i_limits i) (i_snapRec i) (i_cid i) (i_port i)
    (i_files i) (i_cmd i) true (i_cgroupCleanup i) (i_tap i) (i_tapTeardown i).
Definition set_cleanup (c : M (host X) (option error)) i : firecrackerInstance X :=
  mkFC (i_id i) (i_language i) (i_sessionID i) (i_limits i) (i_snapRec i) (i_cid i) (i_port i)
    (i_files i) (i_cmd i) (i_client i) (Some c) (i_tap i) (i_tapTeardown i).
Definition set_tap (l : Link) (t : Link → M (host X) (option error)) i : firecrackerInstance X :=
  mkFC (i_id i) (i_language i) (i_sessionID i) (i_limits i) (i_snapRec i) (i_cid i) (i_port i)
    (i_files i) (i_cmd i) (i_client i) (i_cgroupCleanup i) (Some l) (Some t).
Definition set_vsock (p : string) (f : vm_files) : vm_files :=
  mkFiles (jailed f) (workDir f) (apiSock f) p (logFile f) (hostRootfs f).
Definition set_rootfs (p : string) (f : vm_files) : vm_files :=
  mkFiles (jailed f) (workDir f) (apiSock f) (vsockUDS f) (logFile f) p.
Definition set_host (h : host X) w : world X := mkWorld h (vmms w) (cells w) (fc_seq w) (fc_cids w).
Definition set_vmms (v : gmap nat vmm_state) w : world X := mkWorld (hw w) v (cells w) (fc_seq w) (fc_cids w).
Definition set_cells (c : gmap nat cell) w : world X :=
  mkWorld (hw w) (vmms w) c (fc_seq w) (fc_cids w).
End Updates.

(** A machine under construction: the backend, and the instance that the
    functions below fill in through its pointer. *)
Definition making (X : Type) : Type := world X * firecrackerInstance X.
Definition on_host {X A} (m : M (host X) A) : M (world X) A := λ w,
  let '(o, h) := m (hw w) in (o, set_host h w).
Definition on_world {X A} (m : M (world X) A) : M (making X) A := λ s,
  let '(o, w) := m s.1 in (o, (w, s.2)).
Definition sys {X A} (m : M (host X) A) : M (making X) A := on_world (on_host m).
Definition inst {X} : M (making X) (firecrackerInstance X) := gets snd.
Definition upd {X} (f : firecrackerInstance X → firecrackerInstance X) : M (making X) unit :=
  modify (λ s, (s.1, f s.2)).

(** ** Files and processes *)

Record vmPaths := mkPaths {
  v_hostRootfs : string; guestKernel : string; guestRootfs : string; guestVsock : string;
  guestLog : string
}.

Definition tapID (vmID sessionID : string) : string :=
  if negb (String.eqb sessionID "") then "s" +:+ sessionID else vmID.
Definition networkMatches (rec : option Record_) (p : Policy) : bool :=
  match rec with
  | None => false
  | Some rec => Bool.eqb (HasNetwork rec) (0 <? length (Allowlist p))%nat
  end.
Definition denyNetworkOrFail (p : Policy) (has_tap : bool) : option error :=
  let p := if String.eqb (DefaultPolicy p) "" then Default else p in
  match Policy_Validate p with
  | Some err => Some (Wrap "network policy: " err "")
  | None =>
    if (0 <? length (Allowlist p))%nat && negb has_tap then
      Some (New "egress allowlist is not empty but no TAP factory is configured; refusing to boot a VM that would silently have no network")
    else None
  end.
(** The session record and the link it was made from. *)
Definition ipString (x : ip) : string := if (length x =? 0)%nat then "" else IP_String x.
Definition fillRecordNetwork (r : Record_) (link : option Link) : Record_ :=
  match link with
  | None =>
    mkRecord (rec_SessionID r) (rec_VMID r) (rec_Path r) (SnapshotPath r) (MemoryPath r)
      (RootfsPath r) (GuestCID r) false (HostDevName r) (rec_GuestMAC r) (rec_GuestIP r)
      (rec_HostIP r) (rec_NetNS r) (rec_NetNSPath r) (rec_HostVeth r) (rec_NSVeth r)
      (rec_UplinkHost r) (rec_UplinkNS r) (rec_Table r) (Generation r) (LastKind r) (CreatedAt r)
  | Some l =>
    mkRecord (rec_SessionID r) (rec_VMID r) (rec_Path r) (SnapshotPath r) (MemoryPath r)
      (RootfsPath r) (GuestCID r) true (Tap.Name l) (GuestMAC l) (ipString (GuestIP l))
      (ipString (HostIP l)) (NetNS l) (NetNSPath l) (HostVeth l) (NSVeth l)
      (ipString (UplinkHost l)) (ipString (UplinkNS l)) (Table l) (Generation r) (LastKind r)
      (CreatedAt r)
  end.
(** [net.ParseIP], whose nil is an empty address. *)
Definition parse_ip (s : string) : ip := default [] (ParseIP s).
Definition linkFromRecord (rec : option Record_) : option Link :=
  match rec with
  | None => None
  | Some r =>
    if negb (HasNetwork r) then None
    else Some (mkLink (HostDevName r) (parse_ip (rec_HostIP r)) (parse_ip (rec_GuestIP r)) 30
           (rec_GuestMAC r) (rec_Table r) (rec_NetNS r) (rec_NetNSPath r) (rec_HostVeth r)
           (rec_NSVeth r) (parse_ip (rec_UplinkHost r)) (parse_ip (rec_UplinkNS r)))
  end.

Section Backend.
Context {X : Type} (k : kernel X) (cfg : FcConfig.Config) (parts : Parts X).

Definition clone (src dst : string) : M (host X) (option error) :=
  on_disk (cloneFile (k_fault k) (k_cp k) src dst).
Definition placeRootfs (src dst : string) : M (host X) (option error) :=
  match p_Pool parts with
  | Some acquire =>
    if String.eqb (absPath (k_cwd k) src) (absPath (k_cwd k) (Rootfs cfg)) then acquire dst
    else clone src dst
  | None => clone src dst
  end.

Definition preparePathsFrom (rootfsSrc : string) : M (making X) (result vmPaths) :=
  let! i := inst in
  if negb (String.eqb (Jailer cfg) "") then
    match newJailLayout (WorkDir cfg) (Binary cfg) (i_id i) with
    | Err err => ret (Err err)
    | Ok layout =>
      guard Err (sys (prepareJail (k_fault k) (k_cp k) (k_link k) layout (Kernel cfg) rootfsSrc
                   (Some placeRootfs)))
      (let root f := path_join [jl_Root layout; f] in
       upd (set_files (mkFiles true (JailDir layout) (root "api.sock") (root "v.sock")
             (root "firecracker.log") (root "rootfs.ext4"))) ;;;
       ret (Ok (mkPaths (root "rootfs.ext4") "/vmlinux" "/rootfs.ext4" "/v.sock" "/firecracker.log")))
    end
  else
    let own := path_join [workDir (i_files i); "rootfs.ext4"] in
    ok! rootCopy :=
      (match i_snapRec i with
       | Some rec =>
         if negb (String.eqb (RootfsPath rec) "") then
           guard Err (sys (on_disk (MkdirAll (k_fault k) (rec_Path rec))))
           (upd (λ i, set_files (set_vsock (path_join [rec_Path rec; "v.sock"]) (i_files i)) i) ;;;
            ret (Ok (RootfsPath rec)))
         else ret (Ok own)
       | None => ret (Ok own)
       end) in
    guard Err (wrapping "clone rootfs: " (sys (placeRootfs rootfsSrc rootCopy)))
    (guard Err (wrapping "firecracker log: "
                  (sys (on_disk (WriteFile (k_fault k) (logFile (i_files i)) ""))))
    (upd (λ i, set_files (set_rootfs rootCopy (i_files i)) i) ;;;
     let! i := inst in
     ret (Ok (mkPaths rootCopy (Kernel cfg) rootCopy (vsockUDS (i_files i)) (logFile (i_files i)))))).
Definition preparePaths : M (making X) (result vmPaths) := preparePathsFrom (Rootfs cfg).

Definition spawnCmd (i : firecrackerInstance X) : result exec_cmd :=
  let netnsPath := match i_tap i with Some l => NetNSPath l | None => "" end in
  let netnsName := match i_tap i with Some l => NetNS l | None => "" end in
  if negb (String.eqb (Jailer cfg) "") then
    let? layout := newJailLayout (WorkDir cfg) (Binary cfg) (i_id i) in
    jailerCommand (k_user k) cfg layout netnsPath
  else if negb (String.eqb netnsName "") then
    Ok (mkCmd (k_ip k) ["netns"; "exec"; netnsName; Binary cfg; "--api-sock"; apiSock (i_files i)]
          (workDir (i_files i)))
  else Ok (mkCmd (Binary cfg) ["--api-sock"; apiSock (i_files i)] (workDir (i_files i))).

(** [cmd.Start()]: the process gets a new handle. *)
Definition start_process (cmd : exec_cmd) (stderr : string) : M (making X) (result process) := λ s,
  match sys (k_Start k cmd stderr) s with
  | (Ret (Ok pid), (w, i)) =>
    let n := fresh (dom (vmms w) ∪ dom (cells w)) in
    (Ret (Ok (mkProc n pid)), (set_vmms (<[n := Running]> (vmms w)) w, i))
  | (Ret (Err err), s) => (Ret (Err err), s)
  | (Panic v, s) => (Panic v, s)
  | (Blocked, s) => (Blocked, s)
  end.
Definition signalled (e : option error) (s : vmm_state) : vmm_state :=
  match e, s with
  | None, _ => Killed
  | Some _, Killed => Killed
  | Some err, _ => SignalRefused err
  end.
(** [kill]: the process group gets SIGKILL; whether it was taken is not asked. *)
Definition kill_process (c : option process) : M (world X) unit :=
  match c with
  | None => ret tt
  | Some p =>
    let! e := on_host (k_Kill k (pid p)) in
    modify (λ w, set_vmms (alter (signalled e) (handle p) (vmms w)) w)
  end.
(** The process has ended, and [reap] has closed [exited]. *)
Definition seen_ended (c : option process) : M (world X) unit :=
  match c with
  | None => ret tt
  | Some p => modify (λ w, set_vmms (delete (handle p) (vmms w)) w)
  end.
(** [wait]: on a process that does not end it does not return. *)
Definition wait_process (c : option process) : M (world X) unit :=
  match c with
  | None => ret tt
  | Some p => let! ended := on_host (k_Wait k (pid p)) in if ended then seen_ended c else block
  end.
Definition kill : M (making X) unit := let! i := inst in on_world (kill_process (i_cmd i)).

Definition cleanupFiles (snapRec : option Record_) (f : vm_files) : M (host X) (option error) :=
  (match snapRec with
   | Some rec =>
     if negb (String.eqb (rec_Path rec) "") && negb (String.eqb (vsockUDS f) "") &&
        HasPrefix (vsockUDS f) (rec_Path rec +:+ "/") then
       on_disk (Remove (k_fault k) (vsockUDS f)) ;;; ret tt
     else ret tt
   | None => ret tt
   end) ;;;
  on_disk (RemoveAll (k_fault k) (workDir f)).

Definition attachCgroup (limits : Profile) (pid : Z) : M (making X) (option error) :=
  match p_Cgroup parts with
  | None => ret None
  | Some attach =>
    let! i := inst in
    try! cleanup := sys (attach (i_id i) pid limits) in
    upd (set_cleanup cleanup) ;;; ret None
  end.

(** ** Waiting *)

(** [ctx.Err()] of a context that is done. *)
Definition ctx_error (ctx : context) : M (host X) error :=
  let! e := k_ctx_Err k ctx in ret (default (Sentinel Canceled) e).

(** [waitForSocket].  [n] is the number of times its select takes the ticker
    before it takes the end of the context. *)
Fixpoint socket_loop (n : nat) (ctx : context) (path : string) (deadline : Z)
    : M (host X) (option error) :=
  let! st := on_disk (Stat (k_fault k) path) in
  if is_ok st then ret None
  else
    let! now := k_now k in
    if deadline <? now then ret (Some (New ("timed out waiting for " +:+ path)))
    else
      match n with
      | O => let! err := ctx_error ctx in ret (Some err)
      | S n => k_tick k ;;; socket_loop n ctx path deadline
      end.
Definition waitForSocket (ctx : context) (path : string) (max : Z) : M (host X) (option error) :=
  let max := if max <=? 0 then 5 * Second else max in
  let! now := k_now k in
  λ h, socket_loop (k_ticks k ctx h) ctx path (now + max) h.

Definition wait_agent (ctx : context) (uds : string) (port : Z) : M (host X) (option error) := λ h,
  waitForGuestAgent (k_Dial k) (k_Fprint k) (k_Close k) (k_tick k) ctx_error (k_ticks k ctx h) ctx uds
    port h.

Definition drop_str_to (n : nat) (s : string) : string := drop_str (String.length s - n) s.
Definition tailFile (path : string) (n : nat) : M (host X) string :=
  let! data := on_disk (ReadFile (k_fault k) path) in
  ret (match data with Err _ => "" | Ok data => TrimSpace (drop_str_to n data) end).
Definition annotateDeath (f : vm_files) (err : error) : M (host X) error :=
  let! tail := tailFile (logFile f) 2048 in
  let! stderr := tailFile (path_join [workDir f; "fc.stderr"]) 1024 in
  ret (if String.eqb tail "" && String.eqb stderr "" then err
       else
         let logs := newline +:+ "log: " +:+ tail +:+ newline +:+ "stderr: " +:+ stderr in
         if Contains tail "InstanceStart" || Contains tail "kvm" || Contains stderr "KVM" ||
            Contains (Error err) "exited" then
           Wrap "" err (": KVM/VMM failed during InstanceStart (nested virt often oopses on KVM_CREATE_VCPU)" +:+ logs)
         else Wrap "" err logs).

(** [whileAlive]: [fn] runs in a goroutine of its own, and the select may take
    the end of the process or of the context instead of its answer. *)
Definition whileAlive (ctx : context) (fn : M (host X) (option error)) : M (making X) (option error) :=
  let! i := inst in
  let! e := sys fn in
  let! cut := sys (k_interrupted k ctx) in
  (match cut with Some (Exited _) => on_world (seen_ended (i_cmd i)) | _ => ret tt end) ;;;
  let e := match cut with
           | Some (Exited status) => Some (New ("firecracker exited: " +:+ status))
           | Some (CtxDone err) => Some err
           | None => e
           end in
  match e with
  | None => ret None
  | Some err => let! err := sys (annotateDeath (i_files i) err) in ret (Some err)
  end.

(** ** Cold boot and restore *)

(** What both have in common once the files and the network are there: the
    process, its limits, and its socket; then [configured], and the agent. *)
Definition or_kill (m : M (making X) (option error)) (rest : M (making X) (option error))
    : M (making X) (option error) :=
  let! e := m in
  match e with Some err => kill ;;; ret (Some err) | None => rest end.
Definition start_and_wait (ctx : context) (spec : Spec) (paths : vmPaths) (start_text : string)
    (configured : (api_request → M (host X) (result (Z * string))) → M (making X) (option error))
    : M (making X) (option error) :=
  let! i := inst in
  match spawnCmd i with
  | Err err => ret (Some err)
  | Ok cmd =>
    let stderr := path_join [workDir (i_files i); "fc.stderr"] in
    guard Some (sys (on_disk (Touch (k_fault k) stderr)))
    (try! proc := wrap_res start_text (start_process cmd stderr) in
     upd (set_cmd (Some proc)) ;;;
     or_kill (attachCgroup (Limits spec) (pid proc))
     (or_kill (wrapping "firecracker api socket: "
                 (sys (waitForSocket ctx (apiSock (i_files i)) (5 * Second))))
     (upd set_client ;;;
      or_kill (configured (k_Do k (apiSock (i_files i))))
      (let bootCtx := WithTimeout ctx (BootTimeout cfg) in
       or_kill (wrapping "vsock uds: "
                  (sys (waitForSocket bootCtx (vsockUDS (i_files i)) (BootTimeout cfg))))
       (or_kill (sys (wait_agent bootCtx (vsockUDS (i_files i)) (i_port i)))
       (ret None))))))
  end.

Definition node_size (n : node) : Z := match n with Regular c => len c | Dir => 0 end.
Definition nic_of (l : Link) : fcNetIface := mkNic "eth0" (GuestMAC l) (Tap.Name l).
Definition boot_ip (l : Link) : string :=
  " ip=" +:+ IP_String (GuestIP l) +:+ "::" +:+ IP_String (HostIP l) +:+
  ":255.255.255.252:warden:eth0:off".
Definition mem_mib (limits : Profile) : Z :=
  let m := Resources.MemoryBytes limits ÷ Z.shiftl 1 20 in if m <? 128 then 128 else m.

(** The network of a cold boot: none, or a link of its own. *)
Definition setup_network (spec : Spec) : M (making X) (option error) :=
  if (0 <? length (Allowlist (Network spec)))%nat then
    let! i := inst in
    match p_Tap parts with
    | None => panic "invalid memory address or nil pointer dereference"
    | Some tap =>
      try! link := wrap_res "tap: " (sys (tf_Setup tap (tapID (i_id i) (spec_SessionID spec)) (Network spec))) in
      upd (set_tap link (tf_Teardown tap)) ;;; ret None
    end
  else ret None.
Definition configure_machine (ctx : context) (spec : Spec) (paths : vmPaths)
    (Do : api_request → M (host X) (result (Z * string))) : M (making X) (option error) :=
  let! i := inst in
  let bootArgs := BootArgs cfg +:+ (match i_tap i with Some l => boot_ip l | None => "" end) in
  guard Some
    (whileAlive ctx (configure Do (k_fault_message k)
       (fcMachineConfig (VCPUCount cfg) (mem_mib (Limits spec)) false true)
       (fcBootSource (guestKernel paths) bootArgs)
       (fcDrive "rootfs" (guestRootfs paths) true false)
       (fcVsock (i_cid i) (guestVsock paths))
       (Some (fcLogger (guestLog paths) "Info" true false))
       (nic_of <$> i_tap i)))
  (let startCtx := WithTimeout ctx (8 * Second) in
   whileAlive startCtx (startInstance Do (k_fault_message k))).

Definition launch (ctx : context) (spec : Spec) : M (making X) (option error) :=
  try! paths := preparePaths in
  try! st := sys (on_disk (Stat (k_fault k) (v_hostRootfs paths))) in
  let disk := DiskBytes (Limits spec) in
  if (0 <? disk) && (disk <? node_size st) then
    ret (Some (New ("rootfs size " +:+ Itoa (node_size st) +:+ " exceeds disk limit " +:+ Itoa disk)))
  else
    guard Some (setup_network spec)
    (start_and_wait ctx spec paths "start firecracker: " (configure_machine ctx spec paths)).

Definition prepareRestore (rec : Record_) : M (making X) (result (vmPaths * string * string)) :=
  let! i := inst in
  if negb (String.eqb (Jailer cfg) "") then
    ok! paths := preparePathsFrom (RootfsPath rec) in
    let! i := inst in
    let root f := path_join [workDir (i_files i); "root"; f] in
    guard Err (wrapping "import snap: " (sys (clone (SnapshotPath rec) (root "vm.snap"))))
    (guard Err (wrapping "import mem: " (sys (clone (MemoryPath rec) (root "vm.mem"))))
    (ret (Ok (paths, "/vm.snap", "/vm.mem"))))
  else
    guard Err (sys (on_disk (MkdirAll (k_fault k) (workDir (i_files i)))))
    (guard Err (sys (on_disk (WriteFile (k_fault k) (logFile (i_files i)) "")))
    (upd (λ i, set_files (set_rootfs (RootfsPath rec) (i_files i)) i) ;;;
     (if negb (String.eqb (rec_Path rec) "") then
        let uds := path_join [rec_Path rec; "v.sock"] in
        upd (λ i, set_files (set_vsock uds (i_files i)) i) ;;;
        sys (on_disk (Remove (k_fault k) uds)) ;;; ret tt
      else ret tt) ;;;
     let! i := inst in
     ret (Ok (mkPaths (RootfsPath rec) (Kernel cfg) (RootfsPath rec) (vsockUDS (i_files i))
                (logFile (i_files i)), SnapshotPath rec, MemoryPath rec)))).

Definition recreate_network (spec : Spec) (rec : Record_) : M (making X) (option error) :=
  if HasNetwork rec then
    match linkFromRecord (Some rec) with
    | None => ret (Some (New "snapshot has network but no TAP name"))
    | Some link =>
      if String.eqb (Tap.Name link) "" then ret (Some (New "snapshot has network but no TAP name"))
      else
        match p_Tap parts ≫= λ t, (λ r, (t, r)) <$> tf_Recreate t with
        | None => ret (Some (New "snapshot restore needs a TAP Recreator"))
        | Some (tap, recreate) =>
          let! r := sys (recreate link (Network spec)) in
          let '(e, link) := r in
          match e with
          | Some err => ret (Some (Wrap "tap recreate: " err ""))
          | None => upd (set_tap link (tf_Teardown tap)) ;;; ret None
          end
        end
    end
  else ret None.
Definition load_machine (ctx : context) (paths : vmPaths) (guestSnap guestMem : string)
    (Do : api_request → M (host X) (result (Z * string))) : M (making X) (option error) :=
  whileAlive ctx
    (guard Some (put Do (k_fault_message k) "/logger" (fcLogger (guestLog paths) "Info" true false))
    (loadSnapshot Do (k_fault_message k) guestSnap guestMem)).
Definition launchRestore (ctx : context) (spec : Spec) (rec : Record_) : M (making X) (option error) :=
  if String.eqb (SnapshotPath rec) "" || String.eqb (MemoryPath rec) "" then
    ret (Some (New "snapshot record missing file paths"))
  else
    guard Some (recreate_network spec rec)
    (try! r := prepareRestore rec in
     let '(paths, guestSnap, guestMem) := r in
     start_and_wait ctx spec paths "start firecracker (restore): "
       (load_machine ctx paths guestSnap guestMem)).

(** ** Session snapshots *)

(** [applySparseDiff] on two files. *)
Definition rebase (basePath diffPath : string) : M fs (option error) :=
  let! diff := ReadFile (k_fault k) diffPath in
  let! base := ReadFile (k_fault k) basePath in
  λ w,
    let sparse_of c := imap (λ j b, if k_data k diffPath w j then Some b else None) (str_bytes c) in
    match applySparseDiff (k_seek_fails k) (k_pos_fails k) (k_copy_fails k)
            (match diff with Ok c => Ok (sparse_of c) | Err err => Err err end)
            (match base with Ok c => Ok (str_bytes c) | Err err => Err err end) with
    | Some (e, bytes) =>
      (Ret e, match diff, base with Ok _, Ok _ => <[basePath := Regular (bytes_str bytes)]> w | _, _ => w end)
    | None => (Panic "fuel", w)
    end.

Definition set_record_vm (vm : string) (cid : Z) (r : Record_) : Record_ :=
  mkRecord (rec_SessionID r) vm (rec_Path r) (SnapshotPath r) (MemoryPath r)
    (RootfsPath r) cid (HasNetwork r) (HostDevName r) (rec_GuestMAC r) (rec_GuestIP r)
    (rec_HostIP r) (rec_NetNS r) (rec_NetNSPath r) (rec_HostVeth r) (rec_NSVeth r)
    (rec_UplinkHost r) (rec_UplinkNS r) (rec_Table r) (Generation r) (LastKind r) (CreatedAt r).
Definition next_generation (kind : string) (r : Record_) : Record_ :=
  mkRecord (rec_SessionID r) (rec_VMID r) (rec_Path r) (SnapshotPath r) (MemoryPath r)
    (RootfsPath r) (GuestCID r) (HasNetwork r) (HostDevName r) (rec_GuestMAC r) (rec_GuestIP r)
    (rec_HostIP r) (rec_NetNS r) (rec_NetNSPath r) (rec_HostVeth r) (rec_NSVeth r)
    (rec_UplinkHost r) (rec_UplinkNS r) (rec_Table r) (i64 (Generation r + 1)) kind (CreatedAt r).

(** The record of a returned instance, through its pointer. *)
Definition get_record (n : nat) : M (world X) (option Record_) :=
  gets (λ w, cells w !! n ≫= c_snapRec).
Definition put_record (n : nat) (rec : option Record_) : M (world X) unit :=
  modify (λ w, set_cells (<[n := mkCell (match cells w !! n with Some c => c_dead c | None => false end) rec]>
                            (cells w)) w).

(** The files of the snapshot, from the paused machine to the store's paths. *)
Definition export_snapshot (i : firecrackerInstance X) (rec : Record_) (full : bool) (diffHost : string)
    : M (host X) (option error) :=
  let root f := path_join [workDir (i_files i); "root"; f] in
  guard Some
    (if jailed (i_files i) then
       guard Some (wrapping "export snap: " (clone (root "vm.snap") (SnapshotPath rec)))
       (if full then wrapping "export mem: " (clone (root "vm.mem") (MemoryPath rec))
        else if negb (String.eqb diffHost "") then
          wrapping "export diff: " (clone (root "vm.diff.mem") diffHost)
        else ret None)
     else ret None)
  (guard Some
    (if negb full && negb (String.eqb diffHost "") then
       guard Some (wrapping "rebase diff onto base mem: " (on_disk (rebase (MemoryPath rec) diffHost)))
       (on_disk (Remove (k_fault k) diffHost) ;;; ret None)
     else ret None)
  (let rootfs := hostRootfs (i_files i) in
   if negb (String.eqb rootfs "") && negb (String.eqb (RootfsPath rec) "") &&
      negb (String.eqb rootfs (RootfsPath rec)) then
     wrapping "export rootfs: " (clone rootfs (RootfsPath rec))
   else ret None)).

Definition saveSnapshot (store : Store (host X)) (i : firecrackerInstance X) (n : nat) (ctx : context)
    : M (world X) (option error) :=
  let! rec := get_record n in
  try! rec :=
    (match rec with
     | Some rec => ret (Ok rec)
     | None =>
       ok! rec := on_host (st_Prepare store (i_sessionID i) (i_id i)) in
       put_record n (Some rec) ;;; ret (Ok rec)
     end) in
  let rec := fillRecordNetwork (set_record_vm (i_id i) (i_cid i) rec) (i_tap i) in
  put_record n (Some rec) ;;;
  let full := negb (0 <? Generation rec) in
  let kind := if full then "Full" else "Diff" in
  let diffHost := if negb (String.eqb (rec_Path rec) "")
                  then path_join [rec_Path rec; "vm.diff.mem"] else "" in
  let snapPath := if jailed (i_files i) then "/vm.snap" else SnapshotPath rec in
  let memPath :=
    if jailed (i_files i) then if full then "/vm.mem" else "/vm.diff.mem"
    else if negb full && negb (String.eqb diffHost "") then diffHost else MemoryPath rec in
  let Do := k_Do k (apiSock (i_files i)) in
  guard Some (wrapping "pause vm: " (on_host (pauseVM Do (k_fault_message k))))
  (guard Some (wrapping "create snapshot: "
                 (on_host (createSnapshot Do (k_fault_message k) kind snapPath memPath)))
  (guard Some (on_host (export_snapshot i rec full diffHost))
  (let rec := next_generation kind rec in
   put_record n (Some rec) ;;;
   let! r := on_host (st_Commit store (Some rec)) in
   put_record n r.2 ;;; ret r.1))).
Definition maybeSnapshot (i : firecrackerInstance X) (n : nat) : M (world X) unit :=
  match p_Snapshots parts with
  | Some store =>
    if String.eqb (i_sessionID i) "" || negb (i_client i) then ret tt
    else saveSnapshot store i n (WithTimeout Background (20 * Second)) ;;; ret tt
  | None => ret tt
  end.

(** ** The instance *)

Definition is_dead (w : world X) (n : nat) : bool :=
  match cells w !! n with Some c => c_dead c | None => false end.
Definition destroyed (i : firecrackerInstance X) : error :=
  New ("vm " +:+ i_id i +:+ " already destroyed").

Definition ReadResponse (c : vsockConn) : result Response :=
  match k_decode k (stream c) with
  | Err err => Err (Wrap "guestproto read response: " err "")
  | Ok r => Ok r
  end.
Definition WriteRequest (c : vsockConn) (r : Request) : M (host X) (option error) :=
  wrapping "guestproto write request: "
    (match k_encode k r with
     | Err err => ret (Some err)
     | Ok text => k_Fprint k (Conn c) (text +:+ newline)
     end).
Definition job_of (i : firecrackerInstance X) (req : ExecRequest) : Request :=
  let timeout := if er_Timeout req <=? 0 then 30 * Second else er_Timeout req in
  mkRequest (er_Code req) (i_language i) (timeout ÷ Second) (Resources.MemoryBytes (i_limits i))
    (Resources.PIDsMax (i_limits i)).
Definition fc_Execute (i : firecrackerInstance X) (n : nat) (ctx : context) (req : ExecRequest)
    : M (world X) (Result * option error) :=
  let fail err := (Result0, Some err) in
  let! dead := gets (λ w, is_dead w n) in
  if dead then ret (fail (destroyed i))
  else
    try fail (on_host (dialGuestVsock (k_Dial k) (k_Fprint k) (k_Close k) ctx (vsockUDS (i_files i)) (i_port i)))
      (λ conn,
       let close := on_host (k_Close k (Conn conn)) in
       defer close
         (guard fail (on_host (WriteRequest conn (job_of i req)))
          (match ReadResponse conn with
           | Err err =>
             let! e := on_host (k_ctx_Err k ctx) in
             ret (match e with
                  | Some e => (mkResult "" (Error e) (-1) (i_id i) true, None)
                  | None => fail err
                  end)
           | Ok resp =>
             maybeSnapshot i n ;;;
             ret (mkResult (GuestAgent.Stdout resp) (GuestAgent.Stderr resp) (GuestAgent.ExitCode resp)
                    (i_id i) (GuestAgent.TimedOut resp), None)
           end))).

(** [errs = append(errs, err)] when there is one. *)
Definition collect_error (m : M (world X) (option error)) (errs : list error) : M (world X) (list error) :=
  let! e := m in ret (match e with Some err => errs ++ [err] | None => errs end).
Definition fc_Destroy (i : firecrackerInstance X) (n : nat) (ctx : context) : M (world X) (option error) :=
  let! dead := gets (λ w, is_dead w n) in
  if dead then ret (Some (destroyed i))
  else
    let! rec := get_record n in
    modify (λ w, set_cells (<[n := mkCell true rec]> (cells w)) w) ;;;
    (if i_client i then
       on_host (sendCtrlAltDel (k_Do k (apiSock (i_files i))) (k_fault_message k)) ;;; ret tt
     else ret tt) ;;;
    (match i_cmd i with
     | None => ret tt
     | Some p =>
       let! exits := on_host (k_exits_in_time k (pid p)) in
       if exits then seen_ended (i_cmd i) else kill_process (i_cmd i) ;;; wait_process (i_cmd i)
     end) ;;;
    let! errs := match i_cgroupCleanup i with
                 | Some c => collect_error (on_host c) [] | None => ret [] end in
    let! errs := match i_tap i, i_tapTeardown i with
                 | Some l, Some t => collect_error (on_host (t l)) errs | _, _ => ret errs end in
    let! errs := collect_error (on_host (cleanupFiles rec (i_files i))) errs in
    ret (Join_errors errs).
Definition fc_instance (i : firecrackerInstance X) (n : nat) : Instance (world X) :=
  mkInstance (i_id i) (fc_Execute i n) (fc_Destroy i n).

(** ** Booting *)

Definition next_id : M (world X) (string * Z) := λ w,
  let n := u64 (fc_seq w + 1) in
  let cid := u32 (fc_cids w + 1) in
  let cid := if cid <? 3 then u32 (cid + 3) else cid in
  (Ret ("fc-" +:+ Itoa n, cid), mkWorld (hw w) (vmms w) (cells w) n cid).

(** [Prepare], whose refusal by a store that keeps nothing is no error. *)
Definition prepare_record (spec : Spec) (id : string) (rec : option Record_)
    : M (world X) (result (option Record_)) :=
  match rec, p_Snapshots parts with
  | None, Some store =>
    if negb (String.eqb (spec_SessionID spec) "") then
      let! r := on_host (st_Prepare store (spec_SessionID spec) id) in
      ret (match r with
           | Ok rec => Ok (Some rec)
           | Err err => if Is err ErrSnapNotImplemented then Ok None else Err err
           end)
    else ret (Ok rec)
  | _, _ => ret (Ok rec)
  end.

(** What [bootOne] does with an instance that could not be launched. *)
Definition abandon (i : firecrackerInstance X) : M (world X) unit :=
  (match i_tap i, i_tapTeardown i with
   | Some l, Some t => on_host (t l) ;;; ret tt
   | _, _ => ret tt
   end) ;;;
  on_host (cleanupFiles (i_snapRec i) (i_files i)) ;;; ret tt.

Definition new_instance (spec : Spec) (id : string) (cid : Z) (snapRec : option Record_)
    : firecrackerInstance X :=
  let dir := path_join [WorkDir cfg; id] in
  mkFC id (Language spec) (spec_SessionID spec) (Limits spec) snapRec cid (AgentPort cfg)
    (mkFiles false dir (path_join [dir; "api.sock"]) (path_join [dir; "v.sock"])
       (path_join [dir; "firecracker.log"]) "")
    None false None None None.

(** A restored machine keeps its CID; 0 to 2 are reserved. *)
Definition session_cid (cid : Z) (rec : option Record_) : Z :=
  match rec with Some r => if 3 <=? GuestCID r then GuestCID r else cid | None => cid end.
Definition bootOne (ctx : context) (spec : Spec) (rec : option Record_)
    : M (world X) (result (Instance (world X))) :=
  let! ic := next_id in
  let '(id, cid) := ic in
  let cid := session_cid cid rec in
  guard Err (wrapping "vm workdir: "
    (if String.eqb (Jailer cfg) "" then on_host (on_disk (MkdirAll (k_fault k) (path_join [WorkDir cfg; id])))
     else ret None))
  (ok! snapRec := prepare_record spec id rec in
   λ w,
     match (match rec with Some r => launchRestore ctx spec r | None => launch ctx spec end)
             (w, new_instance spec id cid snapRec) with
     | (Ret (Some err), (w, i)) => (abandon i ;;; ret (Err err)) w
     | (Ret None, (w, i)) =>
       match i_cmd i with
       | Some p => (Ret (Ok (fc_instance i (handle p))),
                    set_cells (<[handle p := mkCell false (i_snapRec i)]> (cells w)) w)
       | None => (Panic "invalid memory address or nil pointer dereference", w)
       end
     | (Panic v, (w, i)) => (Panic v, w)
     | (Blocked, (w, i)) => (Blocked, w)
     end).

(** The snapshot of the session, if there is one that fits. *)
Definition Boot (ctx : context) (spec : Spec) : M (world X) (result (Instance (world X))) :=
  if negb (Supported (Language spec)) then
    ret (Err (New ("unsupported runtime " +:+ Quote (Language spec))))
  else
    match Profile_Validate (Limits spec) with
    | Some err => ret (Err (Wrap "boot firecracker: " err ""))
    | None =>
      guard Err (on_host (on_disk (Config_Validate (k_fault k) cfg)))
      (match denyNetworkOrFail (Network spec) (match p_Tap parts with Some _ => true | None => false end) with
       | Some err => ret (Err err)
       | None =>
         match p_Snapshots parts with
         | Some store =>
           if negb (String.eqb (spec_SessionID spec) "") then
             let! r := on_host (st_Restore store (spec_SessionID spec)) in
             match r with
             | Ok rec =>
               if networkMatches (Some rec) (Network spec) then
                 let! b := bootOne ctx spec (Some rec) in
                 match b with
                 | Ok inst => ret (Ok inst)
                 | Err _ =>
                   on_host (st_Delete store (spec_SessionID spec)) ;;; bootOne ctx spec None
                 end
               else on_host (st_Delete store (spec_SessionID spec)) ;;; bootOne ctx spec None
             | Err err =>
               if Is err ErrSnapNotFound || Is err ErrSnapNotImplemented then bootOne ctx spec None
               else ret (Err err)
             end
           else bootOne ctx spec None
         | None => bootOne ctx spec None
         end
       end)
    end.
Definition Firecracker : Runtime.Runtime (world X) :=
  mkRuntime Boot "firecracker" (Some (on_host (on_disk (Config_Validate (k_fault k) cfg)))).
End Backend.

(** [NewFirecrackerWithConfig]: the settings made usable and absolute, and the
    parts that follow from them. *)
Definition absolute (cwd : string) (c : FcConfig.Config) : FcConfig.Config :=
  FcConfig.mkConfig (absPath cwd (Binary c)) (absPath cwd (Kernel c)) (absPath cwd (Rootfs c))
    (absPath cwd (WorkDir c)) (if String.eqb (BootArgs c) "" then defaultBootArgs else BootArgs c)
    (if AgentPort c =? 0 then AgentDefaultPort else AgentPort c)
    (if BootTimeout c <=? 0 then 20 * Second else BootTimeout c)
    (if VCPUCount c <=? 0 then 1 else VCPUCount c)
    (if String.eqb (Jailer c) "" then "" else absPath cwd (Jailer c)) (JailerUID c) (JailerGID c)
    (JailerSudo c) (JailerCgroup c) (NewPIDNS c)
    (if String.eqb (SnapshotDir c) "" then "" else absPath cwd (SnapshotDir c)) (RootfsPoolSize c).
Definition NewFirecrackerWithConfig {X} (k : kernel X) (NewDirStore : string → Store (host X))
    (NewFilePool : string → string → Z → option (string → M (host X) (option error)))
    (c : FcConfig.Config) (parts : Parts X) : Runtime.Runtime (world X) :=
  let c := absolute (k_cwd k) c in
  let snaps := match p_Snapshots parts with
               | Some s => Some s
               | None => if String.eqb (SnapshotDir c) "" then None else Some (NewDirStore (SnapshotDir c))
               end in
  let pool := match p_Pool parts with
              | Some p => Some p
              | None =>
                if (0 <? RootfsPoolSize c) && negb (String.eqb (Rootfs c) "") &&
                   negb (String.eqb (WorkDir c) "")
                then NewFilePool (Rootfs c) (path_join [WorkDir c; "pool"]) (RootfsPoolSize c)
                else None
              end in
  Firecracker k c (mkParts (p_Tap parts) (p_Cgroup parts) snaps pool).
