(* ===== verification/FirecrackerSpec.v ===== *)
(** * What the Firecracker backend promises

    The backend keeps the promise of the runtime interface ([Runtime.VMs]): a
    boot that fails leaves no VMM process that it has not signalled or seen to
    end, one that succeeds leaves exactly its own running, and a [Destroy] that
    comes back has seen it end. *)
From S2P Require Import Prelude GoUnicode GoStrings GoError GoNet GoPath GoTime GoFS Resources Policy.
From S2P Require Import Tap Snapshot Sparse FcConfig Jailer FcApi FcVsock GuestAgent Runtime Firecracker.

(** ** What the host is asked not to do *)

(** The calls that are made while a machine runs return: they may fail, but the
    code that would clean up after a panic of theirs does not exist.  Saving a
    session comes to an end.  What a process does that is waited for, [k_Wait]
    says: that call alone may not come back. *)
Record dependable {X} (k : kernel X) (parts : Parts X) : Prop := {
  dep_Kill p : returns (k_Kill k p);
  dep_exits p : returns (k_exits_in_time k p);
  dep_Wait p : returns (k_Wait k p);
  dep_Do sock r : returns (k_Do k sock r);
  dep_now : returns (k_now k);
  dep_tick : returns (k_tick k);
  dep_ctx_Err ctx : returns (k_ctx_Err k ctx);
  dep_interrupted ctx : returns (k_interrupted k ctx);
  dep_Dial ctx uds : returns (k_Dial k ctx uds);
  dep_Fprint c s : returns (k_Fprint k c s);
  dep_Close c : returns (k_Close k c);
  dep_attach attach id pid limits : p_Cgroup parts = Some attach → returns (attach id pid limits);
  dep_cp src dst : ends (k_cp k src dst);
  dep_store store : p_Snapshots parts = Some store →
    (∀ id vm, ends (st_Prepare store id vm)) ∧ ∀ rec, ends (st_Commit store rec)
}.

(** ** The processes whose end was not seen *)
#[export] Instance running_dec (s : vmm_state) : Decision (s = Running).
Proof. destruct s; [left|right|right]; done. Defined.
(** Those that nothing was done about. *)
Definition live (v : gmap nat vmm_state) : gset nat := dom (filter (λ kv, kv.2 = Running) v).
Lemma elem_of_live v n : n ∈ live v ↔ v !! n = Some Running.
Proof.
  unfold live. rewrite elem_of_dom. split.
  - intros [s [Hs Hr]%map_lookup_filter_Some]. cbn in Hr. by subst.
  - intros Hn. exists Running. by apply map_lookup_filter_Some.
Qed.
Lemma not_elem_of_live v n : n ∉ live v ↔ v !! n ≠ Some Running.
Proof. by rewrite elem_of_live. Qed.
(** All those of [v] are as they were, and of others none runs that was not
    signalled. *)
Definition no_more (v v' : gmap nat vmm_state) : Prop :=
  v ⊆ v' ∧ ∀ n, v !! n = None → v' !! n ≠ Some Running.
#[export] Instance no_more_preorder : PreOrder no_more.
Proof.
  split; [intros v; split; [done|congruence]|].
  intros x y z [H1 H2] [H3 H4]. split; [by etrans|]. intros n Hn. destruct (y !! n) as [s|] eqn:E; [|by apply H4].
  rewrite (lookup_weaken _ _ _ _ E H3). rewrite <- E. by apply H2.
Qed.
Lemma no_more_live v v' : no_more v v' → live v' = live v.
Proof.
  intros [H1 H2]. apply set_eq. intros n. rewrite !elem_of_live. destruct (v !! n) as [s|] eqn:E.
  - by rewrite (lookup_weaken _ _ _ _ E H1).
  - split; [intros Hn; by apply H2 in Hn|done].
Qed.
Lemma live_insert n v : n ∉ dom v → live (<[n := Running]> v) = live v ∪ {[n]}.
Proof.
  intros Hn. apply set_eq. intros m. rewrite elem_of_union, elem_of_singleton, !elem_of_live.
  destruct (decide (n = m)) as [->|Hne]; [rewrite lookup_insert_eq; tauto|].
  rewrite lookup_insert_ne by done. split; [by left|intros [?| ->]; done].
Qed.
Lemma live_delete n v : live (delete n v) = live v ∖ {[n]}.
Proof.
  apply set_eq. intros m. rewrite elem_of_difference, elem_of_singleton, !elem_of_live.
  destruct (decide (n = m)) as [->|Hne]; [rewrite lookup_delete_eq; naive_solver|].
  rewrite lookup_delete_ne by done. naive_solver.
Qed.
Lemma signalled_not_running e s : signalled e s ≠ Running.
Proof. by destruct e, s. Qed.
Lemma live_signalled e n v : live (alter (signalled e) n v) = live v ∖ {[n]}.
Proof.
  apply set_eq. intros m. rewrite elem_of_difference, elem_of_singleton, !elem_of_live.
  destruct (decide (n = m)) as [->|Hne].
  - rewrite lookup_alter_eq. split; [|naive_solver]. destruct (v !! m) as [s|]; [|done]. cbn. intros [= H].
    by apply signalled_not_running in H.
  - rewrite lookup_alter_ne by done. naive_solver.
Qed.

Section Lifting.
Context {X : Type}.
(** Only the host's world has changed. *)
Definition aside (w w' : world X) : Prop := vmms w' = vmms w ∧ cells w' = cells w.
#[export] Instance aside_preorder : PreOrder aside.
Proof.
  unfold aside. split; [done|]. intros x y z [H1 H2] [H3 H4]. by rewrite H3, H4.
Qed.
(** Of a machine under construction: no process was started or killed. *)
Definition quiet (s s' : making X) : Prop := aside s.1 s'.1 ∧ i_cmd s'.2 = i_cmd s.2.
#[export] Instance quiet_preorder : PreOrder quiet.
Proof.
  unfold quiet. split; [done|]. intros x y z [H1 H2] [H3 H4]. rewrite H4. split; [by etrans|done].
Qed.

Lemma on_host_aside {A} (m : M (host X) A) : respects aside (on_host m).
Proof. intros w. unfold on_host. by destruct (m (hw w)). Qed.
Lemma on_world_quiet {A} (m : M (world X) A) : respects aside m → respects quiet (on_world m).
Proof. intros Hm [w i]. specialize (Hm w). unfold on_world. cbn. by destruct (m w). Qed.
Lemma sys_quiet {A} (m : M (host X) A) : respects quiet (sys m).
Proof. apply on_world_quiet, on_host_aside. Qed.
Lemma upd_quiet f : (∀ i, i_cmd (f i) = i_cmd i) → respects quiet (upd (X:=X) f).
Proof. intros Hf [w i]. by split; [|apply Hf]. Qed.
Lemma inst_quiet : respects quiet (inst (X:=X)).
Proof. by intros [w i]. Qed.
Lemma ends_on_host {A} (m : M (host X) A) : ends m → ends (on_host m).
Proof. intros Hm w. specialize (Hm (hw w)). unfold on_host. by destruct (m (hw w)). Qed.
Lemma returns_on_host {A} (m : M (host X) A) : returns m → returns (on_host m).
Proof. intros Hm w. unfold on_host. destruct (Hm (hw w)) as (a & h & ->). by eexists _, _. Qed.
Lemma returns_sys {A} (m : M (host X) A) : returns m → returns (sys m).
Proof.
  intros Hm [w i]. unfold sys, on_world. cbn. destruct (returns_on_host m Hm w) as (a & w' & ->).
  by eexists _, _.
Qed.
Lemma returns_inst : returns (inst (X:=X)).
Proof. apply returns_gets. Qed.
Lemma returns_upd f : returns (upd (X:=X) f).
Proof. apply returns_modify. Qed.
End Lifting.
#[export] Hint Resolve on_host_aside sys_quiet inst_quiet returns_on_host returns_sys returns_inst
  returns_upd returns_put returns_configure ends_on_host : go.
#[export] Hint Extern 2 (respects quiet (upd _)) => (apply upd_quiet; reflexivity) : go.

(** Walks through a sequence of calls. *)
Ltac quiet_steps :=
  repeat first
    [ match goal with
      | |- forall _, _ => intro
      | |- respects _ (bind _ _) => resp_bind
      | |- respects _ (try _ _ _) => apply respects_try; [by_order|..]
      | |- respects _ (guard _ _ _) => apply respects_guard; [by_order|..]
      | |- respects _ (wrapping _ _) => apply respects_wrapping; [by_order|..]
      | |- respects _ (wrap_res _ _) => apply respects_wrap_res; [by_order|..]
      | |- respects _ (and_then _ _) => apply respects_and_then; [by_order|..]
      | |- respects _ (match ?x with _ => _ end) => destruct x
      end
    | solve [auto with go] ].
Section Machines.
Context {X : Type} (k : kernel X) (cfg : FcConfig.Config) (parts : Parts X).
Hypothesis Hdep : dependable k parts.

Lemma preparePathsFrom_quiet src : respects quiet (preparePathsFrom k cfg parts src).
Proof. unfold preparePathsFrom. quiet_steps. Qed.
Lemma setup_network_quiet spec : respects quiet (setup_network parts spec).
Proof. unfold setup_network. quiet_steps. Qed.
Lemma prepareRestore_quiet rec : respects quiet (prepareRestore k cfg parts rec).
Proof.
  pose proof preparePathsFrom_quiet. unfold prepareRestore. quiet_steps.
Qed.
Lemma recreate_network_quiet spec rec : respects quiet (recreate_network parts spec rec).
Proof. unfold recreate_network. quiet_steps. Qed.

(** *** Waiting returns, and changes nothing of the backend's *)
Lemma ctx_error_returns ctx : returns (ctx_error k ctx).
Proof. pose proof (dep_ctx_Err _ _ Hdep). unfold ctx_error. auto with go. Qed.
Lemma socket_loop_returns n ctx path d : returns (socket_loop k n ctx path d).
Proof.
  pose proof (dep_now _ _ Hdep). pose proof (dep_tick _ _ Hdep). pose proof ctx_error_returns.
  induction n as [|n IH]; cbn [socket_loop]; returns_steps.
Qed.
Lemma waitForSocket_returns ctx path max : returns (waitForSocket k ctx path max).
Proof.
  unfold waitForSocket. apply returns_bind; [apply (dep_now _ _ Hdep)|].
  intros now h. apply socket_loop_returns.
Qed.
Lemma wait_agent_returns ctx uds port : returns (wait_agent k ctx uds port).
Proof.
  intros h. unfold wait_agent. generalize (k_ticks k ctx h) as n. intros n. revert h.
  pose proof (dep_Dial _ _ Hdep). pose proof (dep_Fprint _ _ Hdep). pose proof (dep_Close _ _ Hdep).
  pose proof (dep_tick _ _ Hdep). pose proof ctx_error_returns.
  change (returns (waitForGuestAgent (k_Dial k) (k_Fprint k) (k_Close k) (k_tick k) (ctx_error k) n
    ctx uds port)).
  induction n as [|n IH]; cbn [waitForGuestAgent]; unfold dialGuestVsock; returns_steps.
Qed.
Lemma annotateDeath_returns f err : returns (annotateDeath k f err).
Proof. unfold annotateDeath, tailFile. returns_steps. Qed.
Lemma attachCgroup_quiet limits pid : respects quiet (attachCgroup parts limits pid).
Proof. unfold attachCgroup. quiet_steps. Qed.
Lemma attachCgroup_returns limits pid : returns (attachCgroup parts limits pid).
Proof.
  pose proof (dep_attach _ _ Hdep). unfold attachCgroup. destruct (p_Cgroup parts); returns_steps.
Qed.
Hint Resolve waitForSocket_returns wait_agent_returns attachCgroup_quiet attachCgroup_returns : go.
(** *** From the start of the process on *)

(** The process [p] is the one more that runs, or it has gone by itself. *)
Definition running (v : gmap nat vmm_state) (c : gmap nat cell) (p : process) (s : making X) : Prop :=
  i_cmd s.2 = Some p ∧ handle p ∉ dom v ∪ dom c ∧ vmms s.1 = <[handle p := Running]> v ∧ cells s.1 = c.
Definition gone (v : gmap nat vmm_state) (c : gmap nat cell) (p : process) (s : making X) : Prop :=
  i_cmd s.2 = Some p ∧ handle p ∉ dom v ∪ dom c ∧ vmms s.1 = v ∧ cells s.1 = c.
(** A launch leaves one more process that runs, or none if it fails. *)
Definition launched (v : gmap nat vmm_state) (c : gmap nat cell) (r : outcome (option error) * making X)
    : Prop :=
  match r.1 with
  | Ret None => ∃ p, running v c p r.2
  | _ => no_more v (vmms r.2.1) ∧ cells r.2.1 = c
  end.
Definition launches (m : M (making X) (option error)) : Prop :=
  ∀ s, launched (vmms s.1) (cells s.1) (m s).

Lemma launches_fail e : launches (ret (Some e)).
Proof. by intros s. Qed.
Lemma launches_bind {A} (m : M (making X) A) (f : A → M (making X) (option error)) :
  respects quiet m → (∀ a, launches (f a)) → launches (bind m f).
Proof.
  intros Hm Hf s. specialize (Hm s). unfold bind. destruct (m s) as [[a|v|] s1].
  - destruct Hm as [[<- <-] _]. apply Hf.
  - by destruct Hm as [[<- <-] _].
  - by destruct Hm as [[<- <-] _].
Qed.
Lemma launches_try {A} (m : M (making X) (result A)) (f : A → M (making X) (option error)) :
  respects quiet m → (∀ a, launches (f a)) → launches (try Some m f).
Proof. intros Hm Hf. apply launches_bind; [done|]. intros [a|e]; [apply Hf|apply launches_fail]. Qed.
Lemma launches_guard (m f : M (making X) (option error)) :
  respects quiet m → launches f → launches (guard Some m f).
Proof. intros Hm Hf. apply launches_bind; [done|]. intros [e|]; [apply launches_fail|apply Hf]. Qed.

(** What runs beside the process returns; if the process goes meanwhile, it fails. *)
Definition manages (m : M (making X) (option error)) : Prop :=
  ∀ v c p s, running v c p s →
    ∃ e s', m s = (Ret e, s') ∧ (running v c p s' ∨ e ≠ None ∧ gone v c p s').
Lemma running_quiet v c p s s' : running v c p s → quiet s s' → running v c p s'.
Proof. intros (Hc & Hn & Hv & Hcl) [[Hq1 Hq2] Hi]. split_and!; by rewrite ?Hi, ?Hq1, ?Hq2. Qed.
Lemma gone_quiet v c p s s' : gone v c p s → quiet s s' → gone v c p s'.
Proof. intros (Hc & Hn & Hv & Hcl) [[Hq1 Hq2] Hi]. split_and!; by rewrite ?Hi, ?Hq1, ?Hq2. Qed.
Lemma manages_quiet m : respects quiet m → returns m → manages m.
Proof.
  intros Hq Hm v c p s Hr. destruct (Hm s) as (e & s1 & E). specialize (Hq s). rewrite E in Hq.
  exists e, s1. split; [done|left]. by eapply running_quiet.
Qed.
Lemma manages_bind {A} (m : M (making X) A) f :
  respects quiet m → returns m → (∀ a, manages (f a)) → manages (bind m f).
Proof.
  intros Hq Hm Hf v c p s Hr. destruct (Hm s) as (a & s1 & E). specialize (Hq s). rewrite E in Hq.
  rewrite (bind_Ret _ _ _ _ _ E). apply Hf. by eapply running_quiet.
Qed.
Lemma manages_guard m f : manages m → manages f → manages (guard Some m f).
Proof.
  intros Hm Hf v c p s Hr. destruct (Hm v c p s Hr) as (e & s1 & E & H). unfold guard.
  rewrite (bind_Ret _ _ _ _ _ E). destruct e as [err|].
  - by exists (Some err), s1.
  - destruct H as [H|[? _]]; [by apply Hf|done].
Qed.
Lemma manages_whileAlive ctx fn : returns fn → manages (whileAlive k ctx fn).
Proof.
  intros Hfn v c p s Hr. unfold whileAlive. rewrite (bind_Ret _ _ s s.2 s) by done.
  assert (∀ (A : Type) (m : M (host X) A), returns m → ∀ s, ∃ a s1, sys m s = (Ret a, s1) ∧ quiet s s1) as Hsys.
  { intros A m Hm s'. destruct (returns_sys m Hm s') as (a & s1 & E). exists a, s1. split; [done|].
    pose proof (sys_quiet m s') as Hq. by rewrite E in Hq. }
  destruct (Hsys _ fn Hfn s) as (e & s1 & E1 & Hq1). rewrite (bind_Ret _ _ _ _ _ E1).
  destruct (Hsys _ _ (dep_interrupted _ _ Hdep ctx) s1) as (cut & s2 & E2 & Hq2). rewrite (bind_Ret _ _ _ _ _ E2).
  assert (running v c p s2) as Hr2 by (eapply running_quiet; [exact Hr|by etrans]).
  assert (∃ err s3, (match cut with Some (Exited _) => on_world (seen_ended (i_cmd s.2)) | _ => ret tt end) s2
            = (Ret tt, s3) ∧ (running v c p s3 ∨ (∃ st, cut = Some (Exited st)) ∧ gone v c p s3) ∧
            err = match cut with
                  | Some (Exited status) => Some (New ("firecracker exited: " +:+ status))
                  | Some (CtxDone err) => Some err | None => e end) as (err & s3 & E3 & Hs3 & Herr).
  { destruct cut as [[st|err]|]; [|by eexists _, s2; eauto..]. eexists _, _. split; [|split; [|done]].
    - destruct Hr as (-> & _). destruct s2 as [w2 i2]. done.
    - right. split; [eauto|]. destruct Hr2 as (Hi & Hn & Hv & Hc). destruct s2 as [w2 i2]. cbn in *.
      apply not_elem_of_union in Hn as Hn'. split_and!; try done. cbn. rewrite Hv, delete_insert_eq.
      apply delete_id, not_elem_of_dom, Hn'. }
  rewrite (bind_Ret _ _ _ _ _ E3), <- Herr. destruct err as [err|].
  2: { exists None, s3. split; [done|left]. destruct Hs3 as [?|[[st ->] _]]; [done|done]. }
  destruct (Hsys _ _ (annotateDeath_returns (i_files s.2) err) s3) as (err' & s4 & E4 & Hq4).
  rewrite (bind_Ret _ _ _ _ _ E4). exists (Some err'), s4. split; [done|].
  destruct Hs3 as [H|[_ H]]; [left; by eapply running_quiet|right; split; [done|by eapply gone_quiet]].
Qed.
Lemma configure_machine_manages ctx spec paths sock :
  manages (configure_machine k cfg ctx spec paths (k_Do k sock)).
Proof.
  pose proof (dep_Do _ _ Hdep). unfold configure_machine, startInstance.
  apply manages_bind; [auto with go..|]. intros i. apply manages_guard; apply manages_whileAlive; auto with go.
Qed.
Lemma load_machine_manages ctx paths snap mem sock :
  manages (load_machine k ctx paths snap mem (k_Do k sock)).
Proof.
  pose proof (dep_Do _ _ Hdep). unfold load_machine, loadSnapshot. apply manages_whileAlive. auto with go.
Qed.

Lemma kill_process_world p w : ∃ e w', kill_process k (Some p) w = (Ret tt, w') ∧
  vmms w' = alter (signalled e) (handle p) (vmms w) ∧ cells w' = cells w.
Proof.
  cbn [kill_process]. destruct (returns_on_host _ (dep_Kill _ _ Hdep (pid p)) w) as (e & w1 & E).
  pose proof (on_host_aside (k_Kill k (pid p)) w) as [H1 H2]. rewrite E in H1, H2. cbn in H1, H2.
  rewrite (bind_Ret _ _ _ _ _ E). eexists e, _. split; [done|]. cbn. by rewrite H1, H2.
Qed.
Lemma kill_running v c p s : running v c p s ∨ gone v c p s →
  ∃ s', kill k s = (Ret tt, s') ∧ no_more v (vmms s'.1) ∧ cells s'.1 = c.
Proof.
  intros Hs. assert (i_cmd s.2 = Some p ∧ handle p ∉ dom v ∪ dom c) as [Hc Hn]
    by (destruct Hs as [(?&?&_)|(?&?&_)]; done).
  destruct s as [w i]. unfold kill, bind, inst, gets, on_world. cbn in *. rewrite Hc.
  destruct (kill_process_world p w) as (e & w' & E & Hv & Hcl). rewrite E. eexists. split; [done|]. cbn.
  apply not_elem_of_union in Hn as [Hn _]. apply not_elem_of_dom in Hn. rewrite Hcl, Hv.
  destruct Hs as [(_ & _ & Hw & ?)|(_ & _ & Hw & ?)]; cbn in Hw; rewrite Hw; (split; [|done]).
  - split.
    + apply map_subseteq_spec. intros n s Hs. destruct (decide (handle p = n)) as [<-|Hne]; [congruence|].
      by rewrite lookup_alter_ne, lookup_insert_ne by done.
    + intros n Hnone. destruct (decide (handle p = n)) as [<-|Hne].
      * rewrite lookup_alter_eq, lookup_insert_eq. cbn. intros [= H']. by apply signalled_not_running in H'.
      * rewrite lookup_alter_ne, lookup_insert_ne by done. congruence.
  - rewrite alter_id; [done|]. intros s Hs. congruence.
Qed.
Lemma or_kill_launched v c p m rest s :
  running v c p s → manages m →
  (∀ s', running v c p s' → launched v c (rest s')) → launched v c (or_kill k m rest s).
Proof.
  intros Hr Hm Hk. unfold or_kill. destruct (Hm v c p s Hr) as (e & s1 & E & H).
  rewrite (bind_Ret _ _ _ _ _ E). destruct e as [err|]; [|destruct H as [H|[? _]]; [by apply Hk|done]].
  destruct (kill_running v c p s1) as (s2 & Ek & Hv); [tauto|]. by rewrite (bind_Ret _ _ _ _ _ Ek).
Qed.

Lemma start_process_launched cmd stderr text f s :
  (∀ p s', running (vmms s.1) (cells s.1) p (s'.1, set_cmd (Some p) s'.2) →
     launched (vmms s.1) (cells s.1) (f p s')) →
  launched (vmms s.1) (cells s.1) (try Some (wrap_res text (start_process k cmd stderr)) f s).
Proof.
  intros Hf. pose proof (sys_quiet (k_Start k cmd stderr) s) as [[Hv Hc] _].
  unfold try, wrap_res, bind, start_process.
  destruct (sys (k_Start k cmd stderr) s) as [[[pid|e]|v|] [w i]]; cbn in Hv, Hc |- *;
    [|by rewrite Hv, Hc..].
  set (n := fresh (dom (vmms w) ∪ dom (cells w))). apply Hf. cbn. split; [done|]. split_and!.
  - rewrite <- Hv, <- Hc. apply is_fresh.
  - cbn. by rewrite <- Hv.
  - done.
Qed.
Lemma start_and_wait_launches ctx spec paths text configured :
  (∀ sock, manages (configured (k_Do k sock))) →
  launches (start_and_wait k cfg parts ctx spec paths text configured).
Proof.
  intros Hconf. unfold start_and_wait. apply launches_bind; [auto with go|]. intros i.
  destruct (spawnCmd k cfg i) as [cmd|e]; [|apply launches_fail].
  apply launches_guard; [auto with go|]. intros s. apply start_process_launched.
  intros p s1 Hr. destruct s1 as [w1 i1]. unfold bind, upd, modify. cbn in Hr |- *.
  eapply or_kill_launched; [exact Hr|apply manages_quiet; auto with go|]. intros s2 Hr2.
  eapply or_kill_launched; [exact Hr2|apply manages_quiet; auto with go|]. intros [w3 i3] Hr3.
  eapply or_kill_launched; [exact Hr3|apply Hconf..|]. intros s4 Hr4.
  eapply or_kill_launched; [exact Hr4|apply manages_quiet; auto with go|]. intros s5 Hr5.
  eapply or_kill_launched; [exact Hr5|apply manages_quiet; auto with go|]. intros s6 Hr6. by exists p.
Qed.
Lemma launch_launches ctx spec : launches (launch k cfg parts ctx spec).
Proof.
  unfold launch. apply launches_try; [apply preparePathsFrom_quiet|]. intros paths.
  apply launches_try; [auto with go|]. intros st. cbv zeta. destruct (_ && _); [apply launches_fail|].
  apply launches_guard; [apply setup_network_quiet|].
  apply start_and_wait_launches, configure_machine_manages.
Qed.
Lemma launchRestore_launches ctx spec rec : launches (launchRestore k cfg parts ctx spec rec).
Proof.
  unfold launchRestore. destruct (_ || _); [apply launches_fail|].
  apply launches_guard; [apply recreate_network_quiet|].
  apply launches_try; [apply prepareRestore_quiet|]. intros [[paths snap] mem].
  apply start_and_wait_launches, load_machine_manages.
Qed.

(** *** Booting *)

(** A boot leaves one more process that runs and the record of its instance, or
    neither. *)
Definition booted (v : gmap nat vmm_state) (c : gmap nat cell)
    (r : outcome (result (Instance (world X))) * world X) : Prop :=
  match r.1 with
  | Ret (Ok inst) =>
    ∃ i p v', inst = fc_instance k parts i (handle p) ∧ i_cmd i = Some p ∧ handle p ∉ dom v' ∪ dom c ∧
      no_more v v' ∧ vmms r.2 = <[handle p := Running]> v' ∧
      cells r.2 = <[handle p := mkCell false (i_snapRec i)]> c
  | _ => no_more v (vmms r.2) ∧ cells r.2 = c
  end.
Lemma booted_mono v v1 c r : no_more v v1 → booted v1 c r → booted v c r.
Proof.
  intros Hv. unfold booted. destruct r.1 as [[inst|e]|pv|]; [|by intros [H ?]; split; [etrans|]..].
  intros (i & p & v' & Hi & Hp & Hn & Hv' & H). exists i, p, v'. split_and!; try done; [by etrans|apply H|apply H].
Qed.
Definition boots (m : M (world X) (result (Instance (world X)))) : Prop :=
  ∀ w, booted (vmms w) (cells w) (m w).
Lemma boots_fail e : boots (ret (Err e)).
Proof. by intros w. Qed.
Lemma boots_bind {A} (m : M (world X) A) f :
  respects aside m → (∀ a, boots (f a)) → boots (bind m f).
Proof.
  intros Hm Hf w. specialize (Hm w). unfold bind. destruct (m w) as [[a|v|] w1].
  - destruct Hm as [<- <-]. apply Hf.
  - by destruct Hm as [<- <-].
  - by destruct Hm as [<- <-].
Qed.
Lemma prepare_record_aside spec id rec : respects aside (prepare_record parts spec id rec).
Proof. unfold prepare_record. quiet_steps. Qed.
Lemma next_id_aside : respects aside (next_id (X:=X)).
Proof. by intros w. Qed.
Lemma abandon_aside i : respects aside (abandon k i).
Proof. unfold abandon. quiet_steps. Qed.

Lemma bootOne_boots ctx spec rec : boots (bootOne k cfg parts ctx spec rec).
Proof.
  unfold bootOne. apply boots_bind; [apply next_id_aside|]. intros [id cid]. cbv zeta.
  apply boots_bind; [quiet_steps|]. intros [e|]; [apply boots_fail|].
  apply boots_bind; [apply prepare_record_aside|]. intros [snapRec|e]; [|apply boots_fail].
  intros w. set (i0 := new_instance _ _ _ _ _).
  assert (launches (match rec with Some r => launchRestore k cfg parts ctx spec r
                    | None => launch k cfg parts ctx spec end)) as Hl
    by (destruct rec; auto using launchRestore_launches, launch_launches).
  specialize (Hl (w, i0)). unfold launched in Hl. cbn in Hl.
  destruct (_ (w, i0)) as [[[e|]|v|] [w1 i1]]; cbn in Hl.
  - destruct Hl as [Hv <-]. eapply booted_mono; [exact Hv|]. revert w1 Hv. intros w1 _. revert w1.
    apply boots_bind; [apply abandon_aside|intros _; apply boots_fail].
  - destruct Hl as (p & Hp & Hn & Hv & Hc). cbn in Hp, Hv, Hc. rewrite Hp. cbn.
    exists i1, p, (vmms w). by rewrite Hv, Hc.
  - done.
  - done.
Qed.
Lemma Boot_boots ctx spec : boots (Boot k cfg parts ctx spec).
Proof.
  unfold Boot. destruct (negb _); [apply boots_fail|].
  destruct (Profile_Validate _); [apply boots_fail|].
  apply boots_bind; [auto with go|]. intros [e|]; [apply boots_fail|].
  destruct (denyNetworkOrFail _ _); [apply boots_fail|].
  destruct (p_Snapshots parts) as [store|]; [|apply bootOne_boots].
  destruct (negb _); [|apply bootOne_boots].
  apply boots_bind; [auto with go|]. intros [rec|e].
  2: { destruct (_ || _); [apply bootOne_boots|apply boots_fail]. }
  destruct (networkMatches _ _).
  2: { apply boots_bind; [auto with go|intros _; apply bootOne_boots]. }
  intros w. pose proof (bootOne_boots ctx spec (Some rec) w) as Hb. unfold booted in Hb.
  destruct (bootOne k cfg parts ctx spec (Some rec) w) as [[[i|e]|v|] w1] eqn:Eb; cbn [fst snd] in Hb.
  - rewrite (bind_Ret _ _ _ _ _ Eb). exact Hb.
  - rewrite (bind_Ret _ _ _ _ _ Eb). destruct Hb as [Hv <-]. eapply booted_mono; [exact Hv|].
    clear Eb Hv. revert w1. apply boots_bind; [auto with go|intros _; apply bootOne_boots].
  - rewrite (bind_Panic _ _ _ _ _ Eb). exact Hb.
  - unfold bind. rewrite Eb. exact Hb.
Qed.

(** *** Running and destroying *)

(** No process started or ended, and no instance was destroyed. *)
Definition undisturbed (w w' : world X) : Prop :=
  vmms w' = vmms w ∧ ∀ n, is_dead w' n = is_dead w n.
#[export] Instance undisturbed_preorder : PreOrder undisturbed.
Proof.
  unfold undisturbed. split; [done|]. intros x y z [H1 H2] [H3 H4]. split; [by rewrite H3|].
  intros n. by rewrite H4.
Qed.
Lemma aside_undisturbed {A} (m : M (world X) A) : respects aside m → respects undisturbed m.
Proof. intros Hm w. destruct (Hm w) as [H1 H2]. split; [done|]. intros n. unfold is_dead. by rewrite H2. Qed.
Lemma on_host_undisturbed {A} (m : M (host X) A) : respects undisturbed (on_host m).
Proof. apply aside_undisturbed, on_host_aside. Qed.
Lemma put_record_undisturbed n rec : respects undisturbed (put_record (X:=X) n rec).
Proof.
  intros w. split; [done|]. intros m. unfold is_dead, put_record, modify. cbn.
  destruct (decide (n = m)) as [->|Hne]; [rewrite lookup_insert_eq; by destruct (cells w !! m)|].
  by rewrite lookup_insert_ne.
Qed.
Hint Resolve on_host_undisturbed put_record_undisturbed : go.
Lemma saveSnapshot_undisturbed store i n ctx : respects undisturbed (saveSnapshot k store i n ctx).
Proof.
  unfold saveSnapshot. resp_bind; [apply respects_gets; by_order|]. intros rec.
  apply respects_try; [by_order|destruct rec; quiet_steps|]. intros r. quiet_steps.
Qed.
Hint Resolve saveSnapshot_undisturbed : go.
Lemma fc_Execute_undisturbed i n ctx req : respects undisturbed (fc_Execute k parts i n ctx req).
Proof.
  unfold fc_Execute, maybeSnapshot. resp_bind; [apply respects_gets; by_order|]. intros [|]; [auto with go|].
  apply respects_try; [by_order|auto with go|]. intros conn.
  apply respects_defer; [by_order|auto with go|]. apply respects_guard; [by_order|auto with go|].
  destruct (ReadResponse k conn); quiet_steps.
Qed.

(** An execution comes to an end, also when the session is saved. *)
Lemma saveSnapshot_ends store i n ctx : p_Snapshots parts = Some store → ends (saveSnapshot k store i n ctx).
Proof.
  intros Hs. destruct (dep_store _ _ Hdep store Hs) as [HP HC]. pose proof (dep_cp _ _ Hdep) as Hcp.
  assert (∀ src dst, ends (clone k src dst)) as Hclone.
  { intros. unfold clone, cloneFile. apply ends_on_disk. ends_steps. intros w. unfold copyFile. by repeat case_match. }
  assert (∀ a b, ends (rebase k a b)) as Hre.
  { intros. unfold rebase. ends_steps; [apply ends_returns; auto with go..|]. intros w. by repeat case_match. }
  assert (∀ sock r, ends (k_Do k sock r)) as HDo by (intros; apply ends_returns, (dep_Do _ _ Hdep)).
  assert (∀ n rec, ends (put_record (X:=X) n rec)) as Hput by (intros; unfold put_record; auto with go).
  unfold saveSnapshot, get_record, export_snapshot, pauseVM, createSnapshot, patch, FcApi.put, do_. cbv zeta.
  ends_steps; try (apply ends_on_host; ends_steps; apply ends_on_disk; auto with go; apply ends_returns; auto with go).
Qed.
Lemma fc_Execute_ends i n ctx req : ends (fc_Execute k parts i n ctx req).
Proof.
  pose proof (dep_Dial _ _ Hdep). pose proof (dep_Fprint _ _ Hdep). pose proof (dep_Close _ _ Hdep).
  pose proof (dep_ctx_Err _ _ Hdep). unfold fc_Execute, maybeSnapshot.
  apply ends_bind; [auto with go|]. intros [|]; [auto with go|]. apply ends_try.
  { apply ends_returns, returns_on_host. unfold dialGuestVsock. returns_steps. }
  intros conn. apply ends_defer; [apply ends_returns; auto with go|]. apply ends_guard.
  { apply ends_returns, returns_on_host. unfold WriteRequest. returns_steps. }
  destruct (ReadResponse k conn); [|apply ends_bind; [apply ends_returns; auto with go|auto with go]].
  apply ends_bind; [|auto with go]. destruct (p_Snapshots parts) as [store|] eqn:Es; [|auto with go].
  destruct (_ || _); [auto with go|]. apply ends_bind; [by apply saveSnapshot_ends|auto with go].
Qed.

(** Its process has ended when [Destroy] goes on; or it waits for ever for one that
    it has signalled. *)
Definition waits_for (n : nat) (v v' : gmap nat vmm_state) : Prop := ∃ e, v' = alter (signalled e) n v.
Lemma end_process_spec p w :
  ∃ o w', bind (on_host (k_exits_in_time k (pid p))) (λ exits : bool,
            if exits then seen_ended (Some p)
            else kill_process k (Some p) ;;; wait_process k (Some p)) w = (o, w') ∧
    cells w' = cells w ∧
    (o = Ret tt ∧ vmms w' = delete (handle p) (vmms w) ∨
     o = Blocked ∧ waits_for (handle p) (vmms w) (vmms w')).
Proof.
  destruct (returns_on_host _ (dep_exits _ _ Hdep (pid p)) w) as (b & w1 & E).
  pose proof (on_host_aside (k_exits_in_time k (pid p)) w) as [H1 H2]. rewrite E in H1, H2.
  rewrite (bind_Ret _ _ _ _ _ E). cbn in H1, H2. destruct b.
  - eexists _, _. split; [done|]. cbn. split; [done|]. left. by rewrite H1.
  - destruct (kill_process_world p w1) as (e & w2 & E2 & Hv2 & Hc2). rewrite (bind_Ret _ _ _ _ _ E2).
    cbn [wait_process]. destruct (returns_on_host _ (dep_Wait _ _ Hdep (pid p)) w2) as (b & w3 & E3).
    pose proof (on_host_aside (k_Wait k (pid p)) w2) as [H3 H4]. rewrite E3 in H3, H4. cbn in H3, H4.
    rewrite (bind_Ret _ _ _ _ _ E3). destruct b.
    + eexists _, _. split; [done|]. cbn. rewrite H4, Hc2. split; [done|]. left. split; [done|].
      rewrite H3, Hv2, H1. apply map_eq. intros n. destruct (decide (handle p = n)) as [<-|Hne].
      * by rewrite !lookup_delete_eq.
      * by rewrite !lookup_delete_ne, lookup_alter_ne by done.
    + eexists _, _. split; [done|]. cbn. rewrite H4, Hc2. split; [done|]. right. split; [done|].
      exists e. by rewrite H3, Hv2, H1.
Qed.
Lemma fc_Destroy_spec i p ctx w :
  i_cmd i = Some p → is_dead w (handle p) = false →
  let '(o, w') := fc_Destroy k i (handle p) ctx w in
  (∃ rec, cells w' = <[handle p := mkCell true rec]> (cells w)) ∧
  (vmms w' = delete (handle p) (vmms w) ∨ o = Blocked ∧ waits_for (handle p) (vmms w) (vmms w')).
Proof.
  intros Hp Hd. destruct (fc_Destroy k i (handle p) ctx w) as [o w'] eqn:E.
  revert E. unfold fc_Destroy. unfold bind at 1. cbn [gets]. rewrite Hd.
  unfold bind at 1. cbn [get_record gets]. set (rec := cells w !! handle p ≫= c_snapRec).
  unfold bind at 1. cbn [modify]. set (w1 := set_cells _ w).
  set (send := if i_client i then _ else _).
  assert (∃ w2, send w1 = (Ret tt, w2) ∧ aside w1 w2) as (w2 & E2 & Hv2 & Hc2).
  { unfold send. destruct (i_client i); [|by eexists]. pose proof (dep_Do _ _ Hdep) as HD.
    set (m := sendCtrlAltDel (k_Do k (apiSock (i_files i))) (k_fault_message k)).
    assert (returns m) as Hm by (unfold m, sendCtrlAltDel; auto with go).
    destruct (returns_on_host _ Hm w1) as (e & w2 & E). pose proof (on_host_aside m w1) as Ha.
    rewrite E in Ha. rewrite (bind_Ret _ _ _ _ _ E). by exists w2. }
  rewrite (bind_Ret _ _ _ _ _ E2), Hp.
  destruct (end_process_spec p w2) as (o3 & w3 & E3 & Hc3 & H3). cbn in Hv2, Hc2. rewrite Hv2 in H3.
  destruct H3 as [[-> Hv3]|[-> Hv3]].
  - rewrite (bind_Ret _ _ _ _ _ E3).
    match goal with |- ?m w3 = _ → _ => assert (respects aside m) as Hm by
      (unfold collect_error; quiet_steps) end.
    intros E. specialize (Hm w3) as [Hv4 Hc4]. rewrite E in Hv4, Hc4. cbn in Hv4, Hc4.
    rewrite Hv4, Hc4, Hc3, Hc2. split; [by exists rec|by left].
  - unfold bind at 1. rewrite E3. intros [= <- <-]. rewrite Hc3, Hc2. split; [by exists rec|by right].
Qed.
Lemma fc_Destroy_live i p ctx w :
  i_cmd i = Some p → is_dead w (handle p) = false →
  let w' := (fc_Destroy k i (handle p) ctx w).2 in
  live (vmms w') = live (vmms w) ∖ {[handle p]} ∧ ∃ rec, cells w' = <[handle p := mkCell true rec]> (cells w).
Proof.
  intros Hp Hd. pose proof (fc_Destroy_spec i p ctx w Hp Hd) as H.
  destruct (fc_Destroy k i (handle p) ctx w) as [o w']. destruct H as [Hc Hv]. split; [|done]. cbn [snd].
  destruct Hv as [->|[_ [e ->]]]; [apply live_delete|apply live_signalled].
Qed.
End Machines.

Lemma no_more_inv {X} (w w' : world X) :
  (∀ n, is_dead w n = true → vmms w !! n ≠ Some Running) → no_more (vmms w) (vmms w') ∧ cells w' = cells w →
  (∀ n, is_dead w' n = true → vmms w' !! n ≠ Some Running) ∧ live (vmms w') = live (vmms w).
Proof.
  intros Hinv [Hv Hc]. apply no_more_live in Hv. split; [|done].
  intros n Hd. unfold is_dead in Hd. rewrite Hc in Hd. specialize (Hinv n Hd).
  rewrite <- not_elem_of_live in *. by rewrite Hv.
Qed.

#[global] Arguments fc_Execute : simpl never.
#[global] Arguments fc_Destroy : simpl never.

(** The promise of the runtime interface, about the processes that run and that
    nothing was done about.  The process of a destroyed instance is none of them;
    this is the invariant. *)
#[export] Program Instance fc_VMs {X} (k : kernel X) cfg parts (Hdep : dependable k parts) :
    VMs (Firecracker k cfg parts) := {|
  vms w := live (vmms w);
  vm_inv w := ∀ n, is_dead w n = true → vmms w !! n ≠ Some Running;
  owned inst n := ∃ i p, inst = fc_instance k parts i n ∧ i_cmd i = Some p ∧ handle p = n
|}.
Next Obligation.
  cbn. intros X k cfg parts Hdep c spec w inst w' Hinv E.
  pose proof (Boot_boots k cfg parts Hdep c spec w) as Hb. rewrite E in Hb.
  destruct Hb as (i & p & v' & -> & Hp & Hn & Hv' & Hv & Hc). cbn in Hv, Hc.
  apply not_elem_of_union in Hn as [Hn Hdom]. pose proof (no_more_live _ _ Hv') as Hl.
  split; [|exists (handle p); split_and!; [by exists i, p| |by rewrite Hv, live_insert, Hl]].
  - intros n. unfold is_dead. rewrite Hv, Hc. destruct (decide (handle p = n)) as [<-|Hne].
    + by rewrite lookup_insert_eq.
    + rewrite !lookup_insert_ne by done. intros Hd. specialize (Hinv n Hd).
      rewrite <- not_elem_of_live in *. by rewrite Hl.
  - rewrite <- Hl, not_elem_of_live. apply not_elem_of_dom in Hn. congruence.
Qed.
Next Obligation.
  cbn. intros X k cfg parts Hdep c spec w e w' Hinv E.
  pose proof (Boot_boots k cfg parts Hdep c spec w) as Hb. rewrite E in Hb. by apply no_more_inv.
Qed.
Next Obligation.
  cbn. intros X k cfg parts Hdep c spec w v w' Hinv E.
  pose proof (Boot_boots k cfg parts Hdep c spec w) as Hb. rewrite E in Hb. by apply no_more_inv.
Qed.
Next Obligation.
  cbn. intros X k cfg parts Hdep c spec w w' Hinv E.
  pose proof (Boot_boots k cfg parts Hdep c spec w) as Hb. rewrite E in Hb. by apply no_more_inv.
Qed.
Next Obligation.
  cbn. intros X k cfg parts Hdep inst n c req w _ (i & p & -> & _). by apply fc_Execute_ends.
Qed.
Next Obligation.
  cbn. intros X k cfg parts Hdep inst n c req w Hinv (i & p & -> & _).
  destruct (fc_Execute_undisturbed k parts i n c req w) as [Hv Hd]. cbn. rewrite Hv. split; [|done].
  intros m. rewrite Hd. apply Hinv.
Qed.
Next Obligation.
  cbn. intros X k cfg parts Hdep inst n c w Hinv (i & p & -> & Hp & <-). cbn.
  destruct (is_dead w (handle p)) eqn:Ed.
  - unfold fc_Destroy, bind. cbn. rewrite Ed. cbn. split; [done|]. specialize (Hinv _ Ed).
    apply not_elem_of_live in Hinv. set_solver.
  - destruct (fc_Destroy_live k parts Hdep i p c w Hp Ed) as (Hv & rec & Hc). split; [|done].
    intros m. unfold is_dead. rewrite Hc, <- not_elem_of_live, Hv.
    destruct (decide (handle p = m)) as [->|Hne]; [set_solver|].
    rewrite lookup_insert_ne by done. intros Hd. specialize (Hinv m Hd). apply not_elem_of_live in Hinv. set_solver.
Qed.

(** *** A host on which everything works *)

Section Sample.
Context {X : Type} (note : string → X → X).
Definition noted (what : string) : M (host X) unit := modify (λ h, (h.1, note what h.2)).
Definition sample_start (cmd : exec_cmd) (stderr : string) : M (host X) (result Z) := λ h,
  (Ret (Ok 41),
   (<[path_join [cmd_dir cmd; "api.sock"] := Regular ""]>
      (<[path_join [cmd_dir cmd; "v.sock"] := Regular ""]> h.1),
    note (Join (cmd_name cmd :: cmd_args cmd) " ") h.2)).
Definition sample_kernel_of : kernel X := {|
  k_fault _ _ _ := None; k_cp _ _ := ret false; k_link _ _ := ret false; k_cwd := "/srv"; k_LookPath _ := None; k_exists _ := false;
  k_user := Ok ("1000", "1000"); k_Start := sample_start; k_Kill _ := noted "kill" ;;; ret None;
  k_exits_in_time _ := ret true; k_Wait _ := ret true;
  k_Do _ r := noted (api_Method r +:+ " " +:+ api_Path r) ;;; ret (Ok (204, ""));
  k_fault_message s := s; k_Dial _ _ := ret (Ok (mkUnix 5 ["OK 10"; "73" +:+ newline +:+ "done"] (Sentinel EOF)));
  k_Fprint _ s := noted s ;;; ret None; k_Close _ := ret tt;
  k_encode r := Ok (GuestAgent.Code r); k_decode s := Ok (mkResponse s.1 "" 0 false);
  k_now := ret 0; k_tick := ret tt; k_ticks _ _ := 3%nat; k_ctx_Err _ := ret None;
  k_interrupted _ := ret None; k_data _ _ _ := true; k_seek_fails _ := None; k_pos_fails _ := None;
  k_copy_fails _ := None
|}.
End Sample.
Definition sample_kernel : kernel (list string) := sample_kernel_of (λ s log, log ++ [s]).
Definition sample_parts : Parts (list string) := mkParts None None None None.
Definition sample_disk : fs :=
  {["assets" := Dir; "assets/firecracker" := Regular "elf"; "assets/vmlinux" := Regular "kernel";
    "assets/rootfs.ext4" := Regular "disk"]}.
Definition sample_fc : world (list string) := mkWorld (sample_disk, []) ∅ ∅ 0 2.
Definition sample_spec : Spec :=
  mkSpec "python" "" DefaultProfile (mkSeccomp "" [] []) Default.

Example sample_boot :
  match Boot sample_kernel DefaultConfig sample_parts RequestContext sample_spec sample_fc with
  | (Ret (Ok inst), w) => Some (ID inst, (hw w).2, map_to_list (vmms w))
  | _ => None
  end = Some ("fc-1",
    ["assets/firecracker --api-sock data/vms/fc-1/api.sock"; "PUT /logger"; "PUT /machine-config";
     "PUT /boot-source"; "PUT /drives/rootfs"; "PUT /vsock"; "PUT /actions";
     "CONNECT 52" +:+ newline], [(0%nat, Running)]).
Proof. vm_compute. reflexivity. Qed.

(** ** The life of a machine *)
Section Life.
Context {X : Type} (k : kernel X) (cfg : FcConfig.Config) (parts : Parts X).
Hypothesis Hdep : dependable k parts.

(** C7 (safety): A boot that fails, panics or waits for ever leaves no VMM process
    running behind, however far it got: cold or restored, a refused request, a
    machine that never answers.  Every process that it started has been sent
    SIGKILL, or its end was seen; that the kernel may refuse the signal is in the
    process's state.  One that succeeds leaves exactly one more running.  The
    processes of before are untouched. *)
Theorem Boot_no_orphans ctx spec w :
  let '(o, w') := Boot k cfg parts ctx spec w in
  let dealt_with n := ∀ s, vmms w' !! n = Some s → s = Killed ∨ ∃ err, s = SignalRefused err in
  (∀ n s, vmms w !! n = Some s → vmms w' !! n = Some s) ∧
  match o with
  | Ret (Ok inst) =>
    ∃ p, vmms w !! p = None ∧ vmms w' !! p = Some Running ∧
         ∀ n, vmms w !! n = None → n ≠ p → dealt_with n
  | _ => ∀ n, vmms w !! n = None → dealt_with n
  end.
Proof.
  pose proof (Boot_boots k cfg parts Hdep ctx spec w) as Hb. unfold booted in Hb.
  destruct (Boot k cfg parts ctx spec w) as [o w']. cbn [fst snd] in Hb. cbv zeta.
  assert (∀ v n, no_more (vmms w) v → vmms w !! n = None →
            ∀ s, v !! n = Some s → s = Killed ∨ ∃ err, s = SignalRefused err) as Hno.
  { intros v n [_ Hv] Hn [| |err] Hs; [by destruct (Hv n Hn)|by left|eauto]. }
  assert (∀ v, no_more (vmms w) v → ∀ n s, vmms w !! n = Some s → v !! n = Some s) as Hold.
  { intros v [Hv _] n s Hs. by eapply lookup_weaken. }
  destruct o as [[inst|e]|v|]; [|by destruct Hb as [Hv _]; split; [by apply Hold|intros n; by apply Hno]..].
  destruct Hb as (i & p & v' & _ & _ & Hn & Hv' & Hv & _). apply not_elem_of_union in Hn as [Hn _].
  apply not_elem_of_dom in Hn. rewrite Hv. split.
  - intros n s Hs. rewrite lookup_insert_ne; [by eapply Hold|]. intros <-. pose proof (Hold _ Hv' _ _ Hs). congruence.
  - exists (handle p). split_and!; [|apply lookup_insert_eq|].
    + destruct (vmms w !! handle p) as [s|] eqn:E; [|done]. pose proof (Hold _ Hv' _ _ E). congruence.
    + intros n Hnone Hne. rewrite lookup_insert_ne by done. by apply Hno.
Qed.

End Life.
(** A host whose machines never answer: the boot fails, and the kernel took the
    signal. *)
Definition mute_kernel : kernel (list string) :=
  let k := sample_kernel in
  mkKernel (k_fault k) (k_cp k) (k_link k) (k_cwd k) (k_LookPath k) (k_exists k) (k_user k) (k_Start k) (k_Kill k)
    (λ _, ret false) (λ _, ret false) (k_Do k) (k_fault_message k) (λ _ _, ret (Err (New "refused"))) (k_Fprint k)
    (k_Close k) (k_encode k) (k_decode k) (k_now k) (k_tick k) (k_ticks k) (k_ctx_Err k) (k_interrupted k)
    (k_data k) (k_seek_fails k) (k_pos_fails k) (k_copy_fails k).
Lemma mute_dependable : dependable mute_kernel sample_parts.
Proof. split; cbn; unfold noted; auto with go; intros; done. Qed.
Lemma Boot_no_orphans_witness :
  let w' := (Boot mute_kernel DefaultConfig sample_parts RequestContext sample_spec sample_fc).2 in
  map_to_list (vmms w') = [(0%nat, Killed)] ∧
  ∀ s, vmms w' !! 0%nat = Some s → s = Killed ∨ ∃ err, s = SignalRefused err.
Proof.
  intros w'. split; [vm_compute; reflexivity|].
  pose proof (Boot_no_orphans mute_kernel DefaultConfig sample_parts mute_dependable RequestContext
    sample_spec sample_fc) as H. subst w'.
  assert (is_ok (match (Boot mute_kernel DefaultConfig sample_parts RequestContext sample_spec sample_fc).1 with
           | Ret r => r | _ => Err (New "") end) = false) as Hf by (vm_compute; reflexivity).
  destruct (Boot mute_kernel DefaultConfig sample_parts RequestContext sample_spec sample_fc) as [o w'].
  destruct o as [[inst|e]|v|]; [discriminate|apply H; reflexivity..].
Defined.
