(* ===== verification/Reaper.v ===== *)
(** * The goroutines around a VMM process (internal/runtime/firecracker.go)

    [reap], [wait], [done], [whileAlive] and the wait of [Destroy], as atomic
    steps of concurrent goroutines.  [Firecracker] runs a boot and a destroy one
    step after the other and lets the host choose what a select takes; here is
    why that choice covers what the goroutines can do ([whileAlive_covered]),
    and what a returned [Destroy] means for the process ([destroyed_is_gone]). *)
From S2P Require Import Prelude GoUnicode GoStrings GoError GoTime GoFS Firecracker FirecrackerSpec.

(** [fmt.Sprintf("%v", err)] *)
Definition verb_v (e : option error) : string := match e with Some e => Error e | None => "<nil>" end.

(** ** State *)

(** Where the goroutine of [reap] is; it begins when the process has started. *)
Inductive reap_phase := InWait | Reaped (err : option error) | Recorded | ReapDone.

(** A call of [whileAlive]: the end of its context, what [fn] has returned, what
    is in the channel, and what the call has answered before it is annotated. *)
Record racing := mkRacing {
  r_ctx : option error; r_fn : option (option error); r_chan : option (option error);
  r_out : option (option error)
}.
Inductive thread :=
| Waits                                (* in wait, at <-exited *)
| Waited (err : option error)          (* wait has returned *)
| While (r : racing)
| DestroySelects | DestroyKills | DestroyWaits | Destroyed.

(** [process]: what [cmd.Wait] will answer, once the process has ended. *)
Record state := mkState {
  process_end : option (option error); reaper : reap_phase;
  waitErr : option error; exited : bool; threads : list thread
}.
Definition init (ts : list thread) : state := mkState None InWait None false ts.
(** The goroutines that can be there when the process has started. *)
Definition fresh (t : thread) : Prop :=
  match t with
  | Waits | DestroySelects => True
  | While r => r = mkRacing None None None None
  | _ => False
  end.

(** ** Steps *)
Inductive move :=
| Receive                                   (* <-exited, in wait *)
| CtxEnds (err : error) | FnReturns (r : option error)
| TakeAnswer | TakeExit | TakeCtx
| Timer | Kills | KillRefused.
Inductive action :=
| Ends (err : option error)                 (* the process ends by itself *)
| Reap                                      (* the next step of reap *)
| Step (t : nat) (m : move).

Definition set_process e s := mkState e (reaper s) (waitErr s) (exited s) (threads s).
Definition set_thread t th s :=
  mkState (process_end s) (reaper s) (waitErr s) (exited s) (<[t := th]> (threads s)).
(** SIGKILL to the process group: a process that still runs ends. *)
Definition killed : option error := Some (New "signal: killed").

Definition reap_step (s : state) : option state :=
  match reaper s with
  | InWait => err ← process_end s; Some (mkState (process_end s) (Reaped err) (waitErr s) (exited s) (threads s))
  | Reaped err => Some (mkState (process_end s) Recorded err (exited s) (threads s))
  | Recorded => Some (mkState (process_end s) ReapDone (waitErr s) true (threads s))
  | ReapDone => None
  end.
(** One step of a call of [whileAlive]; the channel holds one value. *)
Definition race (s : state) (r : racing) (m : move) : option racing :=
  match m, r_out r with
  | CtxEnds err, _ => if r_ctx r then None else Some (mkRacing (Some err) (r_fn r) (r_chan r) (r_out r))
  | FnReturns e, _ =>
    match r_fn r, r_chan r with
    | None, None => Some (mkRacing (r_ctx r) (Some e) (Some e) (r_out r))
    | _, _ => None
    end
  | TakeAnswer, None => e ← r_chan r; Some (mkRacing (r_ctx r) (r_fn r) None (Some e))
  | TakeExit, None =>
    if exited s then
      Some (mkRacing (r_ctx r) (r_fn r) (r_chan r)
              (Some (Some (New ("firecracker exited: " +:+ verb_v (waitErr s))))))
    else None
  | TakeCtx, None => err ← r_ctx r; Some (mkRacing (r_ctx r) (r_fn r) (r_chan r) (Some (Some err)))
  | _, _ => None
  end.
Definition moved (s : state) (th : thread) (m : move) : option (option (option error) * thread) :=
  match th, m with
  | Waits, Receive => if exited s then Some (process_end s, Waited (waitErr s)) else None
  | While r, _ => r ← race s r m; Some (process_end s, While r)
  | DestroySelects, Receive => if exited s then Some (process_end s, Destroyed) else None
  | DestroySelects, Timer => Some (process_end s, DestroyKills)
  | DestroyKills, Kills =>
    Some (match process_end s with None => Some killed | e => e end, DestroyWaits)
  | DestroyKills, KillRefused => Some (process_end s, DestroyWaits)
  | DestroyWaits, Receive => if exited s then Some (process_end s, Destroyed) else None
  | _, _ => None
  end.
Definition step (a : action) (s : state) : option state :=
  match a with
  | Ends err => match process_end s with None => Some (set_process (Some err) s) | Some _ => None end
  | Reap => reap_step s
  | Step t m =>
    th ← threads s !! t; '(e, th') ← moved s th m; Some (set_thread t th' (set_process e s))
  end.
#[local] Notation execute := (steps step).
Definition started (ts : list thread) (s : state) : Prop := Forall fresh ts ∧ s = init ts.
#[local] Notation reachable ts := (reached step (started ts)).

(** ** Invariant *)
Definition reap_ok (s : state) : Prop :=
  (exited s = true ↔ reaper s = ReapDone) ∧
  match reaper s with
  | InWait => True
  | Reaped err => process_end s = Some err
  | Recorded | ReapDone => process_end s = Some (waitErr s)
  end.
Definition outcome_ok (e : option (option error)) (r : racing) (o : option error) : Prop :=
  r_fn r = Some o ∨
  (∃ err, e = Some err ∧ o = Some (New ("firecracker exited: " +:+ verb_v err))) ∨
  (∃ err, r_ctx r = Some err ∧ o = Some err).
Definition thread_ok (e : option (option error)) (t : thread) : Prop :=
  match t with
  | Waited err => e = Some err
  | Destroyed => e ≠ None
  | While r => (r_fn r = None → r_chan r = None) ∧ (∀ x, r_chan r = Some x → r_fn r = Some x) ∧
               (∀ o, r_out r = Some o → outcome_ok e r o)
  | _ => True
  end.
Definition inv (s : state) : Prop :=
  reap_ok s ∧ ∀ t th, threads s !! t = Some th → thread_ok (process_end s) th.

(** The end of a process is for good. *)
Definition later (e e' : option (option error)) : Prop := ∀ x, e = Some x → e' = Some x.
Lemma thread_later e e' t : later e e' → thread_ok e t → thread_ok e' t.
Proof.
  intros H. destruct t as [| |r| | | |]; cbn; auto.
  - intros (H1 & H2 & H3). split_and!; [done..|]. intros o Ho.
    destruct (H3 o Ho) as [?|[(err & He & ->)|?]]; [by left| |by right; right].
    right. left. eauto.
  - destruct e; [|done]. by rewrite (H o eq_refl).
Qed.
Lemma exited_end s : reap_ok s → exited s = true → process_end s = Some (waitErr s).
Proof. intros [He H] Hx. apply He in Hx. by rewrite Hx in H. Qed.
Lemma race_ok s r m r' :
  reap_ok s → thread_ok (process_end s) (While r) → race s r m = Some r' → thread_ok (process_end s) (While r').
Proof.
  intros Hr (H1 & H2 & H3). unfold race.
  destruct m; try done; destruct (r_out r) as [o|] eqn:Eo; try done.
  - destruct (r_ctx r) eqn:Ec; [done|]. intros [= <-]. cbn. split_and!; [done..|]. intros o' Ho'.
    destruct (H3 o' Ho') as [?|[?|(err' & He & _)]]; [by left|by right; left|congruence].
  - destruct (r_ctx r) eqn:Ec; [done|]. intros [= <-]. cbn. split_and!; [done..|]. done.
  - destruct (r_fn r) eqn:Ef; [done|]. destruct (r_chan r); [done|]. intros [= <-]. cbn.
    split_and!; [done|by intros x [= <-]|]. intros o' Ho'.
    destruct (H3 o' Ho') as [?|[?|?]]; [congruence|by right; left|by right; right].
  - destruct (r_fn r) eqn:Ef; [done|]. destruct (r_chan r); [done|]. intros [= <-]. cbn.
    split_and!; [done|by intros x [= <-]|done].
  - destruct (r_chan r) as [x|] eqn:Ec; [|done]. intros [= <-]. cbn.
    split_and!; [done|done|]. intros o [= <-]. left. by apply H2.
  - destruct (exited s) eqn:Ex; [|done]. intros [= <-]. cbn. split_and!; [done..|].
    intros o [= <-]. right. left. exists (waitErr s). split; [by apply exited_end|done].
  - destruct (r_ctx r) as [err|] eqn:Ec; [|done]. intros [= <-]. cbn. split_and!; [done..|].
    intros o [= <-]. right. right. exists err. split; [done|done].
Qed.
Lemma moved_ok s th m e th' :
  reap_ok s → thread_ok (process_end s) th → moved s th m = Some (e, th') →
  later (process_end s) e ∧ thread_ok e th'.
Proof.
  intros Hr Hth. unfold moved.
  destruct th as [| |r| | | |], m; try discriminate; try (destruct (exited s) eqn:Ex; [|discriminate]);
    try (apply exited_end in Ex; [|done]); try (intros [= <- <-]; cbn; split; [by intros ?|]; done || congruence).
  all: try (intros (r' & Hr' & [= <- <-])%bind_Some; split; [by intros ?|by eapply race_ok]).
  intros [= <- <-]. split; [|done]. intros x Hx. by rewrite Hx.
Qed.
Lemma reap_later s e :
  reap_ok s → later (process_end s) e → reap_ok (set_process e s).
Proof.
  intros [H1 H2] He. split; [done|]. cbn. destruct (reaper s); cbn; auto.
Qed.
Lemma step_keeps_inv : preserved step inv.
Proof.
  intros a s s' [Hr Ht] Hs. destruct a as [err| |t m]; cbn in Hs.
  - destruct (process_end s) eqn:Ee; [done|]. injection Hs as <-.
    assert (later (process_end s) (Some err)) as Hl by (rewrite Ee; by intros ?).
    split; [by apply reap_later|]. intros t th Hth. apply (thread_later None); [done|by eapply Ht].
  - unfold reap_step in Hs. destruct Hr as [H1 H2]. destruct (reaper s) eqn:Er; try done.
    + apply bind_Some in Hs as (err & He & [= <-]). split; [|done]. split; [cbn; naive_solver|done].
    + injection Hs as <-. split; [|done]. split; [cbn; naive_solver|done].
    + injection Hs as <-. split; [|done]. by split.
  - apply bind_Some in Hs as (th & Hth & Hs). apply bind_Some in Hs as ([e th'] & Hm & [= <-]).
    destruct (moved_ok s th m e th' Hr (Ht t th Hth) Hm) as [Hl Hok].
    split; [by apply (reap_later s e)|]. intros t0 th0. cbn.
    intros [(-> & <- & _)|[_ H0]]%list_lookup_insert_Some; [done|].
    eapply thread_later; [exact Hl|by eapply Ht].
Qed.
Lemma inv_of_reached ts s : reachable ts s → inv s.
Proof.
  apply reached_preserved; [apply step_keeps_inv|]. intros s0 [Hf ->]. split; [by split|].
  intros t th Ht. rewrite Forall_lookup in Hf. specialize (Hf t th Ht).
  destruct th; cbn in Hf; try done. by rewrite Hf.
Qed.

(** ** What the goroutines guarantee *)

(** C5 (safety): A [wait] that returns reports how the process ended, whenever it was
    called and whoever else waits; a [Destroy] that returns leaves no process; the
    answer of [whileAlive] is the one its function gave, or the end of the
    process, or that of its context; and the function's goroutine never blocks on
    the channel, also when nobody takes its answer any more. *)
Theorem destroyed_is_gone ts s t th :
  reachable ts s → threads s !! t = Some th →
  match th with
  | Waited err => process_end s = Some err
  | Destroyed => process_end s ≠ None
  | While r =>
    (∀ o, r_out r = Some o → outcome_ok (process_end s) r o) ∧
    (r_fn r = None → ∀ e, step (Step t (FnReturns e)) s ≠ None)
  | _ => True
  end.
Proof.
  intros Hs Ht. pose proof (proj2 (inv_of_reached ts s Hs) t th Ht) as H. destruct th as [| |r| | | |]; try exact H || exact I.
  destruct H as (H1 & _ & H3). split; [done|]. intros Hf e. cbn. rewrite Ht. cbn.
  unfold race. rewrite Hf, (H1 Hf). by destruct (r_out r).
Qed.

(** Once the process has ended, the rest of [reap] is at most three steps, which
    nobody else is needed for. *)
Lemma reap_finishes s :
  reap_ok s → process_end s ≠ None →
  ∃ n s', (n <= 3)%nat ∧ execute (replicate n Reap) s = Some s' ∧ exited s' = true ∧ threads s' = threads s.
Proof.
  intros [H1 H2] He. destruct (process_end s) as [err|] eqn:Ee; [|done].
  destruct (reaper s) eqn:Er.
  - exists 3%nat. eexists. split; [lia|]. cbn. unfold reap_step. rewrite Er, Ee. cbn. done.
  - exists 2%nat. eexists. split; [lia|]. cbn. unfold reap_step. rewrite Er. cbn. done.
  - exists 1%nat. eexists. split; [lia|]. cbn. unfold reap_step. rewrite Er. cbn. done.
  - exists 0%nat, s. split_and!; [lia|done|by apply H1|done].
Qed.

(** The process does not end by itself. *)
Definition forced (tr : list action) : Prop := Forall (λ a, match a with Ends _ => False | _ => True end) tr.
Lemma forced_reap n tr : forced tr → forced (replicate n Reap ++ tr).
Proof. intros H. apply Forall_app. split; [by apply Forall_replicate|done]. Qed.
Lemma set_thread_at t th s : is_Some (threads s !! t) → threads (set_thread t th s) !! t = Some th.
Proof. intros [x Hx]. apply list_lookup_insert_eq. by eapply lookup_lt_Some. Qed.

(** The last step of a goroutine that waits for the end, after those of [reap]. *)
Lemma ended_move s t th m (P : thread → Prop) :
  inv s → process_end s ≠ None → threads s !! t = Some th →
  (∀ s1, exited s1 = true → ∃ th', moved s1 th m = Some (process_end s1, th') ∧ P th') →
  ∃ tr s' th', (length tr <= 4)%nat ∧ forced tr ∧ execute tr s = Some s' ∧ threads s' !! t = Some th' ∧ P th'.
Proof.
  intros [Hr _] He Ht Hm. destruct (reap_finishes s Hr He) as (n & s1 & Hn & Hx & Hx1 & Hths).
  destruct (Hm s1 Hx1) as (th' & Hmv & HP).
  exists (replicate n Reap ++ [Step t m]). eexists. exists th'. split_and!.
  - rewrite length_app, length_replicate. cbn. lia.
  - apply forced_reap. by repeat constructor.
  - eapply steps_app; [exact Hx|]. cbn. rewrite Hths, Ht. cbn. by rewrite Hmv.
  - apply set_thread_at. cbn. rewrite Hths. by eexists.
  - done.
Qed.
(** A step of one goroutine before the rest of a schedule. *)
Lemma first_move s t th m e th' :
  inv s → threads s !! t = Some th → moved s th m = Some (e, th') →
  let s1 := set_thread t th' (set_process e s) in
  inv s1 ∧ step (Step t m) s = Some s1 ∧ threads s1 !! t = Some th'.
Proof.
  intros Hi Ht Hm s1. assert (step (Step t m) s = Some s1) as Hs by (cbn; by rewrite Ht; cbn; rewrite Hm).
  split_and!; [by eapply step_keeps_inv|done|]. apply set_thread_at. cbn. by eexists.
Qed.

(** C19 (liveness): No [Destroy] waits for ever if SIGKILL reaches the process: from
    every state of its select or its kill a schedule of at most six steps, in
    which the process does not end by itself, brings it to its return; and when
    the process has ended, no [wait], [Destroy] or [whileAlive] is more than four
    steps from its return. *)
Theorem destroy_returns ts s t th :
  reachable ts s → threads s !! t = Some th →
  ((th = DestroySelects ∨ th = DestroyKills) →
     ∃ tr s', (length tr <= 6)%nat ∧ forced tr ∧ execute tr s = Some s' ∧ threads s' !! t = Some Destroyed) ∧
  (process_end s ≠ None → (th = Waits ∨ th = DestroyWaits ∨ ∃ r, th = While r ∧ r_out r = None) →
     ∃ tr s' th', (length tr <= 4)%nat ∧ forced tr ∧ execute tr s = Some s' ∧ threads s' !! t = Some th' ∧
       match th' with Waited _ | Destroyed => True | While r => r_out r ≠ None | _ => False end).
Proof.
  intros Hs Ht. pose proof (inv_of_reached ts s Hs) as Hi. split.
  - assert (∀ s, inv s → threads s !! t = Some DestroyKills → ∃ tr s', (length tr <= 5)%nat ∧ forced tr ∧
      execute tr s = Some s' ∧ threads s' !! t = Some Destroyed) as Hkill.
    { intros s0 Hi0 H0. destruct (first_move s0 t _ Kills _ _ Hi0 H0 eq_refl) as (Hi1 & Hs1 & H1).
      destruct (ended_move _ t DestroyWaits Receive (eq Destroyed) Hi1) as (tr & s' & th' & Hl & Hf & Hx & Hth & <-).
      - cbn. by destruct (process_end s0).
      - exact H1.
      - intros s1 Hx1. cbn. rewrite Hx1. eauto.
      - exists (Step t Kills :: tr), s'. split_and!; [cbn; lia|by constructor|cbn [steps]; by rewrite Hs1|done]. }
    intros [-> | ->].
    + destruct (first_move s t _ Timer _ _ Hi Ht eq_refl) as (Hi1 & Hs1 & H1).
      destruct (Hkill _ Hi1 H1) as (tr & s' & Hl & Hf & Hx & Hth).
      exists (Step t Timer :: tr), s'. split_and!; [cbn; lia|by constructor|cbn [steps]; by rewrite Hs1|done].
    + destruct (Hkill s Hi Ht) as (tr & s' & Hl & Hf & Hx & Hth). exists tr, s'. split_and!; [lia|done..].
  - intros He Hth.
    assert (∃ m, ∀ s1, exited s1 = true → ∃ th', moved s1 th m = Some (process_end s1, th') ∧
      match th' with Waited _ | Destroyed => True | While r => r_out r ≠ None | _ => False end) as [m Hm].
    { destruct Hth as [->|[->|(r & -> & Hr)]]; [exists Receive|exists Receive|exists TakeExit];
        intros s1 Hx1; cbn; unfold race; rewrite ?Hr, Hx1; eexists; by split. }
    by apply (ended_move s t th m).
Qed.

(** The process neither ends by itself nor gets the signal. *)
Definition left_alone (tr : list action) : Prop :=
  Forall (λ a, match a with Ends _ | Step _ Kills => False | _ => True end) tr.
(** (error) Without the signal there is no such bound: when the kill is refused
    (a process that sudo started belongs to another user) the error is dropped,
    and [Destroy] then waits, whatever happens around it, until the process ends
    by itself. *)
Theorem refused_kill_waits_on tr s s' t :
  threads s !! t = Some DestroyWaits → process_end s = None → reap_ok s →
  left_alone tr → execute tr s = Some s' →
  threads s' !! t = Some DestroyWaits ∧ process_end s' = None.
Proof.
  revert s. induction tr as [|a tr IH]; intros s Ht He Hr Ha Hx; [by injection Hx as <-|].
  cbn in Hx. apply bind_Some in Hx as (s1 & Hs & Hx). inversion Ha as [|? ? Ha1 Ha2]; subst.
  assert (exited s = false) as Hex.
  { destruct (exited s) eqn:E; [|done]. apply exited_end in E; congruence. }
  assert (threads s1 !! t = Some DestroyWaits ∧ process_end s1 = None ∧ reap_ok s1) as (?&?&?);
    [|by apply (IH s1)].
  destruct a as [e| |u m]; [done| |]; cbn in Hs.
  - destruct Hr as [_ H2]. unfold reap_step in Hs. destruct (reaper s); rewrite He in *; done.
  - apply bind_Some in Hs as (th & Hu & Hs). apply bind_Some in Hs as ([e th'] & Hm & [= <-]).
    assert (e = None ∧ u ≠ t) as [-> Hne].
    { unfold moved in Hm. rewrite Hex, He in Hm. destruct th, m; try done; cbn in Hm;
        try (apply bind_Some in Hm as (? & ? & [= <- <-])); try injection Hm as <- <-;
        (split; [done|]; intros ->; congruence). }
    cbn. rewrite list_lookup_insert_ne by done. split_and!; [done..|].
    by apply (reap_later s None); [|rewrite He].
Qed.

(** ** The sequential backend *)
Section Sequential.
Context {X : Type} (k : kernel X).

(** What [k_interrupted] of the host answers for an answer of [whileAlive]:
    nothing when it is the function's. *)
Definition cut_of (r : racing) (s : state) (cut : option interruption) : Prop :=
  match cut with
  | None => True
  | Some (Exited status) => ∃ err, process_end s = Some err ∧ status = verb_v err
  | Some (CtxDone err) => r_ctx r = Some err
  end.

(** What the sequential [whileAlive] does with an answer of the select. *)
Definition answered_while (w : making X) (cut : option interruption) (o : option error)
    : M (making X) (option error) :=
  (match cut with Some (Exited _) => on_world (seen_ended (i_cmd w.2)) | _ => ret tt end) ;;;
  match o with
  | None => ret None
  | Some err => let! err := sys (annotateDeath k (i_files w.2) err) in ret (Some err)
  end.
(** (refinement) Whatever the goroutines have answered in a reachable state, there
    is an answer of the function and a choice of the host, justified by how the
    process or the context has ended, with which [Firecracker.whileAlive] goes on
    from the same answer. *)
Theorem whileAlive_covered ts s t r o :
  reachable ts s → threads s !! t = Some (While r) → r_out r = Some o →
  ∃ fn_answer cut, cut_of r s cut ∧ (cut = None → r_fn r = Some fn_answer) ∧
  ∀ ctx (fn : M (GoFS.host X) (option error)) w w1 w2,
    sys fn w = (Ret fn_answer, w1) → sys (k_interrupted k ctx) w1 = (Ret cut, w2) →
    whileAlive k ctx fn w = answered_while w cut o w2.
Proof.
  intros Hs Ht Ho. pose proof (proj2 (inv_of_reached ts s Hs) t _ Ht) as (_ & _ & H).
  assert (∀ a cut, o = match cut with
      | Some (Exited status) => Some (New ("firecracker exited: " +:+ status))
      | Some (CtxDone err) => Some err | None => a end →
    ∀ ctx (fn : M (GoFS.host X) (option error)) w w1 w2,
      sys fn w = (Ret a, w1) → sys (k_interrupted k ctx) w1 = (Ret cut, w2) →
      whileAlive k ctx fn w = answered_while w cut o w2) as Heq.
  { intros a cut -> ctx fn w w1 w2 Hf Hk. unfold whileAlive, inst, answered_while. unfold bind at 1, gets.
    rewrite (bind_Ret _ _ _ _ _ Hf), (bind_Ret _ _ _ _ _ Hk). by destruct cut as [[]|], a. }
  destruct (H o Ho) as [Hf|[(err & He & ->)|(err & Hc & ->)]].
  - exists o, None. split_and!; [done|done|]. by apply Heq.
  - exists None, (Some (Exited (verb_v err))). split_and!; [by exists err|done|]. by apply Heq.
  - exists None, (Some (CtxDone err)). split_and!; [done|done|]. by apply Heq.
Qed.
End Sequential.

(** ** Examples *)
Definition sample_threads : list thread :=
  [Waits; While (mkRacing None None None None); DestroySelects].
Lemma sample_fresh : Forall fresh sample_threads.
Proof. by repeat constructor. Qed.
(** The boot's context ends while the machine hangs; the destroy that follows
    kills it. *)
Definition hung_boot : list action :=
  [Step 1 (CtxEnds (Sentinel DeadlineExceeded)); Step 1 TakeCtx; Step 2 Timer; Step 2 Kills;
   Reap; Reap; Reap; Step 0 Receive; Step 2 Receive; Step 1 (FnReturns (Some (New "EPIPE")))].
Definition after_hung_boot : state := default (init []) (execute hung_boot (init sample_threads)).
Lemma after_hung_boot_reachable : reachable sample_threads after_hung_boot.
Proof. eapply (steps_reached _ _ hung_boot); [by apply reached_start; split; [apply sample_fresh|]|vm_compute; reflexivity]. Qed.
Lemma destroyed_is_gone_witness :
  threads after_hung_boot !! 0%nat = Some (Waited killed) ∧ process_end after_hung_boot = Some killed.
Proof.
  split; [reflexivity|].
  exact (destroyed_is_gone sample_threads after_hung_boot 0 (Waited killed) after_hung_boot_reachable eq_refl).
Defined.
Lemma destroy_returns_witness :
  ∃ tr s', (length tr <= 6)%nat ∧ forced tr ∧ execute tr (init sample_threads) = Some s' ∧
           threads s' !! 2%nat = Some Destroyed.
Proof.
  apply (destroy_returns sample_threads (init sample_threads) 2 DestroySelects);
    [by apply reached_start; split; [apply sample_fresh|]|reflexivity|by left].
Defined.
Lemma refused_kill_waits_on_witness :
  let s := default (init []) (execute [Step 2 Timer; Step 2 KillRefused] (init sample_threads)) in
  let s' := default (init []) (execute [Step 1 (FnReturns None); Step 1 TakeAnswer] s) in
  threads s' !! 2%nat = Some DestroyWaits ∧ process_end s' = None.
Proof.
  cbv zeta. eapply (refused_kill_waits_on [Step 1 (FnReturns None); Step 1 TakeAnswer]
    (default (init []) (execute [Step 2 Timer; Step 2 KillRefused] (init sample_threads))));
    [reflexivity|reflexivity|by repeat split|by repeat constructor|reflexivity].
Defined.
