(* ===== verification/FirecrackerNet.v ===== *)
(** * The network of a Firecracker machine

    A machine without an allowlist never sees the network code; one with an
    allowlist runs in the namespace of its own link, and a boot that fails takes
    its link down again. *)
From S2P Require Import Prelude GoUnicode GoStrings GoError GoNet GoPath GoTime GoFS Resources Policy.
From S2P Require Import TapNames Tap Snapshot Sparse FcConfig Jailer FcApi FcVsock GuestAgent Runtime Firecracker.
From S2P Require Import FirecrackerSpec.

(** The same host with other processes and another API socket. *)
Definition with_Do {X} (f : string → api_request → M (host X) (result (Z * string))) (k : kernel X)
    : kernel X :=
  mkKernel (k_fault k) (k_cp k) (k_link k) (k_cwd k) (k_LookPath k) (k_exists k) (k_user k) (k_Start k) (k_Kill k)
    (k_exits_in_time k) (k_Wait k) f (k_fault_message k) (k_Dial k) (k_Fprint k) (k_Close k) (k_encode k)
    (k_decode k) (k_now k) (k_tick k) (k_ticks k) (k_ctx_Err k) (k_interrupted k) (k_data k)
    (k_seek_fails k) (k_pos_fails k) (k_copy_fails k).
Definition with_Start {X} (f : exec_cmd → string → M (host X) (result Z)) (k : kernel X) : kernel X :=
  mkKernel (k_fault k) (k_cp k) (k_link k) (k_cwd k) (k_LookPath k) (k_exists k) (k_user k) f (k_Kill k)
    (k_exits_in_time k) (k_Wait k) (k_Do k) (k_fault_message k) (k_Dial k) (k_Fprint k) (k_Close k) (k_encode k)
    (k_decode k) (k_now k) (k_tick k) (k_ticks k) (k_ctx_Err k) (k_interrupted k) (k_data k)
    (k_seek_fails k) (k_pos_fails k) (k_copy_fails k).

(** A host whose VMM crashes when it is given a network interface. *)
Definition no_nic {X} (k : kernel X) : kernel X :=
  with_Do (λ sock r, match api_Body r with fcNetIface_ _ => panic "nic" | _ => k_Do k sock r end) k.
Definition no_tap {X} (parts : Parts X) : Parts X :=
  mkParts None (p_Cgroup parts) (p_Snapshots parts) (p_Pool parts).
(** A command that runs in the namespace of a link: by its name under [ip netns exec],
    or by its path, the last option that the jailer is given before the VMM's own. *)
Definition in_link (ip : string) (l : Link) (cmd : exec_cmd) : bool :=
  bool_decide (cmd_name cmd = ip ∧ take 3 (cmd_args cmd) = ["netns"; "exec"; NetNS l]) ||
  bool_decide (drop (length (cmd_args cmd) - 5) (cmd_args cmd) =
               ["--netns"; NetNSPath l; "--"; "--api-sock"; "/api.sock"]).
(** A host that crashes when a process is started anywhere else, or at all. *)
Definition only_in_link {X} (l : Link) (k : kernel X) : kernel X :=
  with_Start (λ cmd stderr, if in_link (k_ip k) l cmd then k_Start k cmd stderr else panic "netns") k.
Definition no_start {X} (k : kernel X) : kernel X := with_Start (λ _ _, panic "started") k.

(** ** The link of a machine under construction *)
Section Tap.
Context {X : Type}.
Definition tap_of (s : making X) : option Link := i_tap s.2.
Lemma sys_tap {A} (m : M (host X) A) : keeps tap_of (sys m).
Proof. intros [w i]. unfold sys, on_world, same, tap_of. cbn. by destruct (on_host m w). Qed.
Lemma upd_tap f : (∀ i, i_tap (f i) = i_tap i) → keeps tap_of (upd (X:=X) f).
Proof. intros Hf [w i]. apply Hf. Qed.
Lemma inst_tap : keeps tap_of (inst (X:=X)).
Proof. by intros [w i]. Qed.
Lemma bind_inst {A} (f : firecrackerInstance X → M (making X) A) s : bind inst f s = f s.2 s.
Proof. done. Qed.
Lemma bind_eq {W A B} (P : W → Prop) (m : M W A) (f g : A → M W B) w :
  P w → (∀ w, P w → P (m w).2) → (∀ a w', P w' → f a w' = g a w') → bind m f w = bind m g w.
Proof.
  intros Hw Hm Hfg. specialize (Hm w Hw). unfold bind. destruct (m w) as [[a|v|] w']; [by apply Hfg|done..].
Qed.
End Tap.
#[export] Hint Resolve sys_tap inst_tap : go.
#[export] Hint Extern 2 (respects (same tap_of) (upd _)) => (apply upd_tap; reflexivity) : go.

Section Network.
Context {X : Type} (k : kernel X) (cfg : FcConfig.Config) (parts : Parts X).

Lemma preparePathsFrom_tap src : keeps tap_of (preparePathsFrom k cfg parts src).
Proof. unfold preparePathsFrom. quiet_steps. Qed.
Lemma prepareRestore_tap rec : keeps tap_of (prepareRestore k cfg parts rec).
Proof. pose proof preparePathsFrom_tap. unfold prepareRestore. quiet_steps. Qed.
Lemma kill_tap : keeps tap_of (kill k).
Proof.
  intros [w i]. unfold kill, bind, inst, gets, on_world, same, tap_of. cbn.
  by destruct (kill_process k (i_cmd i) w).
Qed.
Lemma start_process_tap cmd stderr : keeps tap_of (start_process k cmd stderr).
Proof.
  intros s. pose proof (sys_tap (k_Start k cmd stderr) s) as H. unfold start_process, same, tap_of in *.
  by destruct (sys (k_Start k cmd stderr) s) as [[[pid|e]|v|] [w i]].
Qed.
Lemma attachCgroup_tap limits pid : keeps tap_of (attachCgroup parts limits pid).
Proof. unfold attachCgroup. quiet_steps. Qed.
Lemma on_world_tap {A} (m : M (world X) A) : keeps tap_of (on_world m).
Proof. intros [w i]. unfold on_world, same, tap_of. cbn. by destruct (m w). Qed.
Hint Resolve on_world_tap : go.
Lemma whileAlive_tap ctx fn : keeps tap_of (whileAlive k ctx fn).
Proof. unfold whileAlive. quiet_steps. Qed.
Hint Resolve preparePathsFrom_tap prepareRestore_tap kill_tap start_process_tap attachCgroup_tap
  whileAlive_tap : go.

Section Link.
Context (l : option Link).
Notation P := (λ s : making X, tap_of s = l).
Lemma tap_step {A B} (m : M (making X) A) (f g : A → M (making X) B) s :
  keeps tap_of m → P s → (∀ a s', P s' → f a s' = g a s') → bind m f s = bind m g s.
Proof. intros Hm Hs. apply bind_eq; [done|]. intros s' <-. apply Hm. Qed.
Lemma or_kill_step (m r r' : M (making X) (option error)) s :
  keeps tap_of m → P s → (∀ s', P s' → r s' = r' s') → or_kill k m r s = or_kill k m r' s.
Proof. intros Hm Hs Hr. apply tap_step; [done..|]. intros [e|] s' Hs'; [done|by apply Hr]. Qed.
End Link.

(** The configuration only matters for machines with the link they have. *)
Lemma start_and_wait_conf l ctx spec paths text conf conf' s :
  tap_of s = l → (∀ Do s, tap_of s = l → conf Do s = conf' Do s) →
  start_and_wait k cfg parts ctx spec paths text conf s =
  start_and_wait k cfg parts ctx spec paths text conf' s.
Proof.
  intros Hs Hc. unfold start_and_wait, guard, try. apply (tap_step l); [auto with go|done|]. clear s Hs.
  intros i s Hs. destruct (spawnCmd k cfg i) as [cmd|e]; [|done].
  apply (tap_step l); [auto with go|done|]. clear s Hs. intros [e|] s Hs; [done|].
  apply (tap_step l); [unfold wrap_res; quiet_steps|done|]. clear s Hs. intros [p|e] s Hs; [|done].
  apply (tap_step l); [auto with go|done|]. clear s Hs. intros _ s Hs.
  apply (or_kill_step l); [auto with go|done|]. clear s Hs. intros s Hs.
  apply (or_kill_step l); [quiet_steps|done|]. clear s Hs. intros s Hs.
  apply (tap_step l); [auto with go|done|]. clear s Hs. intros _ s Hs.
  unfold or_kill at 1 4. apply bind_cong; [by apply Hc|done].
Qed.
Definition drop_nic (Do : api_request → M (host X) (result (Z * string))) (r : api_request)
    : M (host X) (result (Z * string)) :=
  match api_Body r with fcNetIface_ _ => panic "nic" | _ => Do r end.
Lemma start_and_wait_no_nic ctx spec paths text conf :
  start_and_wait (no_nic k) cfg (no_tap parts) ctx spec paths text conf =
  start_and_wait k cfg parts ctx spec paths text (λ Do, conf (drop_nic Do)).
Proof. reflexivity. Qed.

(** C38 (safety): A machine whose policy has an empty allowlist gets no network:
    its boot is the one it would have without any network factory, on a VMM
    that crashes when an interface is configured. *)
Theorem no_network_by_default ctx spec w i :
  Allowlist (Network spec) = [] → i_tap i = None →
  launch k cfg parts ctx spec (w, i) = launch (no_nic k) cfg (no_tap parts) ctx spec (w, i) ∧
  ∀ rec, networkMatches (Some rec) (Network spec) = true →
    launchRestore k cfg parts ctx spec rec (w, i) =
    launchRestore (no_nic k) cfg (no_tap parts) ctx spec rec (w, i).
Proof.
  intros Ha Ht. split.
  - unfold launch, guard, try. 
    change (preparePaths (no_nic k) cfg (no_tap parts)) with (preparePaths k cfg parts).
    apply (tap_step None); [apply preparePathsFrom_tap|done|]. intros [paths|e] s Hs; [|done].
    apply (tap_step None); [auto with go|done|]. clear s Hs. intros [st|e] s Hs; [|done]. cbv zeta.
    destruct (_ && _); [done|]. unfold setup_network. rewrite Ha. cbn [length Nat.ltb Nat.leb].
    rewrite !bind_ret, start_and_wait_no_nic. apply (start_and_wait_conf None); [done|].
    clear s Hs. intros Do s Hs. unfold configure_machine. destruct s as [w' i']. unfold tap_of in Hs.
    cbn in Hs. rewrite !bind_inst. cbn [snd]. rewrite Hs. reflexivity.
  - intros rec Hm. unfold networkMatches in Hm. rewrite Ha in Hm. cbn in Hm.
    unfold launchRestore, guard, try, recreate_network. destruct (HasNetwork rec); [done|].
    destruct (_ || _); [done|]. rewrite !bind_ret.
    change (prepareRestore (no_nic k) cfg (no_tap parts)) with (prepareRestore k cfg parts).
    apply (tap_step None); [apply prepareRestore_tap|done|].
    intros [[[paths snap] mem]|e] s Hs; [|done]. rewrite start_and_wait_no_nic.
    by apply (start_and_wait_conf None).
Qed.

Lemma or_kill_tap m rest : keeps tap_of m → keeps tap_of rest → keeps tap_of (or_kill k m rest).
Proof. intros Hm Hr. unfold or_kill. resp_bind; [done|]. intros [e|]; quiet_steps. Qed.
Lemma start_and_wait_tap ctx spec paths text conf :
  (∀ Do, keeps tap_of (conf Do)) → keeps tap_of (start_and_wait k cfg parts ctx spec paths text conf).
Proof.
  intros Hc. unfold start_and_wait. resp_bind; [auto with go|]. intros i.
  destruct (spawnCmd k cfg i); [|auto with go]. quiet_steps.
  repeat first [apply or_kill_tap; [solve [quiet_steps]|]|resp_bind; [solve [auto with go]|intros]].
  auto with go.
Qed.
Lemma configure_machine_tap ctx spec paths Do : keeps tap_of (configure_machine k cfg ctx spec paths Do).
Proof. unfold configure_machine. quiet_steps. Qed.
Lemma load_machine_tap ctx paths snap mem Do : keeps tap_of (load_machine k ctx paths snap mem Do).
Proof. unfold load_machine. quiet_steps. Qed.
End Network.

(** ** Inside the namespace *)
Section Confined.
Context {X : Type} (k : kernel X) (cfg : FcConfig.Config) (parts : Parts X).

Definition named_netns (l : Link) : Prop := NetNS l ≠ "" ∧ NetNSPath l ≠ "".
Lemma jailer_args_netns layout uid gid p :
  String.eqb p "" = false →
  ∃ pre, jailer_args cfg layout uid gid p = pre ++ ["--netns"; p; "--"; "--api-sock"; "/api.sock"].
Proof.
  intros Hp. unfold jailer_args. rewrite Hp. cbn [negb].
  exists (["--id"; jl_ID layout; "--exec-file"; Binary cfg; "--uid"; Itoa uid; "--gid"; Itoa gid;
     "--chroot-base-dir"; ChrootBase layout] ++ (if JailerCgroup cfg then ["--cgroup-version"; "2"] else []) ++
     (if NewPIDNS cfg then ["--new-pid-ns"] else [])).
  by rewrite <- !app_assoc.
Qed.
Lemma spawn_in_link i l cmd :
  i_tap i = Some l → named_netns l → spawnCmd k cfg i = Ok cmd → in_link (k_ip k) l cmd = true.
Proof.
  intros Ht [Hn Hp]. unfold spawnCmd. rewrite Ht. apply String.eqb_neq in Hn, Hp. unfold in_link.
  destruct (negb _).
  - intros (layout & _ & H)%res_bind_Ok. unfold jailerCommand in H.
    destruct (String.eqb (Jailer cfg) ""); [done|]. apply res_bind_Ok in H as ([uid gid] & _ & H).
    assert (∃ pre, cmd_args cmd = pre ++ ["--netns"; NetNSPath l; "--"; "--api-sock"; "/api.sock"]) as [pre ->].
    { destruct (jailer_args_netns layout uid gid _ Hp) as [pre Hpre]. injection H as <-. cbn [fst snd].
      rewrite Hpre. destruct (JailerSudo cfg); [by exists ("-n" :: Jailer cfg :: pre)|by exists pre]. }
    apply orb_true_iff. right. apply bool_decide_eq_true. rewrite length_app. cbn [length].
    rewrite Nat.add_sub. apply drop_app_length.
  - rewrite Hn. cbn [negb]. intros [= <-]. apply orb_true_iff. left. by apply bool_decide_eq_true.
Qed.
Lemma start_and_wait_in_link l ctx spec paths text conf s :
  tap_of s = Some l → named_netns l →
  start_and_wait k cfg parts ctx spec paths text conf s =
  start_and_wait (only_in_link l k) cfg parts ctx spec paths text conf s.
Proof.
  intros Hs Hl. unfold start_and_wait, guard, try. rewrite !bind_inst.
  change (spawnCmd (only_in_link l k) cfg (s.2)) with (spawnCmd k cfg s.2).
  destruct (spawnCmd k cfg s.2) as [cmd|e] eqn:Ec; [|done].
  pose proof (spawn_in_link _ _ _ Hs Hl Ec) as Hin.
  apply bind_cong; [done|]. intros [e|] s1; [done|]. apply bind_cong; [|done].
  unfold wrap_res. apply bind_cong; [|done]. unfold start_process, only_in_link, with_Start, k_Start at 2.
  by rewrite Hin.
Qed.

(** The link that the factory made for this boot. *)
Definition made_for (i : firecrackerInstance X) (spec : Spec) (rec : option Record_) (l : Link) : Prop :=
  ∃ tap h h', p_Tap parts = Some tap ∧
  match rec with
  | None => tf_Setup tap (tapID (i_id i) (spec_SessionID spec)) (Network spec) h = (Ret (Ok l), h')
  | Some _ => ∃ recreate saved, tf_Recreate tap = Some recreate ∧ linkFromRecord rec = Some saved ∧
                recreate saved (Network spec) h = (Ret (None, l), h')
  end.
(** Launching, cold or from a record. *)
Definition start_on (k : kernel X) (ctx : context) (spec : Spec) (rec : option Record_)
    : M (making X) (option error) :=
  match rec with Some r => launchRestore k cfg parts ctx spec r | None => launch k cfg parts ctx spec end.

(** The network of a boot with an allowlist: its link, or an error and none. *)
Lemma setup_network_cases spec s o s' :
  Allowlist (Network spec) ≠ [] → tap_of s = None → setup_network parts spec s = (o, s') →
  (o ≠ Ret None ∧ tap_of s' = None) ∨
  (o = Ret None ∧ ∃ l, tap_of s' = Some l ∧ made_for s.2 spec None l).
Proof.
  intros Ha Hs. unfold setup_network. destruct (Allowlist (Network spec)) as [|a r]; [done|].
  cbn [length Nat.ltb Nat.leb]. rewrite bind_inst. destruct (p_Tap parts) as [tap|] eqn:Et.
  2: { intros [= <- <-]. by left. }
  destruct s as [w i]. unfold try, wrap_res, bind, sys, on_world, on_host. cbn [fst snd].
  destruct (tf_Setup tap _ _ (hw w)) as [o1 h] eqn:E. destruct o1 as [[l|e]|v|]; intros [= <- <-]; [right|by left..].
  split; [done|]. exists l. split; [done|]. by exists tap, (hw w), h.
Qed.
Lemma recreate_network_cases spec rec s o s' :
  HasNetwork rec = true → tap_of s = None → recreate_network parts spec rec s = (o, s') →
  (o ≠ Ret None ∧ tap_of s' = None) ∨
  (o = Ret None ∧ ∃ l, tap_of s' = Some l ∧ made_for s.2 spec (Some rec) l).
Proof.
  intros Ha Hs. unfold recreate_network. rewrite Ha.
  destruct (linkFromRecord (Some rec)) as [saved|] eqn:El; [|by intros [= <- <-]; left].
  destruct (String.eqb _ _); [by intros [= <- <-]; left|].
  destruct (p_Tap parts) as [tap|] eqn:Et; [|by intros [= <- <-]; left]. cbn.
  destruct (tf_Recreate tap) as [rc|] eqn:Er; [|by intros [= <- <-]; left]. cbn.
  destruct s as [w i]. unfold bind, sys, on_world, on_host. cbn [fst snd].
  destruct (rc saved (Network spec) (hw w)) as [o1 h] eqn:E.
  destruct o1 as [[[e|] l]|v|]; intros [= <- <-]; [by left|right|by left..].
  split; [done|]. exists l. split; [done|]. exists tap, (hw w), h. split; [done|]. by exists rc, saved.
Qed.
(** A family of launches, one for every way in which processes start: none is
    started, or the machine has its link when one is. *)
Definition linked_first (made : Link → Prop)
    (g : (exec_cmd → string → M (host X) (result Z)) → M (making X) (option error)) (s : making X) : Prop :=
  (∃ r, (∀ f, g f s = r) ∧ (tap_of r.2 = None ∨ ∃ l, tap_of r.2 = Some l ∧ made l)) ∨
  (∃ l s2 ctx spec paths text conf, made l ∧ tap_of s2 = Some l ∧ (∀ Do, keeps tap_of (conf Do)) ∧
     ∀ f, g f s = start_and_wait (with_Start f k) cfg parts ctx spec paths text conf s2).
Definition id_of (s : making X) : string := i_id s.2.
Lemma sys_id {A} (m : M (host X) A) : keeps id_of (sys m).
Proof. intros [w i]. unfold sys, on_world, same, id_of. cbn. by destruct (on_host m w). Qed.
Lemma upd_id f : (∀ i, i_id (f i) = i_id i) → keeps id_of (upd (X:=X) f).
Proof. intros Hf [w i]. apply Hf. Qed.
Lemma inst_id : keeps id_of (inst (X:=X)).
Proof. by intros [w i]. Qed.
Hint Resolve sys_id inst_id : go.
Hint Extern 2 (respects (same id_of) (upd _)) => (apply upd_id; reflexivity) : go.
Lemma preparePathsFrom_id src : keeps id_of (preparePathsFrom k cfg parts src).
Proof. unfold preparePathsFrom. quiet_steps. Qed.

Lemma linked_first_ret made (g : _ → M (making X) (option error)) o s s' :
  tap_of s' = None ∨ (∃ l, tap_of s' = Some l ∧ made l) → (∀ f, g f s = (o, s')) → linked_first made g s.
Proof. intros Hs Hg. left. by exists (o, s'). Qed.
Lemma linked_first_bind {A} made (m : M (making X) A) (g : _ → A → M (making X) (option error)) s :
  keeps tap_of m → tap_of s = None ∨ (∃ l, tap_of s = Some l ∧ made l) →
  (∀ a s', m s = (Ret a, s') → tap_of s' = tap_of s → linked_first made (λ f, g f a) s') →
  linked_first made (λ f, bind m (g f)) s.
Proof.
  intros Hm Hs Hg. specialize (Hm s). unfold same in Hm. destruct (m s) as [o s'] eqn:E. cbn in Hm. rewrite <- Hm in Hs.
  destruct o as [a|v|].
  - destruct (Hg a s' eq_refl Hm) as [(r & Hr & Ht)|(l & s2 & ctx & spec & paths & text & conf & H)]; [left|right].
    + exists r. split; [|done]. intros f. by rewrite (bind_Ret _ _ _ _ _ E).
    + exists l, s2, ctx, spec, paths, text, conf. destruct H as (H1 & H2 & H3 & H4). split_and!; try done.
      intros f. rewrite (bind_Ret _ _ _ _ _ E). apply H4.
  - eapply (linked_first_ret _ _ (Panic v)); [exact Hs|]. intros f. by apply bind_Panic.
  - eapply (linked_first_ret _ _ Blocked); [exact Hs|]. intros f. unfold bind. by rewrite E.
Qed.
Lemma linked_first_start made ctx spec paths text conf l s :
  made l → tap_of s = Some l → (∀ Do, keeps tap_of (conf Do)) →
  linked_first made (λ f, start_and_wait (with_Start f k) cfg parts ctx spec paths text conf) s.
Proof. intros H1 H2 H3. right. exists l, s, ctx, spec, paths, text, conf. by split_and!. Qed.
(** The step that makes the network. *)
Lemma linked_first_network (made : Link → Prop) (m : M (making X) (option error))
    (g : _ → M (making X) (option error)) s :
  (∀ o s', m s = (o, s') → (o ≠ Ret None ∧ tap_of s' = None) ∨
                           (o = Ret None ∧ ∃ l, tap_of s' = Some l ∧ made l)) →
  (∀ l s', tap_of s' = Some l → made l → linked_first made g s') →
  linked_first made (λ f, guard Some m (g f)) s.
Proof.
  intros Hm Hg. destruct (m s) as [o s'] eqn:E. destruct (Hm o s' eq_refl) as [[Ho Hs]|[-> (l & Hs & Hl)]].
  - eapply (linked_first_ret _ _ (match o with Ret e => Ret e | Panic v => Panic v | Blocked => Blocked end));
      [by left|]. intros f. unfold guard, bind. rewrite E. by destruct o as [[e|]|v|].
  - destruct (Hg l s' Hs Hl) as [(r & Hr & Ht)|(l' & s2 & ctx & spec & paths & text & conf & H)]; [left|right].
    + exists r. split; [|done]. intros f. unfold guard. by rewrite (bind_Ret _ _ _ _ _ E).
    + exists l', s2, ctx, spec, paths, text, conf. destruct H as (H1 & H2 & H3 & H4). split_and!; try done.
      intros f. unfold guard. rewrite (bind_Ret _ _ _ _ _ E). apply H4.
Qed.
Lemma made_for_id i i' spec rec l : i_id i = i_id i' → made_for i spec rec l → made_for i' spec rec l.
Proof. unfold made_for. by intros ->. Qed.

Lemma launch_linked_first ctx spec s :
  Allowlist (Network spec) ≠ [] → tap_of s = None →
  linked_first (made_for s.2 spec None) (λ f, launch (with_Start f k) cfg parts ctx spec) s.
Proof.
  intros Ha Hs. unfold launch, try.
  apply (linked_first_bind _ (preparePaths k cfg parts)); [apply preparePathsFrom_tap|by left|].
  intros [paths|e] s1 E1 H1; [|eapply linked_first_ret; [left; by rewrite H1|done]].
  pose proof (preparePathsFrom_id (Rootfs cfg) s) as Hid1. unfold same in Hid1. unfold preparePaths in E1. rewrite E1 in Hid1.
  apply (linked_first_bind _ (sys (on_disk (Stat (k_fault k) (v_hostRootfs paths)))));
    [apply sys_tap|left; by rewrite H1|].
  intros [st|e] s2 E2 H2; [|eapply linked_first_ret; [left; by rewrite H2, H1|done]].
  pose proof (sys_id (on_disk (Stat (k_fault k) (v_hostRootfs paths))) s1) as Hid2. unfold same in Hid2. rewrite E2 in Hid2.
  assert (tap_of s2 = None) as Hs2 by (by rewrite H2, H1).
  assert (i_id s2.2 = i_id s.2) as Hid by (unfold id_of in *; cbn in *; congruence).
  cbv zeta. destruct (_ && _); [eapply linked_first_ret; [by left|done]|]. apply linked_first_network.
  - intros o s' E. destruct (setup_network_cases spec s2 o s' Ha Hs2 E) as [?|[-> (l & Hl & Hm)]]; [by left|right].
    split; [done|]. exists l. split; [done|]. by eapply made_for_id.
  - intros l s' Hl Hm. apply (linked_first_start _ ctx spec paths "start firecracker: "
      (configure_machine k cfg ctx spec paths) l s' Hm Hl). intros Do. apply configure_machine_tap.
Qed.
Lemma launchRestore_linked_first ctx spec rec s :
  HasNetwork rec = true → tap_of s = None →
  linked_first (made_for s.2 spec (Some rec)) (λ f, launchRestore (with_Start f k) cfg parts ctx spec rec) s.
Proof.
  intros Hr Hs. unfold launchRestore. destruct (_ || _); [eapply linked_first_ret; [by left|done]|].
  apply linked_first_network; [intros o s' E; by apply recreate_network_cases|].
  intros l s1 Hl Hm. unfold try. apply (linked_first_bind _ (prepareRestore k cfg parts rec));
    [apply prepareRestore_tap|right; by exists l|].
  intros [[[paths snap] mem]|e] s2 _ H2; rewrite Hl in H2.
  - apply (linked_first_start _ ctx spec paths "start firecracker (restore): " (load_machine k ctx paths snap mem)
      l s2 Hm H2). intros Do. apply load_machine_tap.
  - eapply linked_first_ret; [right; by exists l|done].
Qed.
Lemma with_Start_id : with_Start (k_Start k) k = k.
Proof. by destruct k. Qed.

(** C28 (safety): A machine whose policy has an allowlist runs in the network
    namespace of its own link, the one that the factory has made, or remade from
    the session's record, for this boot: the boot, cold or restored, is the one
    it would have on a host that crashes when a process is started anywhere else;
    and a boot that ends without a link has started no process at all. *)
Theorem network_is_confined ctx spec rec w i :
  Allowlist (Network spec) ≠ [] → i_tap i = None →
  (∀ r, rec = Some r → networkMatches (Some r) (Network spec) = true) →
  (∀ l, made_for i spec rec l → named_netns l) →
  match i_tap (start_on k ctx spec rec (w, i)).2.2 with
  | None => start_on k ctx spec rec (w, i) = start_on (no_start k) ctx spec rec (w, i)
  | Some l => made_for i spec rec l ∧
              start_on k ctx spec rec (w, i) = start_on (only_in_link l k) ctx spec rec (w, i)
  end.
Proof.
  intros Ha Hi Hrec Hnamed.
  assert (linked_first (made_for i spec rec) (λ f, start_on (with_Start f k) ctx spec rec) (w, i)) as Hf.
  { destruct rec as [r|]; [|by apply (launch_linked_first ctx spec (w, i))].
    apply (launchRestore_linked_first ctx spec r (w, i)); [|done]. specialize (Hrec r eq_refl). cbn in Hrec.
    destruct (Allowlist (Network spec)); [done|]. by destruct (HasNetwork r). }
  assert (∀ r, (∀ f, start_on (with_Start f k) ctx spec rec (w, i) = r f) →
    start_on k ctx spec rec (w, i) = r (k_Start k)) as Hk.
  { intros r Hr. transitivity (start_on (with_Start (k_Start k) k) ctx spec rec (w, i)); [|apply Hr].
    by rewrite with_Start_id. }
  destruct Hf as [(r & Hr & Ht)|(l & s2 & c & sp & paths & text & conf & Hm & Hl & Hc & Hr)].
  - rewrite (Hk (λ _, r) Hr). unfold tap_of in Ht. destruct Ht as [->|(l & -> & Hm)]; [symmetry; apply Hr|].
    split; [done|]. symmetry. apply Hr.
  - rewrite (Hk (λ f, start_and_wait (with_Start f k) cfg parts c sp paths text conf s2) Hr), with_Start_id.
    pose proof (start_and_wait_tap k cfg parts c sp paths text conf Hc s2) as Ht. unfold same in Ht.
    rewrite Hl in Ht. unfold tap_of in Ht. rewrite Ht. split; [done|].
    rewrite (start_and_wait_in_link l) by auto. symmetry. apply Hr.
Qed.
End Confined.

(** ** Links are taken down *)
Section Links.
Context {X : Type} (k : kernel X) (cfg : FcConfig.Config) (parts : Parts X).
(** The links that exist, by their namespaces.  The factory adds a link when it
    succeeds, and when it fails it adds none; it may have removed one, of the same
    name ([Tap.apply_collision_deletes]).  Nothing else touches them. *)
Context (links : X → gset string).
Definition kept (h h' : host X) : Prop := links h'.2 = links h.2.
#[local] Instance kept_preorder : PreOrder kept.
Proof. unfold kept. split; [done|]. intros x y z H1 H2. by rewrite H2. Qed.

Definition link_added (link : Link) (h h' : host X) : Prop :=
  NetNS link ≠ "" ∧ NetNS link ∉ links h.2 ∧ links h'.2 = links h.2 ∪ {[NetNS link]}.
Record factory_works (tap : TapFactory X) : Prop := {
  works_setup id p h : let '(o, h') := tf_Setup tap id p h in
    match o with Ret (Ok link) => link_added link h h' | _ => links h'.2 ⊆ links h.2 end;
  works_recreate rc l p h : tf_Recreate tap = Some rc →
    let '(o, h') := rc l p h in
    match o with Ret (None, link) => link_added link h h' | _ => links h'.2 ⊆ links h.2 end;
  works_teardown l h : NetNS l ≠ "" →
    ∃ e h', tf_Teardown tap l h = (Ret e, h') ∧ links h'.2 = links h.2 ∖ {[NetNS l]}
}.
Record elsewhere : Prop := {
  else_Start cmd f : respects kept (k_Start k cmd f); else_Kill p : respects kept (k_Kill k p);
  else_exits p : respects kept (k_exits_in_time k p); else_Wait p : respects kept (k_Wait k p); else_Do s r : respects kept (k_Do k s r);
  else_Dial c u : respects kept (k_Dial k c u); else_Fprint c s : respects kept (k_Fprint k c s);
  else_Close c : respects kept (k_Close k c); else_now : respects kept (k_now k);
  else_tick : respects kept (k_tick k); else_ctx c : respects kept (k_ctx_Err k c);
  else_interrupted c : respects kept (k_interrupted k c);
  else_attach attach id pid l : p_Cgroup parts = Some attach → respects kept (attach id pid l);
  else_cleanup attach id pid l h c h' : p_Cgroup parts = Some attach →
    attach id pid l h = (Ret (Ok c), h') → respects kept c;
  else_pool acquire dst : p_Pool parts = Some acquire → respects kept (acquire dst);
  else_prepare st a b : p_Snapshots parts = Some st → respects kept (st_Prepare st a b);
  else_restore st a : p_Snapshots parts = Some st → respects kept (st_Restore st a);
  else_commit st r : p_Snapshots parts = Some st → respects kept (st_Commit st r);
  else_delete st a : p_Snapshots parts = Some st → respects kept (st_Delete st a)
}.
Hypothesis Hworks : ∀ tap, p_Tap parts = Some tap → factory_works tap.
Hypothesis Helse : elsewhere.

(** The machine under construction has the links of before, and its own. *)
Definition own (i : firecrackerInstance X) : gset string :=
  match i_tap i with Some l => {[NetNS l]} | None => ∅ end.
Definition linked (L : gset string) (s : making X) : Prop :=
  links (hw s.1).2 = L ∪ own s.2 ∧ own s.2 ## L ∧
  (i_tap s.2 = None ∨ ∃ l tap, i_tap s.2 = Some l ∧ NetNS l ≠ "" ∧ p_Tap parts = Some tap ∧
                        i_tapTeardown s.2 = Some (tf_Teardown tap)) ∧
  (∀ c, i_cgroupCleanup s.2 = Some c → respects kept c).
(** No link but its own is new. *)
Definition linked_within (L : gset string) (s : making X) : Prop := ∃ L', L' ⊆ L ∧ linked L' s.
Definition keeps_linked (s s' : making X) : Prop := ∀ L, linked L s → linked L s'.
#[local] Instance keeps_linked_preorder : PreOrder keeps_linked.
Proof. unfold keeps_linked. split; [by intros x L|]. intros x y z H1 H2 L H. by apply H2, H1. Qed.
Definition kept_world (w w' : world X) : Prop := kept (hw w) (hw w').
#[local] Instance kept_world_preorder : PreOrder kept_world.
Proof. unfold kept_world. split; [by intros x|]. intros x y z H1 H2. by etrans. Qed.

Lemma on_disk_kept {A} (m : M fs A) : respects kept (on_disk (X:=X) m).
Proof. intros [d x]. unfold on_disk, kept. cbn. by destruct (m d). Qed.
Lemma on_host_kept {A} (m : M (host X) A) : respects kept m → respects kept_world (on_host m).
Proof. intros Hm w. specialize (Hm (hw w)). unfold on_host, kept_world. by destruct (m (hw w)). Qed.
Lemma on_world_linked {A} (m : M (world X) A) : respects kept_world m → respects keeps_linked (on_world m).
Proof.
  intros Hm [w i] L (H1 & H2 & H3). specialize (Hm w). unfold kept_world, kept in Hm.
  unfold on_world. cbn in *. destruct (m w) as [o w']. cbn in *. split; [|done]. cbn. by rewrite Hm.
Qed.
Lemma sys_linked {A} (m : M (host X) A) : respects kept m → respects keeps_linked (sys m).
Proof. intros Hm. by apply on_world_linked, on_host_kept. Qed.
Lemma upd_linked f :
  (∀ i, i_tap (f i) = i_tap i ∧ i_tapTeardown (f i) = i_tapTeardown i ∧
        i_cgroupCleanup (f i) = i_cgroupCleanup i) →
  respects keeps_linked (upd (X:=X) f).
Proof.
  intros Hf [w i] L (H1 & H2 & H3). destruct (Hf i) as (E1 & E2 & E3). unfold linked, own in *.
  cbn in *. by rewrite E1, E2, E3.
Qed.
Lemma inst_linked : respects keeps_linked (inst (X:=X)).
Proof. by intros [w i] L H. Qed.
Lemma set_vmms_kept f : respects kept_world (modify (λ w : world X, set_vmms (f w) w)).
Proof. by intros w. Qed.
Lemma seen_ended_kept p : respects kept_world (seen_ended (X:=X) p).
Proof. unfold seen_ended. destruct p; [by intros w|auto with go]. Qed.
Lemma set_cells_kept f : respects kept_world (modify (λ w : world X, set_cells (f w) w)).
Proof. by intros w. Qed.
Hint Resolve on_disk_kept on_host_kept on_world_linked sys_linked inst_linked set_vmms_kept set_cells_kept seen_ended_kept : go.
Hint Resolve else_Start else_Kill else_exits else_Wait else_Do else_Dial else_Fprint else_Close else_now
  else_tick else_ctx else_interrupted else_attach else_pool else_prepare else_restore else_commit else_delete : go.
Hint Extern 2 (respects keeps_linked (upd _)) => (apply upd_linked; intros; split_and!; reflexivity) : go.
Hint Extern 1 (PreOrder _) => by_order : go.

Lemma placeRootfs_kept src dst : respects kept (placeRootfs k cfg parts src dst).
Proof. unfold placeRootfs, clone. destruct (p_Pool parts) eqn:E; [destruct (String.eqb _ _)|]; eauto with go. Qed.
Hint Resolve placeRootfs_kept : go.
Lemma prepareJail_kept layout kernel rootfs :
  respects kept (prepareJail (k_fault k) (k_cp k) (k_link k) layout kernel rootfs
                   (Some (placeRootfs k cfg parts))).
Proof. unfold prepareJail. quiet_steps. Qed.
Hint Resolve prepareJail_kept : go.
Lemma preparePathsFrom_linked src : respects keeps_linked (preparePathsFrom k cfg parts src).
Proof. unfold preparePathsFrom. quiet_steps. Qed.
Hint Resolve preparePathsFrom_linked : go.
Lemma prepareRestore_linked rec : respects keeps_linked (prepareRestore k cfg parts rec).
Proof. unfold prepareRestore, clone. quiet_steps. Qed.
Lemma ctx_error_kept ctx : respects kept (ctx_error k ctx).
Proof. unfold ctx_error. quiet_steps. Qed.
Hint Resolve ctx_error_kept : go.
Lemma socket_loop_kept n ctx path d : respects kept (socket_loop k n ctx path d).
Proof. induction n as [|n IH]; cbn [socket_loop]; quiet_steps. Qed.
Lemma waitForSocket_kept ctx path max : respects kept (waitForSocket k ctx path max).
Proof.
  unfold waitForSocket. resp_bind; [eauto with go|]. intros now h. apply socket_loop_kept.
Qed.
Lemma wait_agent_kept ctx uds port : respects kept (wait_agent k ctx uds port).
Proof.
  intros h. unfold wait_agent. generalize (k_ticks k ctx h) as n. intros n. revert h.
  change (respects kept (waitForGuestAgent (k_Dial k) (k_Fprint k) (k_Close k) (k_tick k) (ctx_error k) n
    ctx uds port)).
  induction n as [|n IH]; cbn [waitForGuestAgent]; unfold dialGuestVsock; quiet_steps.
Qed.
Hint Resolve waitForSocket_kept wait_agent_kept : go.
Lemma annotateDeath_kept f err : respects kept (annotateDeath k f err).
Proof. unfold annotateDeath, tailFile. quiet_steps. Qed.
Hint Resolve annotateDeath_kept : go.
Lemma whileAlive_linked ctx fn : respects kept fn → respects keeps_linked (whileAlive k ctx fn).
Proof. intros Hf. unfold whileAlive. quiet_steps. Qed.
Hint Resolve whileAlive_linked : go.
Lemma attachCgroup_linked limits pid : respects keeps_linked (attachCgroup parts limits pid).
Proof.
  unfold attachCgroup. destruct (p_Cgroup parts) as [attach|] eqn:E; [|auto with go].
  resp_bind; [auto with go|]. intros i s L Hs. unfold try.
  pose proof (sys_linked _ (else_attach Helse attach (i_id i) pid limits E) s L Hs) as H.
  unfold bind, sys, on_world, on_host in *. destruct s as [w j]. cbn in *.
  destruct (attach (i_id i) pid limits (hw w)) as [[[c|e]|v|] h] eqn:Ea; cbn in *; [|done..].
  destruct H as (H1 & H2 & H3 & H4). split; [done|]. split; [done|]. split; [done|]. cbn.
  intros c' [= <-]. by eapply else_cleanup.
Qed.
Lemma put_kept sock p b : respects kept (put (k_Do k sock) (k_fault_message k) p b).
Proof. unfold put, do_. quiet_steps. Qed.
Hint Resolve attachCgroup_linked put_kept : go.
Lemma configure_kept sock machine boot drive vsock logger nic :
  respects kept (configure (k_Do k sock) (k_fault_message k) machine boot drive vsock logger nic).
Proof. unfold configure. quiet_steps. Qed.
Lemma load_kept sock p snap mem :
  respects kept (guard Some (put (k_Do k sock) (k_fault_message k) "/logger" p)
    (loadSnapshot (k_Do k sock) (k_fault_message k) snap mem)).
Proof. unfold loadSnapshot. quiet_steps. Qed.
Hint Resolve configure_kept load_kept : go.
Lemma configure_machine_linked ctx spec paths sock :
  respects keeps_linked (configure_machine k cfg ctx spec paths (k_Do k sock)).
Proof. unfold configure_machine, startInstance. quiet_steps. Qed.
Lemma load_machine_linked ctx paths snap mem sock :
  respects keeps_linked (load_machine k ctx paths snap mem (k_Do k sock)).
Proof. unfold load_machine. auto with go. Qed.
Lemma kill_process_kept p : respects kept_world (kill_process k p).
Proof. unfold kill_process. quiet_steps. Qed.
Lemma wait_process_kept p : respects kept_world (wait_process k p).
Proof. unfold wait_process. quiet_steps. Qed.
Lemma kill_linked : respects keeps_linked (kill k).
Proof. unfold kill. resp_bind; [auto with go|]. intros i. apply on_world_linked, kill_process_kept. Qed.
Lemma start_process_linked cmd stderr : respects keeps_linked (start_process k cmd stderr).
Proof.
  intros s L Hs. pose proof (sys_linked _ (else_Start Helse cmd stderr) s L Hs) as H. unfold start_process.
  by destruct (sys (k_Start k cmd stderr) s) as [[[pid|e]|v|] [w i]].
Qed.
Hint Resolve kill_linked start_process_linked : go.
Lemma or_kill_linked m rest :
  respects keeps_linked m → respects keeps_linked rest → respects keeps_linked (or_kill k m rest).
Proof. intros Hm Hr. unfold or_kill. resp_bind; [done|]. intros [e|]; quiet_steps. Qed.
Lemma start_and_wait_linked ctx spec paths text conf :
  (∀ sock, respects keeps_linked (conf (k_Do k sock))) →
  respects keeps_linked (start_and_wait k cfg parts ctx spec paths text conf).
Proof.
  intros Hc. unfold start_and_wait. resp_bind; [auto with go|]. intros i.
  destruct (spawnCmd k cfg i); [|auto with go]. quiet_steps.
  repeat first [apply or_kill_linked; [solve [quiet_steps]|]|resp_bind; [solve [auto with go]|intros]].
  auto with go.
Qed.

(** Up to the link, a machine under construction has none. *)
Lemma linked_within_keeps {A} L (m : M (making X) A) s :
  respects keeps_linked m → linked_within L s → linked_within L (m s).2.
Proof. intros Hm (L' & HL & Hl). exists L'. split; [done|]. by apply Hm. Qed.
Lemma linked_bind {A B} L (m : M (making X) A) (f : A → M (making X) B) s :
  respects keeps_linked m → keeps tap_of m → tap_of s = None → linked L s →
  (∀ a s', tap_of s' = None → linked L s' → linked_within L (f a s').2) → linked_within L (bind m f s).2.
Proof.
  intros Hm Ht Hs Hl Hf. specialize (Hm s L Hl). specialize (Ht s). unfold same in Ht. rewrite Hs in Ht.
  unfold bind. destruct (m s) as [[a|v|] s']; [by apply Hf|by exists L..].
Qed.
Lemma set_tap_linked tap link w i h L :
  p_Tap parts = Some tap → tap_of (w, i) = None → linked L (w, i) → link_added link (hw w) h →
  linked_within L (set_host h w, set_tap link (tf_Teardown tap) i).
Proof.
  unfold linked, own, tap_of. cbn. intros Ht -> (H1 & _ & _ & H4) (Hne & Hn & Hh). rewrite H1 in Hn, Hh.
  exists L. split; [done|]. unfold linked, own. cbn. split_and!.
  - rewrite Hh. set_solver.
  - set_solver.
  - right. by exists link, tap.
  - done.
Qed.
Lemma linked_fewer L w i h :
  tap_of (w, i) = None → linked L (w, i) → links h.2 ⊆ links (hw w).2 → linked_within L (set_host h w, i).
Proof.
  unfold tap_of. intros Ht (H1 & H2 & H3 & H4) Hh. exists (links h.2). unfold linked, own in *. cbn in *.
  rewrite Ht in *. rewrite H1 in Hh. split; [set_solver|]. split_and!; [set_solver|set_solver|by left|done].
Qed.
Lemma setup_network_linked spec s L :
  tap_of s = None → linked L s → linked_within L (setup_network parts spec s).2.
Proof.
  intros Hs Hl. unfold setup_network. destruct (_ <? _)%nat; [|by exists L]. rewrite bind_inst.
  destruct (p_Tap parts) as [tap|] eqn:Et in |- *; [|by exists L]. destruct s as [w i].
  unfold try, wrap_res, bind, sys, on_world, on_host. cbn [fst snd].
  pose proof (works_setup _ (Hworks tap Et) (tapID (i_id i) (spec_SessionID spec)) (Network spec) (hw w)) as Hw.
  destruct (tf_Setup tap _ _ (hw w)) as [[[link|e]|v|] h]; cbn; [by apply set_tap_linked|by apply linked_fewer..].
Qed.
Lemma recreate_network_linked spec rec s L :
  tap_of s = None → linked L s → linked_within L (recreate_network parts spec rec s).2.
Proof.
  intros Hs Hl. unfold recreate_network. destruct (HasNetwork rec); [|by exists L].
  destruct (linkFromRecord (Some rec)) as [link|]; [|by exists L]. destruct (String.eqb _ _); [by exists L|].
  destruct (p_Tap parts) as [tap|] eqn:Et in |- *; [|by exists L]. cbn.
  destruct (tf_Recreate tap) as [rc|] eqn:Er; [|by exists L]. cbn. destruct s as [w i].
  unfold bind, sys, on_world, on_host. cbn [fst snd].
  pose proof (works_recreate _ (Hworks tap Et) rc link (Network spec) (hw w) Er) as Hw.
  destruct (rc link (Network spec) (hw w)) as [[[[e|] link']|v|] h]; cbn;
    [by apply linked_fewer|by apply set_tap_linked|by apply linked_fewer..].
Qed.
Lemma launch_linked ctx spec s L :
  tap_of s = None → linked L s → linked_within L (launch k cfg parts ctx spec s).2.
Proof.
  intros Hs Hl. unfold launch, guard, try.
  apply linked_bind; [apply preparePathsFrom_linked|apply preparePathsFrom_tap|done..|].
  clear s Hs Hl. intros [paths|e] s Hs Hl; [|by exists L].
  apply linked_bind; [auto with go..|done|done|]. clear s Hs Hl. intros [st|e] s Hs Hl; [|by exists L].
  cbv zeta. destruct (_ && _); [by exists L|]. pose proof (setup_network_linked spec s L Hs Hl) as H.
  unfold bind at 1. destruct (setup_network parts spec s) as [[[e|]|v|] s']; [done| |done..].
  apply linked_within_keeps; [|done]. apply start_and_wait_linked. intros sock. apply configure_machine_linked.
Qed.
Lemma launchRestore_linked ctx spec rec s L :
  tap_of s = None → linked L s → linked_within L (launchRestore k cfg parts ctx spec rec s).2.
Proof.
  intros Hs Hl. unfold launchRestore. destruct (_ || _); [by exists L|].
  pose proof (recreate_network_linked spec rec s L Hs Hl) as H. unfold guard, bind at 1.
  destruct (recreate_network parts spec rec s) as [[[e|]|v|] s']; [done| |done..]. cbn [snd] in H.
  apply linked_within_keeps; [|done]. apply respects_try; [by_order|apply prepareRestore_linked|].
  intros [[paths snap] mem]. apply start_and_wait_linked. intros sock. apply load_machine_linked.
Qed.

Lemma cleanupFiles_kept rec f : respects kept (cleanupFiles k rec f).
Proof. unfold cleanupFiles. quiet_steps. Qed.
Hint Resolve cleanupFiles_kept : go.
(** Taking down the link of an instance leaves the links of before. *)
Lemma teardown_links L w i l t :
  linked L (w, i) → i_tap i = Some l → i_tapTeardown i = Some t →
  ∃ e w', on_host (t l) w = (Ret e, w') ∧ links (hw w').2 = L ∧ cells w' = cells w.
Proof.
  intros (H1 & H2 & H3 & _) El Et. unfold own in *. cbn in *. rewrite El in H1, H2, H3.
  destruct H3 as [|(l' & tap & [= <-] & Hne & Htap & Ht)]; [done|]. rewrite Et in Ht. injection Ht as ->.
  destruct (works_teardown _ (Hworks tap Htap) l (hw w) Hne) as (e & h & E & Hh).
  unfold on_host. rewrite E. eexists e, _. split; [done|]. cbn. rewrite Hh, H1. split; [set_solver|done].
Qed.
Lemma linked_teardown L w i l : linked L (w, i) → i_tap i = Some l → i_tapTeardown i ≠ None.
Proof. intros (_ & _ & [H|(l' & tap & _ & _ & _ & H)] & _) Hl; cbn in H; congruence. Qed.
Lemma abandon_links L w i : linked L (w, i) → links (hw (abandon k i w).2).2 = L.
Proof.
  intros Hl. unfold abandon. set (down := match i_tap i with Some l => _ | None => _ end).
  assert (∃ w', down w = (Ret tt, w') ∧ links (hw w').2 = L) as (w' & E & Hw').
  { unfold down. destruct (i_tap i) as [l|] eqn:El.
    - destruct (i_tapTeardown i) as [t|] eqn:Et; [|by destruct (linked_teardown _ _ _ _ Hl El)].
      destruct (teardown_links L w i l t Hl El Et) as (e & w' & E & Hw' & _).
      rewrite (bind_Ret _ _ _ _ _ E). by exists w'.
    - exists w. split; [done|]. destruct Hl as (H & _). unfold own in H. cbn in H. rewrite El in H.
      rewrite H. set_solver. }
  rewrite (bind_Ret _ _ _ _ _ E). rewrite <- Hw'.
  assert (respects kept_world (on_host (cleanupFiles k (i_snapRec i) (i_files i)) ;;; ret tt)) as Hk
    by quiet_steps. apply (Hk w').
Qed.

(** What a boot does to the links: none is new but that of its instance. *)
Definition booted_links (L : gset string) (r : outcome (result (Instance (world X))) * world X) : Prop :=
  match r with
  | (Ret (Err _), w') => links (hw w').2 ⊆ L
  | (Ret (Ok inst), w') => ∃ i p L', inst = fc_instance k parts i (handle p) ∧ i_cmd i = Some p ∧
      is_dead w' (handle p) = false ∧ L' ⊆ L ∧ linked L' (w', i)
  | _ => True
  end.
Lemma booted_links_mono L L' r : L ⊆ L' → booted_links L r → booted_links L' r.
Proof.
  intros HL. destruct r as [[[inst|e]|v|] w']; cbn; [|set_solver|done..].
  intros (i & p & L1 & H1 & H2 & H3 & H4 & H5). exists i, p, L1. split_and!; try done. set_solver.
Qed.
Lemma booted_links_bind {A} (m : M (world X) A) f w :
  respects kept_world m → (∀ a w', booted_links (links (hw w').2) (f a w')) →
  booted_links (links (hw w).2) (bind m f w).
Proof.
  intros Hm Hf. specialize (Hm w). unfold kept_world, kept in Hm. unfold bind.
  destruct (m w) as [[a|v|] w']; [|done..]. cbn in Hm. rewrite <- Hm. apply Hf.
Qed.
Lemma prepare_record_kept spec id rec : respects kept_world (prepare_record parts spec id rec).
Proof.
  unfold prepare_record. destruct rec; [auto with go|]. destruct (p_Snapshots parts) eqn:E; quiet_steps.
Qed.
Lemma booted_links_fail e w : booted_links (links (hw w).2) (ret (Err e) w).
Proof. by cbn. Qed.
Lemma bootOne_links ctx spec rec w :
  booted_links (links (hw w).2) (bootOne k cfg parts ctx spec rec w).
Proof.
  unfold bootOne. apply booted_links_bind; [by intros w'|]. clear w. intros [id cid] w. cbv zeta.
  apply booted_links_bind; [quiet_steps|]. clear w. intros [e|] w; [apply booted_links_fail|].
  apply booted_links_bind; [apply prepare_record_kept|]. clear w. intros [snapRec|e] w; [|apply booted_links_fail].
  set (i0 := new_instance _ _ _ _ _). set (L := links (hw w).2).
  assert (linked L (w, i0)) as Hl0 by (split_and!; cbn; [set_solver|set_solver|by left|done]).
  assert (linked_within L ((match rec with Some r => launchRestore k cfg parts ctx spec r
                     | None => launch k cfg parts ctx spec end) (w, i0)).2) as Hl
    by (destruct rec; [by apply launchRestore_linked|by apply launch_linked]).
  destruct (_ (w, i0)) as [[[e|]|v|] [w1 i1]]; cbn [snd] in Hl; [| |done..]; destruct Hl as (L' & HL & Hl).
  - pose proof (abandon_links L' w1 i1 Hl) as Ha. unfold bind.
    destruct (abandon k i1 w1) as [[u|v|] w2]; cbn in *; [by rewrite Ha|done..].
  - destruct (i_cmd i1) as [p|] eqn:Ep; [|done]. exists i1, p, L'. split_and!; try done.
    unfold is_dead. cbn. by rewrite lookup_insert_eq.
Qed.
Lemma Boot_links ctx spec w : booted_links (links (hw w).2) (Boot k cfg parts ctx spec w).
Proof.
  unfold Boot. destruct (negb _); [apply booted_links_fail|]. destruct (Profile_Validate _); [apply booted_links_fail|].
  apply booted_links_bind; [auto with go|]. clear w. intros [e|] w; [apply booted_links_fail|].
  destruct (denyNetworkOrFail _ _); [apply booted_links_fail|].
  destruct (p_Snapshots parts) as [store|] eqn:Es in |- *; [|apply bootOne_links].
  destruct (negb _); [|apply bootOne_links].
  apply booted_links_bind; [eauto with go|]. clear w. intros [rec|e] w.
  2: { destruct (_ || _); [apply bootOne_links|apply booted_links_fail]. }
  destruct (networkMatches _ _).
  2: { apply booted_links_bind; [eauto with go|]. intros _ w'. apply bootOne_links. }
  pose proof (bootOne_links ctx spec (Some rec) w) as Hb. unfold bind at 1.
  destruct (bootOne k cfg parts ctx spec (Some rec) w) as [[[i|e]|v|] w1]; [done| |done..].
  cbn in Hb. eapply booted_links_mono; [exact Hb|]. apply booted_links_bind; [eauto with go|]. intros _ w'.
  apply bootOne_links.
Qed.

Lemma put_record_kept n rec : respects kept_world (put_record (X:=X) n rec).
Proof. by intros w. Qed.
Lemma dial_kept ctx uds port :
  respects kept (dialGuestVsock (k_Dial k) (k_Fprint k) (k_Close k) ctx uds port).
Proof. unfold dialGuestVsock. quiet_steps. Qed.
Hint Resolve put_record_kept dial_kept : go.
Lemma export_snapshot_kept i rec full diff : respects kept (export_snapshot k i rec full diff).
Proof. unfold export_snapshot, clone. quiet_steps. Qed.
Hint Resolve export_snapshot_kept : go.
Lemma maybeSnapshot_kept i n : respects kept_world (maybeSnapshot k parts i n).
Proof.
  unfold maybeSnapshot. destruct (p_Snapshots parts) as [store|] eqn:E; [|auto with go].
  destruct (_ || _); [auto with go|]. unfold saveSnapshot, pauseVM, patch, createSnapshot, get_record.
  resp_bind; [|auto with go]. resp_bind; [auto with go|]. intros rec.
  apply respects_try; [by_order|destruct rec; quiet_steps|]. intros r. unfold do_. quiet_steps.
Qed.
Lemma WriteRequest_kept c r : respects kept (WriteRequest k c r).
Proof. unfold WriteRequest. quiet_steps. Qed.
Hint Resolve WriteRequest_kept maybeSnapshot_kept : go.
Lemma fc_Execute_kept i n ctx req : respects kept_world (fc_Execute k parts i n ctx req).
Proof.
  unfold fc_Execute. resp_bind; [auto with go|]. intros [|]; [auto with go|].
  apply respects_try; [by_order|auto with go|]. intros conn.
  apply respects_defer; [by_order|auto with go|]. quiet_steps.
Qed.
Lemma linked_world L w w' i : linked L (w, i) → kept_world w w' → linked L (w', i).
Proof. unfold linked, kept_world, kept. cbn. by intros [-> ?] ->. Qed.
Lemma kept_run {A} (m : M (world X) A) w o w' : m w = (o, w') → respects kept_world m → kept_world w w'.
Proof. intros E Hm. specialize (Hm w). by rewrite E in Hm. Qed.
Lemma fc_Destroy_links i n ctx w r w' L :
  linked L (w, i) → is_dead w n = false → fc_Destroy k i n ctx w = (Ret r, w') → links (hw w').2 = L.
Proof.
  intros Hl Hd. unfold fc_Destroy. unfold bind at 1. cbn [gets]. rewrite Hd.
  intros H. apply bind_inv_Ret in H as (rec & w1 & H1 & H). apply bind_inv_Ret in H as (u & w2 & H2 & H).
  apply bind_inv_Ret in H as (u3 & w3 & H3 & H). apply bind_inv_Ret in H as (u4 & w4 & H4 & H).
  apply bind_inv_Ret in H as (es & w5 & H5 & H). apply bind_inv_Ret in H as (es' & w6 & H6 & H).
  apply bind_inv_Ret in H as (es'' & w7 & H7 & H). injection H as _ <-.
  apply kept_run in H1; [|unfold get_record; auto with go]. apply kept_run in H2; [|auto with go].
  apply kept_run in H3; [|unfold sendCtrlAltDel; quiet_steps].
  apply kept_run in H4; [|pose proof kill_process_kept; pose proof wait_process_kept; quiet_steps].
  pose proof (proj2 (proj2 (proj2 Hl))) as Hcl. cbn in Hcl.
  apply kept_run in H5; [|destruct (i_cgroupCleanup i); unfold collect_error; quiet_steps].
  assert (linked L (w5, i)) as Hl5 by (eapply linked_world; [exact Hl|]; do 4 (etrans; [eassumption|]); done).
  apply kept_run in H7; [|unfold collect_error; quiet_steps]. unfold kept_world, kept in H7. rewrite H7.
  destruct (i_tap i) as [l|] eqn:El.
  - destruct (i_tapTeardown i) as [t|] eqn:Et; [|by destruct (linked_teardown _ _ _ _ Hl5 El)].
    destruct (teardown_links L w5 i l t Hl5 El Et) as (e & w5' & E & HL & _).
    unfold collect_error in H6. rewrite (bind_Ret _ _ _ _ _ E) in H6. by injection H6 as _ <-.
  - injection H6 as _ <-. destruct Hl5 as (Hn & _). unfold own in Hn. cbn in Hn. rewrite El in Hn.
    rewrite Hn. set_solver.
Qed.

(** C29 (safety): Links do not outlive their machines.  On a host where [ip netns]
    does what it documents ([tap_factory_works] for the repository's factory), a
    boot that fails (cold, or restored and then cold) leaves no link that was not
    there before; one that succeeds adds at most its own, and it is gone, and no
    other with it, once [Destroy] has returned, whatever was executed.  A boot may
    take down a link that was there before, of the same name
    ([Tap.apply_collision_deletes]). *)
Theorem links_released ctx spec w :
  match Boot k cfg parts ctx spec w with
  | (Ret (Err _), w1) => links (hw w1).2 ⊆ links (hw w).2
  | (Ret (Ok inst), w1) =>
    ∃ rest mine, rest ⊆ links (hw w).2 ∧ mine ## rest ∧ (size mine <= 1)%nat ∧
      links (hw w1).2 = rest ∪ mine ∧
      ∀ c req w2 c' r w3, w2 = (Execute inst c req w1).2 → Destroy inst c' w2 = (Ret r, w3) →
        links (hw w3).2 = rest
  | _ => True
  end.
Proof.
  pose proof (Boot_links ctx spec w) as Hb.
  destruct (Boot k cfg parts ctx spec w) as [[[inst|e]|v|] w1]; [|done..].
  destruct Hb as (i & p & L' & -> & _ & Hd & HL & Hl). exists L', (own i). split_and!; [done| | | |].
  - apply Hl.
  - unfold own. destruct (i_tap i); [by rewrite size_singleton|by rewrite size_empty; lia].
  - apply Hl.
  - cbn. intros c req w2 c' r w3 -> Hdes. eapply fc_Destroy_links; [| |exact Hdes].
    + eapply linked_world; [exact Hl|]. apply fc_Execute_kept.
    + by rewrite (proj2 (fc_Execute_undisturbed k parts i (handle p) c req w1)).
Qed.
End Links.

(** ** The repository's factory *)

(** [network.TAP] as the factory of the backend; its counter is in the world. *)
Section TapPart.
Context {Y : Type}.
Notation X := (Z * Y)%type.
Context (CombinedOutput : option string → string → list string → M (host X) (string * option error)).
Context (hostIP : string) (t : TAP (host X)).
Definition tap_factory : TapFactory X := {|
  tf_Setup id p h :=
    let '(o, h') := Setup CombinedOutput hostIP t h.2.1 id p h in
    match o with
    | Ret (r, n) => (Ret r, (h'.1, (n, h'.2.2)))
    | Panic v => (Panic v, h')
    | Blocked => (Blocked, h')
    end;
  tf_Teardown l := Teardown CombinedOutput hostIP t (Some l);
  tf_Recreate := Some (λ l p,
    let! r := Recreate CombinedOutput hostIP t (Some l) p in ret (r.1, default l r.2))
|}.

(** Its links are in a namespace that has a name and a path. *)
Lemma apply_named l ips h h' : apply CombinedOutput hostIP t l ips h = (Ret None, h') → NetNS l ≠ "".
Proof. unfold apply. destruct (validateNetNSName (NetNS l)) eqn:E; [done|]. intros _ He. by rewrite He in E. Qed.
Lemma NetNSPathOf_ne ns : NetNSPathOf ns ≠ "".
Proof. unfold NetNSPathOf, path_join. cbn [List.filter]. case_match; cbn [List.filter]; case_match;
  rewrite ?Clean_text; try apply path_text_ne; done. Qed.
Lemma Setup_named seq id p h l n h' :
  Setup CombinedOutput hostIP t seq id p h = (Ret (Ok l, n), h') → named_netns l.
Proof.
  unfold Setup. destruct (precheck t p); [|done]. destruct (subnet30 _) as [[hip gip]|]; [|done].
  destruct (uplink30 _) as [[uh un]|]; [|done]. destruct (vethNames _) as [hv nv].
  intros (e & h1 & E & H)%bind_inv_Ret. destruct e; [done|]. injection H as <- <- <-.
  split; cbn; [by apply apply_named in E|apply NetNSPathOf_ne].
Qed.
Lemma Recreate_named l p h l' h' :
  Recreate CombinedOutput hostIP t (Some l) p h = (Ret (None, Some l'), h') → named_netns l'.
Proof.
  unfold Recreate. destruct (String.eqb _ _); [done|]. destruct (precheck t p); [|done].
  intros (e & h1 & E & [= -> <- <-])%bind_inv_Ret. split; [by apply apply_named in E|].
  unfold fillDerived. destruct (if _ || _ then _ else _) as [hv nv]. cbn.
  destruct (String.eqb_spec (NetNSPath l) ""); [apply NetNSPathOf_ne|done].
Qed.
Lemma tap_factory_named parts i spec rec l :
  p_Tap parts = Some tap_factory → made_for parts i spec rec l → named_netns l.
Proof.
  intros Hp (tap & h & h' & Ht & H). rewrite Hp in Ht. injection Ht as <-. destruct rec as [r|].
  - destruct H as (rc & saved & [= <-] & _ & H). apply bind_inv_Ret in H as ([e ol] & h1 & E & [= -> <- <-]).
    destruct ol as [l'|]; [by eapply Recreate_named|]. exfalso. revert E. unfold Recreate.
    destruct (String.eqb _ _); [done|]. destruct (precheck t _); [|done]. by intros (? & ? & _ & ?)%bind_inv_Ret.
  - cbn in H. destruct (Setup _ _ _ _ _ _ h) as [[[r n]|v|] h1] eqn:E; [|done..]. injection H as -> _.
    by eapply Setup_named.
Qed.

(** [ip netns] as it is documented: [add] makes a namespace that is not there yet,
    or fails; [del] removes one; no other command of the factory does either. *)
Context (namespaces : Y → gset string).
Notation ns h := (namespaces (snd (snd h))).
Record ip_netns : Prop := {
  nn_add n h : let c := issued t (ipBin hostIP t, ["netns"; "add"; n]) in
    ∃ out e h', CombinedOutput None c.1 c.2 h = (Ret (out, e), h') ∧
    match e with None => n ∉ ns h ∧ ns h' = ns h ∪ {[n]} | Some _ => ns h' = ns h end;
  nn_del n h : let c := issued t (ipBin hostIP t, ["netns"; "del"; n]) in
    ∃ out e h', CombinedOutput None c.1 c.2 h = (Ret (out, e), h') ∧ ns h' = ns h ∖ {[n]};
  nn_other stdin name args h : (∀ op n, args ≠ ["netns"; op; n]) → let c := issued t (name, args) in
    ∃ out e h', CombinedOutput stdin c.1 c.2 h = (Ret (out, e), h') ∧ ns h' = ns h
}.
Hypothesis Hrun : Run t = None.
Hypothesis Hnn : ip_netns.

(** A step that returns and leaves the namespaces. *)
Definition steady {A} (m : M (host X) A) : Prop := ∀ h, ∃ a h', m h = (Ret a, h') ∧ ns h' = ns h.
Lemma steady_ret {A} (a : A) : steady (ret a).
Proof. intros h. by eexists _, _. Qed.
Lemma steady_bind {A B} (m : M (host X) A) (f : A → M (host X) B) :
  steady m → (∀ a, steady (f a)) → steady (bind m f).
Proof.
  intros Hm Hf h. destruct (Hm h) as (a & h1 & E & H1). rewrite (bind_Ret _ _ _ _ _ E).
  destruct (Hf a h1) as (b & h2 & E2 & H2). exists b, h2. split; [done|]. congruence.
Qed.
Lemma steady_and_then (m f : M (host X) (option error)) : steady m → steady f → steady (m >>? f).
Proof. intros Hm Hf. apply steady_bind; [done|]. intros [e|]; [apply steady_ret|done]. Qed.
Lemma steady_if {A} (b : bool) (m m' : M (host X) A) : steady m → steady m' → steady (if b then m else m').
Proof. by destruct b. Qed.
Lemma run_issued name args h :
  run CombinedOutput t name args h =
  let c := issued t (name, args) in
  (let! r := CombinedOutput None c.1 c.2 in ret (exec_failed (c.1 +:+ " " +:+ Join c.2 " ") r.1 r.2)) h.
Proof. unfold run, defaultRun, issued. rewrite Hrun. by destruct (Sudo t). Qed.
Lemma steady_run name args : (∀ op n, args ≠ ["netns"; op; n]) → steady (run CombinedOutput t name args).
Proof.
  intros Ha h. destruct (nn_other Hnn None name args h Ha) as (out & e & h' & E & Hh).
  rewrite run_issued. cbv zeta. rewrite (bind_Ret _ _ _ _ _ E). by eexists _, h'.
Qed.
Lemma steady_applyRules script : steady (applyRules CombinedOutput t script).
Proof.
  intros h. destruct (nn_other Hnn (Some script) "nft" ["-f"; "-"] h) as (out & e & h' & E & Hh); [done|].
  unfold applyRules, issued in *. rewrite Hrun. destruct (Sudo t); rewrite (bind_Ret _ _ _ _ _ E); by eexists _, h'.
Qed.
Lemma steady_note m errs : steady m → steady (note_error (W:=host X) m errs).
Proof. intros Hm. apply steady_bind; [done|]. intros e. apply steady_ret. Qed.
Hint Resolve steady_ret steady_bind steady_and_then steady_if steady_run steady_applyRules steady_note : steady.
Hint Extern 0 (_ ≠ _) => discriminate : steady.

Lemma netns_add n h : ∃ e h', runIP CombinedOutput hostIP t ["netns"; "add"; n] h = (Ret e, h') ∧
  match e with None => n ∉ ns h ∧ ns h' = ns h ∪ {[n]} | Some _ => ns h' = ns h end.
Proof.
  destruct (nn_add Hnn n h) as (out & e & h' & E & H). unfold runIP. rewrite run_issued. cbv zeta.
  rewrite (bind_Ret _ _ _ _ _ E). by destruct e; eexists _, h'.
Qed.
Lemma netns_del n errs h : ∃ errs' h',
  note_error (runIP CombinedOutput hostIP t ["netns"; "del"; n]) errs h = (Ret errs', h') ∧ ns h' = ns h ∖ {[n]}.
Proof.
  destruct (nn_del Hnn n h) as (out & e & h' & E & H). unfold note_error, bind at 1, runIP. rewrite run_issued.
  cbv zeta. rewrite (bind_Ret _ _ _ _ _ E). by eexists _, h'.
Qed.
Lemma Teardown_removes l h : NetNS l ≠ "" →
  ∃ e h', Teardown CombinedOutput hostIP t (Some l) h = (Ret e, h') ∧ ns h' = ns h ∖ {[NetNS l]}.
Proof.
  intros Hne. unfold Teardown. apply String.eqb_neq in Hne. rewrite Hne. cbn [negb].
  assert (steady (if negb (String.eqb (Table l) "")
    then note_error (run CombinedOutput t "nft" ["delete"; "table"; "inet"; Table l]) [] else ret [])) as Htable
    by (apply steady_if; auto with steady).
  destruct (Htable h) as (errs & h1 & E1 & H1). rewrite (bind_Ret _ _ _ _ _ E1).
  assert (steady (if negb (String.eqb (GuestSubnet (Some l)) "")
    then runIP CombinedOutput hostIP t ["route"; "del"; GuestSubnet (Some l)] else ret None)) as Hroute
    by (apply steady_if; unfold runIP; auto with steady).
  destruct (Hroute h1) as (e2 & h2 & E2 & H2). rewrite (bind_Ret _ _ _ _ _ E2).
  destruct (netns_del (NetNS l) errs h2) as (errs' & h3 & E3 & H3). rewrite (bind_Ret _ _ _ _ _ E3).
  assert (steady (if negb (String.eqb (HostVeth l) "")
    then runIP CombinedOutput hostIP t ["link"; "del"; HostVeth l] else ret None)) as Hveth
    by (apply steady_if; unfold runIP; auto with steady).
  destruct (Hveth h3) as (e4 & h4 & E4 & H4). rewrite (bind_Ret _ _ _ _ _ E4).
  eexists _, h4. split; [reflexivity|]. congruence.
Qed.
#[local] Arguments Teardown : simpl never.
Lemma apply_effect l ips h :
  let '(o, h') := apply CombinedOutput hostIP t l ips h in
  match o with
  | Ret None => NetNS l ≠ "" ∧ NetNS l ∉ ns h ∧ ns h' = ns h ∪ {[NetNS l]}
  | _ => ns h' ⊆ ns h
  end.
Proof.
  unfold apply. destruct (validateNetNSName (NetNS l)) as [err|] eqn:Ev; [by cbn|].
  assert (NetNS l ≠ "") as Hne by (intros He; by rewrite He in Ev).
  unfold apply_body. unfold and_then at 1. destruct (netns_add (NetNS l) h) as (e & h1 & E1 & H1).
  rewrite (bind_Ret _ _ _ _ _ E1). destruct e as [e|].
  { destruct (Teardown_removes l h1 Hne) as (e' & h2 & E2 & H2). cbn. rewrite E2, H2, H1. set_solver. }
  match goal with |- context [match ?m h1 with _ => _ end] => assert (steady m) as Hrest end.
  { unfold runInNS, runNS, runIP. repeat (apply steady_and_then; [solve [auto with steady]|]).
    auto 6 with steady. }
  destruct (Hrest h1) as (e & h2 & E2 & H2). rewrite E2. destruct H1 as [Hn H1]. destruct e as [e|].
  - destruct (Teardown_removes l h2 Hne) as (e' & h3 & E3 & H3). rewrite E3, H3, H2, H1. set_solver.
  - split_and!; [done..|congruence].
Qed.
Lemma tap_factory_works : factory_works (λ x, namespaces x.2) tap_factory.
Proof.
  split.
  - intros id p h. cbn. unfold Setup. destruct (precheck t p) as [ips|e]; [|by cbn].
    destruct (subnet30 _) as [[hip gip]|]; [|by cbn]. destruct (uplink30 _) as [[uh un]|]; [|by cbn].
    destruct (vethNames _) as [hv nv]. unfold bind. set (l := mkLink _ _ _ _ _ _ _ _ _ _ _ _).
    pose proof (apply_effect l ips h) as H. by destruct (apply _ _ _ l ips h) as [[[e|]|v|] h'].
  - intros rc l p h [= <-]. unfold bind, Recreate. destruct (String.eqb _ _); [by cbn|].
    destruct (precheck t p) as [ips|e]; [|by cbn]. unfold bind.
    pose proof (apply_effect (fillDerived l) ips h) as H. by destruct (apply _ _ _ _ ips h) as [[[e|]|v|] h'].
  - intros l h Hne. by apply Teardown_removes.
Qed.
End TapPart.

(** ** Samples: the repository's factory on a host that keeps namespaces *)
Definition netns_host (_ : option string) (name : string) (args : list string)
    : M (host (Z * gset string)) (string * option error) := λ h,
  let put s := (h.1, (h.2.1, s)) in
  match args with
  | ["netns"; op; n] =>
    if String.eqb op "add" then
      if decide (n ∈ h.2.2) then (Ret ("File exists", Some (New "exit status 1")), h)
      else (Ret ("", None), put (h.2.2 ∪ {[n]}))
    else if String.eqb op "del" then (Ret ("", None), put (h.2.2 ∖ {[n]}))
    else (Ret ("", None), h)
  | _ => (Ret ("", None), h)
  end.
Definition net_tap : TAP (host (Z * gset string)) := mkTAP None (λ _, Ok [IPv4 151 101 0 223]) "" false.
Definition net_factory : TapFactory (Z * gset string) := tap_factory netns_host "ip" net_tap.
Definition net_kernel : kernel (Z * gset string) := sample_kernel_of (λ _ x, x).
Definition net_parts : Parts (Z * gset string) := mkParts (Some net_factory) None None None.
Definition net_spec : Spec :=
  mkSpec "python" "" DefaultProfile (mkSeccomp "" [] []) (mkPolicy "deny" ["pypi.org:443"]).
Definition net_world : world (Z * gset string) := mkWorld (sample_disk, (0, {["other"]})) ∅ ∅ 0 2.
Lemma net_ip_netns : ip_netns netns_host "ip" net_tap id.
Proof.
  split.
  - intros n h. cbn. destruct (decide (n ∈ h.2.2)); by eexists _, _, _.
  - intros n h. by eexists _, _, _.
  - intros stdin name args h Ha. cbn. unfold netns_host.
    destruct args as [|a [|op [|n [|]]]]; try by eexists _, _, _.
    all: repeat case_match; simplify_eq; try by eexists _, _, _.
    all: exfalso; by eapply Ha.
Qed.
Lemma net_elsewhere : elsewhere net_kernel net_parts snd.
Proof. split; cbn; try done; intros; by intros []. Qed.

Lemma no_network_by_default_witness :
  launch net_kernel DefaultConfig net_parts RequestContext sample_spec
    (net_world, new_instance DefaultConfig sample_spec "fc-1" 3 None) =
  launch (no_nic net_kernel) DefaultConfig (no_tap net_parts) RequestContext sample_spec
    (net_world, new_instance DefaultConfig sample_spec "fc-1" 3 None).
Proof. apply (no_network_by_default net_kernel DefaultConfig net_parts); reflexivity. Defined.
Definition net_instance : firecrackerInstance (Z * gset string) :=
  new_instance DefaultConfig net_spec "fc-1" 3 None.
Definition net_ready : world (Z * gset string) :=
  mkWorld (<["data/vms/fc-1" := Dir]> sample_disk, (0, {["other"]})) ∅ ∅ 1 3.
Definition net_start (k : kernel (Z * gset string)) :=
  start_on DefaultConfig net_parts k RequestContext net_spec None (net_ready, net_instance).
Lemma net_start_link : i_tap (net_start net_kernel).2.2 = Some Tap.sample_link.
Proof. vm_compute. reflexivity. Qed.
Lemma network_is_confined_witness :
  NetNS Tap.sample_link = "warden-fc-1" ∧
  net_start net_kernel = net_start (only_in_link Tap.sample_link net_kernel).
Proof.
  split; [reflexivity|].
  pose proof (network_is_confined net_kernel DefaultConfig net_parts RequestContext net_spec None net_ready
    net_instance) as H.
  fold (net_start net_kernel) in H. rewrite net_start_link in H.
  apply H; [discriminate|reflexivity|discriminate|]. intros l'. by apply (tap_factory_named netns_host "ip" net_tap).
Defined.
Definition net_booted := Boot net_kernel DefaultConfig net_parts RequestContext net_spec net_world.
Lemma links_released_witness :
  (match net_booted with (Ret (Ok inst), w1) => Some (elements (hw w1).2.2) | _ => None end)
    = Some ["other"; "warden-fc-1"] ∧
  match net_booted with
  | (Ret (Ok inst), w1) => ∃ rest mine, rest ⊆ {["other"]} ∧ mine ## rest ∧ (size mine <= 1)%nat ∧
      (hw w1).2.2 = rest ∪ mine ∧
      ∀ c req w2 c' r w3, w2 = (Execute inst c req w1).2 → Destroy inst c' w2 = (Ret r, w3) → (hw w3).2.2 = rest
  | _ => False
  end.
Proof.
  assert ((match net_booted with (Ret (Ok inst), w1) => Some (elements (hw w1).2.2) | _ => None end)
    = Some ["other"; "warden-fc-1"]) as Hb by (vm_compute; reflexivity).
  split; [exact Hb|].
  pose proof (links_released net_kernel DefaultConfig net_parts snd
    ltac:(intros tap [= <-]; apply (tap_factory_works netns_host "ip" net_tap id eq_refl net_ip_netns))
    net_elsewhere RequestContext net_spec net_world) as H.
  fold net_booted in H. destruct net_booted as [[[inst|e]|v|] w1]; [exact H|discriminate..].
Defined.
