(* ===== verification/FirecrackerSession.v ===== *)
(** * Identities, waits, results and sessions of a Firecracker machine *)
From S2P Require Import Prelude GoUnicode GoStrings GoError GoNet GoPath GoTime GoFS Resources Policy.
From S2P Require Import TapNames Tap Snapshot Sparse FcConfig Jailer FcApi FcVsock GuestAgent Runtime Firecracker FirecrackerSpec.

(** ** Identities *)
Lemma jailer_name_valid id :
  id ≠ "" → len id <= 64 → all_bytes jailer_rune id = true → validateJailerID id = None.
Proof.
  intros Hne Hl Ha. unfold validateJailerID. apply String.eqb_neq in Hne as ->. cbn [orb].
  rewrite (proj2 (Z.ltb_ge _ _)) by lia.
  assert (∀ r, jailer_rune r = true → r < 128) as Hr.
  { intros r. unfold jailer_rune. rewrite orb_true_iff. intros [H%alnum_ascii|H]; lia. }
  rewrite runes_ascii.
  - assert (forallb jailer_rune (str_bytes id) = true) as ->; [|done].
    clear -Ha. induction id as [|a id IH]; [done|]. cbn in *. apply andb_true_iff in Ha as [-> Ha].
    by apply IH.
  - revert Ha. apply str_forallb_impl. intros a H. apply Z.ltb_lt. by apply Hr.
Qed.
Lemma vm_name_valid n : 0 <= n < 2 ^ 64 → validateJailerID ("fc-" +:+ Itoa n) = None.
Proof.
  intros Hn. apply jailer_name_valid; [done| |].
  - rewrite len_append. assert (len (Itoa n) <= Z.of_nat 20) by (apply Itoa_length; lia).
    change (len "fc-") with 3. lia.
  - unfold all_bytes. rewrite str_forallb_append. apply andb_true_iff. split; [done|].
    eapply all_bytes_impl; [|apply Itoa_digits; lia]. intros r H. unfold jailer_rune, alnum.
    by rewrite H, orb_true_r.
Qed.
Lemma next_cid_valid c : 3 <= (let cid := u32 (c + 1) in if cid <? 3 then u32 (cid + 3) else cid) < 2 ^ 32.
Proof.
  cbv zeta. assert (0 <= u32 (c + 1) < 2 ^ 32) by (apply wrapu_range; lia).
  destruct (Z.ltb_spec (u32 (c + 1)) 3); [|lia]. unfold u32 at 1 3. rewrite wrapu_small by lia. lia.
Qed.

(** The name of the machine that is named after [m] others, whatever happens
    between the boots. *)
Fixpoint name_after {X} (between : nat → world X → world X) (m : nat) (w : world X) : string :=
  match next_id w with
  | (Ret (id, _), w') => match m with O => id | S m => name_after between m (between m w') end
  | _ => ""
  end.
Lemma name_after_eq {X} (between : nat → world X → world X) m w :
  (∀ j w, fc_seq (between j w) = fc_seq w) →
  name_after between m w = "fc-" +:+ Itoa (u64 (fc_seq w + 1 + Z.of_nat m)).
Proof.
  intros Hb. revert w. induction m as [|m IH]; intros w; cbn [name_after next_id].
  - by rewrite Z.add_0_r.
  - rewrite IH, Hb. cbn [fc_seq]. do 2 f_equal. unfold u64, wrapu.
    rewrite <- Z.add_assoc, Zplus_mod_idemp_l. f_equal. lia.
Qed.

(** C34 (bounds): The guest CID of a machine is never one of the reserved 0 to 2
    and fits 32 bits, also after the counter has wrapped around and whatever a
    restored record says; its name is one the jailer accepts; and no two of any
    2^64 machines that follow one another have the same name. *)
Theorem identity_valid {X} (w : world X) id cid w' rec :
  next_id (X:=X) w = (Ret (id, cid), w') →
  (∀ r, rec = Some r → GuestCID r < 2 ^ 32) →
  3 <= session_cid cid rec < 2 ^ 32 ∧ validateJailerID id = None ∧
  ∀ between, (∀ j w, fc_seq (between j w) = fc_seq w) →
    name_after between 0 w = id ∧
    ∀ j m, (j < m)%nat → Z.of_nat m < 2 ^ 64 → name_after between j w ≠ name_after between m w.
Proof.
  unfold next_id at 1. intros [= <- <- <-] Hrec. pose proof (next_cid_valid (fc_cids w)) as Hc. cbv zeta in Hc. split_and!.
  - unfold session_cid. destruct rec as [r|]; [|lia]. destruct (Z.leb_spec 3 (GuestCID r)); [lia|lia].
  - unfold session_cid. destruct rec as [r|]; [|lia]. specialize (Hrec r eq_refl).
    destruct (Z.leb_spec 3 (GuestCID r)); lia.
  - apply vm_name_valid, wrapu_range. lia.
  - intros between Hb. split; [done|]. intros j m Hj Hm.
    rewrite !name_after_eq by done. intros H%append_inj_l. unfold Itoa in H. apply (inj pretty) in H.
    unfold u64, wrapu in H. set (s := fc_seq w + 1) in *. assert ((Z.of_nat m - Z.of_nat j) mod 2 ^ 64 = 0) as H0.
    { replace (Z.of_nat m - Z.of_nat j) with ((s + Z.of_nat m) - (s + Z.of_nat j)) by lia.
      rewrite Zminus_mod, H, Z.sub_diag. done. }
    rewrite Z.mod_small in H0 by lia. lia.
Qed.
Lemma identity_valid_witness :
  let w := mkWorld (∅, tt) ∅ ∅ 41 (2 ^ 32 - 1) in
  next_id (X:=unit) w = (Ret ("fc-42", 3), mkWorld (∅, tt) ∅ ∅ 42 3) ∧ 3 <= session_cid 3 None < 2 ^ 32 ∧
  name_after (λ _ w, w) 0 w ≠ name_after (λ _ w, w) 256 w.
Proof.
  split; [vm_compute; reflexivity|].
  destruct (identity_valid (mkWorld (∅, tt) ∅ ∅ 41 (2 ^ 32 - 1)) "fc-42" 3 (mkWorld (∅, tt) ∅ ∅ 42 3) None)
    as (Hc & _ & Hn); [vm_compute; reflexivity|discriminate|]. split; [exact Hc|].
  apply Hn; [done|lia|lia].
Defined.

(** ** The network of a session *)
(** The four bytes of an IPv4 address, as they are or in a 16-byte one. *)
Definition v4_bytes (x q : ip) : Prop :=
  ∃ a b c d, q = [a; b; c; d] ∧ (x = q ∨ x = IPv4 a b c d) ∧ is_byte a ∧ is_byte b ∧ is_byte c ∧ is_byte d.
Definition v4 (x : ip) : Prop := ∃ q, v4_bytes x q.
(** [net.IP.Equal], of IPv4 addresses. *)
Definition same_ip (x y : ip) : Prop := ∃ q, v4_bytes x q ∧ v4_bytes y q.
Lemma v4_bytes_String x q : v4_bytes x q →
  To4 x = Some q ∧ IP_String x = IP_String q ∧ ipString x = IP_String q ∧ x ≠ [].
Proof.
  intros (a & b & c & d & -> & [->| ->] & _); [done|]. split; [apply To4_IPv4|].
  unfold ipString. change (length (IPv4 a b c d) =? 0)%nat with false. by rewrite IP_String_IPv4.
Qed.
Lemma parse_ipString x q : v4_bytes x q → v4_bytes (parse_ip (ipString x)) q.
Proof.
  intros H. destruct (v4_bytes_String x q H) as (_ & _ & Hs & _). rewrite Hs.
  destruct H as (a & b & c & d & -> & _ & ? & ? & ? & ?).
  change (IP_String [a; b; c; d]) with (v4_string a b c d). unfold parse_ip. rewrite ParseIP_v4_string by done.
  exists a, b, c, d. split_and!; try done. by right.
Qed.

(** A link as the factory makes them ([Setup_v4]), and the same link with its
    addresses in another form. *)
Definition v4_link (l : Link) : Prop :=
  v4 (HostIP l) ∧ v4 (GuestIP l) ∧ v4 (UplinkHost l) ∧ v4 (UplinkNS l) ∧ Prefix l = 30.
Record same_link (l l' : Link) : Prop := {
  sl_Name : Tap.Name l' = Tap.Name l; sl_HostIP : same_ip (HostIP l) (HostIP l');
  sl_GuestIP : same_ip (GuestIP l) (GuestIP l'); sl_Prefix : Prefix l' = Prefix l;
  sl_MAC : GuestMAC l' = GuestMAC l; sl_Table : Table l' = Table l; sl_NetNS : NetNS l' = NetNS l;
  sl_NetNSPath : NetNSPath l' = NetNSPath l; sl_HostVeth : HostVeth l' = HostVeth l;
  sl_NSVeth : NSVeth l' = NSVeth l; sl_UplinkHost : same_ip (UplinkHost l) (UplinkHost l');
  sl_UplinkNS : same_ip (UplinkNS l) (UplinkNS l')
}.
Lemma same_ip_String x y : same_ip x y → To4 y = To4 x ∧ IP_String y = IP_String x ∧ ipString y = ipString x ∧
  bool_decide (y = []) = bool_decide (x = []).
Proof.
  intros (q & (H1 & H2 & H3 & H4)%v4_bytes_String & (G1 & G2 & G3 & G4)%v4_bytes_String).
  rewrite !bool_decide_eq_false_2 by done. split_and!; congruence.
Qed.
Lemma same_ip_v4 x y : same_ip x y → v4 y.
Proof. intros (q & _ & H). by exists q. Qed.
(** It is given to the host by the same commands, and saved in the same record. *)
Lemma same_link_setup l l' : same_link l l' →
  (∀ ipb ips, setup_cmds ipb l' ips = setup_cmds ipb l ips) ∧
  (∀ r, fillRecordNetwork r (Some l') = fillRecordNetwork r (Some l)) ∧ (v4_link l → v4_link l').
Proof.
  intros []. destruct (same_ip_String _ _ sl_HostIP0) as (H1 & H2 & H3 & _).
  destruct (same_ip_String _ _ sl_GuestIP0) as (_ & G2 & G3 & _).
  destruct (same_ip_String _ _ sl_UplinkHost0) as (_ & U2 & U3 & _).
  destruct (same_ip_String _ _ sl_UplinkNS0) as (_ & N2 & N3 & N4).
  assert (GuestSubnet (Some l') = GuestSubnet (Some l)) as Hsub by (unfold GuestSubnet; by rewrite H1, sl_Prefix0).
  split_and!.
  - intros ipb ips. unfold setup_cmds, RenderNFT, FilterIface, cidr.
    by rewrite Hsub, sl_Name0, sl_Prefix0, sl_NetNS0, sl_HostVeth0, sl_NSVeth0, sl_Table0, H2, G2, U2, N2, N4.
  - intros r. unfold fillRecordNetwork.
    by rewrite sl_Name0, sl_MAC0, sl_NetNS0, sl_NetNSPath0, sl_HostVeth0, sl_NSVeth0, sl_Table0, H3, G3, U3, N3.
  - intros (_ & _ & _ & _ & Hp). split_and!; first [by rewrite sl_Prefix0|by eapply same_ip_v4].
Qed.
Lemma Setup_v4 {W} (CombinedOutput : option string → string → list string → M W (string * option error))
    hostIP (t : TAP W) seq id p h l n h' :
  Setup CombinedOutput hostIP t seq id p h = (Ret (Ok l, n), h') → v4_link l.
Proof.
  unfold Setup. destruct (precheck t p); [|done].
  assert (∀ b0 b1 m x y, is_byte b0 → is_byte b1 → pair30 b0 b1 m = Ok (x, y) → v4 x ∧ v4 y) as Hv.
  { intros b0 b1 m x y Hb0 Hb1. unfold pair30. destruct (_ || _); [done|]. intros [= <- <-].
    assert (∀ z, is_byte (u8 z)) as Hu by (intros z; pose proof (wrapu_range 8 z); unfold u8, is_byte in *; lia).
    split; eexists [b0; b1; _; _], _, _, _, _; split_and!; eauto. }
  unfold subnet30, uplink30. destruct (pair30 172 25 _) as [[hip gip]|] eqn:E1; [|done].
  destruct (pair30 172 27 _) as [[uh un]|] eqn:E2; [|done]. destruct (vethNames _) as [hv nv].
  intros (e & h1 & _ & H)%bind_inv_Ret. destruct e; [done|]. injection H as <- _ _.
  apply Hv in E1 as [? ?], E2 as [? ?]; done.
Qed.

(** (roundtrip) The link of a machine is stored in its session's record and
    read back the same, up to the form of its addresses, and the session then
    fits exactly the policies that have an allowlist; a machine without a link
    leaves a record that fits exactly those that have none. *)
Theorem session_network_roundtrip r l p :
  v4_link l →
  (∃ l', linkFromRecord (Some (fillRecordNetwork r (Some l))) = Some l' ∧ same_link l l') ∧
  (networkMatches (Some (fillRecordNetwork r (Some l))) p = true ↔ Allowlist p ≠ []) ∧
  linkFromRecord (Some (fillRecordNetwork r None)) = None ∧
  (networkMatches (Some (fillRecordNetwork r None)) p = true ↔ Allowlist p = []).
Proof.
  intros ((q1 & H1) & (q2 & H2) & (q3 & H3) & (q4 & H4) & Hp). split_and!.
  - eexists. split; [done|]. split; cbn; try done; eexists; (split; [done|]); by apply parse_ipString.
  - cbn. by destruct (Allowlist p).
  - done.
  - cbn. by destruct (Allowlist p).
Qed.
Lemma session_network_roundtrip_witness :
  v4_link sample_link ∧
  ∃ l', linkFromRecord (Some (fillRecordNetwork (mkRecord "s" "" "" "" "" "" 3 false "" "" "" "" "" "" "" ""
    "" "" "" 0 "" None) (Some sample_link))) = Some l' ∧ same_link sample_link l'.
Proof.
  assert (v4_link sample_link) as H.
  { eapply (Setup_v4 (process_recorder willing) "ip" sample_tap 0 "fc-1" sample_policy [] _ 1).
    vm_compute. reflexivity. }
  split; [exact H|]. apply (session_network_roundtrip _ sample_link sample_policy H).
Defined.

(** ** The wait for a socket *)
Section Wait.
Context {X : Type} (k : kernel X).
(** The clock, and when the ticker fires next: never before it is due, and then
    it is due one period later. *)
Context (clock due : X → Z).
Notation period := (20 * Millisecond).
Hypothesis Hnow : ∀ h, ∃ h', k_now k h = (Ret (clock h.2), h') ∧ clock h.2 <= clock h'.2 ∧ due h'.2 = due h.2.
Hypothesis Htick : ∀ h, ∃ h', k_tick k h = (Ret tt, h') ∧ due h.2 + period <= due h'.2 ∧
  due h'.2 - period <= clock h'.2.

Lemma on_disk_Stat path (h : host X) : ∃ st, on_disk (X:=X) (Stat (k_fault k) path) h = (Ret st, h).
Proof.
  destruct h as [d x]. unfold on_disk. cbn. destruct (returns_Stat (k_fault k) path d) as (st & d' & E).
  pose proof (Stat_world (k_fault k) path d) as Hw. rewrite E in *. cbn in Hw. subst. by exists st.
Qed.
Lemma socket_loop_bounded n ctx path deadline h :
  due h.2 - period <= clock h.2 → deadline < due h.2 - period + Z.of_nat n * period →
  ∃ r h', socket_loop k n ctx path deadline h = (Ret r, h') ∧
    (r = None ∨ r = Some (New ("timed out waiting for " +:+ path))).
Proof.
  revert h. induction n as [|n IH]; intros h Hc Hd; cbn [socket_loop];
    destruct (on_disk_Stat path h) as (st & E); rewrite (bind_Ret _ _ _ _ _ E);
    (destruct (is_ok st); [by eexists _, _; split; [done|left]|]);
    destruct (Hnow h) as (h1 & E1 & Hm & Hdue); rewrite (bind_Ret _ _ _ _ _ E1).
  - rewrite (proj2 (Z.ltb_lt _ _)) by lia. eexists _, _. split; [done|by right].
  - destruct (Z.ltb_spec deadline (clock h.2)); [eexists _, _; split; [done|by right]|].
    destruct (Htick h1) as (h2 & E2 & Hdue2 & Hc2). rewrite (bind_Ret _ _ _ _ _ E2).
    apply IH; lia.
Qed.

(** (termination) The wait for a socket ends by itself, whatever its context
    and however its select chooses: a context that leaves it one tick more than
    its budget has periods of 20 ms never ends it, and it then either has seen
    the socket or reports that its time is up. *)
Theorem waitForSocket_bounded ctx path max h :
  0 < max → due h.2 = clock h.2 + period →
  (∀ h', max < Z.of_nat (k_ticks k ctx h') * period) →
  ∃ r h', waitForSocket k ctx path max h = (Ret r, h') ∧
    (r = None ∨ r = Some (New ("timed out waiting for " +:+ path))).
Proof.
  intros Hmax Hdue Hticks. unfold waitForSocket. rewrite (proj2 (Z.leb_gt _ _)) by lia.
  destruct (Hnow h) as (h1 & E & Hm & Hd). rewrite (bind_Ret _ _ _ _ _ E).
  apply socket_loop_bounded; [lia|]. specialize (Hticks h1). lia.
Qed.
End Wait.
Definition clock_kernel : kernel Z :=
  let k := sample_kernel_of (λ _ x, x) in
  mkKernel (k_fault k) (k_cp k) (k_link k) (k_cwd k) (k_LookPath k) (k_exists k) (k_user k) (k_Start k) (k_Kill k)
    (k_exits_in_time k) (k_Wait k) (k_Do k) (k_fault_message k) (k_Dial k) (k_Fprint k) (k_Close k) (k_encode k)
    (k_decode k) (λ h, (Ret h.2, h)) (λ h, (Ret tt, (h.1, h.2 + 20 * Millisecond))) (λ _ _, 1000%nat)
    (k_ctx_Err k) (k_interrupted k) (k_data k) (k_seek_fails k) (k_pos_fails k) (k_copy_fails k).
Lemma waitForSocket_bounded_witness :
  ∃ r h', waitForSocket clock_kernel RequestContext "/run/api.sock" (5 * Second) (∅, 0) = (Ret r, h') ∧
    (r = None ∨ r = Some (New "timed out waiting for /run/api.sock")).
Proof.
  apply (waitForSocket_bounded clock_kernel (λ x, x) (λ x, x + 20 * Millisecond)); try reflexivity.
  - intros h. exists h. cbn. split; [done|lia].
  - intros h. eexists. cbn. split; [done|cbn; lia].
Defined.

(** ** What an execution reports *)
Lemma on_host_inv {X A} (m : M (host X) A) (w : world X) a w' :
  on_host m w = (Ret a, w') → ∃ h, m (hw w) = (Ret a, h) ∧ w' = set_host h w.
Proof. unfold on_host. destruct (m (hw w)) as [o h]. intros [= -> <-]. by exists h. Qed.
Section Results.
Context {X : Type} (k : kernel X) (parts : Parts X).

(** C32 (error): An execution either fails and reports no result at all, or
    succeeds under the machine's name, after the job was written without error to
    the connection dialled on the machine's own socket and port: with the answer
    decoded from that connection or, if no answer could be decoded and the
    context has ended, with a timeout and exit code -1.  No error of the
    transport is ever shown as output of the job. *)
Theorem fc_Execute_outcome i n ctx req w res e w' :
  fc_Execute k parts i n ctx req w = (Ret (res, e), w') →
  (res = Result0 ∧ ∃ err, e = Some err) ∨
  (e = None ∧ VMID res = i_id i ∧
   ∃ c h1 h2,
     dialGuestVsock (k_Dial k) (k_Fprint k) (k_Close k) ctx (vsockUDS (i_files i)) (i_port i) (hw w) = (Ret (Ok c), h1) ∧
     WriteRequest k c (job_of i req) h1 = (Ret None, h2) ∧
     ((∃ resp, ReadResponse k c = Ok resp ∧
         res = mkResult (GuestAgent.Stdout resp) (GuestAgent.Stderr resp) (GuestAgent.ExitCode resp)
                 (i_id i) (GuestAgent.TimedOut resp)) ∨
      (∃ err unread h', ReadResponse k c = Err unread ∧ k_ctx_Err k ctx h2 = (Ret (Some err), h') ∧
         res = mkResult "" (Error err) (-1) (i_id i) true))).
Proof.
  unfold fc_Execute. intros H. apply bind_inv_Ret in H as (dead & w1 & [= _ <-] & H).
  destruct dead; [injection H as <- <- <-; left; eauto|].
  apply bind_inv_Ret in H as ([conn|err] & w2 & Edial & H); [|injection H as <- <- <-; left; eauto].
  apply defer_inv_Ret in H as (w3 & Eg & _).
  apply bind_inv_Ret in Eg as ([err|] & w5 & Ewr & H); [injection H as <- <- <-; left; eauto|].
  apply on_host_inv in Edial as (h1 & Edial & ->). apply on_host_inv in Ewr as (h2 & Ewr & ->).
  destruct (ReadResponse k conn) as [resp|err] eqn:Ed.
  - apply bind_inv_Ret in H as (u' & w6 & _ & [= <- <- <-]). right. split_and!; [done..|].
    exists conn, h1, h2. split_and!; [done|done|]. left. by exists resp.
  - apply bind_inv_Ret in H as (e' & w6 & (h3 & Ec & ->)%on_host_inv & H).
    destruct e' as [e'|]; injection H as <- <- <-; [|left; eauto].
    right. split_and!; [done..|]. exists conn, h1, h2. split_and!; [done|done|]. right. by exists e', err, h3.
Qed.
End Results.
Definition sample_instance : firecrackerInstance (list string) :=
  new_instance DefaultConfig sample_spec "fc-1" 3 None.
Lemma fc_Execute_outcome_witness :
  let r := fc_Execute sample_kernel sample_parts sample_instance 0 RequestContext (mkExec "x" 0) sample_fc in
  r.1 = Ret (mkResult "done" "" 0 "fc-1" false, None) ∧ VMID (mkResult "done" "" 0 "fc-1" false) = "fc-1".
Proof.
  split; [vm_compute; reflexivity|].
  destruct (fc_Execute_outcome sample_kernel sample_parts sample_instance 0 RequestContext (mkExec "x" 0)
    sample_fc (mkResult "done" "" 0 "fc-1" false) None
    (fc_Execute sample_kernel sample_parts sample_instance 0 RequestContext (mkExec "x" 0) sample_fc).2)
    as [(_ & err & H)|(_ & H & _)]; [vm_compute; reflexivity|discriminate|exact H].
Defined.

(** ** Saving a session *)
Section Save.
Context {X : Type} (k : kernel X).
Definition record_of (w : world X) (n : nat) : option Record_ := cells w !! n ≫= c_snapRec.

Lemma put_record_of n rec (w : world X) : record_of (put_record n rec w).2 n = rec.
Proof. unfold record_of, put_record, modify. cbn. by rewrite lookup_insert_eq. Qed.
Lemma on_host_record {A} (m : M (host X) A) w o w' n :
  on_host m w = (o, w') → record_of w' n = record_of w n.
Proof. unfold on_host. destruct (m (hw w)) as [o' h]. by intros [= <- <-]. Qed.

(** The record of a session after one more snapshot, before its commit. *)
Definition saved (i : firecrackerInstance X) (rec : Record_) : Record_ :=
  next_generation (if 0 <? Generation rec then "Diff" else "Full")
    (fillRecordNetwork (set_record_vm (i_id i) (i_cid i) rec) (i_tap i)).
Lemma saved_fields i rec :
  rec_SessionID (saved i rec) = rec_SessionID rec ∧ rec_VMID (saved i rec) = i_id i ∧
  GuestCID (saved i rec) = i_cid i ∧ (HasNetwork (saved i rec) = true ↔ i_tap i ≠ None) ∧
  Generation (saved i rec) = i64 (Generation rec + 1) ∧
  LastKind (saved i rec) = (if 0 <? Generation rec then "Diff" else "Full") ∧
  SnapshotPath (saved i rec) = SnapshotPath rec ∧ MemoryPath (saved i rec) = MemoryPath rec.
Proof. unfold saved. destruct (i_tap i); cbn; by split_and!. Qed.
(** What is asked of the machine and of the disk before the commit, all of it
    with success: a pause, a snapshot of the right kind, and its export. *)
Section Steps.
Context (i : firecrackerInstance X) (rec0 : Record_).
Let rec := fillRecordNetwork (set_record_vm (i_id i) (i_cid i) rec0) (i_tap i).
Let full := negb (0 <? Generation rec0).
Let kind := if full then "Full" else "Diff".
Let diffHost := if negb (String.eqb (rec_Path rec0) "") then path_join [rec_Path rec0; "vm.diff.mem"] else "".
Let snapPath := if jailed (i_files i) then "/vm.snap" else SnapshotPath rec0.
Let memPath :=
  if jailed (i_files i) then if full then "/vm.mem" else "/vm.diff.mem"
  else if negb full && negb (String.eqb diffHost "") then diffHost else MemoryPath rec0.
Let Do := k_Do k (apiSock (i_files i)).
Definition save_steps (h h' : host X) : Prop :=
  ∃ h1 h2, pauseVM Do (k_fault_message k) h = (Ret None, h1) ∧
    createSnapshot Do (k_fault_message k) kind snapPath memPath h1 = (Ret None, h2) ∧
    export_snapshot k i rec full diffHost h2 = (Ret None, h').
(** The same as the code runs it, before what comes after. *)
Definition save_chain (K : M (world X) (option error)) : M (world X) (option error) :=
  guard Some (wrapping "pause vm: " (on_host (pauseVM Do (k_fault_message k))))
  (guard Some (wrapping "create snapshot: "
     (on_host (createSnapshot Do (k_fault_message k) kind snapPath memPath)))
  (guard Some (on_host (export_snapshot k i rec full diffHost)) K)).
Lemma save_chain_cases K (w : world X) e w' :
  save_chain K w = (Ret e, w') →
  (∃ h, save_steps (hw w) h ∧ K (set_host h w) = (Ret e, w')) ∨
  (e ≠ None ∧ (∃ h, w' = set_host h w) ∧ ∀ K', save_chain K' w = (Ret e, w')).
Proof.
  unfold save_chain, save_steps, guard, wrapping, bind, on_host, ret.
  destruct (pauseVM _ _ (hw w)) as [[[e1|]|v|] h1]; try done; [intros [= <- <-]; right; by eauto|].
  cbn [hw set_host].
  destruct (createSnapshot _ _ _ _ _ h1) as [[[e2|]|v|] h2] eqn:E2; try done; [intros [= <- <-]; right; by eauto|].
  cbn [hw set_host].
  destruct (export_snapshot _ _ _ _ _ h2) as [[[e3|]|v|] h3] eqn:E3; try done; [intros [= <- <-]; right; by eauto|].
  intros H. left. exists h3. split; [by eauto 6|exact H].
Qed.
End Steps.
(** The commit, and the record as it leaves it. *)
Definition save_commit (store : Store (host X)) (n : nat) (rec : Record_) : M (world X) (option error) :=
  put_record n (Some rec) ;;;
  let! r := on_host (st_Commit store (Some rec)) in
  put_record n r.2 ;;; ret r.1.
Lemma saveSnapshot_run (store : Store (host X)) i n ctx w rec0 :
  record_of w n = Some rec0 →
  saveSnapshot k store i n ctx w = save_chain i rec0 (save_commit store n (saved i rec0))
    (put_record n (Some (fillRecordNetwork (set_record_vm (i_id i) (i_cid i) rec0) (i_tap i))) w).2.
Proof.
  intros Hr. unfold saveSnapshot. unfold bind at 1. cbn [get_record gets]. unfold record_of in Hr. rewrite Hr.
  unfold try. rewrite bind_ret. set (rec1 := fillRecordNetwork _ _).
  unfold bind at 1. cbn [put_record modify]. cbn [snd].
  assert (Generation rec1 = Generation rec0 ∧ rec_Path rec1 = rec_Path rec0 ∧
    SnapshotPath rec1 = SnapshotPath rec0 ∧ MemoryPath rec1 = MemoryPath rec0) as (E1 & E2 & E3 & E4)
    by (unfold rec1; by destruct (i_tap i)).
  unfold save_chain, saved. fold rec1. rewrite E1, E2, E3, E4.
  by destruct (0 <? Generation rec0).
Qed.
Lemma saveSnapshot_cases store i n ctx w rec0 e w' :
  record_of w n = Some rec0 →
  saveSnapshot k store i n ctx w = (Ret e, w') →
  (∃ h r, save_steps i rec0 (hw w) h ∧
     st_Commit store (Some (saved i rec0)) h = (Ret (e, r), hw w') ∧ record_of w' n = r) ∨
  (e ≠ None ∧ (∃ rec, record_of w' n = Some rec ∧ Generation rec = Generation rec0 ∧
     LastKind rec = LastKind rec0) ∧ ∀ store', saveSnapshot k store' i n ctx w = (Ret e, w')).
Proof.
  intros Hr. rewrite saveSnapshot_run with (rec0 := rec0) by done.
  set (rec1 := fillRecordNetwork _ _). set (w1 := (put_record n (Some rec1) w).2).
  intros [(h & Hs & H)|(He & [h ->] & H)]%save_chain_cases; [left|right].
  - unfold save_commit in H. apply bind_inv_Ret in H as (u & w2 & [= _ <-] & H).
    apply bind_inv_Ret in H as ([e7 r7] & w3 & E3 & H). apply bind_inv_Ret in H as (u' & w4 & [= _ <-] & [= -> <-]).
    unfold on_host in E3. cbn [hw set_cells set_host] in E3.
    destruct (st_Commit store (Some (saved i rec0)) h) as [o h'] eqn:Ec. injection E3 as -> <-.
    exists h, r7. split_and!; [done|done|]. unfold record_of. cbn. by rewrite lookup_insert_eq.
  - split_and!; [done| |].
    + exists rec1. split; [apply put_record_of|]. unfold rec1. by destruct (i_tap i).
    + intros store'. rewrite saveSnapshot_run with (rec0 := rec0) by done. apply H.
Qed.

(** C30 (functional): A session is committed at most once, and only when the
    machine was paused, its snapshot of the right kind (a full one the first
    time, a diff afterwards) created and everything exported, each with
    success: the record handed to the store then names the machine, its CID and
    its network and its generation is one higher, and the commit's answer is
    the save's. In every other case the save fails, the store is not asked, and
    the record the machine keeps still has the old generation and kind. *)
Theorem saveSnapshot_commits store i n ctx w rec0 e w' :
  record_of w n = Some rec0 →
  saveSnapshot k store i n ctx w = (Ret e, w') →
  (∃ rec h r, save_steps i rec0 (hw w) h ∧
     st_Commit store (Some rec) h = (Ret (e, r), hw w') ∧ record_of w' n = r ∧
     rec_SessionID rec = rec_SessionID rec0 ∧ rec_VMID rec = i_id i ∧ GuestCID rec = i_cid i ∧
     (HasNetwork rec = true ↔ i_tap i ≠ None) ∧
     Generation rec = i64 (Generation rec0 + 1) ∧
     LastKind rec = (if 0 <? Generation rec0 then "Diff" else "Full")) ∨
  (e ≠ None ∧ (∃ rec, record_of w' n = Some rec ∧ Generation rec = Generation rec0 ∧
     LastKind rec = LastKind rec0) ∧ ∀ store', saveSnapshot k store' i n ctx w = (Ret e, w')).
Proof.
  intros Hr Hsave. destruct (saveSnapshot_cases store i n ctx w rec0 e w' Hr Hsave)
    as [(h & r & Hs & Hc & Hw)|?]; [left|by right].
  destruct (saved_fields i rec0) as (? & ? & ? & ? & ? & ? & _).
  exists (saved i rec0), h, r. by split_and!.
Qed.
End Save.

(** A store that keeps nothing, and a session that was saved twice. *)
Definition forgetful : Store (host (list string)) :=
  mkStore (λ _ _, ret (Err (Sentinel ErrSnapNotImplemented))) (λ r, ret (None, r)) (λ _, ret (Err (Sentinel ErrSnapNotFound)))
    (λ _, ret None).
Definition sample_record : Record_ :=
  mkRecord "s1" "fc-1" "" "snap" "mem" "" 3 false "" "" "" "" "" "" "" "" "" "" "" 2 "Full" None.
Definition saved_world : world (list string) :=
  mkWorld ({["mem" := Regular "memory"]}, []) ∅ {[0%nat := mkCell false (Some sample_record)]} 1 3.
Lemma saveSnapshot_commits_witness :
  ∃ rec, record_of (saveSnapshot sample_kernel forgetful sample_instance 0 Background saved_world).2 0 = Some rec ∧
    Generation rec = 3 ∧ LastKind rec = "Diff".
Proof.
  set (r := saveSnapshot sample_kernel forgetful sample_instance 0 Background saved_world).
  assert (r.1 = Ret None) as E by (vm_compute; reflexivity).
  destruct r as [o w'] eqn:Er. cbn in E. subst o.
  destruct (saveSnapshot_commits sample_kernel forgetful sample_instance 0 Background saved_world
    sample_record None w') as [(rec & h & rec' & _ & Hc & Hr & _ & _ & _ & _ & Hg & Hk)|(H & _)];
    [reflexivity|exact Er| |congruence].
  injection Hc as <- _. exists rec. split_and!; [exact Hr|exact Hg|exact Hk].
Defined.
