(* ===== verification/Session.v ===== *)
(** * Sessions from one machine to the next (internal/runtime/fcsnap.go, internal/snapshot/store.go)

    The backend and the store put together: what a machine saves for its session
    is what the next boot of that session starts from ([session_resumes]), as long
    as the machines of a session follow one another ([overlap_shares]). *)
From S2P Require Import Prelude GoUnicode GoStrings GoError GoTime GoNet GoPath GoFS Resources Policy Runtime Tap Snapshot FcConfig Firecracker FirecrackerSpec FirecrackerNet FirecrackerSession.

Section Resume.
Context {X : Type} (k : kernel X) (cfg : FcConfig.Config) (parts : Parts X).
Context (Marshal : Record_ → result string) (Unmarshal : string → result Record_) (now : Z) (Root : string).
Let store : Store (host X) := hosted (DirStore (k_fault k) Marshal Unmarshal now Root).

(** A record as [Prepare] makes it: its files are in its session's directory. *)
Definition placed (id dir : string) (rec : Record_) : Prop :=
  rec_SessionID rec = id ∧ SnapshotPath rec = path_join [dir; "vm.snap"] ∧
  MemoryPath rec = path_join [dir; "vm.mem"].
Lemma Prepare_placed id vm dir w rec w' :
  sessionDir Root id = Ok dir → st_Prepare store id vm w = (Ret (Ok rec), w') → placed id dir rec.
Proof.
  intros Hd. cbn. unfold on_disk, Prepare. rewrite Hd. unfold bind.
  destruct (MkdirAll (k_fault k) dir w.1) as [[[e|]|v|] d]; try done. by intros [= <- _].
Qed.
(** What is committed when a machine has been saved. *)
Definition committed (dir : string) (i : firecrackerInstance X) (rec : Record_) : Record_ :=
  stamped now dir (saved i rec).

Lemma committed_placed id dir i rec : placed id dir rec → placed id dir (committed dir i rec).
Proof.
  intros (H1 & H2 & H3). destruct (saved_fields i rec) as (F1 & _ & _ & _ & _ & _ & F2 & F3).
  split_and!; [exact (eq_trans F1 H1)|exact (eq_trans F2 H2)|exact (eq_trans F3 H3)].
Qed.

(** The guards of [Boot] before it looks at the session. *)
Definition bootable (spec : Spec) (w : world X) : Prop :=
  Supported (Language spec) = true ∧ Profile_Validate (Limits spec) = None ∧
  on_host (on_disk (Config_Validate (k_fault k) cfg)) w = (Ret None, w) ∧
  denyNetworkOrFail (Network spec) (match p_Tap parts with Some _ => true | None => false end) = None.
Definition boot_afresh (ctx : context) (spec : Spec) : M (world X) (result (Instance (world X))) :=
  on_host (st_Delete store (spec_SessionID spec)) ;;; bootOne k cfg parts ctx spec None.
Definition boot_resumed (ctx : context) (spec : Spec) (rec : Record_) : M (world X) (result (Instance (world X))) :=
  let! b := bootOne k cfg parts ctx spec (Some rec) in
  match b with Ok inst => ret (Ok inst) | Err _ => boot_afresh ctx spec end.
Lemma Boot_restored ctx spec rec w :
  p_Snapshots parts = Some store → bootable spec w → spec_SessionID spec ≠ "" →
  st_Restore store (spec_SessionID spec) (hw w) = (Ret (Ok rec), hw w) →
  Boot k cfg parts ctx spec w =
    (if networkMatches (Some rec) (Network spec) then boot_resumed ctx spec rec else boot_afresh ctx spec) w.
Proof.
  intros Hp (Hl & Hv & Hc & Hn) Hid Hr. unfold Boot. rewrite Hl, Hv. cbn [negb]. unfold guard.
  rewrite (bind_Ret _ _ _ _ _ Hc), Hn, Hp, (proj2 (String.eqb_neq _ _) Hid). cbn [negb].
  assert (on_host (st_Restore store (spec_SessionID spec)) w = (Ret (Ok rec), w)) as E.
  { unfold on_host. rewrite Hr. by destruct w. }
  rewrite (bind_Ret _ _ _ _ _ E). by destruct (networkMatches _ _).
Qed.

(** What the record of a machine says of its link: the link, its addresses
    possibly in another form, so that the same commands set it up. *)
Definition link_kept (l l' : option Link) : Prop :=
  match l with
  | None => l' = None
  | Some l => ∃ r, l' = Some r ∧ same_link l r ∧ v4_link r ∧ ∀ ipb ips, setup_cmds ipb r ips = setup_cmds ipb l ips
  end.
Lemma committed_network dir i rec p :
  (∀ l, i_tap i = Some l → v4_link l) →
  link_kept (i_tap i) (linkFromRecord (Some (committed dir i rec))) ∧
  (networkMatches (Some (committed dir i rec)) p = true ↔ (i_tap i = None ↔ Allowlist p = [])).
Proof.
  intros Hv4. set (r := set_record_vm (i_id i) (i_cid i) rec).
  change (link_kept (i_tap i) (linkFromRecord (Some (fillRecordNetwork r (i_tap i)))) ∧
          (networkMatches (Some (fillRecordNetwork r (i_tap i))) p = true ↔ (i_tap i = None ↔ Allowlist p = []))).
  destruct (i_tap i) as [l|].
  - destruct (session_network_roundtrip r l p (Hv4 l eq_refl)) as ((l' & -> & Hl) & -> & _).
    destruct (same_link_setup l l' Hl) as (Hs & _ & Hv). split; [|naive_solver].
    exists l'. split_and!; [done|done|by apply Hv, Hv4|done].
  - split; [done|]. cbn. destruct (Allowlist p); naive_solver.
Qed.

(** C21 (roundtrip): A session continues where its last machine was saved: when a
    snapshot was saved and the disk can be read, the next boot of the session
    launches from exactly the record that was committed, the next generation,
    with the CID and the link of the machine that was saved (the addresses
    possibly in another form, set up by the same commands; the links are IPv4
    ones, as the factory makes them), and falls back to a fresh machine, the
    session deleted, when that launch fails; a policy that
    asks for a network where the session has none, or the other way round,
    deletes the session and boots afresh.  The record is again one that the next
    save can be applied to. *)
Theorem session_resumes i n ctx w rec0 w' id dir :
  p_Snapshots parts = Some store →
  sessionDir Root id = Ok dir → record_of w n = Some rec0 → placed id dir rec0 →
  (∀ l, i_tap i = Some l → v4_link l) → 3 <= i_cid i →
  saveSnapshot k store i n ctx w = (Ret None, w') →
  let rec := committed dir i rec0 in
  (∀ data, Marshal rec = Ok data → Unmarshal data = Ok rec) →
  (∀ op p, k_fault k op p (hw w').1 = None) →
  record_of w' n = Some rec ∧ placed id dir rec ∧ rec_Path rec = dir ∧
  Generation rec = i64 (Generation rec0 + 1) ∧
  (∀ cid, session_cid cid (Some rec) = i_cid i) ∧ link_kept (i_tap i) (linkFromRecord (Some rec)) ∧
  ∀ ctx' spec, spec_SessionID spec = id → bootable spec w' →
    ((i_tap i = None ↔ Allowlist (Network spec) = []) → Boot k cfg parts ctx' spec w' = boot_resumed ctx' spec rec w') ∧
    (¬ (i_tap i = None ↔ Allowlist (Network spec) = []) → Boot k cfg parts ctx' spec w' = boot_afresh ctx' spec w').
Proof.
  intros Hparts Hd Hr (Hid & Hs & Hm) Hv4 Hcid Hsave rec Hj Hf.
  destruct (saveSnapshot_cases k store i n ctx w rec0 None w' Hr Hsave) as [(h & r & _ & Hc & Hrec)|[He _]]; [|done].
  destruct (saved_fields i rec0) as (Fs & _ & Fc & _ & Fg & _ & Fsp & Fmp).
  change (on_disk (Commit (k_fault k) Marshal now Root (Some (saved i rec0))) h = (Ret (None, r), hw w')) in Hc.
  unfold on_disk in Hc.
  destruct (Commit (k_fault k) Marshal now Root (Some (saved i rec0)) h.1) as [o d] eqn:Ec.
  injection Hc as -> Hw. rewrite <- Hw in Hf. cbn in Hf.
  destruct (Restore_Commit (k_fault k) Marshal Unmarshal now Root id dir (saved i rec0) h.1 r d) as [-> Hres];
    [by rewrite Fs|done|by rewrite Fsp|by rewrite Fmp|done|done|done|].
  assert (st_Restore store id (hw w') = (Ret (Ok rec), hw w')) as Hrest.
  { rewrite <- Hw. cbn. unfold on_disk. cbn. by rewrite Hres. }
  split_and!; [done|by apply committed_placed|done|exact Fg| |by apply (committed_network dir i rec0 Default)|].
  { intros cid. unfold session_cid. change (GuestCID rec) with (GuestCID (saved i rec0)).
    by rewrite Fc, (proj2 (Z.leb_le 3 (i_cid i))). }
  intros ctx' spec Hspec Hb.
  assert (id ≠ "") as Hne by (intros ->; discriminate Hd).
  pose proof (committed_network dir i rec0 (Network spec) Hv4) as [_ Hnet]. fold rec in Hnet.
  rewrite (Boot_restored ctx' spec rec w') by (rewrite ?Hspec; done).
  destruct (networkMatches (Some rec) (Network spec)); split; [done|tauto|naive_solver|done].
Qed.

(** Without a jail, a machine is restored on the session's own disk and socket. *)
Lemma prepareRestore_unjailed rec s r s' :
  Jailer cfg = "" → rec_Path rec ≠ "" → prepareRestore k cfg parts rec s = (Ret (Ok r), s') →
  hostRootfs (i_files s'.2) = RootfsPath rec ∧ vsockUDS (i_files s'.2) = path_join [rec_Path rec; "v.sock"] ∧
  ((∀ op p d, k_fault k op p d = None) →
   ∀ c, (hw s'.1).1 !! path_join [rec_Path rec; "v.sock"] ≠ Some (Regular c)).
Proof.
  intros Hj Hp. unfold prepareRestore. rewrite Hj. cbn [String.eqb negb]. unfold guard.
  intros (i & s0 & [= <- <-] & H)%bind_inv_Ret.
  apply bind_inv_Ret in H as ([e1|] & s1 & _ & H); [done|].
  apply bind_inv_Ret in H as ([e2|] & s2 & _ & H); [done|].
  apply bind_inv_Ret in H as (? & s3 & [= _ <-] & H).
  rewrite (proj2 (String.eqb_neq _ _) Hp) in H. cbn [negb] in H.
  apply bind_inv_Ret in H as (? & s4 & E4 & H).
  apply bind_inv_Ret in E4 as (? & s5 & [= _ <-] & E4).
  apply bind_inv_Ret in E4 as (e6 & s6 & E6 & [= _ <-]).
  apply bind_inv_Ret in H as (i & s7 & [= <- <-] & [= _ <-]).
  destruct s2 as [w2 i2]. unfold sys, on_world, on_host, on_disk in E6. cbn in E6.
  destruct (Remove (k_fault k) _ (hw w2).1) as [o d] eqn:Er. injection E6 as -> <-. cbn.
  split_and!; [done|done|]. intros Hf c. unfold Remove, attempt_unit in Er. rewrite Hf in Er.
  repeat case_match; injection Er as _ <-; rewrite ?lookup_delete_eq; congruence.
Qed.

(** (error) That machines of a session follow one another is up to the callers:
    without a jail, two machines restored from one record have the same disk and
    the same vsock, and the second removes the socket under which the first is
    reached. *)
Theorem overlap_shares rec s1 s2 r1 r2 s1' s2' :
  Jailer cfg = "" → rec_Path rec ≠ "" →
  prepareRestore k cfg parts rec s1 = (Ret (Ok r1), s1') →
  prepareRestore k cfg parts rec s2 = (Ret (Ok r2), s2') →
  hostRootfs (i_files s1'.2) = hostRootfs (i_files s2'.2) ∧
  vsockUDS (i_files s1'.2) = vsockUDS (i_files s2'.2) ∧
  ((∀ op p d, k_fault k op p d = None) → ∀ c, (hw s2'.1).1 !! vsockUDS (i_files s1'.2) ≠ Some (Regular c)).
Proof.
  intros Hj Hp H1 H2. apply prepareRestore_unjailed in H1 as (-> & -> & _); [|done..].
  by apply prepareRestore_unjailed in H2 as (-> & -> & ?).
Qed.
End Resume.

(** ** Examples *)
(** A machine of the session "s1" on a link made by the repository's factory, at
    the session's first save. *)
Definition first_record : Record_ :=
  mkRecord "s1" "fc-1" "/snap/s1" "/snap/s1/vm.snap" "/snap/s1/vm.mem" "/snap/s1/rootfs.ext4" 3 false
    "" "" "" "" "" "" "" "" "" "" "" 0 "" None.
Definition session_disk : fs :=
  {["/snap" := Dir; "/snap/s1" := Dir; "/snap/s1/vm.snap" := Regular "s"; "/snap/s1/vm.mem" := Regular "m";
    "/snap/s1/rootfs.ext4" := Regular "r"; "/snap/s1/v.sock" := Regular "";
    "data/vms/fc-1" := Dir; "data/vms/fc-1/rootfs.ext4" := Regular "r"]} ∪ sample_disk.
Definition at_first_save : world (Z * gset string) :=
  mkWorld (session_disk, (0, {["warden-fc-1"]})) {[0%nat := Running]} {[0%nat := mkCell false (Some first_record)]} 1 3.
Definition linked_instance : firecrackerInstance (Z * gset string) := (net_start net_kernel).2.2.
Definition as_json (rec : Record_) : result string := Ok "{}".
Definition second_record : Record_ := committed 7 "/snap/s1" linked_instance first_record.
Definition session_store : Store (host (Z * gset string)) :=
  hosted (DirStore (k_fault net_kernel) as_json (λ _, Ok second_record) 7 "/snap").
Definition session_parts : Parts (Z * gset string) := mkParts (Some net_factory) None (Some session_store) None.
Definition resume_spec : Spec :=
  mkSpec "python" "s1" DefaultProfile (mkSeccomp "" [] []) (mkPolicy "deny" ["pypi.org:443"]).
Definition after_first_save : world (Z * gset string) :=
  (saveSnapshot net_kernel session_store linked_instance 0 Background at_first_save).2.
Lemma linked_v4 l : i_tap linked_instance = Some l → v4_link l.
Proof.
  unfold linked_instance. rewrite net_start_link. intros [= <-].
  eapply (Setup_v4 (process_recorder willing) "ip" sample_tap 0 "fc-1" sample_policy [] _ 1).
  vm_compute. reflexivity.
Qed.
Lemma linked_kept l : link_kept (i_tap linked_instance) l → ∃ r, l = Some r ∧ same_link sample_link r.
Proof. unfold linked_instance. rewrite net_start_link. intros (r & -> & Hs & _). by exists r. Qed.
Lemma linked_allowed : i_tap linked_instance = None ↔ Allowlist (Network resume_spec) = [].
Proof. unfold linked_instance. rewrite net_start_link. split; discriminate. Qed.
#[local] Opaque linked_instance.
Lemma session_resumes_witness :
  i_tap linked_instance = Some sample_link ∧
  (∃ l', linkFromRecord (Some second_record) = Some l' ∧ same_link sample_link l') ∧
  Generation second_record = 1 ∧
  Boot net_kernel DefaultConfig session_parts RequestContext resume_spec after_first_save =
  boot_resumed net_kernel DefaultConfig session_parts as_json (λ _, Ok second_record) 7 "/snap"
    RequestContext resume_spec second_record after_first_save.
Proof.
  split; [apply net_start_link|].
  destruct (session_resumes net_kernel DefaultConfig session_parts as_json (λ _, Ok second_record) 7 "/snap"
    linked_instance 0 Background at_first_save first_record after_first_save "s1" "/snap/s1")
    as (_ & _ & _ & _ & _ & Hl & H);
    [reflexivity|reflexivity|reflexivity|by repeat split|exact linked_v4|vm_compute; congruence| |reflexivity|done|].
  { assert ((saveSnapshot net_kernel session_store linked_instance 0 Background at_first_save).1 = Ret None) as E
      by (vm_compute; reflexivity).
    unfold after_first_save. destruct (saveSnapshot _ _ _ _ _ _) as [o w'] eqn:Es. cbn in E. by subst o. }
  split_and!.
  - exact (linked_kept _ Hl).
  - vm_compute. reflexivity.
  - apply H; [reflexivity| |exact linked_allowed]. split_and!; vm_compute; reflexivity.
Defined.
Lemma overlap_shares_witness :
  let second := prepareRestore net_kernel DefaultConfig session_parts second_record
    (at_first_save, new_instance DefaultConfig resume_spec "fc-3" 3 (Some second_record)) in
  (hw second.2.1).1 !! "/snap/s1/v.sock" ≠ Some (Regular "").
Proof.
  intros second.
  apply (overlap_shares net_kernel DefaultConfig session_parts second_record
    (at_first_save, new_instance DefaultConfig resume_spec "fc-2" 3 (Some second_record))
    (at_first_save, new_instance DefaultConfig resume_spec "fc-3" 3 (Some second_record))
    (mkPaths "/snap/s1/rootfs.ext4" "assets/vmlinux" "/snap/s1/rootfs.ext4" "/snap/s1/v.sock" "data/vms/fc-2/firecracker.log",
       "/snap/s1/vm.snap", "/snap/s1/vm.mem")
    (mkPaths "/snap/s1/rootfs.ext4" "assets/vmlinux" "/snap/s1/rootfs.ext4" "/snap/s1/v.sock" "data/vms/fc-3/firecracker.log",
       "/snap/s1/vm.snap", "/snap/s1/vm.mem")
    (prepareRestore net_kernel DefaultConfig session_parts second_record
      (at_first_save, new_instance DefaultConfig resume_spec "fc-2" 3 (Some second_record))).2);
    [vm_compute; reflexivity|vm_compute; discriminate|vm_compute; reflexivity|vm_compute; reflexivity|reflexivity].
Defined.
