(* ===== verification/Wire.v ===== *)
(** * A job from the backend to the guest and back

    The two ends of the vsock connection: [firecrackerInstance.Execute] on the
    host (internal/runtime/firecracker.go) and the agent in the machine
    (cmd/guest-agent/main.go), with the values of internal/guestproto/proto.go
    between them. *)
From S2P Require Import Prelude GoUnicode GoStrings GoError GoTime GoFS Resources Validate.
From S2P Require Import FcConfig FcVsock GuestAgent GuestServe Runtime Firecracker FirecrackerSpec.

(** What encoding/json does to a string: every byte that is not part of valid
    UTF-8 becomes U+FFFD.  A string is valid when this changes nothing. *)
Definition utf8 (s : string) : string := Map id s.
Lemma utf8_ascii s : is_ascii s = true → utf8 s = s.
Proof. intros H. by apply Map_id. Qed.
Definition request_as_json (r : Request) : Request :=
  mkRequest (utf8 (GuestAgent.Code r)) (utf8 (GuestAgent.Runtime r)) (TimeoutS r) (GuestAgent.MemoryBytes r) (GuestAgent.PIDsMax r).
Definition response_as_json (r : Response) : Response :=
  mkResponse (utf8 (GuestAgent.Stdout r)) (utf8 (GuestAgent.Stderr r)) (GuestAgent.ExitCode r) (GuestAgent.TimedOut r).

(** What the two programs need of encoding/json: of a value that one end has
    encoded, with the encoder's newline, the other decodes the same value, its
    strings made valid. *)
Class Codec {A} (as_json : A → A) (encode : A → result string) (decode : string * error → result A) : Prop :=
  decode_encode x text e : encode x = Ok text → decode (text +:+ newline, e) = Ok (as_json x).

(** ** The agent on one connection *)

(** What has come in, and what has been answered. *)
Record wire := mkWire { asked : string * error; answered : string }.

Section Agent.
Context {G : Type} (g : guest G).
Notation W := (wire * G)%type.
Definition in_guest {A} (m : M G A) : M W A := zoom snd (λ s w, (w.1, s)) m.
Definition guest_on_wire : guest W :=
  mkGuest (LookPath g) (λ c t, in_guest (Start g c t)) (λ p r cur max, in_guest (Prlimit g p r cur max))
    (λ p, in_guest (Wait g p)) (λ p, in_guest (KillGroup g p)).
Definition take_request : M W (string * error) := gets (λ w, asked w.1).
Definition put_response (text : string) : M W (option error) :=
  modify (λ w, (mkWire (asked w.1) (answered w.1 +:+ text), w.2)) ;;; ret None.
Definition agent (decode : string * error → result Request) (encode : Response → result string) : M W unit :=
  GuestAgent.handle guest_on_wire (λ _, ret tt) (ReadRequest decode take_request) (WriteResponse encode put_response)
    (ret tt).

(** [m'] on the pair does what [m] does on the guest, and leaves the wire alone. *)
Definition only_guest {A} (m' : M W A) (m : M G A) : Prop :=
  ∀ w s, m' (w, s) = let '(o, s') := m s in (o, (w, s')).
Lemma only_guest_zoom {A} (m : M G A) : only_guest (in_guest m) m.
Proof. intros w s. done. Qed.
Lemma only_guest_ret {A} (a : A) : only_guest (ret a) (ret a).
Proof. done. Qed.
Lemma only_guest_bind {A B} (m' : M W A) m (k' : A → M W B) k :
  only_guest m' m → (∀ a, only_guest (k' a) (k a)) → only_guest (bind m' k') (bind m k).
Proof.
  intros Hm Hk w s. unfold bind. rewrite Hm. destruct (m s) as [[a|v|] s']; [apply Hk|done..].
Qed.
Lemma execute_on_wire r : only_guest (execute guest_on_wire r) (execute g r).
Proof.
  unfold execute, applyGuestLimits, or_fail. cbn [guest_on_wire LookPath Start Prlimit Wait KillGroup].
  repeat first [apply only_guest_zoom | apply only_guest_ret | apply only_guest_bind; [|intros ?] | case_match].
Qed.

(** One connection: the job that was asked for is executed, once, and its
    response is what is sent back. *)
Lemma agent_answers decode encode w s r resp s' :
  decode (asked w) = Ok r → execute g r s = (Ret resp, s') →
  agent decode encode (w, s) =
  (Ret tt, (match encode resp with
            | Ok text => mkWire (asked w) (answered w +:+ text +:+ newline)
            | Err _ => w
            end, s')).
Proof.
  intros Hd He. unfold agent, GuestAgent.handle, defer, ReadRequest, take_request, gets, bind, ret. cbn.
  rewrite Hd, execute_on_wire, He. unfold WriteResponse, wrapping, bind, ret.
  by destruct (encode resp).
Qed.
End Agent.

(** ** From the backend's request to the guest's kernel *)

(** What a started job meets when no limit is refused. *)
Lemma execute_unrefused look pid fin r cmd tr :
  int64_request r → commandFor look (GuestAgent.Runtime r) (GuestAgent.Code r) = Ok cmd →
  ∃ resp, execute (logging_guest look (Ok pid) (λ _, None) fin) r tr =
    (Ret resp, tr ++ [EStart cmd (job_timeout r)] ++ limit_events pid (limits_of r) ++
               EWait pid :: (if deadline fin then [EKill pid] else [])) ∧
    GuestAgent.Stdout resp = collect MaxOutputBytes (out fin) ∧ GuestAgent.TimedOut resp = deadline fin.
Proof.
  intros Hi Hc. destruct (guest_sizes r Hi) as (_ & _ & Hm & Hp & _).
  unfold execute. cbn [LookPath logging_guest]. rewrite Hc. unfold applyGuestLimits, or_fail.
  cbn [Start Prlimit Wait KillGroup logging_guest]. rewrite Hm, Hp. unfold log_event, bind, modify, ret.
  destruct (deadline fin); eexists; (split; [f_equal; cbn; by rewrite <- !app_assoc|]); [done|].
  by destruct (run_err fin) as [[]|].
Qed.

(** The limits a validated profile asks for are those a job gets: nothing is
    raised, lowered, replaced by a default or wrapped around on the way. *)
Lemma job_sizes {X} (i : firecrackerInstance X) code n :
  constrains (i_limits i) → Resources.MemoryBytes (i_limits i) < 2 ^ 63 →
  Resources.PIDsMax (i_limits i) < 2 ^ 63 → 1 <= n <= MaxTimeoutS →
  let r := request_as_json (job_of i (mkExec code (seconds n))) in
  int64_request r ∧ job_timeout r = n * Second ∧
  limits_of r = [(RLIMIT_AS, Resources.MemoryBytes (i_limits i)); (RLIMIT_NPROC, Resources.PIDsMax (i_limits i));
                 (RLIMIT_NOFILE, 256)].
Proof.
  intros (_ & _ & Hm & Hp & _) Hm' Hp' Hn. unfold MaxTimeoutS in Hn. rewrite seconds_small by lia.
  unfold job_of, request_as_json. cbn [er_Timeout er_Code TimeoutS GuestAgent.MemoryBytes GuestAgent.PIDsMax].
  unfold Second. rewrite (proj2 (Z.leb_gt (n * 1000000000) 0)) by lia.
  rewrite Z.quot_mul by lia.
  set (r := mkRequest _ _ _ _ _). assert (int64_request r) as Hi by done.
  destruct (guest_sizes r Hi) as (_ & _ & _ & _ & H1 & H2). cbv zeta. split; [done|]. split.
  - unfold job_timeout. cbn [TimeoutS r]. rewrite seconds_small by lia. unfold Second.
    by rewrite (proj2 (Z.leb_gt (n * 1000000000) 0)) by lia.
  - unfold limits_of. rewrite H1, H2; [done|cbn; lia|cbn; lia].
Qed.

Section Wire.
Context {X : Type} (k : kernel X) (dec_request : string * error → result Request).
Context (enc_response : Response → result string).
Context `{!Codec request_as_json (k_encode k) dec_request} `{!Codec response_as_json enc_response (k_decode k)}.

(** C4 (roundtrip): A job arrives in the guest as it was asked for, and its answer
    comes back as it was given, up to bytes that are not valid UTF-8, which JSON
    replaces by U+FFFD.  For a timeout and a profile that validation lets
    through, and when the process starts and no limit is refused, the agent that
    reads what [Execute] writes starts one process, the interpreter of the
    language on this code, with exactly the timeout and then the memory and
    process limits of the profile, then waits for it, and kills its group after
    a timeout; and from what the agent sends back the backend reads the agent's
    response. *)
Theorem job_runs_as_requested (i : firecrackerInstance X) code n look cmd pid fin text e tr :
  constrains (i_limits i) → Resources.MemoryBytes (i_limits i) < 2 ^ 63 →
  Resources.PIDsMax (i_limits i) < 2 ^ 63 → 1 <= n <= MaxTimeoutS →
  commandFor look (utf8 (i_language i)) (utf8 code) = Ok cmd →
  k_encode k (job_of i (mkExec code (seconds n))) = Ok text →
  ∃ resp,
    agent (logging_guest look (Ok pid) (λ _, None) fin) dec_request enc_response
      (mkWire (text +:+ newline, e) "", tr) =
    (Ret tt, (mkWire (text +:+ newline, e)
                (match enc_response resp with Ok t => t +:+ newline | Err _ => "" end),
              tr ++ [EStart cmd (n * Second);
                     ELimit pid RLIMIT_AS (Resources.MemoryBytes (i_limits i)) (Resources.MemoryBytes (i_limits i));
                     ELimit pid RLIMIT_NPROC (Resources.PIDsMax (i_limits i)) (Resources.PIDsMax (i_limits i));
                     ELimit pid RLIMIT_NOFILE 256 256; EWait pid] ++
                    (if deadline fin then [EKill pid] else []))) ∧
    GuestAgent.Stdout resp = collect MaxOutputBytes (out fin) ∧ GuestAgent.TimedOut resp = deadline fin ∧
    ∀ c t e', enc_response resp = Ok t → stream c = (t +:+ newline, e') →
      ReadResponse k c = Ok (response_as_json resp).
Proof.
  intros Hl Hm Hp Hn Hc Ht.
  destruct (job_sizes i code n Hl Hm Hp Hn) as (Hi & Hto & Hls).
  set (r := request_as_json (job_of i _)) in *.
  destruct (execute_unrefused look pid fin r cmd tr Hi Hc) as (resp & He & Ho & Hd).
  exists resp. split_and!; [|done|done|].
  - rewrite (agent_answers _ dec_request enc_response (mkWire (text +:+ newline, e) "") tr r resp _
               (decode_encode _ text e Ht) He), Hto, Hls.
    cbn [asked answered]. by destruct (enc_response resp).
  - intros c t e' Hr Hs. unfold ReadResponse. rewrite Hs. by rewrite (decode_encode resp t e' Hr).
Qed.
End Wire.

(** ** An instance

    A codec with fields between bars; it refuses the values that it would not
    read back. *)
#[export] Instance Request_eq_dec : EqDecision Request.
Proof. solve_decision. Defined.
#[export] Instance Response_eq_dec : EqDecision Response.
Proof. solve_decision. Defined.
Definition fields (text : string) : list string := SplitByte (TrimSpace text) "|"%char.
Definition read_request (s : string * error) : result Request :=
  match fields s.1 with
  | [code; runtime; t; m; p] =>
    match Atoi t, Atoi m, Atoi p with
    | Some t, Some m, Some p => Ok (mkRequest code runtime t m p)
    | _, _, _ => Err (New "not a number")
    end
  | _ => Err s.2
  end.
Definition read_response (s : string * error) : result Response :=
  match fields s.1 with
  | [o; e; code; t] =>
    match Atoi code with
    | Some code => Ok (mkResponse o e code (String.eqb t "true"))
    | None => Err (New "not a number")
    end
  | _ => Err s.2
  end.
Definition checked {A} `{!EqDecision A} (as_json : A → A) (write : A → string) (read : string * error → result A)
    (x : A) : result string :=
  match read (write (as_json x) +:+ newline, Sentinel EOF) with
  | Ok y => if decide (y = as_json x) then Ok (write (as_json x)) else Err (New "cannot be represented")
  | Err e => Err e
  end.
Definition write_request : Request → result string :=
  checked request_as_json
    (λ r, Join [GuestAgent.Code r; GuestAgent.Runtime r; Itoa (TimeoutS r); Itoa (GuestAgent.MemoryBytes r); Itoa (GuestAgent.PIDsMax r)] "|")
    read_request.
Definition write_response : Response → result string :=
  checked response_as_json
    (λ r, Join [GuestAgent.Stdout r; GuestAgent.Stderr r; Itoa (GuestAgent.ExitCode r);
                if GuestAgent.TimedOut r then "true" else "false"] "|") read_response.
Lemma checked_codec {A} `{!EqDecision A} as_json (write : A → string) (read : string * error → result A) :
  (∀ s e e' x, read (s, e) = Ok x → read (s, e') = Ok x) → Codec as_json (checked as_json write read) read.
Proof.
  intros Hr x text e. unfold checked. destruct (read _) as [y|?] eqn:E; [|done].
  destruct (decide (y = as_json x)) as [->|]; [|done]. intros [= <-]. by eapply Hr.
Qed.
#[export] Instance request_codec : Codec request_as_json write_request read_request.
Proof.
  apply checked_codec. intros s e e' x. unfold read_request. cbn. by repeat case_match.
Qed.
#[export] Instance response_codec : Codec response_as_json write_response read_response.
Proof.
  apply checked_codec. intros s e e' x. unfold read_response. cbn. by repeat case_match.
Qed.
Definition wired_kernel : kernel (list string) := {|
  k_fault := k_fault sample_kernel; k_cp := k_cp sample_kernel; k_link := k_link sample_kernel;
  k_cwd := k_cwd sample_kernel; k_LookPath := k_LookPath sample_kernel; k_exists := k_exists sample_kernel; k_user := k_user sample_kernel;
  k_Start := k_Start sample_kernel; k_Kill := k_Kill sample_kernel;
  k_exits_in_time := k_exits_in_time sample_kernel; k_Wait := k_Wait sample_kernel; k_Do := k_Do sample_kernel;
  k_fault_message := k_fault_message sample_kernel; k_Dial := k_Dial sample_kernel;
  k_Fprint := k_Fprint sample_kernel; k_Close := k_Close sample_kernel;
  k_encode := write_request; k_decode := read_response;
  k_now := k_now sample_kernel; k_tick := k_tick sample_kernel; k_ticks := k_ticks sample_kernel;
  k_ctx_Err := k_ctx_Err sample_kernel; k_interrupted := k_interrupted sample_kernel;
  k_data := k_data sample_kernel; k_seek_fails := k_seek_fails sample_kernel;
  k_pos_fails := k_pos_fails sample_kernel; k_copy_fails := k_copy_fails sample_kernel
|}.
Definition wired_instance : firecrackerInstance (list string) :=
  new_instance DefaultConfig sample_spec "fc-1" 3 None.
(** A job that prints a byte that is no UTF-8. *)
Definition latin_1 : string := "caf" +:+ str1 233.
Definition prints_latin_1 : finished := mkFinished [latin_1] [] (Some (ExitError 3)) false.
Lemma job_runs_as_requested_witness :
  ∃ resp,
    agent (logging_guest (λ n, Some n) (Ok 42) (λ _, None) prints_latin_1) read_request write_response
      (mkWire ("exit 3|python|5|268435456|64" +:+ newline, Sentinel EOF) "", []) =
    (Ret tt, (mkWire ("exit 3|python|5|268435456|64" +:+ newline, Sentinel EOF)
                (utf8 latin_1 +:+ "||3|false" +:+ newline),
              [EStart (mkCommand "python3" ["-c"; "exit 3"]) (5 * Second); ELimit 42 RLIMIT_AS 268435456 268435456;
               ELimit 42 RLIMIT_NPROC 64 64; ELimit 42 RLIMIT_NOFILE 256 256; EWait 42])) ∧
    GuestAgent.Stdout resp = latin_1 ∧ utf8 latin_1 ≠ latin_1 ∧
    ∀ c t e', write_response resp = Ok t → stream c = (t +:+ newline, e') →
      ReadResponse wired_kernel c = Ok (response_as_json resp).
Proof.
  destruct (job_runs_as_requested wired_kernel read_request write_response (Codec0 := request_codec)
    (Codec1 := response_codec) wired_instance "exit 3" 5 (λ n, Some n)
    (mkCommand "python3" ["-c"; "exit 3"]) 42 prints_latin_1 "exit 3|python|5|268435456|64" (Sentinel EOF) [])
    as (resp & _ & Ho & _ & Hr);
    [vm_compute; intuition discriminate|reflexivity|reflexivity|split; discriminate|vm_compute; reflexivity
    |vm_compute; reflexivity|].
  exists resp. split_and!; [vm_compute; reflexivity|exact Ho|vm_compute; discriminate|exact Hr].
Defined.
