(* ===== verification/System.v ===== *)
(** * The server on Firecracker

    The HTTP server and the Firecracker backend put together: what the server
    promises with any runtime ([ServerSpec]), and what this runtime promises
    ([FirecrackerSpec]), is a promise about operating-system processes. *)
From S2P Require Import Prelude GoUnicode GoStrings GoError GoNet GoPath GoTime GoFS Resources Policy.
From S2P Require Import Tap Snapshot FcConfig Jailer FcApi FcVsock GuestAgent RateLimit Validate Auth AuditTrail.
From S2P Require Import Runtime Server ServerSpec Firecracker FirecrackerSpec.

Section System.
Context {X : Type} (k : kernel X) (fcfg : FcConfig.Config) (parts : Parts X).
Context (e : Server.env (Firecracker.world X)) (cfg : Server.Config (Firecracker.world X)).
Context (deps : Dependencies (Firecracker.world X)).

Definition on_firecracker : Dependencies (Firecracker.world X) :=
  with_runtime deps (Firecracker k fcfg parts).

Hypothesis Hdep : dependable k parts.
(** The clock, the audit sinks and so on start and end no VMM. *)
Hypothesis Hclock : respects undisturbed (clock e).
Hypothesis Hrand : respects undisturbed (rand e).
Hypothesis Haudit : ∀ record ev, d_Audit deps = Some record → respects undisturbed (record ev).
Hypothesis Hjwt : ∀ valid tok, JWT (auth cfg) = Some valid → respects undisturbed (valid tok).
Hypothesis Hother : ∀ r, respects (on_ext_rel undisturbed) (serve_other e r).

Notation calm := (same_vms (Firecracker k fcfg parts) (HV := fc_VMs k fcfg parts Hdep)).
Lemma undisturbed_calm {A} (m : M (Firecracker.world X) A) : respects undisturbed m → respects calm m.
Proof.
  intros Hm w. destruct (Hm w) as [Hv Hd]. intros Hinv. cbn in *. rewrite Hv. split; [|done].
  intros n. rewrite Hd. apply Hinv.
Qed.
Lemma firecracker_apart : apart e cfg on_firecracker (HV := fc_VMs k fcfg parts Hdep).
Proof.
  split; cbn [d_Audit d_Runtime on_firecracker with_runtime]; intros; try (apply undisturbed_calm; eauto; fail).
  - apply undisturbed_calm. injection H as <-. apply on_host_undisturbed.
  - intros w. destruct (Hother r w) as [Hv Hd]. unfold on_ext_rel in *. intros Hinv. cbn in *.
    rewrite Hv. split; [|done]. intros n. rewrite Hd. apply Hinv.
Qed.

(** (safety) No VMM process outlives the request it was started for unnoticed:
    after any request was served, and also where it waits for ever, the
    processes that run and were sent no signal are those of before, whatever the
    request was, whatever failed, in the server, the boot, the execution or the
    destruction, and whatever panicked.  The others were seen to end or sent a
    SIGKILL; if it was refused, the process is recorded with the error.  An
    instance that was destroyed never comes back either. *)
Theorem no_process_outlives_request r w :
  (∀ n, is_dead (ext w) n = true → vmms (ext w) !! n ≠ Some Running) →
  let w' := ext (middleware e cfg on_firecracker r w).2 in
  (∀ n, vmms w' !! n = Some Running ↔ vmms (ext w) !! n = Some Running) ∧
  ∀ n, is_dead w' n = true → vmms w' !! n ≠ Some Running.
Proof.
  intros Hinv. cbv zeta.
  destruct (middleware_calm e cfg on_firecracker (HV := fc_VMs k fcfg parts Hdep) firecracker_apart r w Hinv)
    as [Hd Hv]. split; [|exact Hd]. intros n. cbn in Hv. by rewrite <- !elem_of_live, Hv.
Qed.
End System.

Definition system_deps : Dependencies (Firecracker.world (list string)) :=
  sample_deps (mkRuntime (λ _ _, panic "no backend") "" None) None.
(** A request on a host on which everything works: a machine came and went. *)
Example system_end_to_end :
  let w' := (middleware (sample_env _) (sample_config _ "k")
               (on_firecracker sample_kernel FcConfig.DefaultConfig sample_parts system_deps)
               (sample_post "k" "print(1)") (ServerSpec.fresh sample_fc)).2 in
  status_of (rw w') = 200 ∧ vmms (ext w') = ∅ ∧ is_dead (ext w') 0 = true ∧
  (hw (ext w')).2 !! 0%nat = Some "assets/firecracker --api-sock data/vms/fc-1/api.sock" ∧
  last (hw (ext w')).2 = Some "PUT /actions".
Proof. vm_compute. split_and!; reflexivity. Qed.
(** The same on a host whose guests never answer: the boot fails, and its process
    was sent a signal. *)
Lemma no_process_outlives_request_witness :
  let w' := ext (middleware (sample_env _) (sample_config _ "k")
    (on_firecracker mute_kernel FcConfig.DefaultConfig sample_parts system_deps)
    (sample_post "k" "print(1)") (ServerSpec.fresh sample_fc)).2 in
  vmms w' = {[0%nat := Killed]} ∧ ∀ n, vmms w' !! n ≠ Some Running.
Proof.
  intros w'. split; [vm_compute; reflexivity|].
  pose proof (λ Hc Hr Ha Hj Ho, no_process_outlives_request mute_kernel FcConfig.DefaultConfig sample_parts
    (sample_env _) (sample_config _ "k") system_deps mute_dependable Hc Hr Ha Hj Ho
    (sample_post "k" "print(1)") (ServerSpec.fresh sample_fc)) as H.
  cbv zeta in H. fold w' in H. clearbody w'.
  destruct H as [H _]; [by intros w|by intros w|discriminate|discriminate|intros r; apply respects_write, _|done|].
  intros n. rewrite H. discriminate.
Defined.
