(* ===== verification/Main.v ===== *)
(** * The process (cmd/warden/main.go, internal/audit/pg.go)

    How [run] puts the parts together: the settings from the environment and the
    files, the backend, the gate around it, the credentials, the audit sinks, and
    the server.  [run] here ends with what the server is made of; how it is then
    served and stopped is in [Lifecycle]. *)
From S2P Require PoolRuntime.
From S2P Require Import Prelude GoUnicode GoStrings GoError GoNet GoPath GoTime GoFS Resources Policy.
From S2P Require Import Tap Snapshot FcConfig RateLimit Validate GoCrypto Jwt Auth Tls AuditTrail.
From S2P Require Import Runtime Gate GateRuntime Lift Server Cgroup Firecracker FirecrackerNet.

(** ** Settings from the environment *)
Section Env.
Context (getenv : string → string).

Definition envOr (key fallback : string) : string :=
  let v := getenv key in if negb (String.eqb v "") then v else fallback.
Definition env_is (key v : string) : bool := String.eqb (getenv key) v.

Definition listenAddr : string :=
  if negb (String.eqb (getenv "WARDEN_ADDR") "") then getenv "WARDEN_ADDR"
  else if negb (String.eqb (getenv "PORT") "") then "0.0.0.0:" +:+ getenv "PORT"
  else "127.0.0.1:8080".

Definition buildRateLimit (listen : string) : option FixedWindow :=
  let raw := TrimSpace (getenv "WARDEN_RATE_LIMIT") in
  let limit :=
    if negb (String.eqb raw "") then Sscanf_d raw 0
    else if negb (isLoopbackAddr listen) then 60 else 0 in
  if limit <=? 0 then None
  else
    let v := TrimSpace (getenv "WARDEN_RATE_WINDOW") in
    let window :=
      if negb (String.eqb v "") then
        match ParseDuration v with Some d => if 0 <? d then d else minute | None => minute end
      else minute in
    Some (NewFixedWindow limit window).
Definition rateLimitInfo (r : option FixedWindow) : string :=
  match r with
  | None => "off"
  | Some r => if RateLimit.Limit r <=? 0 then "off"
              else Itoa (RateLimit.Limit r) +:+ "/" +:+ Duration_String (Window r)
  end.

Definition maxVMs : Z :=
  let v := getenv "WARDEN_MAX_VMS" in if negb (String.eqb v "") then Sscanf_d v 1 else 1.
Definition queueWait : Z :=
  let v := getenv "WARDEN_VM_QUEUE_WAIT" in
  if negb (String.eqb v "") then default (15 * Second) (ParseDuration v) else 15 * Second.
End Env.

(** ** The audit sinks *)
Section Audit.
Context {W : Type} (getenv : string → string).
(** The sinks' own constructors; [OpenPostgres] opens and pings a database. *)
Context (NewJSONLLogger : string → Logger W) (SlogSink : Logger W) (HTTPSink : string → string → Logger W).
Context (OpenPostgres : string → result (Logger W)).

Definition audit_dsn : string :=
  let dsn := TrimSpace (getenv "WARDEN_AUDIT_DATABASE_URL") in
  if String.eqb dsn "" then TrimSpace (getenv "DATABASE_URL") else dsn.
Definition buildAudit (jsonlPath : string) : result (Logger W) :=
  let sinks := [Some (NewJSONLLogger jsonlPath); Some SlogSink] in
  let u := TrimSpace (getenv "WARDEN_AUDIT_URL") in
  let sinks := sinks ++
    (if negb (String.eqb u "") then [Some (HTTPSink u (getenv "WARDEN_AUDIT_TOKEN"))] else []) in
  if negb (String.eqb audit_dsn "") then
    let? sink := OpenPostgres audit_dsn in Ok (Fanout_Record (sinks ++ [Some sink]))
  else Ok (Fanout_Record sinks).
End Audit.
(** [OpenPostgres]; opening and pinging are arguments. *)
Definition OpenPostgres {D} (sqlOpen : string → result (statement → M D (option error)))
    (ping : string → option error) (now : Z) (dsn : string) : result (Logger (bool * D)) :=
  if String.eqb dsn "" then Err (New "audit postgres: empty DSN")
  else
    match sqlOpen dsn with
    | Err err => Err (Wrap "audit postgres: " err "")
    | Ok exec =>
      match ping dsn with
      | Some err => Err (Wrap "audit postgres ping: " err "")
      | None => Ok (SQLSink_Record (Some (StdSQL_ExecContext (Some exec))) true now)
      end
    end.

(** ** The state of the process *)

(** The two backends, the verifier's keys, and the database sink's flag.  What
    is outside is the host of the Firecracker backend, with the counter of the
    network factory. *)
Record process (Y : Type) := mkProcess {
  pr_stub : stub_world; pr_fc : Firecracker.world (Z * Y); pr_keys : key_cache; pr_sql : bool
}.
Arguments mkProcess {Y}. Arguments pr_stub {Y}. Arguments pr_fc {Y}. Arguments pr_keys {Y}.
Arguments pr_sql {Y}.
Section Parts.
Context {Y : Type}.
Implicit Types p : process Y.
Definition set_stub s p : process Y := mkProcess s (pr_fc p) (pr_keys p) (pr_sql p).
Definition set_fc f p : process Y := mkProcess (pr_stub p) f (pr_keys p) (pr_sql p).
Definition outer p : GoFS.host (Z * Y) := hw (pr_fc p).
Definition set_outer h p : process Y := set_fc (set_host h (pr_fc p)) p.
Definition key_part p : key_cache * GoFS.host (Z * Y) := (pr_keys p, outer p).
Definition set_keys (k : key_cache * GoFS.host (Z * Y)) p : process Y :=
  mkProcess (pr_stub p) (set_host k.2 (pr_fc p)) k.1 (pr_sql p).
Definition sql_part p : bool * GoFS.host (Z * Y) := (pr_sql p, outer p).
Definition set_sql (k : bool * GoFS.host (Z * Y)) p : process Y :=
  mkProcess (pr_stub p) (set_host k.2 (pr_fc p)) (pr_keys p) k.1.
End Parts.

(** ** What the process is given *)
Record platform (Y C : Type) := mkPlatform {
  getenv : string → string;
  os : kernel (Z * Y);
  ctx_err : context → option error;
  (** encoding/json *)
  json_profile : string → Profile → result Profile;
  json_seccomp : string → SeccompProfile → result SeccompProfile;
  json_policy : string → Policy → result Policy;
  json_config : string → FcConfig.Config → result FcConfig.Config;
  json_record : string → result Record_; json_of_record : Record_ → result string;
  json_of_event : Event → result string;
  (** cgroups and the network of the host *)
  cgroupfs : Cgroup.host (GoFS.host (Z * Y)); map_order : gmap Z Z → nat → list (Z * Z);
  CombinedOutput : option string → string → list string → M (GoFS.host (Z * Y)) (string * option error);
  lookupIP : string → result (list ip);
  (** what a pool of disks has ready *)
  pool_receive : Pool.FilePool → M (GoFS.host (Z * Y)) (option string);
  selects : context → gworld (process Y) → selection;
  (** TLS and tokens *)
  LoadX509KeyPair : string → string → result C; AppendCertsFromPEM : string → bool;
  wall : M (GoFS.host (Z * Y)) Z;
  http_get : string → M (GoFS.host (Z * Y)) (result (Z * (string * error)));
  json_header : string → option jwtHeader; json_claims : string → option jwtClaims;
  json_jwks : string * error → result (list jwk); VerifyPKCS1v15 : PublicKey → list Z → list Z → bool;
  (** the sinks *)
  jsonl_file : log_file (GoFS.host (Z * Y)); start_time : Z;
  slog_info : string → list (string * attr) → M (GoFS.host (Z * Y)) unit;
  new_post : string → option error; http_post : post → M (GoFS.host (Z * Y)) (result Z);
  sql_open : string → result (statement → M (GoFS.host (Z * Y)) (option error)); sql_ping : string → option error
}.
Arguments getenv {Y C}. Arguments os {Y C}. Arguments ctx_err {Y C}. Arguments json_profile {Y C}.
Arguments json_seccomp {Y C}. Arguments json_policy {Y C}. Arguments json_config {Y C}.
Arguments json_record {Y C}. Arguments json_of_record {Y C}. Arguments json_of_event {Y C}.
Arguments cgroupfs {Y C}. Arguments map_order {Y C}. Arguments CombinedOutput {Y C}.
Arguments lookupIP {Y C}. Arguments pool_receive {Y C}. Arguments selects {Y C}.
Arguments LoadX509KeyPair {Y C}. Arguments AppendCertsFromPEM {Y C}. Arguments wall {Y C}.
Arguments http_get {Y C}. Arguments json_header {Y C}. Arguments json_claims {Y C}.
Arguments json_jwks {Y C}. Arguments VerifyPKCS1v15 {Y C}. Arguments jsonl_file {Y C}.
Arguments start_time {Y C}. Arguments slog_info {Y C}. Arguments new_post {Y C}. Arguments http_post {Y C}.
Arguments sql_open {Y C}. Arguments sql_ping {Y C}.

(** ** [run] *)
Section Run.
Context {Y C : Type} (pl : platform Y C).
Notation X := (Z * Y)%type.
Notation W := (gworld (process Y)).
Notation env := (getenv pl).

(** The world outside, from the whole of the process. *)
Definition outside {A} (m : M (GoFS.host X) A) : M W A := on_inner (zoom outer set_outer m).
Definition sink_outside (l : Logger (GoFS.host X)) : Logger W := λ ev, outside (l ev).

(** The files as they are at start-up; a read returns ([GoFS.returns_ReadFile]). *)
Definition file (d : fs) (p : string) : result string :=
  match GoFS.ReadFile (k_fault (os pl)) p d with (Ret r, _) => r | (Panic v, _) => Err (New v) | (Blocked, _) => Err (New "blocked") end.
Definition fc_config (d : fs) (path : string) : result FcConfig.Config :=
  match LoadConfig env (k_fault (os pl)) (json_config pl) path d with
  | (Ret r, _) => r | (Panic v, _) => Err (New v) | (Blocked, _) => Err (New "blocked")
  end.

(** A snapshot store on the disk of the host. *)
Definition NewDirStore (root : string) : Store (GoFS.host X) :=
  hosted (DirStore (k_fault (os pl)) (json_of_record pl) (json_record pl) (start_time pl) root).

Definition stub_backend : Runtime.Runtime (process Y) := lift_runtime pr_stub set_stub (NewStub (ctx_err pl)).
Definition fc_backend (cfg : FcConfig.Config) (parts : Parts X) : Runtime.Runtime (process Y) :=
  lift_runtime pr_fc set_fc
    (NewFirecrackerWithConfig (os pl) NewDirStore
       (PoolRuntime.NewFilePool (k_fault (os pl)) (k_cp (os pl)) (pool_receive pl)) cfg parts).

(** The parts that [run] adds to the settings of the Firecracker backend. *)
Definition fc_parts (cfg : FcConfig.Config) : FcConfig.Config * Parts X :=
  let cgroup := mkCgroup (env_is env "WARDEN_CGROUP_REQUIRED" "1") "" "" in
  let tap := mkTAP None (lookupIP pl) ""
    (env_is env "WARDEN_NET_SUDO" "1" || env_is env "WARDEN_JAILER_SUDO" "1") in
  let pool := if env_is env "WARDEN_ROOTFS_POOL" "0" then 0
              else if RootfsPoolSize cfg <=? 0 then 2 else RootfsPoolSize cfg in
  (FcConfig.mkConfig (Binary cfg) (Kernel cfg) (Rootfs cfg) (WorkDir cfg) (BootArgs cfg) (AgentPort cfg)
     (BootTimeout cfg) (VCPUCount cfg) (Jailer cfg) (JailerUID cfg) (JailerGID cfg) (JailerSudo cfg)
     (JailerCgroup cfg) (NewPIDNS cfg) (SnapshotDir cfg) pool,
   mkParts (Some (tap_factory (CombinedOutput pl) (k_ip (os pl)) tap))
     (Some (Attach (cgroupfs pl) (map_order pl) cgroup))
     (if negb (String.eqb (SnapshotDir cfg) "") then Some (NewDirStore (SnapshotDir cfg)) else None) None).
Definition backend_of (d : fs) (cfgDir backend : string) : result (Runtime.Runtime (process Y)) :=
  let? rt := New_runtime stub_backend (λ cfg, fc_backend cfg (mkParts None None None None)) env
               (fc_config d) backend in
  if String.eqb backend "firecracker" then
    match fc_config d (path_join [cfgDir; "firecracker.json"]) with
    | Err err => Err (Wrap "load firecracker config: " err "")
    | Ok cfg => let '(cfg, parts) := fc_parts cfg in Ok (fc_backend cfg parts)
    end
  else Ok rt.

(** The verifier, when a URL is given. *)
Definition verifier : option JWTVerifier :=
  let jwksURL := TrimSpace (env "WARDEN_JWT_JWKS") in
  if negb (String.eqb jwksURL "") then
    Some (mkVerifier jwksURL (env "WARDEN_JWT_ISSUER") (envOr env "WARDEN_JWT_AUDIENCE" "warden") 0)
  else None.
Definition valid_token (v : JWTVerifier) (token : string) : M W bool :=
  on_inner (zoom key_part set_keys
    (Valid (wall pl) (http_get pl) (json_header pl) (json_claims pl) (json_jwks pl) (VerifyPKCS1v15 pl)
       (Some v) token)).
Definition audit_log : result (Logger W) :=
  buildAudit env
    (λ path, sink_outside (JSONL_Record (json_of_event pl) (jsonl_file pl) (wall pl) path))
    (sink_outside (SlogSink_Record (slog_info pl)))
    (λ url token, sink_outside (HTTPSink_Record (json_of_event pl) (new_post pl) (http_post pl) url token))
    (λ dsn, let? sink := OpenPostgres (sql_open pl) (sql_ping pl) (start_time pl) dsn in
            Ok (λ ev, on_inner (zoom sql_part set_sql (sink ev))))
    (envOr env "WARDEN_AUDIT_LOG" "audit.jsonl").

(** What is served. *)
Record serving := mkServing {
  sv_cfg : Server.Config W; sv_deps : Dependencies W; sv_tls : option (tls_config C)
}.
Definition credentials (tls : option (tls_config C)) : auth_config W :=
  let requireAll := env_is env "WARDEN_AUTH_REQUIRE_ALL" "1" in
  mkAuth (TrimSpace (env "WARDEN_API_KEY")) (valid_token <$> verifier) (mtls_of tls) requireAll
    (negb requireAll).
Definition run (d : fs) : result serving :=
  let cfgDir := envOr env "WARDEN_CONFIG_DIR" "configs" in
  let listen := listenAddr env in
  let conf f := path_join [cfgDir; f] in
  match LoadProfile (file d) (json_profile pl) (conf "cgroups.json") with
  | Err err => Err (Wrap "load cgroups: " err "")
  | Ok limits =>
  match LoadSeccomp (file d) (json_seccomp pl) (conf "seccomp.json") with
  | Err err => Err (Wrap "load seccomp: " err "")
  | Ok seccomp =>
  match Load (file d) (json_policy pl) (conf "egress.json") with
  | Err err => Err (Wrap "load egress: " err "")
  | Ok netPolicy =>
  let? netFilter := NewStaticFilter netPolicy in
  let? rt := backend_of d cfgDir (envOr env "WARDEN_RUNTIME" "stub") in
  let wait := queueWait env in
  let rt := gated (NewGate true (maxVMs env) wait) (Some rt) (selects pl) in
  let? tls := LoadTLS (LoadX509KeyPair pl) (file d) (AppendCertsFromPEM pl)
                (mkTLSFiles (env "WARDEN_TLS_CERT") (env "WARDEN_TLS_KEY") (env "WARDEN_TLS_CLIENT_CA")) in
  let policy := mkAuthPolicy (TrimSpace (env "WARDEN_API_KEY")) (env_is env "WARDEN_ALLOW_ANON" "1")
                  (TrimSpace (env "WARDEN_JWT_JWKS")) (mtls_of tls) false false in
  match CheckBindPolicy listen policy with
  | Some err => Err err
  | None =>
  let? audit := audit_log in
  let base : Server.Config W := Server.DefaultConfig listen in
  Ok (mkServing
        (Server.mkConfig listen (credentials tls) (buildRateLimit env listen) (ReadTimeout base)
           (WriteTimeout base) (IdleTimeout base) (ShutdownTimeout base))
        (mkDeps rt (Some ProfileLimiter_Apply) limits seccomp netFilter (Some audit)
           (env_is env "WARDEN_AUDIT_STRICT" "1") (20 * Second) wait)
        tls)
  end end end end.
End Run.
