(* ===== verification/MainSpec.v ===== *)
(** * What a process that starts promises

    The start-up checks of [run] and the theorems on the parts, put together:
    with the settings that let the process start, for every environment. *)
From S2P Require Import Prelude GoUnicode GoStrings GoError GoNet GoPath GoTime GoFS Resources Policy.
From S2P Require Import Tap Snapshot FcConfig Jailer RateLimit Validate GoCrypto Jwt Auth Tls AuditTrail.
From S2P Require Import Runtime Gate GateRuntime Lift Server ServerSpec Cgroup Firecracker FirecrackerSpec Main.

Section Start.
Context {Y C : Type} (pl : platform Y C).
Notation W := (gworld (process Y)).
Notation env := (getenv pl).

(** ** The steps of a start that succeeds *)
Definition backend_name : string := envOr env "WARDEN_RUNTIME" "stub".
Definition bind_policy (tls : option (tls_config C)) : AuthPolicy :=
  mkAuthPolicy (TrimSpace (env "WARDEN_API_KEY")) (env_is env "WARDEN_ALLOW_ANON" "1")
    (TrimSpace (env "WARDEN_JWT_JWKS")) (mtls_of tls) false false.
Record started (d : fs) (s : serving) : Prop := {
  st_limits : constrains (d_Limits (sv_deps s));
  st_seccomp : fail_closed (d_Seccomp (sv_deps s));
  st_filter : NewStaticFilter (policy (d_Network (sv_deps s))) = Ok (d_Network (sv_deps s));
  st_limiter : d_Limiter (sv_deps s) = Some ProfileLimiter_Apply;
  st_audit : ∃ log, audit_log pl = Ok log ∧ d_Audit (sv_deps s) = Some log;
  st_runtime : ∃ rt, backend_of pl d (envOr env "WARDEN_CONFIG_DIR" "configs") backend_name = Ok rt ∧
    d_Runtime (sv_deps s) = gated (NewGate true (maxVMs env) (queueWait env)) (Some rt) (selects pl);
  st_addr : Addr (sv_cfg s) = listenAddr env;
  st_auth : auth (sv_cfg s) = credentials pl (sv_tls s);
  st_rate : Rate (sv_cfg s) = buildRateLimit env (listenAddr env);
  st_bind : CheckBindPolicy (listenAddr env) (bind_policy (sv_tls s)) = None
}.
Lemma LoadProfile_ok rf dec p limits : LoadProfile rf dec p = Ok limits → constrains limits.
Proof.
  unfold LoadProfile. intros (x & _ & H)%res_bind_Ok. destruct (Profile_Validate x) eqn:E; [done|].
  injection H as <-. by apply Profile_Validate_spec.
Qed.
Lemma LoadSeccomp_ok rf dec p s : LoadSeccomp rf dec p = Ok s → fail_closed s.
Proof.
  unfold LoadSeccomp. intros (x & _ & H)%res_bind_Ok. destruct (Seccomp_Validate x) eqn:E; [done|].
  injection H as <-. by apply Seccomp_Validate_spec.
Qed.
Lemma run_started d s : run pl d = Ok s → started d s.
Proof.
  unfold run. destruct (LoadProfile _ _ _) as [limits|] eqn:El; [|done].
  destruct (LoadSeccomp _ _ _) as [seccomp|] eqn:Es; [|done].
  destruct (Policy.Load _ _ _) as [pol|]; [|done].
  intros (f & Ef & (rt & Ert & (tls & _ & H)%res_bind_Ok)%res_bind_Ok)%res_bind_Ok.
  cbv zeta in H. destruct (CheckBindPolicy _ _) eqn:Eb; [done|].
  apply res_bind_Ok in H as (log & Elog & [= <-]).
  split; cbn; try done.
  - by eapply LoadProfile_ok.
  - by eapply LoadSeccomp_ok.
  - unfold NewStaticFilter in *. destruct (Policy_Validate pol) eqn:Ev; [done|]. injection Ef as <-. cbn.
    by rewrite Ev.
  - by exists log.
  - by exists rt.
Qed.

(** ** Who may call *)
Lemma CheckBindPolicy_None addr p :
  CheckBindPolicy addr p = None → isLoopbackAddr addr = false →
  ap_AllowAnon p = true ∨ TrimSpace (ap_APIKey p) ≠ "" ∨ TrimSpace (ap_JWKSURL p) ≠ "" ∨ ap_MTLS p = true.
Proof.
  unfold CheckBindPolicy. intros H Hl. rewrite Hl in H.
  destruct (ap_AllowAnon p); [by left|]. destruct (String.eqb_spec (TrimSpace (ap_APIKey p)) ""); [|by right; left].
  destruct (String.eqb_spec (TrimSpace (ap_JWKSURL p)) ""); [|by right; right; left].
  destruct (ap_MTLS p); [by repeat right|done].
Qed.

(** Who is let in on a public address has presented a credential. *)
Lemma let_in_with_credential d s r w m cn w' :
  run pl d = Ok s →
  isLoopbackAddr (listenAddr env) = false → env "WARDEN_ALLOW_ANON" ≠ "1" →
  handshaken (sv_tls s) r →
  authorize (auth (sv_cfg s)) r w = (Ret (m, cn, true), w') →
  key_presented (auth (sv_cfg s)) r ∨
  (∃ v, verifier pl = Some v ∧ valid_token pl v (tokenFromRequest r) w = (Ret true, w')) ∨
  cert_presented r.
Proof.
  intros Hs%run_started Hl Ha Hh H. rewrite (st_auth d s Hs) in *.
  apply authorize_inv in H as (j & Hj & Hok). destruct Hok as [Hok _]. specialize (Hok eq_refl).
  assert (j = true → ∃ v, verifier pl = Some v ∧ valid_token pl v (tokenFromRequest r) w = (Ret true, w')) as Hjwt.
  { intros ->. unfold jwt_verdict in Hj. cbn [JWT credentials] in Hj. destruct (verifier pl) as [v|]; [|done].
    cbn in Hj. exists v. split; [done|]. destruct (looksLikeJWT _); [exact Hj|done]. }
  destruct (CheckBindPolicy_None _ _ (st_bind d s Hs) Hl) as [Hb|[Hb|[Hb|Hb]]];
    cbn [ap_AllowAnon ap_APIKey ap_JWKSURL ap_MTLS bind_policy] in Hb.
  - unfold env_is in Hb. by apply String.eqb_eq in Hb.
  - rewrite TrimSpace_idemp in Hb. unfold authorized in Hok. cbn [APIKey JWT RequireAll credentials] in Hok.
    apply String.eqb_neq in Hb as Hbe. rewrite Hbe in Hok. cbn [andb] in Hok. destruct (env_is _ _ _); [left; by apply Hok|].
    destruct Hok as [?|[?|[? _]]]; auto.
  - rewrite TrimSpace_idemp in Hb. unfold authorized in Hok. cbn [APIKey JWT RequireAll credentials] in Hok.
    assert (∃ v, verifier pl = Some v) as [v Hv].
    { unfold verifier. apply String.eqb_neq in Hb as ->. by eexists. }
    rewrite Hv in Hok. cbn [fmap option_fmap option_map isSome negb] in Hok. rewrite andb_false_r in Hok.
    destruct (env_is _ _ _); [right; left; by apply Hjwt, Hok|]. destruct Hok as [?|[?|[? _]]]; auto.
  - right. right. by eapply handshaken_cert.
Qed.

(** ** The settings *)
Lemma buildRateLimit_spec listen :
  (∀ r, buildRateLimit env listen = Some r → 0 < RateLimit.Limit r ∧ 0 < Window r) ∧
  (TrimSpace (env "WARDEN_RATE_LIMIT") = "" →
     (buildRateLimit env listen = None ↔ isLoopbackAddr listen = true) ∧
     ∀ r, buildRateLimit env listen = Some r → RateLimit.Limit r = 60).
Proof.
  unfold buildRateLimit. cbv zeta. split.
  - set (l := if negb _ then Sscanf_d _ _ else _). intros r. destruct (Z.leb_spec l 0); [done|]. intros [= <-].
    cbn. split; [done|]. case_match; bool_prop; unfold minute in *; lia.
  - intros ->. cbn [String.eqb negb]. destruct (isLoopbackAddr listen); cbn; [done|]. split; [done|].
    by intros r [= <-].
Qed.

(** C37 (functional): a process that starts has checked all it goes by: limits
    that constrain, a seccomp profile and an egress policy that fail closed, the
    limiter of production, an audit log, at least one and at most as many
    machines as configured, and no rate limit but a positive one, which is 60
    per window on a public address if nothing else was said. *)
Theorem start_validated d s :
  run pl d = Ok s →
  constrains (d_Limits (sv_deps s)) ∧ fail_closed (d_Seccomp (sv_deps s)) ∧
  closed_policy (policy (d_Network (sv_deps s))) ∧
  d_Limiter (sv_deps s) = Some ProfileLimiter_Apply ∧ (∃ log, d_Audit (sv_deps s) = Some log) ∧
  (∃ rt, d_Runtime (sv_deps s) = gated (NewGate true (maxVMs env) (queueWait env)) (Some rt) (selects pl) ∧
     1 <= Max (NewGate true (maxVMs env) (queueWait env))) ∧
  (∀ r, Rate (sv_cfg s) = Some r → 0 < RateLimit.Limit r ∧ 0 < Window r) ∧
  (TrimSpace (env "WARDEN_RATE_LIMIT") = "" → isLoopbackAddr (Addr (sv_cfg s)) = false →
     ∃ r, Rate (sv_cfg s) = Some r ∧ RateLimit.Limit r = 60).
Proof.
  intros H%run_started. destruct (buildRateLimit_spec (listenAddr env)) as [Hr Hd]. split_and!.
  - apply H.
  - apply H.
  - apply Policy_Validate_spec. pose proof (st_filter d s H) as Hf. unfold NewStaticFilter in Hf.
    by destruct (Policy_Validate _).
  - apply H.
  - destruct (st_audit d s H) as (log & _ & ?). by exists log.
  - destruct (st_runtime d s H) as (rt & _ & ->). exists rt. split; [done|]. apply NewGate_Max.
  - rewrite (st_rate d s H). exact Hr.
  - rewrite (st_rate d s H), (st_addr d s H). intros Hb Hl. destruct (Hd Hb) as [Hn Hv].
    destruct (buildRateLimit env (listenAddr env)) as [r|]; [by exists r; split; [|apply Hv]|].
    exfalso. assert (isLoopbackAddr (listenAddr env) = true) by by apply Hn. congruence.
Qed.

(** ** What requests leave behind *)

(** No machine of either backend came, went, or was destroyed. *)
Definition same_machines (w w' : W) : Prop :=
  pr_stub (within_gate w') = pr_stub (within_gate w) ∧ aside (pr_fc (within_gate w)) (pr_fc (within_gate w')).
#[export] Instance same_machines_preorder : PreOrder same_machines.
Proof.
  unfold same_machines. split; [done|]. intros x y z [H1 H2] [H3 H4]. split; [by rewrite H3|by etrans].
Qed.
Lemma outside_same {A} (m : M (GoFS.host (Z * Y)) A) : respects same_machines (Main.outside m).
Proof. intros w. unfold Main.outside, on_inner, zoom. destruct (m _). by split. Qed.
Lemma keys_same {A} (m : M (key_cache * GoFS.host (Z * Y)) A) :
  respects same_machines (on_inner (zoom key_part set_keys m)).
Proof. intros w. unfold on_inner, zoom. destruct (m _). by split. Qed.
Lemma sql_same {A} (m : M (bool * GoFS.host (Z * Y)) A) :
  respects same_machines (on_inner (zoom sql_part set_sql m)).
Proof. intros w. unfold on_inner, zoom. destruct (m _). by split. Qed.
Hint Resolve outside_same keys_same sql_same : go.

Lemma fan_loop_same (sinks : list (option (Logger W))) ev errs :
  (∀ l ev, Some l ∈ sinks → respects same_machines (l ev)) → respects same_machines (fan_loop sinks ev errs).
Proof.
  revert errs. induction sinks as [|[l|] sinks IH]; intros errs H; cbn [fan_loop]; [auto with go| |].
  - resp_bind; [apply H; by left|]. intros e. apply IH. intros l' ev' Hl. apply H. by right.
  - apply IH. intros l' ev' Hl. apply H. by right.
Qed.
Lemma audit_log_same log ev : audit_log pl = Ok log → respects same_machines (log ev).
Proof.
  unfold audit_log, buildAudit. intros H.
  assert (∃ sinks, log = Fanout_Record sinks ∧ ∀ l ev, Some l ∈ sinks → respects same_machines (l ev))
    as (sinks & -> & Hs).
  { destruct (negb (String.eqb (audit_dsn env) "")).
    - apply res_bind_Ok in H as (sink & Hsink & [= <-]). eexists. split; [done|].
      apply res_bind_Ok in Hsink as (sq & _ & [= <-]). intros l ev'.
      case_match; cbn [app]; rewrite !elem_of_cons, elem_of_nil;
        (intros Hl; decompose [or] Hl; [..|done]); simplify_eq; unfold sink_outside; auto with go.
    - injection H as <-. eexists. split; [done|]. intros l ev'.
      case_match; cbn [app]; rewrite !elem_of_cons, elem_of_nil;
        (intros Hl; decompose [or] Hl; [..|done]); simplify_eq; unfold sink_outside; auto with go. }
  unfold Fanout_Record. resp_bind; [by apply fan_loop_same|auto with go].
Qed.

Lemma backend_of_cases d dir b rt :
  backend_of pl d dir b = Ok rt →
  (b = "firecracker" ∧ ∃ cfg, rt = fc_backend pl (fc_parts pl cfg).1 (fc_parts pl cfg).2) ∨
  (b ≠ "firecracker" ∧ rt = stub_backend pl).
Proof.
  unfold backend_of. intros (rt0 & E & H)%res_bind_Ok. destruct (String.eqb_spec b "firecracker") as [->|Hb].
  - left. split; [done|]. destruct (fc_config pl d _) as [cfg|]; [|done]. exists cfg.
    destruct (fc_parts pl cfg) as [c ps]. by injection H as <-.
  - right. split; [done|]. injection H as <-. revert E. unfold New_runtime.
    destruct (_ || _); [by intros [= <-]|]. by apply String.eqb_neq in Hb as ->.
Qed.
End Start.

Section Requests.
Context {Y C : Type} (pl : platform Y C) (e : Server.env (gworld (process Y))).
Notation W := (gworld (process Y)).
Notation env := (getenv pl).

(** The host answers while a machine runs, and the clock, the random numbers and
    the other paths of the server start and end no machine. *)
Hypothesis Hos : dependable (os pl) (mkParts None None None None).
Hypothesis Hcgroup : host_returns (cgroupfs pl).
Hypothesis Hclock : respects same_machines (clock e).
Hypothesis Hrand : respects same_machines (rand e).
Hypothesis Hother : ∀ r, respects (on_ext_rel same_machines) (serve_other e r).

Lemma NewDirStore_ends root :
  (∀ id vm, ends (st_Prepare (NewDirStore pl root) id vm)) ∧ ∀ rec, ends (st_Commit (NewDirStore pl root) rec).
Proof.
  split; intros; cbn; apply ends_on_disk, ends_returns; [apply returns_Prepare|apply returns_Commit].
Qed.
Lemma parts_dependable cfg parts :
  p_Cgroup parts = p_Cgroup (fc_parts pl cfg).2 →
  (∀ store, p_Snapshots parts = Some store → ∃ root, store = NewDirStore pl root) → dependable (os pl) parts.
Proof.
  intros Hp Hst. destruct Hos. split; try done.
  - intros attach id pid limits. rewrite Hp. intros [= <-]. by apply Attach_returns.
  - intros store [root ->]%Hst. apply NewDirStore_ends.
Qed.
Lemma fc_settings cfg :
  ∃ c parts, fc_backend pl (fc_parts pl cfg).1 (fc_parts pl cfg).2 =
    lift_runtime pr_fc set_fc (Firecracker (os pl) c parts) ∧ p_Cgroup parts = p_Cgroup (fc_parts pl cfg).2 ∧
    ∀ store, p_Snapshots parts = Some store → ∃ root, store = NewDirStore pl root.
Proof.
  unfold fc_backend, NewFirecrackerWithConfig. eexists _, _. split_and!; [reflexivity|reflexivity|].
  cbn [p_Snapshots fc_parts snd]. intros store. repeat case_match; intros [= <-]; simplify_eq; by eexists.
Qed.

Section Calm.
Context (d : fs) (s : serving) (Hs : started pl d s).
Context (rt : Runtime.Runtime (process Y)) `{HV : !VMs rt}.
Notation gate := (gated (NewGate true (maxVMs env) (queueWait env)) (Some rt) (selects pl)).
Context (Hrt : d_Runtime (sv_deps s) = gate).
Hypothesis Hsame : ∀ w w' : W, same_machines w w' → same_vms rt (within_gate w) (within_gate w').
Hypothesis Hready : ∀ ready, Ready rt = Some ready → respects (same_vms rt) ready.

Definition served_deps : Dependencies W :=
  mkDeps gate (d_Limiter (sv_deps s)) (d_Limits (sv_deps s)) (d_Seccomp (sv_deps s)) (d_Network (sv_deps s))
    (d_Audit (sv_deps s)) (d_AuditStrict (sv_deps s)) (d_BootTimeout (sv_deps s)) (d_QueueWait (sv_deps s)).
Lemma served_deps_eq : sv_deps s = served_deps.
Proof. unfold served_deps. rewrite <- Hrt. by destruct (sv_deps s). Qed.
Lemma same_calm {A} (m : M W A) : respects same_machines m → respects (same_vms gate) m.
Proof. intros Hm w. apply (Hsame _ _ (Hm w)). Qed.
Lemma process_apart : apart e (sv_cfg s) served_deps.
Proof.
  split.
  - by apply same_calm.
  - by apply same_calm.
  - intros record ev Hr. apply same_calm. destruct (st_audit pl d s Hs) as (log & Hl & Hd).
    cbn in Hr. rewrite Hd in Hr. injection Hr as <-. by eapply audit_log_same.
  - intros valid tok. rewrite (st_auth pl d s Hs). cbn. destruct (verifier pl) as [v|]; [|done].
    intros [= <-]. apply same_calm, keys_same.
  - cbn. intros ready [= <-]. unfold gate_Ready. cbn. destruct (Ready rt) as [m|] eqn:Er; [|auto with go].
    intros w. unfold on_inner. pose proof (Hready m eq_refl (within_gate w)) as H. by destruct (m (within_gate w)).
  - intros r w. specialize (Hother r w). unfold on_ext_rel in *. by apply Hsame.
Qed.
Lemma process_calm r w :
  same_vms rt (within_gate (ext w)) (within_gate (ext (middleware e (sv_cfg s) (sv_deps s) r w).2)).
Proof. rewrite served_deps_eq. apply (middleware_calm e (sv_cfg s) served_deps process_apart r w). Qed.
End Calm.

(** C2 (invariant): whatever the environment and the files say, a process that
    starts leaks no machine: after any request, also one that panics or waits for
    ever, the VMM processes on Firecracker that run and were sent no signal are
    those of before (another one was seen to end or sent a SIGKILL, and if that
    was refused it is recorded with the error), and on the stub the live
    instances are those of before.  The server, the gate, the backend with its
    cgroups and its network, the token verifier and the audit sinks are the ones
    that [run] puts together. *)
Theorem process_leaks_nothing d s r w :
  run pl d = Ok s →
  let before := within_gate (ext w) in
  let after := within_gate (ext (middleware e (sv_cfg s) (sv_deps s) r w).2) in
  (backend_name pl = "firecracker" →
     (∀ n, is_dead (pr_fc before) n = true → vmms (pr_fc before) !! n ≠ Some Running) →
     (∀ n, vmms (pr_fc after) !! n = Some Running ↔ vmms (pr_fc before) !! n = Some Running) ∧
     ∀ n, is_dead (pr_fc after) n = true → vmms (pr_fc after) !! n ≠ Some Running) ∧
  (backend_name pl ≠ "firecracker" → alive (pr_stub after) = alive (pr_stub before)).
Proof.
  intros Hs%run_started. cbv zeta. destruct (st_runtime pl d s Hs) as (rt & Hb & Hrt).
  apply backend_of_cases in Hb as [[Hn (cfg & ->)]|[Hn ->]]; (split; [intros Hn'; try done|intros Hn'; try done]).
  - destruct (fc_settings cfg) as (c & parts & Ert & Hp & Hst). rewrite Ert in Hrt.
    pose proof (parts_dependable cfg parts Hp Hst) as Hdep. intros Hinv.
    destruct (process_calm d s Hs _ (HV := lifted_VMs pr_fc set_fc (λ _ _, eq_refl) _ (HV := fc_VMs _ c parts Hdep)) Hrt)
      with (r := r) (w := w) as [Hd Hv]; [..|exact Hinv|].
    + intros w1 w2 [_ [Hv Hc]] Hi. cbn in *. rewrite Hv. split; [|done]. intros n. unfold is_dead. rewrite Hc. apply Hi.
    + intros ready [= <-] p Hi. cbn. unfold zoom. pose proof (on_host_aside
        (on_disk (Config_Validate (k_fault (os pl)) c)) (pr_fc p)) as [Hv Hc].
      destruct (on_host _ (pr_fc p)) as [o f]. cbn in *. rewrite Hv. split; [|done].
      intros n. unfold is_dead. rewrite Hc. apply Hi.
    + split; [|exact Hd]. intros n. cbn in Hv. by rewrite <- !elem_of_live, Hv.
  - destruct (process_calm d s Hs _ (HV := lifted_VMs pr_stub set_stub (λ _ _, eq_refl) _
      (HV := stub_VMs (ctx_err pl))) Hrt) with (r := r) (w := w) as [_ Hv]; [..|exact I|exact Hv].
    + intros w1 w2 [Hst _] _. cbn. by rewrite Hst.
    + intros ready [= <-] p _. done.
Qed.

(** C3 (safety): a process that listens on a public address does nothing for a
    caller without a credential, unless it was told to: whatever else is
    configured, a request (other than the health probe) that presents neither
    the API key, nor a token that the configured verifier accepts, nor a client
    certificate that the handshake has verified, is answered 401; the verifier
    was asked, the audit log gets its event, and beyond that nothing at all has
    changed: no machine, and no slot of the rate limit.  The check at start-up
    and the check of each request agree on what a credential is. *)
Theorem public_bind_authenticated d s r w id x0 j x1 a x2 :
  run pl d = Ok s →
  isLoopbackAddr (listenAddr env) = false → env "WARDEN_ALLOW_ANON" ≠ "1" →
  handshaken (sv_tls s) (http r) → Path (http r) ≠ "/health" → rw w = resp_init →
  name_request e r (ext w) = (Ret id, x0) →
  jwt_verdict (auth (sv_cfg s)) (http r) x0 = (Ret j, x1) →
  ¬ key_presented (auth (sv_cfg s)) (http r) →
  (∀ v, verifier pl = Some v → valid_token pl v (tokenFromRequest (http r)) x0 ≠ (Ret true, x1)) →
  ¬ cert_presented (http r) →
  recordAudit (sv_deps s) (mkCtx id "" "") (mkRequest "" "" 0 "") id Result0 0
    (Some (Sentinel ErrUnauthorized)) x1 = (Ret a, x2) →
  middleware e (sv_cfg s) (sv_deps s) r w =
    (Ret tt, Server.mkWorld x2 (rate_hits w)
               (reply id 401 (BError (mkErrorBody "unauthorized" CodeUnauthorized id))) 401) ∧
  same_machines (ext w) x2.
Proof.
  intros Hrun Hl Ha Hh Hp Hw Hn Hj Hk Ht Hc Hau. split.
  - destruct (authorize_after_verdict _ _ _ _ _ Hj) as (m & ok & Ea & _).
    destruct ok; [|by eapply refused_run].
    eapply let_in_with_credential in Ea; [|done..]. destruct Ea as [?|[(v & Hv & ?)|?]]; [done|by edestruct Ht|done].
  - apply run_started in Hrun as Hs. etrans; [|etrans].
    + assert (respects same_machines (name_request e r)) as H.
      { unfold name_request. case_match; [|auto with go]. unfold newRequestID. resp_bind; auto with go. }
      specialize (H (ext w)). by rewrite Hn in H.
    + assert (respects same_machines (jwt_verdict (auth (sv_cfg s)) (http r))) as H; [|specialize (H x0); by rewrite Hj in H].
      unfold jwt_verdict. rewrite (st_auth pl d s Hs). cbn [JWT credentials].
      destruct (verifier pl) as [v|]; cbn; [|auto with go]. case_match; [|auto with go]. apply keys_same.
    + unfold recordAudit in Hau. destruct (st_audit pl d s Hs) as (log & Hlog & Hd). rewrite Hd in Hau.
      match type of Hau with log ?ev _ = _ => pose proof (audit_log_same pl log ev Hlog x1) as H end.
      by rewrite Hau in H.
Qed.
End Requests.

(** ** The paths of a session *)
Section Paths.
Context {Y C : Type} (pl : platform Y C).

Lemma sys_inst {X A} (m : M (GoFS.host X) A) s o s' : sys m s = (o, s') → s'.2 = s.2.
Proof. unfold sys, on_world. destruct (on_host m s.1). by intros [= _ <-]. Qed.
Lemma Prepare_paths fault root sess vm h rec h' :
  Snapshot.Prepare fault root sess vm h = (Ret (Ok rec), h') →
  IsAbs (RootfsPath rec) = IsAbs root ∧ IsAbs (SnapshotPath rec) = IsAbs root ∧
  IsAbs (MemoryPath rec) = IsAbs root ∧ RootfsPath rec ≠ "".
Proof.
  unfold Snapshot.Prepare. destruct (sessionDir root sess) as [dir|] eqn:E; [|done].
  apply sessionDir_spec in E as (He & Hr & ->). rewrite <- path_join_element by done. intros H. apply bind_inv_Ret in H as ([e|] & h1 & _ & H); [done|].
  injection H as <- <-. cbn [RootfsPath SnapshotPath MemoryPath].
  assert (path_join [root; sess] ≠ "") as Hd by by apply path_join_ne.
  split_and!; [..|by apply path_join_ne]; by rewrite !path_join_IsAbs by done.
Qed.

(** C40 (error): with a snapshot directory that is a relative path, as it is by
    default, the store that [run] makes names every file of a session by a
    relative path, and those of a machine without a jailer reach the VMM as they
    are, while it is started in the machine's own directory: it cannot find the
    disk it is told to use. *)
Theorem session_paths_relative cfg store sess vm h rec h' :
  IsAbs (SnapshotDir cfg) = false →
  p_Snapshots (fc_parts pl cfg).2 = Some store →
  st_Prepare store sess vm h = (Ret (Ok rec), h') →
  IsAbs (RootfsPath rec) = false ∧ IsAbs (SnapshotPath rec) = false ∧ IsAbs (MemoryPath rec) = false ∧
  ∀ c parts w i paths s', Jailer c = "" → i_snapRec i = Some rec →
    preparePaths (os pl) c parts (w, i) = (Ret (Ok paths), s') →
    guestRootfs paths = RootfsPath rec ∧
    ∀ cmd, spawnCmd (os pl) c s'.2 = Ok cmd → cmd_dir cmd = workDir (i_files i).
Proof.
  intros Ha. cbn [fc_parts p_Snapshots snd]. case_match; [|done]. intros [= <-] HP. cbn in HP. unfold on_disk in HP.
  destruct (Snapshot.Prepare _ _ _ _ h.1) as [o d] eqn:E. injection HP as -> _.
  apply Prepare_paths in E as (Hr & Hs & Hm & Hne). rewrite Ha in *. split_and!; [done..|].
  intros c parts w i paths s' Hj Hi Hp. unfold preparePaths, preparePathsFrom in Hp.
  apply bind_inv_Ret in Hp as (i' & s1 & [= <- <-] & Hp). cbn [snd] in Hp. rewrite Hj, Hi in Hp.
  apply String.eqb_neq in Hne. rewrite Hne in Hp. cbn [String.eqb negb] in Hp.
  apply bind_inv_Ret in Hp as ([copy|e] & s2 & Hc & Hp); [|done].
  apply bind_inv_Ret in Hc as ([e|] & s3 & Hmk%sys_inst & Hc); [done|].
  apply bind_inv_Ret in Hc as (u & s4 & [= _ <-] & [= <- <-]).
  apply bind_inv_Ret in Hp as ([e|] & s5 & Hpl & Hp); [done|].
  apply bind_inv_Ret in Hpl as (e5 & s5' & Hpl%sys_inst & [= _ <-]).
  apply bind_inv_Ret in Hp as ([e|] & s6 & Hwr & Hp); [done|].
  apply bind_inv_Ret in Hwr as (e6 & s6' & Hwr%sys_inst & [= _ <-]).
  apply bind_inv_Ret in Hp as (u' & s7 & [= _ <-] & Hp).
  apply bind_inv_Ret in Hp as (i' & s8 & [= <- <-] & [= <- <-]). split; [done|].
  assert (workDir (i_files s6'.2) = workDir (i_files i)) as Hw by (rewrite Hwr, Hpl; cbn; by rewrite Hmk).
  intros cmd. unfold spawnCmd. rewrite Hj. cbn [String.eqb negb]. rewrite <- Hw.
  intros Hcmd. match type of Hcmd with context [if ?b then _ else _] => destruct b end; by injection Hcmd as <-.
Qed.
End Paths.

(** ** Samples: a host on which everything works *)
Definition sample_env (vars : gmap string string) (k : string) : string := default "" (vars !! k).
Definition main_kernel : kernel (Z * list string) := sample_kernel_of (λ s x, (x.1, x.2 ++ [s])).
Definition sample_cgroupfs : Cgroup.host (GoFS.host (Z * list string)) :=
  Cgroup.mkHost (λ p, ret (Ok (if String.eqb p "/proc/self/cgroup" then "0::/warden" +:+ newline else "")))
    (λ _, ret (Ok [])) (λ _, ret None) (λ _ _, ret None) (λ _, ret None) (λ _, ret None).
(** A configuration file that turns the session store off. *)
Definition without_snapshots (c : FcConfig.Config) : FcConfig.Config :=
  FcConfig.mkConfig (Binary c) (Kernel c) (Rootfs c) (WorkDir c) (BootArgs c) (AgentPort c) (BootTimeout c)
    (VCPUCount c) (Jailer c) (JailerUID c) (JailerGID c) (JailerSudo c) (JailerCgroup c) (NewPIDNS c) ""
    (RootfsPoolSize c).
Definition sample_platform (vars : gmap string string) : platform (list string) unit := {|
  getenv := sample_env vars; os := main_kernel; ctx_err _ := None;
  json_profile _ _ := Ok DefaultProfile;
  json_seccomp _ _ := Ok (mkSeccomp "SCMP_ACT_ERRNO" [] [mkSyscall "SCMP_ACT_ALLOW" ["read"]]);
  json_policy _ p := Ok p; json_config _ c := Ok (without_snapshots c);
  json_record _ := Err (New "json"); json_of_record _ := Ok "{}"; json_of_event ev := Ok (ev_RequestID ev);
  cgroupfs := sample_cgroupfs; map_order _ _ := [];
  CombinedOutput _ _ _ := ret (String.EmptyString, None); lookupIP _ := Err (New "dns");
  pool_receive _ := ret None; selects _ _ := TakeSlot;
  LoadX509KeyPair _ _ := Ok tt; AppendCertsFromPEM _ := true;
  wall := ret 0; http_get _ := ret (Err (New "no network")); json_header _ := None; json_claims _ := None;
  json_jwks _ := Err (New "json"); VerifyPKCS1v15 _ _ _ := false;
  jsonl_file := mkLogFile (λ _, ret None) (λ _, ret None) (ret None); start_time := 0;
  slog_info _ _ := ret tt; new_post _ := None; http_post _ := ret (Ok 200);
  sql_open _ := Err (New "no database"); sql_ping _ := None
|}.
Definition configured_disk : fs :=
  {["configs/cgroups.json" := Regular "{}"; "configs/seccomp.json" := Regular "{}";
    "configs/egress.json" := Regular "{}"; "configs/firecracker.json" := Regular "{}"; "/srv/assets/firecracker" := Regular "elf";
    "/srv/assets/vmlinux" := Regular "kernel"; "/srv/assets/rootfs.ext4" := Regular "disk"]}.
Definition public_vars : gmap string string :=
  {["WARDEN_ADDR" := "0.0.0.0:8080"; "WARDEN_API_KEY" := "k"; "WARDEN_RUNTIME" := "firecracker";
    "WARDEN_CGROUP_REQUIRED" := "1"]}.
Definition nothing_served {Y C} : serving (Y:=Y) (C:=C) :=
  mkServing (Server.DefaultConfig "")
    (mkDeps (mkRuntime (λ _ _, panic "") "" None) None DefaultProfile (mkSeccomp "" [] []) (mkFilter Default)
       None false 0 0) None.
Definition served (pl : platform (list string) unit) : serving :=
  match run pl configured_disk with Ok s => s | Err _ => nothing_served end.
Lemma served_ok pl : is_ok (run pl configured_disk) = true → run pl configured_disk = Ok (served pl).
Proof. unfold served. by destruct (run pl configured_disk). Qed.
Definition new_process : gworld (process (list string)) :=
  mkGW 0 [] (mkProcess (mkStub 0 []) (Firecracker.mkWorld (configured_disk, (0, [])) ∅ ∅ 0 2) (mkCache None 0) false).

Definition public_platform : platform (list string) unit := sample_platform public_vars.
(** A job on a public server, from the request to the guest and back. *)
Example process_end_to_end :
  let w' := (middleware (ServerSpec.sample_env _) (sv_cfg (served public_platform)) (sv_deps (served public_platform))
               (sample_post "k" "print(1)") (ServerSpec.fresh new_process)).2 in
  status_of (rw w') = 200 ∧ slots (ext w') = 0 ∧ leases (ext w') = [true] ∧
  vmms (pr_fc (within_gate (ext w'))) = ∅ ∧
  head (hw (pr_fc (within_gate (ext w')))).2.2 = Some "/srv/assets/firecracker --api-sock /srv/data/vms/fc-1/api.sock".
Proof. vm_compute. split_and!; reflexivity. Qed.
(** Without the key there is no server, and a caller without it gets 401. *)
Example process_refuses :
  run (sample_platform {["PORT" := "80"]}) configured_disk =
    Err (Wrap "" (Sentinel ErrAnonymousPublic) ": 0.0.0.0:80") ∧
  status_of (rw (middleware (ServerSpec.sample_env _) (sv_cfg (served public_platform))
    (sv_deps (served public_platform)) (sample_post "" "print(1)") (ServerSpec.fresh new_process)).2) = 401.
Proof. split; vm_compute; reflexivity. Qed.

Lemma start_validated_witness : ∃ r, Rate (sv_cfg (served public_platform)) = Some r ∧ RateLimit.Limit r = 60.
Proof.
  apply (start_validated public_platform configured_disk (served public_platform));
    [apply served_ok; vm_compute; reflexivity|vm_compute; reflexivity..].
Defined.
(** A call without the key. *)
Definition refused_call := middleware (ServerSpec.sample_env _) (sv_cfg (served public_platform))
  (sv_deps (served public_platform)) (sample_post "" "print(1)") (ServerSpec.fresh new_process).
Definition refusal_event := recordAudit (sv_deps (served public_platform)) (mkCtx zero_id "" "")
  (mkRequest "" "" 0 "") zero_id Result0 0 (Some (Sentinel ErrUnauthorized)) new_process.
Lemma served_public : run public_platform configured_disk = Ok (served public_platform).
Proof. apply served_ok. vm_compute. reflexivity. Qed.
Lemma public_bind_authenticated_witness :
  refused_call.1 = Ret tt ∧ status_of (rw refused_call.2) = 401 ∧ same_machines new_process (ext refused_call.2).
Proof.
  assert (match refusal_event.1 with Ret _ => true | _ => false end = true) as Ho by (vm_compute; reflexivity).
  destruct refusal_event as [[a|v|] x2] eqn:Ea; [|discriminate..].
  destruct (public_bind_authenticated public_platform (ServerSpec.sample_env _)) with
    (d := configured_disk) (s := served public_platform) (r := sample_post "" "print(1)")
    (w := ServerSpec.fresh new_process) (id := zero_id) (x0 := new_process) (j := false) (x1 := new_process)
    (a := a) (x2 := x2) as [E Hx].
  - intros w. done.
  - exact served_public.
  - vm_compute. reflexivity.
  - vm_compute. discriminate.
  - vm_compute. reflexivity.
  - discriminate.
  - reflexivity.
  - vm_compute. reflexivity.
  - vm_compute. reflexivity.
  - vm_compute. intros [_ H]. discriminate.
  - vm_compute. discriminate.
  - intros (cn & cns & H). discriminate H.
  - exact Ea.
  - unfold refused_call. rewrite E. split_and!; [reflexivity|vm_compute; reflexivity|exact Hx].
Defined.
Lemma process_leaks_nothing_witness :
  let after := within_gate (ext (middleware (ServerSpec.sample_env _) (sv_cfg (served public_platform))
    (sv_deps (served public_platform)) (sample_post "k" "print(1)") (ServerSpec.fresh new_process)).2) in
  is_dead (pr_fc after) 0 = true ∧ ∀ n, vmms (pr_fc after) !! n ≠ Some Running.
Proof.
  intros after. split; [vm_compute; reflexivity|].
  pose proof (λ H1 H2 H3 H4 H5, process_leaks_nothing public_platform (ServerSpec.sample_env _) H1 H2 H3 H4 H5
    configured_disk (served public_platform) (sample_post "k" "print(1)") (ServerSpec.fresh new_process)
    served_public) as H.
  cbv zeta in H. fold after in H. clearbody after.
  destruct H as [H _].
  - split; cbn; unfold noted; auto with go; discriminate.
  - split; intros; cbn; auto with go.
  - intros w. done.
  - intros w. done.
  - intros r. apply respects_write, _.
  - destruct H as [H _]; [vm_compute; reflexivity|by intros n|]. intros n. rewrite H. discriminate.
Defined.
Lemma session_paths_relative_witness :
  ∃ store rec h', p_Snapshots (fc_parts public_platform FcConfig.DefaultConfig).2 = Some store ∧
    st_Prepare store "s1" "fc-1" (∅, (0, [])) = (Ret (Ok rec), h') ∧
    RootfsPath rec = "data/snapshots/s1/rootfs.ext4" ∧ IsAbs (RootfsPath rec) = false.
Proof.
  eexists _, _, _. split; [reflexivity|]. split; [vm_compute; reflexivity|]. split; [reflexivity|].
  eapply (session_paths_relative public_platform FcConfig.DefaultConfig
    (NewDirStore public_platform "data/snapshots") "s1" "fc-1" (∅, (0, [])));
    [reflexivity|reflexivity|vm_compute; reflexivity].
Defined.
